(* ===== verification/_CoqProject ===== *)
-Q . S2P
Prelude.v
Json.v
Contracts.v
Errors.v
Persistence.v
Samples.v
ContractFacts.v
PersistenceFacts.v
StateMachine.v
Policy.v
Governance.v
GovernanceFacts.v
Gateway.v
GatewayFacts.v
GatewayHistory.v
Coroutine.v
Workflow.v
Clients.v
Engine.v
Coordinator.v
WorkflowSamples.v
WorkflowFacts.v
EngineFacts.v
EngineSpecs.v
EngineTermination.v
CoordinatorFacts.v
CoordinatorHistory.v
Sandbox.v
SandboxFacts.v
EventGateway.v
EventGatewayFacts.v
