(* ===== verification/Prelude.v ===== *)
(** * Enterprise ChangeOps: verification of the control plane

    Enterprise ChangeOps coordinates risky changes across enterprise systems.  An
    event arrives, a fleet of language-model agents drafts a remediation plan, a
    policy engine evaluates it, people approve exactly that plan, a workflow
    coordinator executes its steps through a tool gateway, verifies the systems
    and, when something went wrong, restores snapshots.  This library models the
    deterministic part of that path, written in Python, and proves what the
    program relies on it for.

    ** The parts and where they are modelled

    - [Json], [Contracts], [ContractFacts]: packages/contracts-python.
      Canonical JSON, the wire models with their field constraints and validators,
      digests, plan hashes and derived identifiers.
    - [Errors]: the errors.py of every service, one inductive type each, with the
      stable codes and HTTP statuses.
    - [Persistence], [PersistenceFacts]: packages/persistence.  The protocol
      [ChangeStateRepository] is a class, its contract the class [RepositoryLaws],
      and [Memory] the in-memory adapter that satisfies it.
    - [StateMachine]: changeops-core/state_machine.py.  The transition graph and
      the audited, optimistically locked [transition], proved against
      [RepositoryLaws].
    - [Policy]: packages/policy-engine.  Verified identities, the closed tool
      registry and [evaluate].
    - [Governance], [GovernanceFacts]: the models and the in-memory repository of
      services/tool-gateway: approval requests, idempotent executions, audit.
      The interface is [GovernanceRepository] with [GovernanceLaws], the adapter
      the module [Gov].
    - [Gateway], [GatewayFacts], [GatewayHistory]: the rest of the tool gateway:
      quotas (quota.py), the typed tool adapter (executor.py), the approval callback
      (callback.py) and the handlers of app.py.
    - [Coroutine]: asynchronous code (see below).
    - [Workflow], [WorkflowSamples], [WorkflowFacts]: models.py, retry.py and
      repository.py of services/workflow-coordinator; the interface is
      [WorkflowRepository] with [WorkflowLaws], the adapter the module [Wf].
    - [Clients]: clients.py: the interfaces [FleetClient], [GatewayClient] and
      [SandboxClient] the engine calls, and the HTTP clients that implement them.
    - [Engine], [EngineFacts], [EngineSpecs], [EngineTermination]: the private
      methods of engine.py, from record updates to snapshots, the rounds of the
      step graph, verification and rollback.
    - [Coordinator], [CoordinatorFacts], [CoordinatorHistory]: [process_event] and
      [resume_approval] of engine.py, the message handler of subscriber.py and the
      HTTP handlers of app.py.
    - [Sandbox], [SandboxFacts]: enterprise-sandbox: the configuration store with
      patches, snapshots and restore, the API registry, and the handlers that verify.
    - [EventGateway], [EventGatewayFacts]: services/event-gateway: webhook signatures,
      the rate limit, the inbox ([EventInboxRepository] with [InboxLaws], adapter
      [Inbox]) and the ingestion handler.
    - [Prelude]: outcomes and the state-and-exception monad, decision procedures,
      lists, strings, sorting and the tactics the other files share.  [Samples] and
      [WorkflowSamples] hold the concrete inputs of the examples and witnesses.

    An operation has the name of its method or handler; the fields of a record are
    those of the class, with a prefix.

    ** How they interact

    The event gateway authenticates an event, records it in the inbox and publishes it.
    The topic's subscriber calls [process_event].  It creates the workflow record in
    the workflow repository and the change in the change repository, asks the fleet
    for a plan, has the gateway create an approval request, and pauses.  The
    gateway's [decide_approval] calls the coordinator back; [approval_callback] and
    [resume_approval] check the callback against the waiting record, take snapshots
    of the sandbox systems, call [evaluate_and_execute] of the gateway for one round
    of ready steps after the other, verify, and complete or roll back.  The gateway
    consults the policy engine and reserves each execution in the governance
    repository before the tool runs.  Clients are proved against the classes of
    laws, and each in-memory adapter discharges its class.

    ** Modelling

    - Exceptions.  [result exn A] is a value or an exception of [Errors.exn]; a
      method is a function [M S exn A] from the state to an outcome and a new state,
      and what was written before an exception stays written, as in Python.
    - Atomicity.  The repositories and the sandbox stores do their work under one
      lock, so that each method is one step.
    - Coroutines.  An [async def] is a tree [co] of awaited calls, and each awaited
      call is one atomic step.  [gather] runs coroutines under the interleaving a
      scheduler chooses step by step; the scheduler is part of the outside world and
      arbitrary.  [spec] is a rely-guarantee logic: a coroutine's specification has
      to hold although other coroutines of the same program take steps between any
      two of its own, and each of its steps has to keep the guarantee of
      [EngineFacts].  [CoordinatorHistory.reachable] closes the picture: any number
      of messages and callbacks is served at once, in any interleaving, and any of
      them may be cancelled or lost at any point.  One simplification: when a
      coroutine under [gather] raises, the model raises after the others have run to
      their end, while Python raises at once and lets them run on; since the
      specifications hold under all interleavings, they do not depend on it.
    - The outside world.  Clock, uuid, jitter, sleep, HTTP exchanges, tool executors
      and callback transports are operations of classes over an arbitrary state [W].
    - Digests.  [Platform] has SHA-256 as an arbitrary function to 64 hex digits and
      an injective rendering of time stamps.  Where a theorem needs that hashes
      differ, it concludes with an explicit collision instead of assuming there is
      none.
    - Data.  Timestamps are integers, microseconds; Python integers are unbounded
      and so is [Z]; retry delays, null rates and confidences are rationals, where
      the code has binary floats; strings range over code points up to U+00FF, and
      stripping removes the white space among those.  A record stands for a model
      that was constructed, [<Model>_ok] is its validation; pydantic's decoding of
      a response body into fields is a parameter of the HTTP clients.
    - Event types.  The coordinator's invariants assume, as [EventTypes], that all
      deliveries of one workflow key carry one event type.  The key is derived from
      the event's identifiers, and the inbox of the event gateway refuses a second
      content under the identifiers of a first one ([ingestion_sound]).
    - HMAC is, like SHA-256, an arbitrary function to 64 hex digits ([Hmac]); the
      topic is an operation of the outside world that has accepted a message when it
      returns ([PublisherLaws]).

    ** Fuel and termination

    Three loops of the engine take fuel: [execute_attempts] the attempts left by the
    retry policy, [verify_attempts] the maximum of attempts, and [execute_rounds]
    the number of tasks, because every round takes a task out of the pending ones.
    [EngineTermination] proves, for all answers of repositories, clients and
    scheduler, that no public entry point runs out of it.

    ** What the theorems show

    - The gateway ([GatewayProperties], [GatewayHistoryProperties],
      [GovernanceProperties], [PolicyProperties]): a tool runs at most once per request
      and only for an authorised action under a stored approval that is current at
      the reservation; a denial is audited; no two executions of one
      idempotency key overlap within the lock's two minutes and a success is
      final; who may decide an approval, and that decisions are final, in every
      reachable state; the policy engine allows exactly what a declarative
      reading of its rules allows; quotas are bounded.
    - The coordinator ([CoordinatorProperties], [EngineProperties],
      [WorkflowProperties]): under every interleaving, crash and redelivery a
      workflow record keeps its identity, its plan and its approval, moves on to
      higher versions only, never leaves a final status, and what is stored is
      valid; a callback that returns has failed the workflow, sent it back for
      analysis, completed it with every task succeeded, evidenced and verified, or
      rolled it back; steps run in dependency order; a delivery of an event settles
      the workflow and a second one changes nothing; callbacks without the secret or
      for another plan are refused; the loops end, and an untouched plan is
      never blocked; every adapter that keeps the laws behaves like the in-memory
      one.
    - The event gateway ([EventGatewayProperties]): under every interleaving only
      signed events are published, each is recorded first, one key has one content,
      and an event reported as published was sent.
    - The state machine and the repository ([StateMachineProperties],
      [MemoryProperties]): transitions follow the graph, no update is lost, refusals
      are audited, tenants are isolated, the indexes agree, an audit stream resumes at
      a cursor.
    - The contracts ([ContractProperties]): canonical JSON identifies a
      document, a plan hash binds to one plan, and validation accepts exactly the
      contiguously numbered acyclic step graphs.
    - The sandbox ([SandboxProperties]): restoring a snapshot brings back exactly the
      configuration it was taken of, a patch is applied once, and tenants do not
      interfere.

    ** Not modelled

    - The Firestore adapters (packages/persistence/firestore.py, and those of the
      gateway, the coordinator and the event gateway): they are transactions of the
      cloud client library.  What they have to keep is stated by the classes of laws.
    - The agent fleet, the admission service, and the gateway's identity tokens:
      later parts of this development.
    - The control API (read-only projections), start-up, health end points,
      middleware, logging, process configuration, Pub/Sub administration, the
      scripts and the web front end: input and output around the modelled
      core. *)

From stdpp Require Export base gmap strings list sorting.
From Stdlib Require Export ZArith Lia.

#[global] Set Default Goal Selector "!".
Open Scope Z_scope.

Declare Scope changeops_scope.
Delimit Scope changeops_scope with changeops.

(** * Outcomes

    A Python call returns a value or raises; [result] is that choice. *)

Inductive result (E A : Type) : Type :=
| Ok (a : A)
| Err (e : E).
Arguments Ok {E A} a.
Arguments Err {E A} e.

#[export] Instance result_ret {E} : MRet (result E) := λ A a, Ok a.
#[export] Instance result_bind {E} : MBind (result E) := λ A B f r,
  match r with Ok a => f a | Err e => Err e end.
#[export] Instance result_fmap {E} : FMap (result E) := λ A B f r,
  match r with Ok a => Ok (f a) | Err e => Err e end.
#[export] Instance result_eq_dec {E A} `{EqDecision E, EqDecision A} : EqDecision (result E A).
Proof. solve_decision. Defined.

Definition is_ok {E A} (r : result E A) : bool :=
  match r with Ok _ => true | Err _ => false end.

Lemma ok_inj {E A} (a b : A) : Ok (E:=E) a = Ok b → a = b.
Proof. congruence. Qed.
Lemma err_inj {E A} (e e' : E) : Err (A:=A) e = Err e' → e = e'.
Proof. congruence. Qed.

(** * Stateful calls that may raise

    A method that mutates its object and may raise is a function from the
    object's state to an outcome and the new state.  As in Python, mutations
    made before an exception stay made. *)

Definition M (S E A : Type) : Type := S → result E A * S.

#[export] Instance M_ret {S E} : MRet (M S E) := λ A a s, (Ok a, s).
#[export] Instance M_bind {S E} : MBind (M S E) := λ A B f m s,
  match m s with
  | (Ok a, s') => f a s'
  | (Err e, s') => (Err e, s')
  end.

Section Monad.
Context {S E : Type}.

Definition get_state : M S E S := λ s, (Ok s, s).
Definition put_state (s : S) : M S E unit := λ _, (Ok tt, s).
Definition modify_state (f : S → S) : M S E unit := λ s, (Ok tt, f s).
Definition raise {A} (e : E) : M S E A := λ s, (Err e, s).
Definition raise_if (b : bool) (e : E) : M S E unit :=
  if b then raise e else mret tt.
Definition of_result {A} (r : result E A) : M S E A := λ s, (r, s).

(** [try m except h]: [h] selects the exceptions it handles. *)
Definition catch {A} (m : M S E A) (h : E → option (M S E A)) : M S E A := λ s,
  match m s with
  | (Err e, s') => match h e with Some k => k s' | None => (Err e, s') end
  | r => r
  end.

(** Run a call of a sub-object held by a larger state. *)
Definition zoom {T A} (get : S → T) (set : T → S → S) (m : M T E A) : M S E A := λ s,
  let '(r, t) := m (get s) in (r, set t s).
End Monad.

(** ** Reasoning rules *)

Section MonadRules.
Context {S E : Type}.

Lemma bind_ok {A B} (m : M S E A) (f : A → M S E B) s b s' :
  mbind f m s = (Ok b, s') → ∃ a s1, m s = (Ok a, s1) ∧ f a s1 = (Ok b, s').
Proof. unfold mbind, M_bind. destruct (m s) as [[a|e] s1]; naive_solver. Qed.

Lemma bind_run {A B} (m : M S E A) (f : A → M S E B) s a s1 :
  m s = (Ok a, s1) → mbind f m s = f a s1.
Proof. unfold mbind, M_bind. by intros ->. Qed.

Lemma bind_run_err {A B} (m : M S E A) (f : A → M S E B) s e s1 :
  m s = (Err e, s1) → mbind f m s = (Err e, s1).
Proof. unfold mbind, M_bind. by intros ->. Qed.

(** [preserves I m]: the call keeps the state predicate, whether it returns
    or raises. *)
Definition preserves {A} (I : S → Prop) (m : M S E A) : Prop := ∀ s, I s → I (m s).2.

Lemma preserves_ret {A} I (a : A) : preserves I (mret a).
Proof. by intros s. Qed.
Lemma preserves_raise {A} I (e : E) : preserves (A:=A) I (raise e).
Proof. by intros s. Qed.
Lemma preserves_raise_if I b (e : E) : preserves I (raise_if b e).
Proof. by destruct b; intros s. Qed.
Lemma preserves_get I : preserves I get_state.
Proof. by intros s. Qed.
Lemma preserves_of_result {A} I (r : result E A) : preserves I (of_result r).
Proof. by intros s. Qed.
Lemma preserves_bind {A B} I (m : M S E A) (f : A → M S E B) :
  preserves I m → (∀ a, preserves I (f a)) → preserves I (mbind f m).
Proof.
  intros Hm Hf s Hs. unfold mbind, M_bind. specialize (Hm s Hs).
  destruct (m s) as [[a|e] s1]; [by apply Hf | done].
Qed.
Lemma preserves_of_result_bind {A B} I (r : result E A) (f : A → M S E B) :
  (∀ a, r = Ok a → preserves I (f a)) → preserves I (mbind f (of_result r)).
Proof.
  intros Hf s Hs. unfold mbind, M_bind, of_result. destruct r as [a|]; [by apply Hf|done].
Qed.
Lemma preserves_catch {A} I (m : M S E A) h :
  preserves I m → (∀ e k, h e = Some k → preserves I k) → preserves I (catch m h).
Proof.
  intros Hm Hh s Hs. unfold catch. specialize (Hm s Hs).
  destruct (m s) as [[a|e] s1]; [done|]. destruct (h e) eqn:He; [|done].
  by eapply Hh.
Qed.
End MonadRules.

Create HintDb preserves discriminated.
#[export] Hint Resolve preserves_ret preserves_raise preserves_raise_if preserves_get
  preserves_of_result preserves_bind preserves_catch : preserves.

(** * Enumerations

    Every enumeration of the code is a [StrEnum]; [cases] discharges a goal
    that ranges over a few of their values. *)

Ltac cases := repeat match goal with |- ∀ _, _ => intros [] end; try done.

(** Case analysis on the guard conditions of a handler that is being run. *)
Ltac step H :=
  repeat first
    [ progress simplify_eq/=
    | case_bool_decide
    | match type of H with context [match ?x with _ => _ end] => destruct x eqn:? end ].

(** * Sort keys

    Listings sort by a timestamp and then by an identifier. *)

Definition stamp_le (a b : Z * string) : Prop :=
  a.1 < b.1 ∨ (a.1 = b.1 ∧ String.le a.2 b.2).

#[export] Instance stamp_le_dec : RelDecision stamp_le.
Proof. intros a b. unfold stamp_le. apply _. Defined.

#[export] Instance stamp_le_trans : Transitive stamp_le.
Proof.
  intros [a x] [b y] [c z] [?|[? ?]] [?|[? ?]]; unfold stamp_le; simpl in *; try lia.
  right. split; [lia|]. by etrans.
Qed.

#[export] Instance stamp_le_total : Total stamp_le.
Proof.
  intros [a x] [b y]. unfold stamp_le; simpl.
  destruct (Z.lt_trichotomy a b) as [?|[?|?]]; [auto| |auto].
  destruct (total String.le x y); auto.
Qed.

#[export] Instance stamp_le_antisymm : AntiSymm (=) stamp_le.
Proof.
  intros [a x] [b y] [?|[? ?]] [?|[? ?]]; simpl in *; try lia.
  f_equal; [done|]. by apply (anti_symm String.le).
Qed.

(** [sort_by key l] is [sorted(l, key=key)]; [sort_by_desc] adds [reverse=True].
    The keys of the lists sorted by the program are pairwise distinct, so
    stability is not observable. *)

Section SortBy.
Context {A : Type} (key : A → Z * string).

Definition by_key (x y : A) : Prop := stamp_le (key x) (key y).
#[export] Instance by_key_dec : RelDecision by_key.
Proof. intros x y. unfold by_key. apply _. Defined.
#[export] Instance by_key_total : Total by_key.
Proof. intros x y. apply (total stamp_le). Qed.
#[export] Instance by_key_trans : Transitive by_key.
Proof. intros x y z. unfold by_key. apply transitivity. Qed.

#[export] Instance by_key_flip_total : Total (flip by_key).
Proof. intros x y. destruct (total by_key x y); auto. Qed.
#[export] Instance by_key_flip_trans : Transitive (flip by_key).
Proof. intros x y z. unfold flip. intros. by etrans. Qed.

Definition sort_by (l : list A) : list A := merge_sort by_key l.
Definition sort_by_desc (l : list A) : list A := merge_sort (flip by_key) l.

Lemma sort_by_perm l : sort_by l ≡ₚ l.
Proof. apply merge_sort_Permutation. Qed.
Lemma sort_by_desc_perm l : sort_by_desc l ≡ₚ l.
Proof. apply merge_sort_Permutation. Qed.
Lemma sort_by_sorted l : StronglySorted by_key (sort_by l).
Proof. apply (StronglySorted_merge_sort _). Qed.
Lemma sort_by_desc_sorted l : StronglySorted (flip by_key) (sort_by_desc l).
Proof. apply (StronglySorted_merge_sort _). Qed.

(** With distinct keys the sorted list depends on the elements only. *)
Lemma sort_by_desc_unique l l' :
  (∀ x y, x ∈ l → y ∈ l → key x = key y → x = y) → l ≡ₚ l' → sort_by_desc l = sort_by_desc l'.
Proof.
  intros Hkey Hl. apply (StronglySorted_unique_strong (flip by_key));
    [|apply sort_by_desc_sorted..|by rewrite !sort_by_desc_perm].
  intros x y. rewrite !sort_by_desc_perm, <-Hl. intros Hx Hy H1 H2.
  apply Hkey; [done..|]. by apply (anti_symm stamp_le).
Qed.
End SortBy.

(** * Durations, in microseconds (the resolution of [datetime]) *)

Definition seconds (n : Z) : Z := n * 1000000.
Definition minutes (n : Z) : Z := seconds (n * 60).
Definition hours (n : Z) : Z := minutes (n * 60).

(** * Strings

    A Python [str] is a [string] whose characters are the code points
    U+0000..U+00FF. *)

Definition slen (s : string) : Z := Z.of_nat (String.length s).

(** [NonEmptyStr] is [Field(min_length=1, max_length=512)], [Reference] allows
    2048 characters. *)
Definition nonempty_str (s : string) : bool := (1 <=? slen s) && (slen s <=? 512).
Definition reference_str (s : string) : bool := (1 <=? slen s) && (slen s <=? 2048).
Definition opt_ok {A} (p : A → bool) (o : option A) : bool :=
  match o with Some a => p a | None => true end.

(** Pattern [^sha256:[0-9a-f]{64}$]. *)
Definition is_lower_hex (c : Ascii.ascii) : bool :=
  let n := Ascii.N_of_ascii c in
  ((48 <=? n)%N && (n <=? 57)%N) || ((97 <=? n)%N && (n <=? 102)%N).
Fixpoint all_chars (p : Ascii.ascii → bool) (s : string) : bool :=
  match s with
  | EmptyString => true
  | String c s => p c && all_chars p s
  end.
Definition is_hex64 (s : string) : bool := (slen s =? 64) && all_chars is_lower_hex s.
Fixpoint strip_prefix (p s : string) : option string :=
  match p, s with
  | EmptyString, _ => Some s
  | String c p, String d s => if bool_decide (c = d) then strip_prefix p s else None
  | String _ _, EmptyString => None
  end.
Definition sha256_str (s : string) : bool :=
  match strip_prefix "sha256:" s with Some h => is_hex64 h | None => false end.

Lemma strip_prefix_inv p s r : strip_prefix p s = Some r → s = p +:+ r.
Proof.
  revert s. induction p as [|c p IH]; intros s; simpl; [by intros [= ->]|].
  destruct s as [|d s]; [done|]. destruct (bool_decide_reflect (c = d)) as [->|]; [|done].
  by intros ->%IH.
Qed.
Lemma strip_prefix_app p s : strip_prefix p (p +:+ s) = Some s.
Proof.
  induction p as [|c p IH]; [done|].
  change (strip_prefix (String c p) (String c (p +:+ s)) = Some s). simpl.
  by rewrite bool_decide_eq_true_2.
Qed.

Lemma slen_app s t : slen (s +:+ t) = slen s + slen t.
Proof.
  unfold slen. induction s as [|c s IH]; [done|].
  change (String c s +:+ t) with (String c (s +:+ t)). simpl String.length. lia.
Qed.

Lemma append_assoc (s t u : string) : (s +:+ t) +:+ u = s +:+ (t +:+ u).
Proof.
  induction s as [|c s IH]; [done|].
  change (String c ((s +:+ t) +:+ u) = String c (s +:+ (t +:+ u))). by rewrite IH.
Qed.

(** [str_strip_whitespace]: white space at both ends is removed. *)
Definition is_space (c : Ascii.ascii) : bool :=
  let n := Ascii.N_of_ascii c in
  (((9 <=? n) && (n <=? 13)) || (n =? 32) || (n =? 133) || (n =? 160))%N.
Fixpoint trim_start (s : string) : string :=
  match s with
  | String c rest => if is_space c then trim_start rest else s
  | EmptyString => EmptyString
  end.
Fixpoint trim_end (s : string) : string :=
  match s with
  | EmptyString => EmptyString
  | String c rest =>
      match trim_end rest with
      | EmptyString => if is_space c then EmptyString else String c EmptyString
      | rest => String c rest
      end
  end.
Definition trim (s : string) : string := trim_end (trim_start s).

Lemma trim_start_idem s : trim_start (trim_start s) = trim_start s.
Proof.
  induction s as [|c s IH]; [done|]. cbn [trim_start]. destruct (is_space c) eqn:Hc; [done|].
  cbn [trim_start]. by rewrite Hc.
Qed.

Lemma trim_end_idem s : trim_end (trim_end s) = trim_end s.
Proof.
  induction s as [|c s IH]; [done|]. cbn [trim_end]. destruct (trim_end s) as [|d r].
  - destruct (is_space c) eqn:Hc; [done|]. cbn [trim_end]. by rewrite Hc.
  - cbn [trim_end] in *. by rewrite IH.
Qed.

Lemma trim_start_end s : trim_start s = s → trim_start (trim_end s) = trim_end s.
Proof.
  destruct s as [|c s]; [done|]. cbn [trim_start trim_end]. destruct (is_space c) eqn:Hc.
  - intros Hs. exfalso. apply (f_equal String.length) in Hs.
    assert (∀ s, (String.length (trim_start s) <= String.length s)%nat) as Hle.
    { clear. intros s. induction s as [|c s IH]; simpl; [lia|]. destruct (is_space c); simpl; lia. }
    specialize (Hle s). simpl in Hs. lia.
  - intros _. destruct (trim_end s); cbn [trim_start]; by rewrite Hc.
Qed.

Lemma trim_idem s : trim (trim s) = trim s.
Proof. unfold trim. by rewrite (trim_start_end _ (trim_start_idem s)), trim_end_idem. Qed.

(** [str.lower] on the letters the program lowers. *)
Definition lower_char (c : Ascii.ascii) : Ascii.ascii :=
  let n := Ascii.N_of_ascii c in
  if ((65 <=? n) && (n <=? 90))%N then Ascii.ascii_of_N (n + 32) else c.
Fixpoint lower (s : string) : string :=
  match s with EmptyString => EmptyString | String c rest => String (lower_char c) (lower rest) end.

(** Uniqueness of the values of a tuple: [len(xs) == len(set(xs))]. *)
Definition unique {A} `{EqDecision A} (xs : list A) : bool := bool_decide (NoDup xs).

Definition mem {A} `{EqDecision A} (x : A) (xs : list A) : bool := bool_decide (x ∈ xs).
(** [set(xs) & set(ys)] is not empty; [set(xs).issubset(ys)]. *)
Definition intersects {A} `{EqDecision A} (xs ys : list A) : bool := existsb (λ x, mem x ys) xs.
Definition subset {A} `{EqDecision A} (xs ys : list A) : bool := forallb (λ x, mem x ys) xs.

Lemma mem_true {A} `{EqDecision A} (x : A) xs : mem x xs = true ↔ x ∈ xs.
Proof. apply bool_decide_eq_true. Qed.
Lemma mem_false {A} `{EqDecision A} (x : A) xs : mem x xs = false ↔ x ∉ xs.
Proof. apply bool_decide_eq_false. Qed.
Lemma intersects_true {A} `{EqDecision A} (xs ys : list A) :
  intersects xs ys = true ↔ ∃ x, x ∈ xs ∧ x ∈ ys.
Proof.
  unfold intersects. rewrite existsb_exists. setoid_rewrite mem_true.
  by setoid_rewrite <-list_elem_of_In.
Qed.
Lemma subset_true {A} `{EqDecision A} (xs ys : list A) :
  subset xs ys = true ↔ ∀ x, x ∈ xs → x ∈ ys.
Proof.
  unfold subset. rewrite forallb_forall. setoid_rewrite mem_true.
  by setoid_rewrite <-list_elem_of_In.
Qed.

(** A [for] loop whose body may raise. *)
Fixpoint for_each {E A} (l : list A) (body : A → result E unit) : result E unit :=
  match l with
  | [] => Ok tt
  | x :: l => _ ← body x; for_each l body
  end.

Lemma for_each_ok {E A} (l : list A) (body : A → result E unit) :
  for_each l body = Ok tt ↔ ∀ x, x ∈ l → body x = Ok tt.
Proof.
  induction l as [|x l IH]; simpl.
  - split; [|done]. intros _ x. by intros ?%elem_of_nil.
  - setoid_rewrite elem_of_cons. unfold mbind, result_bind.
    destruct (body x) as [[]|e] eqn:Hb; [rewrite IH; naive_solver|].
    split; [done|]. intros Hall. rewrite <-Hb. by auto.
Qed.

Definition unless {E} (b : bool) (e : E) : result E unit := if b then Ok tt else Err e.
Lemma unless_ok {E} b (e : E) : unless b e = Ok tt ↔ b = true.
Proof. by destruct b. Qed.

Lemma result_bind_ok {E A B} (r : result E A) (f : A → result E B) b :
  mbind f r = Ok b ↔ ∃ a, r = Ok a ∧ f a = Ok b.
Proof. unfold mbind, result_bind. destruct r; naive_solver. Qed.

(** A set built from a list with as many elements has no duplicates. *)
Lemma size_list_to_set_NoDup {A} `{Countable A} (xs : list A) :
  size (list_to_set xs : gset A) = length xs → NoDup xs.
Proof.
  induction xs as [|x xs IH]; simpl; [constructor|]. intros Hlen.
  assert (∀ ys : list A, size (list_to_set ys : gset A) ≤ length ys)%nat as Hle.
  { clear. induction ys as [|y ys IH]; simpl; [done|]. rewrite size_union_alt, size_singleton.
    pose proof (subseteq_size (list_to_set ys ∖ {[y]} : gset A) (list_to_set ys)
      ltac:(set_solver)). lia. }
  specialize (Hle xs). destruct (decide (x ∈ xs)) as [Hin|Hnin].
  - rewrite (subseteq_union_1_L {[x]} (list_to_set xs)) in Hlen; [lia|].
    apply singleton_subseteq_l. by apply elem_of_list_to_set.
  - rewrite size_union, size_singleton in Hlen.
    + constructor; [done|]. apply IH. lia.
    + apply disjoint_singleton_l. by rewrite elem_of_list_to_set.
Qed.

(** [xs[:n]]: a negative bound counts from the end. *)
Definition slice_to {A} (n : Z) (l : list A) : list A :=
  if n <? 0 then take (Z.to_nat (Z.of_nat (length l) + n)) l else take (Z.to_nat n) l.

(** [next((i for i, x in enumerate(xs) if p(x)), None)]. *)
Fixpoint find_index {A} (p : A → bool) (l : list A) : option nat :=
  match l with
  | [] => None
  | x :: l => if p x then Some 0%nat else S <$> find_index p l
  end.

(** Membership in a dictionary of sets, [bool(d.get(k))]. *)
Definition has_entry (m : gmap string (gset string)) (k : string) : bool :=
  match m !! k with Some s => negb (bool_decide (s = ∅)) | None => false end.
Definition add_entry (m : gmap string (gset string)) (k x : string) : gmap string (gset string) :=
  <[k := {[x]} ∪ default ∅ (m !! k)]> m.

Lemma slice_to_nonneg {A} n (l : list A) : 0 <= n → slice_to n l = take (Z.to_nat n) l.
Proof. intros Hn. unfold slice_to. by rewrite (proj2 (Z.ltb_ge n 0) Hn). Qed.

Lemma slice_to_subset {A} n (l : list A) x : x ∈ slice_to n l → x ∈ l.
Proof. unfold slice_to. destruct (n <? 0); apply subseteq_take. Qed.

(** The index found for a value with a unique key is its position. *)
Lemma find_index_key {A K} `{EqDecision K} (key : A → K) l n x :
  NoDup (key <$> l) → l !! n = Some x →
  find_index (λ y, bool_decide (key y = key x)) l = Some n.
Proof.
  revert n. induction l as [|y l IH]; intros n Hnd Hn; [done|].
  rewrite fmap_cons in Hnd. apply NoDup_cons in Hnd as [Hy Hnd]. simpl.
  destruct n as [|n]; simplify_eq/=.
  - by rewrite bool_decide_eq_true_2.
  - rewrite bool_decide_eq_false_2; [by rewrite (IH n)|].
    intros E. apply Hy. rewrite E. apply list_elem_of_fmap_2. by eapply list_elem_of_lookup_2.
Qed.

(** A loop of reads. *)
Lemma mapM_reads {S E A B} (f : A → M S E B) (P : A → B → Prop) s l :
  (∀ x, x ∈ l → ∃ y, f x s = (Ok y, s) ∧ P x y) →
  ∃ k, mapM f l s = (Ok k, s) ∧ Forall2 P l k.
Proof.
  induction l as [|x l IH]; intros Hf; simpl.
  - exists []. by split.
  - destruct (Hf x) as (y & Hy & HP); [by left|]. destruct IH as (k & Hk & HPs).
    { intros z Hz. apply Hf. by right. }
    exists (y :: k). split; [|by constructor].
    by rewrite (bind_run _ _ _ _ _ Hy), (bind_run _ _ _ _ _ Hk).
Qed.

(** [mapM] over calls without state. *)
Lemma mapM_result {E A B} (f : A → result E B) l k :
  mapM f l = Ok k ↔ Forall2 (λ x y, f x = Ok y) l k.
Proof.
  revert k. induction l as [|x l IH]; intros k; cbn [mapM].
  - split; [by intros [= <-]|]. by inversion 1.
  - rewrite result_bind_ok. split.
    + intros (y & Hy & (k' & Hk & [= <-])%result_bind_ok). constructor; [done|]. by apply IH.
    + inversion 1; subst. eexists. split; [done|]. apply result_bind_ok.
      eexists. split; [by apply IH|done].
Qed.

Lemma mapM_result_err {E A B} (f : A → result E B) l e :
  mapM f l = Err e → ∃ x, x ∈ l ∧ f x = Err e.
Proof.
  induction l as [|x l IH]; cbn [mapM]; [done|]. destruct (f x) as [y|e'] eqn:Hx.
  - destruct (mapM f l) as [k|e'] eqn:Hl; [done|]. intros [= ->].
    destruct IH as (x' & ? & ?); [done|]. exists x'. split; [by right|done].
  - intros [= ->]. exists x. split; [by left|done].
Qed.

(** Filtering keeps keys distinct. *)
Lemma NoDup_fmap_filter {A B} (f : A → B) (q : A → Prop) `{∀ x, Decision (q x)} l :
  NoDup (f <$> l) → NoDup (f <$> filter q l).
Proof.
  induction l as [|x l IH]; [done|]. rewrite fmap_cons. intros [Hnew Hnd]%NoDup_cons.
  rewrite filter_cons. case_decide; [|by apply IH]. rewrite fmap_cons.
  constructor; [|by apply IH]. intros (y & Hy & [_ Hin]%list_elem_of_filter)%list_elem_of_fmap.
  apply Hnew. rewrite Hy. by apply list_elem_of_fmap_2.
Qed.
