(* ===== verification/Json.v ===== *)
(** JSON documents and the canonical JSON profile of
    [packages/contracts-python/src/changeops_contracts/canonical.py].

    [canonical_json] is [json.dumps(payload, ensure_ascii=False,
    separators=(",", ":"), sort_keys=True)].  The file proves that the profile is
    injective up to the order of object keys: two documents with the same text
    are the same document.  Numbers are integers: no document whose hash the
    modelled code compares contains a float. *)

From Stdlib Require Import Ascii DecimalString DecimalZ.
From Stdlib Require String.
From S2P Require Import Prelude.

Unset Elimination Schemes.
Inductive json : Type :=
| JNull
| JBool (b : bool)
| JInt (n : Z)
| JStr (s : string)
| JArr (l : list json)
| JObj (kvs : list (string * json)).
Set Elimination Schemes.

Section json_ind.
Variable P : json → Prop.
Hypothesis Hnull : P JNull.
Hypothesis Hbool : ∀ b, P (JBool b).
Hypothesis Hint : ∀ n, P (JInt n).
Hypothesis Hstr : ∀ s, P (JStr s).
Hypothesis Harr : ∀ l, Forall P l → P (JArr l).
Hypothesis Hobj : ∀ kvs, Forall (λ kv, P kv.2) kvs → P (JObj kvs).

Fixpoint json_ind (j : json) : P j :=
  match j with
  | JNull => Hnull
  | JBool b => Hbool b
  | JInt n => Hint n
  | JStr s => Hstr s
  | JArr l => Harr l
      ((fix go l : Forall P l := match l with
        | [] => Forall_nil_2 _
        | x :: l => Forall_cons_2 _ x l (json_ind x) (go l) end) l)
  | JObj kvs => Hobj kvs
      ((fix go l : Forall (λ kv, P kv.2) l := match l with
        | [] => Forall_nil_2 _
        | kv :: l => Forall_cons_2 _ kv l (json_ind kv.2) (go l) end) kvs)
  end.
End json_ind.

(** * Printing *)

Definition zstr (z : Z) : string := NilZero.string_of_int (Z.to_int z).

(** [ESCAPE] of the json module: the quote, the backslash and the control
    characters below U+0020. *)
Definition hex_digit (n : N) : ascii :=
  if (n <? 10)%N then ascii_of_N (48 + n) else ascii_of_N (87 + n).
Definition escape_char (c : ascii) : string :=
  let n := N_of_ascii c in
  if bool_decide (n = 34)%N then "\" +:+ String (ascii_of_N 34) ""
  else if bool_decide (n = 92)%N then "\\"
  else if bool_decide (n = 10)%N then "\n"
  else if bool_decide (n = 13)%N then "\r"
  else if bool_decide (n = 9)%N then "\t"
  else if bool_decide (n = 8)%N then "\b"
  else if bool_decide (n = 12)%N then "\f"
  else if (n <? 32)%N then
    "\u00" +:+ String (hex_digit (n / 16)%N) (String (hex_digit (n mod 16)%N) "")
  else String c "".
Fixpoint escape (s : string) : string :=
  match s with
  | EmptyString => ""
  | String c s => escape_char c +:+ escape s
  end.
Definition dquote : ascii := ascii_of_N 34.
Definition quote (s : string) : string := String dquote (escape s +:+ String dquote "").

Fixpoint join (l : list string) : string :=
  match l with
  | [] => ""
  | [x] => x
  | x :: l => x +:+ "," +:+ join l
  end.

(** [json.dumps] of a document whose keys are already in order. *)
Fixpoint dumps (j : json) : string :=
  match j with
  | JNull => "null"
  | JBool true => "true"
  | JBool false => "false"
  | JInt n => zstr n
  | JStr s => quote s
  | JArr l => "[" +:+ join (map dumps l) +:+ "]"
  | JObj kvs => "{" +:+ join (map (λ kv, quote kv.1 +:+ ":" +:+ dumps kv.2) kvs) +:+ "}"
  end.

(** * Key order *)

Definition key_le (a b : string * json) : Prop := String.le a.1 b.1.
#[export] Instance key_le_dec : RelDecision key_le.
Proof. intros a b. unfold key_le. apply _. Defined.
#[export] Instance key_le_total : Total key_le.
Proof. intros a b. apply (total String.le). Qed.
#[export] Instance key_le_trans : Transitive key_le.
Proof. intros a b c. unfold key_le. apply transitivity. Qed.

(** [sort_keys=True], at every depth. *)
Fixpoint sort_keys (j : json) : json :=
  match j with
  | JArr l => JArr (map sort_keys l)
  | JObj kvs => JObj (merge_sort key_le (map (λ kv, (kv.1, sort_keys kv.2)) kvs))
  | _ => j
  end.

Definition canonical_json (document : json) : string := dumps (sort_keys document).

(** Python dictionary lookup in a document. *)
Fixpoint assoc {A} (k : string) (l : list (string * A)) : option A :=
  match l with
  | [] => None
  | (k', v) :: l => if bool_decide (k = k') then Some v else assoc k l
  end.
Definition jget (k : string) (j : json) : option json :=
  match j with JObj kvs => assoc k kvs | _ => None end.

(** Python [==] on JSON values: [True == 1], and dictionaries compare without
    regard to the order of their keys. *)
Fixpoint py_eq (a b : json) {struct a} : bool :=
  match a, b with
  | JNull, JNull => true
  | JBool x, JBool y => bool_decide (x = y)
  | JBool x, JInt n | JInt n, JBool x => n =? Z.b2z x
  | JInt m, JInt n => m =? n
  | JStr s, JStr t => bool_decide (s = t)
  | JArr l, JArr m =>
      (fix go l m := match l, m with
        | [], [] => true
        | x :: l, y :: m => py_eq x y && go l m
        | _, _ => false end) l m
  | JObj l, JObj m =>
      bool_decide (length l = length m) &&
      (fix go l := match l with
        | [] => true
        | kv :: l => match assoc kv.1 m with Some v => py_eq kv.2 v | None => false end && go l
        end) l
  | _, _ => false
  end.

(** A dictionary has each key once. *)
Fixpoint wf_json (j : json) : bool :=
  match j with
  | JArr l => forallb wf_json l
  | JObj kvs => bool_decide (NoDup kvs.*1) && forallb (λ kv, wf_json kv.2) kvs
  | _ => true
  end.

(** * The printer is prefix free

    A token is followed by the end of the text or by a delimiter; under that
    condition the printed document determines the value and the remaining
    text. *)

Definition is_delim (c : ascii) : bool :=
  bool_decide (c = "," ∨ c = "]" ∨ c = "}" ∨ c = ":")%char.
Definition delimited (s : string) : Prop :=
  match s with EmptyString => True | String c _ => is_delim c = true end.

Definition prefix_free {A} (p : A → string) (a : A) : Prop :=
  ∀ b r s, delimited r → delimited s → p a +:+ r = p b +:+ s → a = b ∧ r = s.

Lemma append_cons c s t : String c s +:+ t = String c (s +:+ t).
Proof. done. Qed.
Lemma append_nil s : "" +:+ s = s.
Proof. done. Qed.

(** ** Strings *)

Definition nibble (c : ascii) : N :=
  let n := N_of_ascii c in if (n <? 58)%N then (n - 48)%N else (n - 87)%N.
(** Reads back one printed character. *)
Definition unescape (s : string) : option (ascii * string) :=
  match s with
  | String c t =>
    if bool_decide (c = dquote) then None
    else if bool_decide (c = "\"%char) then
      match t with
      | String d t =>
        if bool_decide (d = "n"%char) then Some ("010"%char, t)
        else if bool_decide (d = "r"%char) then Some ("013"%char, t)
        else if bool_decide (d = "t"%char) then Some ("009"%char, t)
        else if bool_decide (d = "b"%char) then Some ("008"%char, t)
        else if bool_decide (d = "f"%char) then Some ("012"%char, t)
        else if bool_decide (d = "u"%char) then
          match t with
          | String _ (String _ (String h (String l t))) =>
              Some (ascii_of_N (16 * nibble h + nibble l), t)
          | _ => None
          end
        else Some (d, t)
      | EmptyString => None
      end
    else Some (c, t)
  | EmptyString => None
  end.

Lemma unescape_escape c t : unescape (escape_char c +:+ t) = Some (c, t).
Proof. destruct c as [[] [] [] [] [] [] [] []]; reflexivity. Qed.

Lemma unescape_dquote t : unescape (String dquote t) = None.
Proof. reflexivity. Qed.

Lemma escape_prefix_free s s' r r' :
  escape s +:+ String dquote r = escape s' +:+ String dquote r' → s = s' ∧ r = r'.
Proof.
  revert s'. induction s as [|c s IH]; intros [|c' s']; simpl; intros H.
  - rewrite !append_nil in H. by injection H.
  - apply (f_equal unescape) in H.
    rewrite append_nil, append_assoc, unescape_escape, unescape_dquote in H. done.
  - apply (f_equal unescape) in H.
    rewrite append_nil, append_assoc, unescape_escape, unescape_dquote in H. done.
  - apply (f_equal unescape) in H. rewrite !append_assoc, !unescape_escape in H.
    simplify_eq. edestruct IH as [-> ->]; eauto.
Qed.

Lemma quote_prefix_free s s' r r' : quote s +:+ r = quote s' +:+ r' → s = s' ∧ r = r'.
Proof.
  unfold quote. rewrite !append_cons, !append_assoc, !append_cons. intros H.
  simplify_eq. by apply escape_prefix_free.
Qed.

(** ** Integers *)

Definition is_number_char (c : ascii) : bool :=
  let n := N_of_ascii c in (n =? 45)%N || ((48 <=? n)%N && (n <=? 57)%N).

Lemma zstr_inj a b : zstr a = zstr b → a = b.
Proof.
  assert (∀ z, NilZero.int_of_string (zstr z) = Some (Z.to_int z)) as Hisi.
  { intros z. apply NilZero.isi; destruct z; simpl; try done;
      intros E; injection E; by apply DecimalPos.Unsigned.to_uint_nonnil. }
  intros H. apply DecimalZ.to_int_inj. apply (f_equal NilZero.int_of_string) in H.
  rewrite !Hisi in H. congruence.
Qed.

Lemma uint_chars d : all_chars is_number_char (NilEmpty.string_of_uint d) = true.
Proof. by induction d. Qed.

Lemma zstr_head z : ∃ c t, zstr z = String c t ∧ is_number_char c = true ∧
  all_chars is_number_char t = true.
Proof.
  unfold zstr. destruct (Z.to_int z) as [d|d]; simpl.
  - destruct d; simpl; eexists _, _; split_and!; try done; apply uint_chars.
  - eexists _, _; split_and!; [done..|].
    destruct d; simpl; try done; apply uint_chars.
Qed.

Lemma number_char_not_delim c : is_number_char c = true → is_delim c = false.
Proof. by destruct c as [[] [] [] [] [] [] [] []]. Qed.

(** Two runs of number characters, each followed by the end or a delimiter. *)
Lemma number_prefix_free t t' r r' :
  all_chars is_number_char t = true → all_chars is_number_char t' = true →
  delimited r → delimited r' → t +:+ r = t' +:+ r' → t = t' ∧ r = r'.
Proof.
  revert t'. induction t as [|c t IH]; intros [|c' t'] Ht Ht' Hr Hr' H.
  - done.
  - rewrite append_nil, append_cons in H. subst r. simpl in *.
    apply andb_prop in Ht' as [Hc%number_char_not_delim _]. congruence.
  - rewrite append_nil, append_cons in H. subst r'. simpl in *.
    apply andb_prop in Ht as [Hc%number_char_not_delim _]. congruence.
  - rewrite !append_cons in H. simpl in *. simplify_eq.
    apply andb_prop in Ht as [_ Ht], Ht' as [_ Ht'].
    by edestruct (IH t') as [-> ->].
Qed.

Lemma zstr_prefix_free a : prefix_free zstr a.
Proof.
  intros b r s Hr Hs H.
  destruct (zstr_head a) as (c & t & Ea & Hc & Ht).
  destruct (zstr_head b) as (c' & t' & Eb & Hc' & Ht').
  rewrite Ea, Eb in H.
  apply number_prefix_free in H as [H ->]; simpl; rewrite ?Hc, ?Hc'; auto.
  split; [|done]. apply zstr_inj. congruence.
Qed.

(** ** Sequences *)

(** No printed element looks like the end of the sequence. *)
Definition no_close {A} (p : A → string) : Prop :=
  ∀ a t, ∃ c u, p a +:+ t = String c u ∧ is_delim c = false.

Lemma join_cons x l : l ≠ [] → join (x :: l) = x +:+ "," +:+ join l.
Proof. by destruct l. Qed.

Lemma join_prefix_free {A} (p : A → string) (c : ascii) l l' r r' :
  is_delim c = true → c ≠ ","%char → no_close p → Forall (prefix_free p) l →
  join (map p l) +:+ String c r = join (map p l') +:+ String c r' → l = l' ∧ r = r'.
Proof.
  intros Hd Hcomma Hp Hl. revert l'. induction Hl as [|x l Hx Hl IH]; intros [|x' l'] H.
  - simpl in H. rewrite !append_nil in H. by simplify_eq.
  - exfalso. destruct l' as [|y l']; simpl in H; rewrite append_nil, ?append_assoc in H;
      match type of H with _ = p x' +:+ ?t => destruct (Hp x' t) as (?&?&E&?) end;
      rewrite E in H; simplify_eq; congruence.
  - exfalso. destruct l as [|y l]; simpl in H; rewrite append_nil, ?append_assoc in H;
      match type of H with p x +:+ ?t = _ => destruct (Hp x t) as (?&?&E&?) end;
      rewrite E in H; simplify_eq; congruence.
  - destruct l as [|y l], l' as [|y' l']; simpl in H;
      rewrite ?append_assoc, ?append_cons, ?append_nil in H.
    + apply Hx in H as [-> H]; [|by simpl..]. by simplify_eq.
    + apply Hx in H as [-> H]; [|by simpl..]. simplify_eq.
    + apply Hx in H as [-> H]; [|by simpl..]. simplify_eq.
    + apply Hx in H as [-> H]; [|by simpl..]. simplify_eq.
      edestruct (IH (y' :: l')) as [E ->]; [|by rewrite E].
      simpl. destruct l, l'; simpl in *; rewrite ?append_assoc, ?append_cons in *; done.
Qed.

Lemma dumps_no_close : no_close dumps.
Proof.
  intros [|[]|n|s|l|l] t; simpl; try (eexists _, _; split; done).
  destruct (zstr_head n) as (c & u & -> & Hc & _). eexists _, _; split; [done|].
  by apply number_char_not_delim.
Qed.

Definition dumps_item (kv : string * json) : string := quote kv.1 +:+ ":" +:+ dumps kv.2.

Lemma dumps_item_no_close : no_close dumps_item.
Proof. intros kv t. eexists _, _; split; done. Qed.

Lemma dumps_item_prefix_free kv : prefix_free dumps kv.2 → prefix_free dumps_item kv.
Proof.
  intros Hv [k' v'] r s Hr Hs. unfold dumps_item. rewrite !append_assoc.
  intros [Hk H]%quote_prefix_free. rewrite !append_cons, !append_nil in H. simplify_eq/=.
  apply Hv in H as [Hv' ->]; [|done..]. destruct kv; naive_solver.
Qed.

(** The head character of the printed text determines the constructor. *)
Definition head_char (j : json) : option ascii :=
  match j with
  | JNull => Some "n" | JBool true => Some "t" | JBool false => Some "f"
  | JInt _ => None
  | JStr _ => Some dquote | JArr _ => Some "[" | JObj _ => Some "{"
  end%char.

Lemma dumps_head j t : ∃ c u, dumps j +:+ t = String c u ∧
  match head_char j with Some d => c = d | None => is_number_char c = true end.
Proof.
  destruct j as [|[]|n|s|l|l]; simpl; try (eexists _, _; split; done).
  destruct (zstr_head n) as (c & u & -> & Hc & _). by eexists _, _.
Qed.

Theorem dumps_prefix_free j : prefix_free dumps j.
Proof.
  induction j as [|b|n|s|l IH|l IH] using json_ind; intros j' r r' Hr Hr' H;
    pose proof H as Hhead;
    match type of Hhead with dumps ?a +:+ ?t = dumps ?b +:+ ?t' =>
      destruct (dumps_head a t) as (c & u & E & Hc);
      destruct (dumps_head b t') as (c' & u' & E' & Hc');
      rewrite E, E' in Hhead; injection Hhead as Hcc _; clear E E' end;
    subst c';
    destruct j' as [|b'|n'|s'|l'|l'];
    try (destruct b); try (destruct b');
    simpl in Hc, Hc'; subst; try done; simpl in H; rewrite ?append_cons, ?append_nil in H.
  - by simplify_eq.
  - by simplify_eq.
  - by simplify_eq.
  - apply zstr_prefix_free in H as [-> ->]; done.
  - apply quote_prefix_free in H as [-> ->]; done.
  - injection H as H. rewrite !append_assoc, !append_cons, !append_nil in H.
    apply join_prefix_free in H as [-> ->]; [done..|apply dumps_no_close|done].
  - injection H as H. rewrite !append_assoc, !append_cons, !append_nil in H.
    apply (join_prefix_free dumps_item) in H as [-> ->]; [done..|apply dumps_item_no_close|].
    eapply Forall_impl; [exact IH|]. intros kv Hkv. by apply dumps_item_prefix_free.
Qed.

(** Documents with the same canonical text are the same up to key order. *)
Theorem canonical_json_inj a b : canonical_json a = canonical_json b → sort_keys a = sort_keys b.
Proof.
  unfold canonical_json. intros H.
  destruct (dumps_prefix_free (sort_keys a) (sort_keys b) "" "") as [-> _]; [done..|by rewrite H|done].
Qed.

(** * Key order is irrelevant *)

Lemma assoc_elem {A} k (l : list (string * A)) v :
  NoDup l.*1 → assoc k l = Some v ↔ (k, v) ∈ l.
Proof.
  induction l as [|[k' v'] l IH]; simpl; intros Hnd.
  - split; [done|]. by intros ?%elem_of_nil.
  - apply NoDup_cons in Hnd as [Hk Hnd]. rewrite elem_of_cons. case_bool_decide; subst.
    + split; [naive_solver|]. intros [[=]|Hin]; [by subst|].
      destruct Hk. apply list_elem_of_fmap. by exists (k', v).
    + rewrite IH by done. naive_solver.
Qed.

Lemma assoc_perm {A} k (l l' : list (string * A)) :
  NoDup l.*1 → l ≡ₚ l' → assoc k l = assoc k l'.
Proof.
  intros Hnd Hp. apply option_eq. intros v.
  rewrite !assoc_elem; [by rewrite Hp| |done]. by rewrite <-Hp.
Qed.

Lemma assoc_map {A B} (f : A → B) k (l : list (string * A)) :
  assoc k (map (λ kv, (kv.1, f kv.2)) l) = f <$> assoc k l.
Proof.
  induction l as [|[k' v] l IH]; [done|]. simpl. by case_bool_decide.
Qed.

Definition sort_item (kv : string * json) : string * json := (kv.1, sort_keys kv.2).

Lemma sort_item_keys (kvs : list (string * json)) : (map sort_item kvs).*1 = kvs.*1.
Proof. induction kvs as [|kv kvs IH]; [done|]. simpl. by f_equal. Qed.

Lemma jget_sort_keys k kvs :
  NoDup kvs.*1 → jget k (sort_keys (JObj kvs)) = sort_keys <$> assoc k kvs.
Proof.
  intros Hnd. cbn [sort_keys jget]. change (λ kv, (kv.1, sort_keys kv.2)) with sort_item.
  rewrite <-(assoc_perm k (map sort_item kvs)).
  - apply assoc_map.
  - by rewrite sort_item_keys.
  - by rewrite merge_sort_Permutation.
Qed.

(** Sorting keys by a total order leaves one arrangement. *)
Lemma key_sort_unique (l l' : list (string * json)) :
  NoDup l.*1 → l ≡ₚ l' → merge_sort key_le l = merge_sort key_le l'.
Proof.
  intros Hnd Hp.
  apply (StronglySorted_unique_strong key_le).
  - intros [k v] [k' v'] Hin Hin' Hle Hle'.
    rewrite merge_sort_Permutation in Hin. rewrite merge_sort_Permutation, <-Hp in Hin'.
    unfold key_le in *; simpl in *.
    assert (k = k') as -> by (by apply (anti_symm String.le)).
    apply assoc_elem in Hin, Hin'; [|done..]. congruence.
  - apply (StronglySorted_merge_sort _).
  - apply (StronglySorted_merge_sort _).
  - by rewrite !merge_sort_Permutation.
Qed.

Theorem canonical_json_key_order kvs kvs' :
  NoDup kvs.*1 → kvs ≡ₚ kvs' → canonical_json (JObj kvs) = canonical_json (JObj kvs').
Proof.
  intros Hnd Hp. unfold canonical_json. cbn [sort_keys].
  change (λ kv, (kv.1, sort_keys kv.2)) with sort_item.
  rewrite (key_sort_unique (map sort_item kvs) (map sort_item kvs')); [done| |].
  - by rewrite sort_item_keys.
  - by apply Permutation_map.
Qed.

(** Documents of the same canonical text are equal as Python values. *)
Lemma jobj_sort_keys_inv l m :
  wf_json (JObj l) = true → wf_json (JObj m) = true →
  sort_keys (JObj l) = sort_keys (JObj m) →
  length l = length m ∧ ∀ k, sort_keys <$> assoc k l = sort_keys <$> assoc k m.
Proof.
  cbn [wf_json]. intros [Hl _]%andb_prop [Hm _]%andb_prop Heq.
  apply bool_decide_eq_true in Hl, Hm. split.
  - cbn [sort_keys] in Heq. injection Heq as Heq. apply (f_equal length) in Heq.
    by rewrite !(Permutation_length (merge_sort_Permutation key_le _)), !length_map in Heq.
  - intros k. by rewrite <-!jget_sort_keys, Heq.
Qed.

Lemma assoc_wf k m v : forallb (λ kv, wf_json kv.2) m = true → assoc k m = Some v → wf_json v = true.
Proof.
  induction m as [|[k' v'] m IH]; [done|]. simpl. intros [? ?]%andb_prop.
  case_bool_decide; naive_solver.
Qed.

Lemma sort_keys_py_eq a b :
  wf_json a = true → wf_json b = true → sort_keys a = sort_keys b → py_eq a b = true.
Proof.
  revert b. induction a as [|x|n|s|l IH|l IH] using json_ind; intros b Ha Hb H;
    destruct b as [|y|m|t|m|m]; try done.
  - simpl in *. apply bool_decide_eq_true. congruence.
  - simpl in *. apply Z.eqb_eq. congruence.
  - simpl in *. apply bool_decide_eq_true. congruence.
  - cbn [sort_keys] in H. injection H as H. simpl in Ha, Hb. cbn [py_eq].
    revert m Hb H. induction IH as [|x l Hx _ IHl]; intros [|y m] Hb H; try done.
    simpl in *. apply andb_prop in Ha as [? ?], Hb as [? ?]. injection H as ? ?.
    rewrite Hx by done. by rewrite IHl.
  - destruct (jobj_sort_keys_inv l m) as [Hlen Hk]; [done..|].
    cbn [py_eq]. rewrite bool_decide_eq_true_2 by done. simpl in Ha, Hb |- *.
    apply andb_prop in Ha as [Hnd Hal], Hb as [_ Hbm]. apply bool_decide_eq_true in Hnd.
    assert (Forall (λ kv, ∃ v, assoc kv.1 m = Some v ∧ sort_keys kv.2 = sort_keys v) l) as Hm.
    { apply Forall_forall. intros [k v] Hin%assoc_elem; [|done].
      specialize (Hk k). rewrite Hin in Hk. simpl.
      destruct (assoc k m) as [v'|]; [|done]. exists v'. split; [done|]. simpl in Hk. congruence. }
    clear Hnd H Hlen Hk. revert Hal Hm. induction IH as [|[k v] l Hx _ IHl]; [done|].
    simpl. intros [Hv Hal]%andb_prop [(v' & E & Hvv') Hm]%Forall_cons. simpl in *.
    rewrite E, Hx; eauto using assoc_wf.
Qed.
