(* ===== verification/Contracts.v ===== *)
(** The wire contracts of [packages/contracts-python]: enumerations, immutable
    records with the constraints their fields declare, the validators that run
    after field validation, and the canonical hashes of [canonical.py].

    A record type is the validated model.  [<Model>_ok] is the test
    [model_validate] applies to already stripped field values: the [Field]
    constraints of the class followed by its validator.  Timestamps are instants
    in microseconds, URLs are strings, and [JsonValue] is [json]. *)

From Stdlib Require Import Ascii QArith.
From S2P Require Import Prelude Json.
Open Scope Z_scope.

(** * Services of the platform

    The hash function and the rendering of timestamps belong to libraries; the
    code relies on the shape of their results and, for timestamps, on distinct
    instants having distinct renderings. *)

Class Platform := {
  sha256_hex : string → string;
  sha256_hex_shape : ∀ s, is_hex64 (sha256_hex s) = true;
  isoformat : Z → string;
  isoformat_inj : ∀ a b, isoformat a = isoformat b → a = b;
}.

(** * Enumerations *)

Inductive RiskLevel := UNKNOWN | LOW | MEDIUM | HIGH | CRITICAL.
Inductive ChangeEnvironment := LOCAL | TEST | SANDBOX.
Inductive WorkflowState :=
| RECEIVED | SCREENING | BLOCKED | ANALYZING | PLAN_READY | AWAITING_APPROVAL | APPROVED
| REJECTED | EXECUTING | VERIFYING | ROLLING_BACK | COMPLETED | FAILED | PARTIAL | CANCELLED
| NEEDS_ATTENTION.
Inductive PolicyEffect :=
| ALLOW | DENY | REQUIRE_APPROVAL | BLOCK_SECURITY | RATE_LIMIT | NEEDS_REVIEW.
Inductive ApprovalDecision := DecisionApproved | DecisionRejected.
Inductive UserRole := CHANGE_REQUESTER | APPROVER | AUDITOR | PLATFORM_ADMIN.
Inductive ActorType := ActorUser | ActorAgent | ActorService | ActorSystem.
Inductive AuditStatus := AuditSuccess | AuditRejected | AuditFailure.
Inductive AgentStatus := AgentActive | AgentDisabled.
Inductive EvidenceTrust := TrustPlatform | TrustUntrusted.

#[export] Instance RiskLevel_eq_dec : EqDecision RiskLevel.
Proof. solve_decision. Defined.
#[export] Instance ChangeEnvironment_eq_dec : EqDecision ChangeEnvironment.
Proof. solve_decision. Defined.
#[export] Instance WorkflowState_eq_dec : EqDecision WorkflowState.
Proof. solve_decision. Defined.
#[export] Instance PolicyEffect_eq_dec : EqDecision PolicyEffect.
Proof. solve_decision. Defined.
#[export] Instance ApprovalDecision_eq_dec : EqDecision ApprovalDecision.
Proof. solve_decision. Defined.
#[export] Instance UserRole_eq_dec : EqDecision UserRole.
Proof. solve_decision. Defined.
#[export] Instance ActorType_eq_dec : EqDecision ActorType.
Proof. solve_decision. Defined.
#[export] Instance AuditStatus_eq_dec : EqDecision AuditStatus.
Proof. solve_decision. Defined.
#[export] Instance AgentStatus_eq_dec : EqDecision AgentStatus.
Proof. solve_decision. Defined.

Definition RiskLevel_value (r : RiskLevel) : string :=
  match r with
  | UNKNOWN => "unknown" | LOW => "low" | MEDIUM => "medium" | HIGH => "high"
  | CRITICAL => "critical"
  end.
Definition ChangeEnvironment_value (e : ChangeEnvironment) : string :=
  match e with LOCAL => "local" | TEST => "test" | SANDBOX => "sandbox" end.
Definition WorkflowState_value (s : WorkflowState) : string :=
  match s with
  | RECEIVED => "RECEIVED" | SCREENING => "SCREENING" | BLOCKED => "BLOCKED"
  | ANALYZING => "ANALYZING" | PLAN_READY => "PLAN_READY"
  | AWAITING_APPROVAL => "AWAITING_APPROVAL" | APPROVED => "APPROVED" | REJECTED => "REJECTED"
  | EXECUTING => "EXECUTING" | VERIFYING => "VERIFYING" | ROLLING_BACK => "ROLLING_BACK"
  | COMPLETED => "COMPLETED" | FAILED => "FAILED" | PARTIAL => "PARTIAL"
  | CANCELLED => "CANCELLED" | NEEDS_ATTENTION => "NEEDS_ATTENTION"
  end.
Definition PolicyEffect_value (e : PolicyEffect) : string :=
  match e with
  | ALLOW => "ALLOW" | DENY => "DENY" | REQUIRE_APPROVAL => "REQUIRE_APPROVAL"
  | BLOCK_SECURITY => "BLOCK_SECURITY" | RATE_LIMIT => "RATE_LIMIT"
  | NEEDS_REVIEW => "NEEDS_REVIEW"
  end.
Definition UserRole_value (r : UserRole) : string :=
  match r with
  | CHANGE_REQUESTER => "CHANGE_REQUESTER" | APPROVER => "APPROVER" | AUDITOR => "AUDITOR"
  | PLATFORM_ADMIN => "PLATFORM_ADMIN"
  end.
Definition AuditStatus_value (s : AuditStatus) : string :=
  match s with AuditSuccess => "success" | AuditRejected => "rejected" | AuditFailure => "failure" end.

(** * Records and their validation *)

Abbreviation NonEmptyStr := string.
Abbreviation Reference := string.
Abbreviation Sha256Digest := string.
Abbreviation AwareDatetime := Z.

(** [Confidence] is [Field(ge=0.0, le=1.0)]. *)
Definition confidence_ok (c : Q) : bool := Qle_bool 0 c && Qle_bool c 1.

(** [tuple[T, ...] = Field(min_length=n)] with a test on every element. *)
Definition tuple_ok {A} (min_length : nat) (p : A → bool) (l : list A) : bool :=
  (min_length <=? length l)%nat && forallb p l.

Record ChangeSource := mkChangeSource {
  src_type : NonEmptyStr; src_external_id : NonEmptyStr; src_url : string }.
Definition ChangeSource_ok (x : ChangeSource) : bool :=
  nonempty_str x.(src_type) && nonempty_str x.(src_external_id).

Record ChangeSubject := mkChangeSubject {
  sub_system_id : NonEmptyStr; sub_resource_type : NonEmptyStr; sub_resource_id : NonEmptyStr }.
Definition ChangeSubject_ok (x : ChangeSubject) : bool :=
  nonempty_str x.(sub_system_id) && nonempty_str x.(sub_resource_type) &&
  nonempty_str x.(sub_resource_id).

Record ChangeDetails := mkChangeDetails {
  det_summary : NonEmptyStr; det_old_version : NonEmptyStr; det_new_version : NonEmptyStr;
  det_artifact_refs : list Reference }.
Definition ChangeDetails_ok (x : ChangeDetails) : bool :=
  nonempty_str x.(det_summary) && nonempty_str x.(det_old_version) &&
  nonempty_str x.(det_new_version) && tuple_ok 1 reference_str x.(det_artifact_refs).

Record ChangeEvent := mkChangeEvent {
  ev_event_id : NonEmptyStr;
  ev_tenant_id : NonEmptyStr;
  ev_event_type : NonEmptyStr;
  ev_source : ChangeSource;
  ev_occurred_at : AwareDatetime;
  ev_received_at : AwareDatetime;
  ev_subject : ChangeSubject;
  ev_change : ChangeDetails;
  ev_correlation_id : NonEmptyStr;
  ev_trace_id : NonEmptyStr }.
Definition ChangeEvent_ok (x : ChangeEvent) : bool :=
  nonempty_str x.(ev_event_id) && nonempty_str x.(ev_tenant_id) &&
  nonempty_str x.(ev_event_type) && ChangeSource_ok x.(ev_source) &&
  ChangeSubject_ok x.(ev_subject) && ChangeDetails_ok x.(ev_change) &&
  nonempty_str x.(ev_correlation_id) && nonempty_str x.(ev_trace_id).

Record ChangeRecord := mkChangeRecord {
  cr_change_id : NonEmptyStr;
  cr_tenant_id : NonEmptyStr;
  cr_event_id : NonEmptyStr;
  cr_change_type : NonEmptyStr;
  cr_title : NonEmptyStr;
  cr_description : NonEmptyStr;
  cr_source : ChangeSource;
  cr_environment : ChangeEnvironment;
  cr_status : WorkflowState;
  cr_risk_level : RiskLevel;
  cr_current_phase : WorkflowState;
  cr_workflow_execution_id : option NonEmptyStr;
  cr_plan_version : Z;
  cr_plan_hash : option Sha256Digest;
  cr_created_at : AwareDatetime;
  cr_updated_at : AwareDatetime;
  cr_created_by : NonEmptyStr;
  cr_version : Z }.
(** [validate_state_and_timestamps]. *)
Definition ChangeRecord_validate (x : ChangeRecord) : result string unit :=
  _ ← unless (bool_decide (x.(cr_current_phase) = x.(cr_status)))
        "current_phase must match status";
  unless (x.(cr_created_at) <=? x.(cr_updated_at)) "updated_at cannot be earlier than created_at".
Definition ChangeRecord_ok (x : ChangeRecord) : bool :=
  nonempty_str x.(cr_change_id) && nonempty_str x.(cr_tenant_id) &&
  nonempty_str x.(cr_event_id) && nonempty_str x.(cr_change_type) &&
  nonempty_str x.(cr_title) && nonempty_str x.(cr_description) &&
  ChangeSource_ok x.(cr_source) &&
  opt_ok nonempty_str x.(cr_workflow_execution_id) &&
  (0 <=? x.(cr_plan_version)) && opt_ok sha256_str x.(cr_plan_hash) &&
  nonempty_str x.(cr_created_by) && (1 <=? x.(cr_version)) &&
  is_ok (ChangeRecord_validate x).

Record ImpactFinding := mkImpactFinding {
  fnd_finding_id : NonEmptyStr; fnd_tenant_id : NonEmptyStr; fnd_change_id : NonEmptyStr;
  fnd_system_id : NonEmptyStr; fnd_finding_type : NonEmptyStr; fnd_severity : RiskLevel;
  fnd_confidence : Q; fnd_summary : NonEmptyStr; fnd_evidence_refs : list Reference;
  fnd_owner_refs : list Reference; fnd_recommended_actions : list NonEmptyStr;
  fnd_created_by_agent : NonEmptyStr; fnd_created_at : AwareDatetime }.
Definition ImpactFinding_ok (x : ImpactFinding) : bool :=
  nonempty_str x.(fnd_finding_id) && nonempty_str x.(fnd_tenant_id) &&
  nonempty_str x.(fnd_change_id) && nonempty_str x.(fnd_system_id) &&
  nonempty_str x.(fnd_finding_type) && confidence_ok x.(fnd_confidence) &&
  nonempty_str x.(fnd_summary) && tuple_ok 1 reference_str x.(fnd_evidence_refs) &&
  tuple_ok 0 reference_str x.(fnd_owner_refs) &&
  tuple_ok 0 nonempty_str x.(fnd_recommended_actions) && nonempty_str x.(fnd_created_by_agent).

Record RemediationStep := mkRemediationStep {
  st_step_id : NonEmptyStr;
  st_order : Z;
  st_agent_id : NonEmptyStr;
  st_tool_name : NonEmptyStr;
  st_resource : NonEmptyStr;
  st_arguments : list (string * json);
  st_depends_on : list NonEmptyStr;
  st_risk_level : RiskLevel;
  st_requires_approval : bool;
  st_idempotency_key : NonEmptyStr }.
Definition RemediationStep_ok (x : RemediationStep) : bool :=
  nonempty_str x.(st_step_id) && (1 <=? x.(st_order)) && nonempty_str x.(st_agent_id) &&
  nonempty_str x.(st_tool_name) && nonempty_str x.(st_resource) &&
  wf_json (JObj x.(st_arguments)) && tuple_ok 0 nonempty_str x.(st_depends_on) &&
  nonempty_str x.(st_idempotency_key).

Record RemediationPlan := mkRemediationPlan {
  pl_plan_id : NonEmptyStr;
  pl_tenant_id : NonEmptyStr;
  pl_change_id : NonEmptyStr;
  pl_version : Z;
  pl_risk_level : RiskLevel;
  pl_summary : NonEmptyStr;
  pl_preconditions : list NonEmptyStr;
  pl_steps : list RemediationStep;
  pl_verification_steps : list NonEmptyStr;
  pl_rollback_steps : list NonEmptyStr;
  pl_evidence_refs : list Reference;
  pl_created_at : AwareDatetime }.

(** [{step.step_id: step for step in steps}]: a later duplicate replaces an
    earlier entry. *)
Definition steps_by_id (steps : list RemediationStep) : gmap string RemediationStep :=
  foldl (λ m s, <[s.(st_step_id) := s]> m) ∅ steps.

(** [validate_step_graph]. *)
Definition RemediationPlan_validate (x : RemediationPlan) : result string unit :=
  let by_id := steps_by_id x.(pl_steps) in
  let n := length x.(pl_steps) in
  let orders : gset Z := list_to_set (st_order <$> x.(pl_steps)) in
  _ ← unless (bool_decide (size by_id = n)) "plan step_id values must be unique";
  _ ← unless (bool_decide (size orders = n)) "plan step order values must be unique";
  _ ← unless (bool_decide (orders = list_to_set (seqZ 1 (Z.of_nat n))))
        "plan step order values must be contiguous and start at 1";
  for_each x.(pl_steps) (λ step,
    for_each step.(st_depends_on) (λ dependency_id,
      match by_id !! dependency_id with
      | None => Err ("unknown step dependency: " +:+ dependency_id)
      | Some dependency =>
          unless (dependency.(st_order) <? step.(st_order))
            "step dependencies must precede the dependent step"
      end)).
Definition RemediationPlan_ok (x : RemediationPlan) : bool :=
  nonempty_str x.(pl_plan_id) && nonempty_str x.(pl_tenant_id) &&
  nonempty_str x.(pl_change_id) && (1 <=? x.(pl_version)) && nonempty_str x.(pl_summary) &&
  tuple_ok 0 nonempty_str x.(pl_preconditions) && tuple_ok 1 RemediationStep_ok x.(pl_steps) &&
  tuple_ok 1 nonempty_str x.(pl_verification_steps) &&
  tuple_ok 1 nonempty_str x.(pl_rollback_steps) &&
  tuple_ok 1 reference_str x.(pl_evidence_refs) &&
  is_ok (RemediationPlan_validate x).

Record ToolIntent := mkToolIntent {
  in_intent_id : NonEmptyStr;
  in_tenant_id : NonEmptyStr;
  in_change_id : NonEmptyStr;
  in_workflow_execution_id : NonEmptyStr;
  in_plan_id : NonEmptyStr;
  in_plan_hash : Sha256Digest;
  in_step_id : NonEmptyStr;
  in_agent_identity : NonEmptyStr;
  in_tool_name : NonEmptyStr;
  in_action : NonEmptyStr;
  in_resource : NonEmptyStr;
  in_arguments : list (string * json);
  in_reason : NonEmptyStr;
  in_evidence_refs : list Reference;
  in_idempotency_key : NonEmptyStr;
  in_requested_at : AwareDatetime }.
Definition ToolIntent_ok (x : ToolIntent) : bool :=
  nonempty_str x.(in_intent_id) && nonempty_str x.(in_tenant_id) &&
  nonempty_str x.(in_change_id) && nonempty_str x.(in_workflow_execution_id) &&
  nonempty_str x.(in_plan_id) && sha256_str x.(in_plan_hash) && nonempty_str x.(in_step_id) &&
  nonempty_str x.(in_agent_identity) && nonempty_str x.(in_tool_name) &&
  nonempty_str x.(in_action) && nonempty_str x.(in_resource) &&
  wf_json (JObj x.(in_arguments)) && nonempty_str x.(in_reason) &&
  tuple_ok 0 reference_str x.(in_evidence_refs) && nonempty_str x.(in_idempotency_key).

Record PolicyDecision := mkPolicyDecision {
  pd_decision_id : NonEmptyStr;
  pd_tenant_id : NonEmptyStr;
  pd_intent_id : NonEmptyStr;
  pd_effect : PolicyEffect;
  pd_computed_risk : RiskLevel;
  pd_approval_required : bool;
  pd_approval_valid : bool;
  pd_matched_policy_ids : list NonEmptyStr;
  pd_reasons : list NonEmptyStr;
  pd_evaluated_at : AwareDatetime }.
Definition PolicyDecision_ok (x : PolicyDecision) : bool :=
  nonempty_str x.(pd_decision_id) && nonempty_str x.(pd_tenant_id) &&
  nonempty_str x.(pd_intent_id) && tuple_ok 0 nonempty_str x.(pd_matched_policy_ids) &&
  tuple_ok 1 nonempty_str x.(pd_reasons).

Record Approval := mkApproval {
  ap_approval_id : NonEmptyStr;
  ap_tenant_id : NonEmptyStr;
  ap_change_id : NonEmptyStr;
  ap_plan_id : NonEmptyStr;
  ap_plan_hash : Sha256Digest;
  ap_plan_version : Z;
  ap_environment : ChangeEnvironment;
  ap_decision : ApprovalDecision;
  ap_scope : list NonEmptyStr;
  ap_approved_by : NonEmptyStr;
  ap_approved_by_roles : list UserRole;
  ap_approved_at : AwareDatetime;
  ap_expires_at : AwareDatetime;
  ap_comment : NonEmptyStr }.
#[export] Instance Approval_eq_dec : EqDecision Approval.
Proof. solve_decision. Defined.
(** [validate_expiration]. *)
Definition Approval_validate (x : Approval) : result string unit :=
  _ ← unless (x.(ap_approved_at) <? x.(ap_expires_at))
        "approval expiration must be after the decision time";
  _ ← unless (unique x.(ap_approved_by_roles)) "approved_by_roles values must be unique";
  unless (intersects [APPROVER; PLATFORM_ADMIN] x.(ap_approved_by_roles))
    "approval requires an APPROVER or PLATFORM_ADMIN role".
Definition Approval_ok (x : Approval) : bool :=
  nonempty_str x.(ap_approval_id) && nonempty_str x.(ap_tenant_id) &&
  nonempty_str x.(ap_change_id) && nonempty_str x.(ap_plan_id) &&
  sha256_str x.(ap_plan_hash) && (1 <=? x.(ap_plan_version)) &&
  tuple_ok 1 nonempty_str x.(ap_scope) && nonempty_str x.(ap_approved_by) &&
  tuple_ok 1 (λ _, true) x.(ap_approved_by_roles) && nonempty_str x.(ap_comment) &&
  is_ok (Approval_validate x).

Record AuditEvent := mkAuditEvent {
  au_audit_event_id : NonEmptyStr;
  au_tenant_id : NonEmptyStr;
  au_change_id : NonEmptyStr;
  au_trace_id : NonEmptyStr;
  au_event_type : NonEmptyStr;
  au_actor_type : ActorType;
  au_actor_id : NonEmptyStr;
  au_resource : NonEmptyStr;
  au_action : NonEmptyStr;
  au_decision_id : option NonEmptyStr;
  au_input_hash : Sha256Digest;
  au_output_hash : Sha256Digest;
  au_status : AuditStatus;
  au_redacted_summary : NonEmptyStr;
  au_created_at : AwareDatetime }.
#[export] Instance AuditEvent_eq_dec : EqDecision AuditEvent.
Proof. solve_decision. Defined.
Definition AuditEvent_ok (x : AuditEvent) : bool :=
  nonempty_str x.(au_audit_event_id) && nonempty_str x.(au_tenant_id) &&
  nonempty_str x.(au_change_id) && nonempty_str x.(au_trace_id) &&
  nonempty_str x.(au_event_type) && nonempty_str x.(au_actor_id) &&
  nonempty_str x.(au_resource) && nonempty_str x.(au_action) &&
  opt_ok nonempty_str x.(au_decision_id) && sha256_str x.(au_input_hash) &&
  sha256_str x.(au_output_hash) && nonempty_str x.(au_redacted_summary).

Record AgentInvocationBudget := mkAgentInvocationBudget {
  bud_max_model_calls : Z; bud_max_tool_calls : Z; bud_max_turns : Z; bud_timeout_seconds : Q }.
Definition AgentInvocationBudget_ok (x : AgentInvocationBudget) : bool :=
  (1 <=? x.(bud_max_model_calls)) && (x.(bud_max_model_calls) <=? 10) &&
  (0 <=? x.(bud_max_tool_calls)) && (x.(bud_max_tool_calls) <=? 25) &&
  (1 <=? x.(bud_max_turns)) && (x.(bud_max_turns) <=? 10) &&
  negb (Qle_bool x.(bud_timeout_seconds) 0) && Qle_bool x.(bud_timeout_seconds) 300.

(** ["*" in s]. *)
Fixpoint has_star (s : string) : bool :=
  match s with
  | EmptyString => false
  | String c s => bool_decide (c = "*"%char) || has_star s
  end.

Record AgentRegistration := mkAgentRegistration {
  ag_agent_id : NonEmptyStr;
  ag_tenant_id : NonEmptyStr;
  ag_display_name : NonEmptyStr;
  ag_description : NonEmptyStr;
  ag_version : NonEmptyStr;
  ag_owner : NonEmptyStr;
  ag_capabilities : list NonEmptyStr;
  ag_allowed_tools : list NonEmptyStr;
  ag_allowed_resource_patterns : list NonEmptyStr;
  ag_risk_ceiling : RiskLevel;
  ag_runtime_endpoint : string;
  ag_identity_reference : NonEmptyStr;
  ag_status : AgentStatus;
  ag_budget : AgentInvocationBudget;
  ag_created_at : AwareDatetime;
  ag_updated_at : AwareDatetime }.
(** [validate_registration]. *)
Definition AgentRegistration_validate (x : AgentRegistration) : result string unit :=
  _ ← unless (x.(ag_created_at) <=? x.(ag_updated_at))
        "updated_at cannot be earlier than created_at";
  _ ← for_each [(x.(ag_capabilities), "capabilities"); (x.(ag_allowed_tools), "allowed_tools");
                (x.(ag_allowed_resource_patterns), "allowed_resource_patterns")]
        (λ '(values, label), unless (unique values) (label +:+ " values must be unique"));
  _ ← unless (negb (existsb (λ tool, bool_decide (tool = "*") || has_star tool)
                       x.(ag_allowed_tools)))
        "agent tools must be exact registered tool names";
  unless (negb (existsb (λ pattern, bool_decide (pattern = "*"))
                  x.(ag_allowed_resource_patterns)))
    "agent resource scope cannot be unrestricted".
Definition AgentRegistration_ok (x : AgentRegistration) : bool :=
  nonempty_str x.(ag_agent_id) && nonempty_str x.(ag_tenant_id) &&
  nonempty_str x.(ag_display_name) && nonempty_str x.(ag_description) &&
  nonempty_str x.(ag_version) && nonempty_str x.(ag_owner) &&
  tuple_ok 1 nonempty_str x.(ag_capabilities) && tuple_ok 0 nonempty_str x.(ag_allowed_tools) &&
  tuple_ok 1 nonempty_str x.(ag_allowed_resource_patterns) &&
  nonempty_str x.(ag_identity_reference) && AgentInvocationBudget_ok x.(ag_budget) &&
  is_ok (AgentRegistration_validate x).

Record EvidenceItem := mkEvidenceItem {
  evi_evidence_id : NonEmptyStr; evi_tenant_id : NonEmptyStr; evi_source_system : NonEmptyStr;
  evi_source_resource : Reference; evi_summary : NonEmptyStr; evi_content_hash : Sha256Digest;
  evi_trust : EvidenceTrust; evi_observed_at : AwareDatetime;
  evi_attributes : list (string * json) }.
Definition EvidenceItem_ok (x : EvidenceItem) : bool :=
  nonempty_str x.(evi_evidence_id) && nonempty_str x.(evi_tenant_id) &&
  nonempty_str x.(evi_source_system) && reference_str x.(evi_source_resource) &&
  nonempty_str x.(evi_summary) && sha256_str x.(evi_content_hash) &&
  wf_json (JObj x.(evi_attributes)).

Record DependencyPath := mkDependencyPath {
  dep_systems : list NonEmptyStr; dep_evidence_refs : list Reference }.
Definition DependencyPath_ok (x : DependencyPath) : bool :=
  tuple_ok 2 nonempty_str x.(dep_systems) && tuple_ok 1 reference_str x.(dep_evidence_refs).

Record OrchestrationDirective := mkOrchestrationDirective {
  orc_tenant_id : NonEmptyStr; orc_change_id : NonEmptyStr;
  orc_normalized_objective : NonEmptyStr; orc_selected_agent_ids : list NonEmptyStr;
  orc_evidence_refs : list Reference; orc_confidence : Q; orc_unknowns : list NonEmptyStr }.
Definition OrchestrationDirective_ok (x : OrchestrationDirective) : bool :=
  nonempty_str x.(orc_tenant_id) && nonempty_str x.(orc_change_id) &&
  nonempty_str x.(orc_normalized_objective) &&
  tuple_ok 6 nonempty_str x.(orc_selected_agent_ids) &&
  (length x.(orc_selected_agent_ids) <=? 6)%nat &&
  tuple_ok 1 reference_str x.(orc_evidence_refs) && confidence_ok x.(orc_confidence) &&
  tuple_ok 0 nonempty_str x.(orc_unknowns).

Record ImpactAnalysis := mkImpactAnalysis {
  imp_tenant_id : NonEmptyStr; imp_change_id : NonEmptyStr;
  imp_affected_systems : list NonEmptyStr; imp_dependency_paths : list DependencyPath;
  imp_severity : RiskLevel; imp_confidence : Q; imp_evidence_refs : list Reference;
  imp_owner_refs : list Reference; imp_unknowns : list NonEmptyStr }.
Definition ImpactAnalysis_ok (x : ImpactAnalysis) : bool :=
  nonempty_str x.(imp_tenant_id) && nonempty_str x.(imp_change_id) &&
  tuple_ok 1 nonempty_str x.(imp_affected_systems) &&
  tuple_ok 0 DependencyPath_ok x.(imp_dependency_paths) && confidence_ok x.(imp_confidence) &&
  tuple_ok 1 reference_str x.(imp_evidence_refs) && tuple_ok 0 reference_str x.(imp_owner_refs) &&
  tuple_ok 0 nonempty_str x.(imp_unknowns).

Record ComplianceAnalysis := mkComplianceAnalysis {
  cmp_tenant_id : NonEmptyStr; cmp_change_id : NonEmptyStr;
  cmp_applicable_policy_ids : list NonEmptyStr; cmp_required_approvals : list NonEmptyStr;
  cmp_required_evidence : list NonEmptyStr; cmp_forbidden_actions : list NonEmptyStr;
  cmp_retention_requirements : list NonEmptyStr; cmp_missing_policy_data : list NonEmptyStr;
  cmp_evidence_refs : list Reference; cmp_confidence : Q }.
Definition ComplianceAnalysis_ok (x : ComplianceAnalysis) : bool :=
  nonempty_str x.(cmp_tenant_id) && nonempty_str x.(cmp_change_id) &&
  tuple_ok 0 nonempty_str x.(cmp_applicable_policy_ids) &&
  tuple_ok 0 nonempty_str x.(cmp_required_approvals) &&
  tuple_ok 0 nonempty_str x.(cmp_required_evidence) &&
  tuple_ok 0 nonempty_str x.(cmp_forbidden_actions) &&
  tuple_ok 0 nonempty_str x.(cmp_retention_requirements) &&
  tuple_ok 0 nonempty_str x.(cmp_missing_policy_data) &&
  tuple_ok 1 reference_str x.(cmp_evidence_refs) && confidence_ok x.(cmp_confidence).

Record RemediationProposal := mkRemediationProposal {
  prp_proposal_id : NonEmptyStr; prp_tenant_id : NonEmptyStr; prp_change_id : NonEmptyStr;
  prp_agent_id : NonEmptyStr; prp_target_system : NonEmptyStr; prp_summary : NonEmptyStr;
  prp_proposed_tool : NonEmptyStr; prp_target_resource : NonEmptyStr;
  prp_proposed_arguments : list (string * json); prp_validation_actions : list NonEmptyStr;
  prp_rollback_actions : list NonEmptyStr; prp_risk_level : RiskLevel;
  prp_requires_approval : bool; prp_confidence : Q; prp_evidence_refs : list Reference;
  prp_unknowns : list NonEmptyStr }.
Definition RemediationProposal_ok (x : RemediationProposal) : bool :=
  nonempty_str x.(prp_proposal_id) && nonempty_str x.(prp_tenant_id) &&
  nonempty_str x.(prp_change_id) && nonempty_str x.(prp_agent_id) &&
  nonempty_str x.(prp_target_system) && nonempty_str x.(prp_summary) &&
  nonempty_str x.(prp_proposed_tool) && nonempty_str x.(prp_target_resource) &&
  wf_json (JObj x.(prp_proposed_arguments)) && tuple_ok 1 nonempty_str x.(prp_validation_actions) &&
  tuple_ok 1 nonempty_str x.(prp_rollback_actions) && confidence_ok x.(prp_confidence) &&
  tuple_ok 1 reference_str x.(prp_evidence_refs) && tuple_ok 0 nonempty_str x.(prp_unknowns).

Record VerificationProposal := mkVerificationProposal {
  ver_tenant_id : NonEmptyStr; ver_change_id : NonEmptyStr; ver_checks : list NonEmptyStr;
  ver_partial_result_handling : NonEmptyStr; ver_failure_handling : NonEmptyStr;
  ver_evidence_refs : list Reference; ver_confidence : Q }.
Definition VerificationProposal_ok (x : VerificationProposal) : bool :=
  nonempty_str x.(ver_tenant_id) && nonempty_str x.(ver_change_id) &&
  tuple_ok 1 nonempty_str x.(ver_checks) && nonempty_str x.(ver_partial_result_handling) &&
  nonempty_str x.(ver_failure_handling) && tuple_ok 1 reference_str x.(ver_evidence_refs) &&
  confidence_ok x.(ver_confidence).

Record AgentInvocationRecord := mkAgentInvocationRecord {
  inv_invocation_id : NonEmptyStr; inv_agent_id : NonEmptyStr;
  inv_identity_reference : NonEmptyStr; inv_model_name : NonEmptyStr; inv_model_calls : Z;
  inv_tool_calls : Z; inv_started_at : AwareDatetime; inv_completed_at : AwareDatetime;
  inv_output_hash : Sha256Digest; inv_evidence_refs : list Reference }.
Definition AgentInvocationRecord_ok (x : AgentInvocationRecord) : bool :=
  nonempty_str x.(inv_invocation_id) && nonempty_str x.(inv_agent_id) &&
  nonempty_str x.(inv_identity_reference) && nonempty_str x.(inv_model_name) &&
  (0 <=? x.(inv_model_calls)) && (0 <=? x.(inv_tool_calls)) && sha256_str x.(inv_output_hash) &&
  tuple_ok 1 reference_str x.(inv_evidence_refs) &&
  (x.(inv_started_at) <=? x.(inv_completed_at)).

Record FleetAnalysisRequest := mkFleetAnalysisRequest {
  far_change_id : NonEmptyStr; far_event : ChangeEvent }.
Definition FleetAnalysisRequest_ok (x : FleetAnalysisRequest) : bool :=
  nonempty_str x.(far_change_id) && ChangeEvent_ok x.(far_event).

Inductive ModelMode := ModeFake | ModeLive.
Record FleetAnalysisResult := mkFleetAnalysisResult {
  fl_analysis_id : NonEmptyStr;
  fl_tenant_id : NonEmptyStr;
  fl_change_id : NonEmptyStr;
  fl_trace_id : NonEmptyStr;
  fl_model_mode : ModelMode;
  fl_orchestration : OrchestrationDirective;
  fl_impact : ImpactAnalysis;
  fl_compliance : ComplianceAnalysis;
  fl_remediation_proposals : list RemediationProposal;
  fl_verification : VerificationProposal;
  fl_draft_plan : RemediationPlan;
  fl_draft_plan_hash : Sha256Digest;
  fl_evidence : list EvidenceItem;
  fl_invocations : list AgentInvocationRecord;
  fl_max_parallel_agents : Z;
  fl_started_at : AwareDatetime;
  fl_completed_at : AwareDatetime }.

(** The evidence the structured outputs cite. *)
Definition fleet_referenced (x : FleetAnalysisResult) : list string :=
  x.(fl_orchestration).(orc_evidence_refs) ++ x.(fl_impact).(imp_evidence_refs) ++
  x.(fl_compliance).(cmp_evidence_refs) ++ x.(fl_verification).(ver_evidence_refs) ++
  (x.(fl_remediation_proposals) ≫= prp_evidence_refs).

(** [validate_analysis_scope]. *)
Definition FleetAnalysisResult_validate (x : FleetAnalysisResult) : result string unit :=
  let tenants := [x.(fl_orchestration).(orc_tenant_id); x.(fl_impact).(imp_tenant_id);
                  x.(fl_compliance).(cmp_tenant_id); x.(fl_verification).(ver_tenant_id)] in
  let changes := [x.(fl_orchestration).(orc_change_id); x.(fl_impact).(imp_change_id);
                  x.(fl_compliance).(cmp_change_id); x.(fl_verification).(ver_change_id)] in
  _ ← unless (x.(fl_started_at) <=? x.(fl_completed_at))
        "completed_at cannot be earlier than started_at";
  _ ← unless (forallb (λ t, bool_decide (t = x.(fl_tenant_id))) tenants)
        "all structured outputs must match the result tenant";
  _ ← unless (forallb (λ c, bool_decide (c = x.(fl_change_id))) changes)
        "all structured outputs must match the result change";
  _ ← unless (bool_decide (x.(fl_draft_plan).(pl_tenant_id) = x.(fl_tenant_id)) &&
              bool_decide (x.(fl_draft_plan).(pl_change_id) = x.(fl_change_id)))
        "draft plan scope must match the result";
  _ ← unless (forallb (λ p, bool_decide (p.(prp_tenant_id) = x.(fl_tenant_id)) &&
                            bool_decide (p.(prp_change_id) = x.(fl_change_id)))
                x.(fl_remediation_proposals))
        "all proposals must match the result scope";
  _ ← unless (bool_decide (size (list_to_set (inv_agent_id <$> x.(fl_invocations)) : gset string)
                           = 7%nat))
        "exactly seven distinct agent invocations are required";
  unless (subset (fleet_referenced x) (evi_evidence_id <$> x.(fl_evidence)))
    "structured outputs may reference only supplied evidence".
Definition FleetAnalysisResult_ok (x : FleetAnalysisResult) : bool :=
  nonempty_str x.(fl_analysis_id) && nonempty_str x.(fl_tenant_id) &&
  nonempty_str x.(fl_change_id) && nonempty_str x.(fl_trace_id) &&
  OrchestrationDirective_ok x.(fl_orchestration) && ImpactAnalysis_ok x.(fl_impact) &&
  ComplianceAnalysis_ok x.(fl_compliance) &&
  tuple_ok 3 RemediationProposal_ok x.(fl_remediation_proposals) &&
  (length x.(fl_remediation_proposals) <=? 3)%nat &&
  VerificationProposal_ok x.(fl_verification) && RemediationPlan_ok x.(fl_draft_plan) &&
  sha256_str x.(fl_draft_plan_hash) && tuple_ok 1 EvidenceItem_ok x.(fl_evidence) &&
  tuple_ok 7 AgentInvocationRecord_ok x.(fl_invocations) &&
  (length x.(fl_invocations) <=? 7)%nat && (1 <=? x.(fl_max_parallel_agents)) &&
  is_ok (FleetAnalysisResult_validate x).

(** * Documents

    [model_dump(mode="json")] of the contracts that are hashed. *)

Section Documents.
Context `{Platform}.

Definition jopt (o : option string) : json := match o with Some s => JStr s | None => JNull end.
Definition jtime (t : Z) : json := JStr (isoformat t).
Definition jstrs (l : list string) : json := JArr (JStr <$> l).

Definition source_json (s : ChangeSource) : json := JObj [
  ("type", JStr s.(src_type)); ("external_id", JStr s.(src_external_id));
  ("url", JStr s.(src_url))].

Definition event_json (e : ChangeEvent) : json := JObj [
  ("schema_version", JStr "1.0");
  ("event_id", JStr e.(ev_event_id));
  ("tenant_id", JStr e.(ev_tenant_id));
  ("event_type", JStr e.(ev_event_type));
  ("source", source_json e.(ev_source));
  ("occurred_at", jtime e.(ev_occurred_at));
  ("received_at", jtime e.(ev_received_at));
  ("subject", JObj [
    ("system_id", JStr e.(ev_subject).(sub_system_id));
    ("resource_type", JStr e.(ev_subject).(sub_resource_type));
    ("resource_id", JStr e.(ev_subject).(sub_resource_id))]);
  ("change", JObj [
    ("summary", JStr e.(ev_change).(det_summary));
    ("old_version", JStr e.(ev_change).(det_old_version));
    ("new_version", JStr e.(ev_change).(det_new_version));
    ("artifact_refs", jstrs e.(ev_change).(det_artifact_refs))]);
  ("correlation_id", JStr e.(ev_correlation_id));
  ("trace_id", JStr e.(ev_trace_id))].

Definition change_json (c : ChangeRecord) : json := JObj [
  ("change_id", JStr c.(cr_change_id));
  ("tenant_id", JStr c.(cr_tenant_id));
  ("event_id", JStr c.(cr_event_id));
  ("change_type", JStr c.(cr_change_type));
  ("title", JStr c.(cr_title));
  ("description", JStr c.(cr_description));
  ("source", source_json c.(cr_source));
  ("environment", JStr (ChangeEnvironment_value c.(cr_environment)));
  ("status", JStr (WorkflowState_value c.(cr_status)));
  ("risk_level", JStr (RiskLevel_value c.(cr_risk_level)));
  ("current_phase", JStr (WorkflowState_value c.(cr_current_phase)));
  ("workflow_execution_id", jopt c.(cr_workflow_execution_id));
  ("plan_version", JInt c.(cr_plan_version));
  ("plan_hash", jopt c.(cr_plan_hash));
  ("created_at", jtime c.(cr_created_at));
  ("updated_at", jtime c.(cr_updated_at));
  ("created_by", JStr c.(cr_created_by));
  ("version", JInt c.(cr_version))].

Definition step_json (s : RemediationStep) : json := JObj [
  ("step_id", JStr s.(st_step_id));
  ("order", JInt s.(st_order));
  ("agent_id", JStr s.(st_agent_id));
  ("tool_name", JStr s.(st_tool_name));
  ("resource", JStr s.(st_resource));
  ("arguments", JObj s.(st_arguments));
  ("depends_on", jstrs s.(st_depends_on));
  ("risk_level", JStr (RiskLevel_value s.(st_risk_level)));
  ("requires_approval", JBool s.(st_requires_approval));
  ("idempotency_key", JStr s.(st_idempotency_key))].

Definition plan_json (p : RemediationPlan) : json := JObj [
  ("plan_id", JStr p.(pl_plan_id));
  ("tenant_id", JStr p.(pl_tenant_id));
  ("change_id", JStr p.(pl_change_id));
  ("version", JInt p.(pl_version));
  ("risk_level", JStr (RiskLevel_value p.(pl_risk_level)));
  ("summary", JStr p.(pl_summary));
  ("preconditions", jstrs p.(pl_preconditions));
  ("steps", JArr (step_json <$> p.(pl_steps)));
  ("verification_steps", jstrs p.(pl_verification_steps));
  ("rollback_steps", jstrs p.(pl_rollback_steps));
  ("evidence_refs", jstrs p.(pl_evidence_refs));
  ("created_at", jtime p.(pl_created_at))].

Definition decision_json (d : PolicyDecision) : json := JObj [
  ("decision_id", JStr d.(pd_decision_id));
  ("tenant_id", JStr d.(pd_tenant_id));
  ("intent_id", JStr d.(pd_intent_id));
  ("effect", JStr (PolicyEffect_value d.(pd_effect)));
  ("computed_risk", JStr (RiskLevel_value d.(pd_computed_risk)));
  ("approval_required", JBool d.(pd_approval_required));
  ("approval_valid", JBool d.(pd_approval_valid));
  ("matched_policy_ids", jstrs d.(pd_matched_policy_ids));
  ("reasons", jstrs d.(pd_reasons));
  ("evaluated_at", jtime d.(pd_evaluated_at))].

(** * Hashes of [canonical.py] *)

Definition sha256_digest (document : json) : string :=
  "sha256:" +:+ sha256_hex (canonical_json document).

Definition calculate_plan_hash (plan : RemediationPlan) : string :=
  sha256_digest (plan_json plan).

Definition removeprefix (p s : string) : string :=
  match strip_prefix p s with Some r => r | None => s end.

Definition derive_change_id (event : ChangeEvent) : string :=
  let digest := sha256_digest (JObj [
    ("event_id", JStr event.(ev_event_id));
    ("source", JStr event.(ev_source).(src_type));
    ("tenant_id", JStr event.(ev_tenant_id))]) in
  "chg_" +:+ String.substring 0 24 (removeprefix "sha256:" digest).

Definition derive_workflow_id (event : ChangeEvent) : string :=
  let digest := sha256_digest (JObj [
    ("correlation_id", JStr event.(ev_correlation_id));
    ("event_id", JStr event.(ev_event_id));
    ("tenant_id", JStr event.(ev_tenant_id))]) in
  "wf_" +:+ String.substring 0 24 (removeprefix "sha256:" digest).
End Documents.

(** * Equality of plans

    [==] on models compares the fields; tool arguments are dictionaries and
    compare as such. *)

Definition step_eqb (a b : RemediationStep) : bool :=
  bool_decide (a.(st_step_id) = b.(st_step_id)) && bool_decide (a.(st_order) = b.(st_order)) &&
  bool_decide (a.(st_agent_id) = b.(st_agent_id)) &&
  bool_decide (a.(st_tool_name) = b.(st_tool_name)) &&
  bool_decide (a.(st_resource) = b.(st_resource)) &&
  py_eq (JObj a.(st_arguments)) (JObj b.(st_arguments)) &&
  bool_decide (a.(st_depends_on) = b.(st_depends_on)) &&
  bool_decide (a.(st_risk_level) = b.(st_risk_level)) &&
  bool_decide (a.(st_requires_approval) = b.(st_requires_approval)) &&
  bool_decide (a.(st_idempotency_key) = b.(st_idempotency_key)).

Fixpoint list_eqb {A} (eqb : A → A → bool) (l m : list A) : bool :=
  match l, m with
  | [], [] => true
  | x :: l, y :: m => eqb x y && list_eqb eqb l m
  | _, _ => false
  end.

Definition plan_eqb (a b : RemediationPlan) : bool :=
  bool_decide (a.(pl_plan_id) = b.(pl_plan_id)) &&
  bool_decide (a.(pl_tenant_id) = b.(pl_tenant_id)) &&
  bool_decide (a.(pl_change_id) = b.(pl_change_id)) &&
  bool_decide (a.(pl_version) = b.(pl_version)) &&
  bool_decide (a.(pl_risk_level) = b.(pl_risk_level)) &&
  bool_decide (a.(pl_summary) = b.(pl_summary)) &&
  bool_decide (a.(pl_preconditions) = b.(pl_preconditions)) &&
  list_eqb step_eqb a.(pl_steps) b.(pl_steps) &&
  bool_decide (a.(pl_verification_steps) = b.(pl_verification_steps)) &&
  bool_decide (a.(pl_rollback_steps) = b.(pl_rollback_steps)) &&
  bool_decide (a.(pl_evidence_refs) = b.(pl_evidence_refs)) &&
  bool_decide (a.(pl_created_at) = b.(pl_created_at)).

(** * Hash facts *)

Section HashFacts.
Context `{Platform}.

Lemma sha256_digest_ok d : sha256_str (sha256_digest d) = true.
Proof.
  unfold sha256_str, sha256_digest. rewrite strip_prefix_app. apply sha256_hex_shape.
Qed.

Lemma removeprefix_digest d :
  removeprefix "sha256:" (sha256_digest d) = sha256_hex (canonical_json d).
Proof. unfold removeprefix, sha256_digest. by rewrite strip_prefix_app. Qed.

(** A rendered JSON object determines each of its fields. *)
Lemma obj_field k kvs kvs' v v' :
  NoDup kvs.*1 → NoDup kvs'.*1 → sort_keys (JObj kvs) = sort_keys (JObj kvs') →
  assoc k kvs = Some v → assoc k kvs' = Some v' → sort_keys v = sort_keys v'.
Proof.
  intros Hnd Hnd' Heq Hv Hv'. apply (f_equal (jget k)) in Heq.
  rewrite !jget_sort_keys, Hv, Hv' in Heq by done. by injection Heq.
Qed.

Lemma jstrs_inj l m : sort_keys (jstrs l) = sort_keys (jstrs m) → l = m.
Proof.
  cbn [jstrs sort_keys]. intros [=Heq].
  revert m Heq. induction l as [|x l IH]; intros [|y m] Heq; simplify_eq/=; [done|].
  f_equal. by apply IH.
Qed.

Lemma RiskLevel_value_inj a b : RiskLevel_value a = RiskLevel_value b → a = b.
Proof. by destruct a, b. Qed.
End HashFacts.

(** Reads field [k] of two objects with the same rendering. *)
Ltac distinct_keys := apply (bool_decide_unpack _); vm_compute; exact I.
Ltac field_eq k H F :=
  match type of H with
  | sort_keys (JObj ?a) = sort_keys (JObj ?b) =>
      assert (NoDup a.*1) as F by distinct_keys;
      let G := fresh "G" in
      assert (NoDup b.*1) as G by distinct_keys;
      pose proof (obj_field k a b _ _ F G H eq_refl eq_refl) as G';
      clear F G; rename G' into F
  end.
Ltac read_field k H :=
  let F := fresh "F" in
  field_eq k H F;
  first [apply jstrs_inj in F | cbn [sort_keys jtime jopt] in F; injection F as F | idtac].

Section HashBinding.
Context `{Platform}.

Lemma step_json_inj a b :
  RemediationStep_ok a = true → RemediationStep_ok b = true →
  sort_keys (step_json a) = sort_keys (step_json b) → step_eqb a b = true.
Proof.
  unfold RemediationStep_ok. rewrite !andb_true_iff. intros Ha Hb Heq.
  unfold step_json in Heq.
  read_field "step_id" Heq. read_field "order" Heq. read_field "agent_id" Heq.
  read_field "tool_name" Heq. read_field "resource" Heq. read_field "depends_on" Heq.
  read_field "risk_level" Heq. read_field "requires_approval" Heq.
  read_field "idempotency_key" Heq.
  assert (sort_keys (JObj (st_arguments a)) = sort_keys (JObj (st_arguments b))) as Hargs.
  { by field_eq "arguments" Heq F'. }
  apply sort_keys_py_eq in Hargs; [|tauto..].
  apply RiskLevel_value_inj in F5.
  unfold step_eqb. rewrite Hargs. by rewrite !bool_decide_eq_true_2.
Qed.

Lemma steps_json_inj l m :
  forallb RemediationStep_ok l = true → forallb RemediationStep_ok m = true →
  sort_keys (JArr (step_json <$> l)) = sort_keys (JArr (step_json <$> m)) →
  list_eqb step_eqb l m = true.
Proof.
  cbn [sort_keys]. intros Hl Hm [=Heq]. revert m Hm Heq.
  induction l as [|a l IH]; intros [|b m] Hm Heq; try done.
  simpl in Hl, Hm. apply andb_prop in Hl as [Ha Hl], Hm as [Hb Hm].
  rewrite !fmap_cons in Heq. cbn [map] in Heq.
  apply (inj2 cons) in Heq as [Hab Hlm].
  cbn [list_eqb]. apply andb_true_intro. split; [by apply step_json_inj|by apply IH].
Qed.

(** Equal plan hashes mean equal plans, unless the hash function collides on
    the two plan documents. *)
Lemma plan_hash_eqb p q :
  RemediationPlan_ok p = true → RemediationPlan_ok q = true →
  (sha256_hex (canonical_json (plan_json p)) = sha256_hex (canonical_json (plan_json q)) →
   canonical_json (plan_json p) = canonical_json (plan_json q)) →
  calculate_plan_hash p = calculate_plan_hash q → plan_eqb p q = true.
Proof.
  intros Hp Hq Hcoll Hhash.
  assert (canonical_json (plan_json p) = canonical_json (plan_json q)) as Hcan.
  { apply Hcoll. unfold calculate_plan_hash in Hhash.
    by rewrite <-!removeprefix_digest, Hhash. }
  apply canonical_json_inj in Hcan. unfold plan_json in Hcan.
  read_field "plan_id" Hcan. read_field "tenant_id" Hcan. read_field "change_id" Hcan.
  read_field "version" Hcan. read_field "risk_level" Hcan. read_field "summary" Hcan.
  read_field "preconditions" Hcan. read_field "verification_steps" Hcan.
  read_field "rollback_steps" Hcan. read_field "evidence_refs" Hcan.
  read_field "created_at" Hcan.
  apply isoformat_inj in F9. apply RiskLevel_value_inj in F3.
  assert (list_eqb step_eqb (pl_steps p) (pl_steps q) = true) as Hsteps.
  { unfold RemediationPlan_ok, tuple_ok in Hp, Hq. rewrite !andb_true_iff in Hp, Hq.
    apply steps_json_inj; [tauto..|].
    by field_eq "steps" Hcan F'. }
  unfold plan_eqb. rewrite Hsteps. by rewrite !bool_decide_eq_true_2.
Qed.
End HashBinding.

(** * The step graph of a validated plan *)

Lemma steps_by_id_snoc l s : steps_by_id (l ++ [s]) = <[s.(st_step_id) := s]> (steps_by_id l).
Proof. unfold steps_by_id. by rewrite foldl_app. Qed.

Lemma steps_by_id_lookup l i s : steps_by_id l !! i = Some s → s ∈ l ∧ s.(st_step_id) = i.
Proof.
  induction l as [|x l IH] using rev_ind.
  - unfold steps_by_id; simpl. by rewrite lookup_empty.
  - rewrite steps_by_id_snoc, lookup_insert, elem_of_app, list_elem_of_singleton.
    case_decide; naive_solver.
Qed.

Lemma steps_by_id_dom l : dom (steps_by_id l) = list_to_set (st_step_id <$> l).
Proof.
  induction l as [|x l IH] using rev_ind.
  - unfold steps_by_id; simpl. by rewrite dom_empty_L.
  - rewrite steps_by_id_snoc, dom_insert_L, IH, fmap_app, list_to_set_app_L. simpl. set_solver.
Qed.

Lemma steps_by_id_elem l s :
  NoDup (st_step_id <$> l) → s ∈ l → steps_by_id l !! s.(st_step_id) = Some s.
Proof.
  intros Hnd Hin.
  assert (s.(st_step_id) ∈ dom (steps_by_id l)) as Hdom.
  { rewrite steps_by_id_dom, elem_of_list_to_set. by apply list_elem_of_fmap_2. }
  apply elem_of_dom in Hdom as [s' Hs']. rewrite Hs'.
  apply steps_by_id_lookup in Hs' as [Hin' Hid]. f_equal.
  apply list_elem_of_lookup in Hin as [n Hn], Hin' as [n' Hn'].
  assert (n' = n) as ->; [|congruence].
  eapply (NoDup_lookup _ n' n s.(st_step_id)); [exact Hnd| |];
    rewrite list_lookup_fmap, ?Hn', ?Hn; simpl; congruence.
Qed.

(** What [validate_step_graph] establishes. *)
Definition step_graph (l : list RemediationStep) : Prop :=
  NoDup (st_step_id <$> l) ∧ NoDup (st_order <$> l) ∧
  (∀ k, k ∈ st_order <$> l ↔ 1 <= k <= Z.of_nat (length l)) ∧
  ∀ s d, s ∈ l → d ∈ s.(st_depends_on) →
    ∃ s', s' ∈ l ∧ s'.(st_step_id) = d ∧ s'.(st_order) < s.(st_order).

Lemma size_NoDup_iff {A} `{Countable A} (xs : list A) :
  size (list_to_set xs : gset A) = length xs ↔ NoDup xs.
Proof. split; [apply size_list_to_set_NoDup|]. intros. by apply size_list_to_set. Qed.

Lemma orders_range l n :
  (list_to_set (st_order <$> l) : gset Z) = list_to_set (seqZ 1 n) ↔
  ∀ k, k ∈ st_order <$> l ↔ 1 <= k <= n.
Proof.
  rewrite set_eq. setoid_rewrite elem_of_list_to_set. setoid_rewrite elem_of_seqZ.
  split; intros Heq k; rewrite (Heq k); lia.
Qed.

Lemma dependencies_ok l :
  NoDup (st_step_id <$> l) →
  for_each l (λ step, for_each step.(st_depends_on) (λ d,
    match steps_by_id l !! d with
    | None => Err ("unknown step dependency: " +:+ d)
    | Some s' => unless (s'.(st_order) <? step.(st_order))
                   "step dependencies must precede the dependent step"
    end)) = Ok tt ↔
  ∀ s d, s ∈ l → d ∈ s.(st_depends_on) →
    ∃ s', s' ∈ l ∧ s'.(st_step_id) = d ∧ s'.(st_order) < s.(st_order).
Proof.
  intros Hnd. rewrite for_each_ok. setoid_rewrite for_each_ok. split.
  - intros Hall s d Hs Hd. specialize (Hall s Hs d Hd).
    destruct (steps_by_id l !! d) as [s'|] eqn:E; [|done].
    apply steps_by_id_lookup in E as [? ?]. apply unless_ok, Z.ltb_lt in Hall. eauto.
  - intros Hall s Hs d Hd. destruct (Hall s d Hs Hd) as (s' & Hs' & <- & Hlt).
    rewrite steps_by_id_elem by done. by apply unless_ok, Z.ltb_lt.
Qed.

Lemma RemediationPlan_validate_ok x :
  RemediationPlan_validate x = Ok tt ↔ step_graph x.(pl_steps).
Proof.
  unfold RemediationPlan_validate, step_graph. set (l := x.(pl_steps)). cbn zeta.
  rewrite <-size_dom, steps_by_id_dom.
  pose proof (size_NoDup_iff (st_step_id <$> l)) as Hids.
  pose proof (size_NoDup_iff (st_order <$> l)) as Hords.
  pose proof (orders_range l (Z.of_nat (length l))) as Hrange.
  rewrite length_fmap in Hids. rewrite length_fmap in Hords.
  pose proof (dependencies_ok l) as Hdeps.
  rewrite !result_bind_ok. split.
  - intros ([] & H1%unless_ok%bool_decide_eq_true & H). apply result_bind_ok in H.
    destruct H as ([] & H2%unless_ok%bool_decide_eq_true & H). apply result_bind_ok in H.
    destruct H as ([] & H3%unless_ok%bool_decide_eq_true & H).
    split_and!; [tauto..|]. by apply (proj1 (Hdeps (proj1 Hids H1))).
  - intros (H1 & H2 & H3 & H4). exists tt.
    split; [by apply unless_ok, bool_decide_eq_true, Hids|]. apply result_bind_ok. exists tt.
    split; [by apply unless_ok, bool_decide_eq_true, Hords|]. apply result_bind_ok. exists tt.
    split; [by apply unless_ok, bool_decide_eq_true, Hrange|].
    by apply (proj2 (Hdeps H1)).
Qed.

Lemma plan_ok_graph p : RemediationPlan_ok p = true → step_graph p.(pl_steps).
Proof.
  unfold RemediationPlan_ok. rewrite !andb_true_iff. intros [_ Hv].
  apply RemediationPlan_validate_ok. by destruct (RemediationPlan_validate p) as [[]|].
Qed.

(** The dependencies are acyclic: while a step is not done, one of the steps
    that are not done has all its dependencies done. *)
Lemma step_graph_ready l (done_ids : list string) s :
  step_graph l → s ∈ l → s.(st_step_id) ∉ done_ids →
  ∃ s', s' ∈ l ∧ s'.(st_step_id) ∉ done_ids ∧ ∀ d, d ∈ s'.(st_depends_on) → d ∈ done_ids.
Proof.
  intros (_ & _ & Hrange & Hdeps). revert s.
  induction s as [s IH] using (induction_ltof1 _ (λ s, Z.to_nat s.(st_order))).
  unfold ltof in IH. intros Hs Hnd.
  destruct (decide (Forall (λ d, d ∈ done_ids) s.(st_depends_on))) as [Hall|Hex].
  - exists s. split_and!; [done..|]. by apply Forall_forall.
  - apply not_Forall_Exists, Exists_exists in Hex as (d & Hd & Hnd'); [|apply _].
    destruct (Hdeps s d Hs Hd) as (s' & Hs' & <- & Hlt).
    apply (IH s'); [|done..].
    pose proof (proj1 (Hrange s'.(st_order)) (list_elem_of_fmap_2 _ _ _ Hs')). lia.
Qed.
