(* ===== verification/Errors.v ===== *)
(** The exceptions of the program, one inductive type per [errors.py], with the
    stable codes and HTTP status codes the constructors fix. *)

From S2P Require Import Prelude Json Contracts.

(** [packages/persistence/.../errors.py] *)
Inductive PersistenceError :=
| ChangeNotFoundError (tenant_id change_id : string)
| TenantScopeViolationError (tenant_id change_id : string)
| ChangeAlreadyExistsError (tenant_id change_id : string)
| AuditEventAlreadyExistsError (tenant_id audit_event_id : string)
| AuditCursorNotFoundError (tenant_id change_id audit_event_id : string)
| InvalidDocumentIdentifierError (field_name : string)
| OptimisticConcurrencyError (change_id : string) (expected_version actual_version : Z).

(** [services/tool-gateway/.../errors.py].  [GatewayError] with explicit
    arguments is the constructor [PlainGatewayError]. *)
Inductive GatewayError :=
| PlainGatewayError (code title detail : string) (status_code : Z)
| AuthenticationError (detail : string)
| AuthorizationError (detail : string)
| ApprovalRequiredError
| PolicyDeniedError
| GatewayNotFoundError (resource : string)
| GatewayConflictError (detail code : string)
| GatewayValidationError (detail : string)
| RateLimitedError
| ToolAdapterError (code detail : string) (transient : bool)
| ApprovalCallbackDeliveryError.

Definition gateway_code (e : GatewayError) : string :=
  match e with
  | PlainGatewayError code _ _ _ => code
  | AuthenticationError _ => "AUTHENTICATION_REQUIRED"
  | AuthorizationError _ => "AUTHORIZATION_DENIED"
  | ApprovalRequiredError => "APPROVAL_REQUIRED"
  | PolicyDeniedError => "POLICY_DENIED"
  | GatewayNotFoundError _ => "NOT_FOUND"
  | GatewayConflictError _ code => code
  | GatewayValidationError _ => "VALIDATION"
  | RateLimitedError => "RATE_LIMITED"
  | ToolAdapterError code _ _ => code
  | ApprovalCallbackDeliveryError => "APPROVAL_CALLBACK_UNAVAILABLE"
  end.

Definition gateway_status (e : GatewayError) : Z :=
  match e with
  | PlainGatewayError _ _ _ status_code => status_code
  | AuthenticationError _ => 401
  | AuthorizationError _ => 403
  | ApprovalRequiredError => 409
  | PolicyDeniedError => 403
  | GatewayNotFoundError _ => 404
  | GatewayConflictError _ _ => 409
  | GatewayValidationError _ => 422
  | RateLimitedError => 429
  | ToolAdapterError _ _ transient => if transient then 503 else 502
  | ApprovalCallbackDeliveryError => 503
  end.

(** Default arguments of the constructors. *)
Definition default_authentication : GatewayError :=
  AuthenticationError "A valid authenticated identity is required.".
Definition default_authorization : GatewayError :=
  AuthorizationError "The authenticated identity is not authorized.".
Definition default_validation : GatewayError :=
  GatewayValidationError "Tool arguments failed registered schema validation.".
Definition conflict (detail : string) : GatewayError := GatewayConflictError detail "CONFLICT".

(** [services/event-gateway/.../errors.py] *)
Inductive EventGatewayError :=
| PlainEventGatewayError (code detail : string) (status_code : Z)
| SignatureError
| EventConflictError
| EventRateLimitedError
| EventDependencyError (code : string).

Definition event_gateway_code (e : EventGatewayError) : string :=
  match e with
  | PlainEventGatewayError code _ _ => code
  | SignatureError => "INVALID_SIGNATURE"
  | EventConflictError => "EVENT_IDEMPOTENCY_CONFLICT"
  | EventRateLimitedError => "RATE_LIMITED"
  | EventDependencyError code => code
  end.

Definition event_gateway_status (e : EventGatewayError) : Z :=
  match e with
  | PlainEventGatewayError _ _ status_code => status_code
  | SignatureError => 401
  | EventConflictError => 409
  | EventRateLimitedError => 429
  | EventDependencyError _ => 503
  end.

(** [services/workflow-coordinator/.../errors.py] and the
    [DependencyCallError] of [clients.py] *)
Inductive WorkflowError :=
| WorkflowTransientError (code : string)
| WorkflowPermanentError (code : string)
| WorkflowNotFoundError
| WorkflowConflictError (detail : string)
| CallbackAuthenticationError
| DependencyCallError (code : string) (transient : bool).

Definition stale_workflow : WorkflowError := WorkflowConflictError "The workflow version is stale.".

(** Status of the API and application handlers of the coordinator; a
    [DependencyCallError] has no handler. *)
Definition workflow_status (e : WorkflowError) : option Z :=
  match e with
  | WorkflowTransientError _ => Some 503
  | WorkflowPermanentError _ => Some 409
  | WorkflowNotFoundError => Some 404
  | WorkflowConflictError _ => Some 409
  | CallbackAuthenticationError => Some 401
  | DependencyCallError _ _ => None
  end.

(** [enterprise-sandbox/.../errors.py] *)
Inductive SandboxError :=
| SandboxTenantRequiredError
| SnapshotNotFoundError (snapshot_id : string)
| TenantScopeError
| PatchConflictError (expected actual : string)
| ContractVersionNotFoundError (version : string)
| TransientSandboxError.

Definition sandbox_code (e : SandboxError) : string * Z :=
  match e with
  | SandboxTenantRequiredError => ("tenant_required", 401)
  | SnapshotNotFoundError _ => ("snapshot_not_found", 404)
  | TenantScopeError => ("tenant_scope_violation", 403)
  | PatchConflictError _ _ => ("patch_conflict", 409)
  | ContractVersionNotFoundError _ => ("contract_version_not_found", 404)
  | TransientSandboxError => ("transient_sandbox_failure", 503)
  end.

(** [services/control-api/.../errors.py]: a code, a message and a status. *)
Inductive ControlApiError := mkControlApiError (code message : string) (status_code : Z).

(** [PromptScreeningResult] of [services/agent-fleet/.../governance.py] *)
Record PromptScreeningResult := mkPromptScreeningResult {
  ps_provider : string; ps_blocked : bool; ps_categories : list string; ps_input_hash : string;
  ps_invocation_result : string; ps_template_reference : string }.

(** The exceptions of [governance.py] and [evidence.py] of the agent fleet. *)
Inductive FleetError :=
| EvidenceUnavailableError
| GovernanceUnavailableError (message : string)
| PromptBlockedError (result : PromptScreeningResult).

(** Everything a call may raise; [Builtin] has the exceptions of the language that no
    part of the program names. *)
Inductive exn :=
| ValidationError (model : string)
| ValueError (message : string)
| KeyError
| RuntimeError (message : string)
| EPersistence (e : PersistenceError)
| InvalidStateTransitionError (current target : WorkflowState) (audit_event_id : string)
| EGateway (e : GatewayError)
| EEvent (e : EventGatewayError)
| EWorkflow (e : WorkflowError)
| ESandbox (e : SandboxError)
| EControl (e : ControlApiError)
| EFleet (e : FleetError)
| Builtin (name : string)
(** Not an exception of the program: the fuel of a model loop ran out. *)
| OutOfFuel.

#[export] Instance exn_eq_dec : EqDecision exn.
Proof.
  assert (EqDecision PersistenceError) by solve_decision.
  assert (EqDecision GatewayError) by solve_decision.
  assert (EqDecision EventGatewayError) by solve_decision.
  assert (EqDecision WorkflowError) by solve_decision.
  assert (EqDecision SandboxError) by solve_decision.
  assert (EqDecision ControlApiError) by solve_decision.
  assert (EqDecision PromptScreeningResult) by solve_decision.
  assert (EqDecision FleetError) by solve_decision.
  solve_decision.
Defined.

Definition TypeError : exn := Builtin "TypeError".
Definition IndexError : exn := Builtin "IndexError".

Definition is_ascii (s : string) : bool :=
  all_chars (λ c, (Ascii.N_of_ascii c <? 128)%N) s.
(** [hmac.compare_digest] of two [str]. *)
Definition compare_digest (a b : string) : result exn bool :=
  if is_ascii a && is_ascii b then Ok (bool_decide (a = b)) else Err TypeError.

(** A method of an object whose state is [S]. *)
Abbreviation call S A := (M S exn A).

(** [Model.model_validate(document)]: the model, or a validation error. *)
Definition validated {A} (model : string) (ok : A → bool) (x : A) : result exn A :=
  if ok x then Ok x else Err (ValidationError model).

Lemma validated_ok {A} model (ok : A → bool) x y :
  validated model ok x = Ok y ↔ ok x = true ∧ y = x.
Proof. unfold validated. destruct (ok x); naive_solver. Qed.
