(* ===== verification/Persistence.v ===== *)
(** The change-state repository of [packages/persistence]: the repository
    protocol as an interface with its contract, and the in-memory adapter
    [InMemoryChangeStateRepository] with its representation invariant.

    Every method of the adapter runs under one [RLock], so a method is one atomic
    step on the state. *)

From S2P Require Import Prelude Json Contracts Errors.

(** * The interface: [protocols.py] *)

Class ChangeStateRepository (R : Type) := {
  repo_add : ChangeRecord → call R unit;
  repo_add_with_audit : ChangeRecord → AuditEvent → call R unit;
  repo_get : string → string → call R ChangeRecord;
  repo_list_changes : string → Z → call R (list ChangeRecord);
  repo_commit_transition : ChangeRecord → AuditEvent → Z → call R unit;
  repo_record_audit : AuditEvent → call R unit;
  repo_list_audit_after : string → string → option string → Z → call R (list AuditEvent);
  repo_list_tenant_audit : string → Z → call R (list AuditEvent);
}.

(** ** Its contract

    A repository shows a change per tenant and identifier and an audit event per
    tenant and identifier.  [missing] is the answer for a change the
    tenant does not own: adapters differ in which of two errors they raise. *)

Definition missing (tenant_id change_id : string) (e : exn) : Prop :=
  e = EPersistence (ChangeNotFoundError tenant_id change_id) ∨
  e = EPersistence (TenantScopeViolationError tenant_id change_id).

Definition scoped (c : ChangeRecord) (a : AuditEvent) : Prop :=
  a.(au_tenant_id) = c.(cr_tenant_id) ∧ a.(au_change_id) = c.(cr_change_id).

Class RepositoryLaws (R : Type) `{ChangeStateRepository R} := {
  repo_inv : R → Prop;
  view_change : R → string → string → option ChangeRecord;
  view_audit : R → string → string → option AuditEvent;

  view_change_key s t c r : repo_inv s → view_change s t c = Some r →
    r.(cr_tenant_id) = t ∧ r.(cr_change_id) = c;

  get_law s t c : repo_inv s →
    match view_change s t c with
    | Some r => repo_get t c s = (Ok r, s)
    | None => ∃ e, repo_get t c s = (Err e, s) ∧ missing t c e
    end;

  (** A change is added with its first audit event, once. *)
  add_law s r a : repo_inv s → scoped r a →
    let t := r.(cr_tenant_id) in let c := r.(cr_change_id) in
    let s' := (repo_add_with_audit r a s).2 in
    let outcome := (repo_add_with_audit r a s).1 in
    match view_change s t c, view_audit s t a.(au_audit_event_id) with
    | Some _, _ => s' = s ∧ outcome = Err (EPersistence (ChangeAlreadyExistsError t c))
    | None, Some _ => s' = s ∧
        outcome = Err (EPersistence (AuditEventAlreadyExistsError t a.(au_audit_event_id)))
    | None, None => outcome = Ok tt ∧ repo_inv s' ∧
        (∀ t' c', view_change s' t' c' =
           if bool_decide (t' = t ∧ c' = c) then Some r else view_change s t' c') ∧
        (∀ t' i, view_audit s' t' i =
           if bool_decide (t' = t ∧ i = a.(au_audit_event_id)) then Some a
           else view_audit s t' i)
    end;

  (** A commit is all or nothing: record and audit event together, or neither. *)
  commit_law s r a v : repo_inv s → scoped r a →
    let t := r.(cr_tenant_id) in let c := r.(cr_change_id) in
    let s' := (repo_commit_transition r a v s).2 in
    let outcome := (repo_commit_transition r a v s).1 in
    let unchanged := s' = s in
    match view_change s t c, view_audit s t a.(au_audit_event_id) with
    | None, _ => unchanged ∧ ∃ e, outcome = Err e ∧ missing t c e
    | Some _, Some _ => unchanged ∧
        outcome = Err (EPersistence (AuditEventAlreadyExistsError t a.(au_audit_event_id)))
    | Some current, None =>
        if bool_decide (current.(cr_version) ≠ v) then
          unchanged ∧
          outcome = Err (EPersistence (OptimisticConcurrencyError c v current.(cr_version)))
        else if bool_decide (r.(cr_version) ≠ v + 1) then
          unchanged ∧
          outcome = Err (EPersistence (OptimisticConcurrencyError c (v + 1) r.(cr_version)))
        else outcome = Ok tt ∧ repo_inv s' ∧
          (∀ t' c', view_change s' t' c' =
             if bool_decide (t' = t ∧ c' = c) then Some r else view_change s t' c') ∧
          (∀ t' i, view_audit s' t' i =
             if bool_decide (t' = t ∧ i = a.(au_audit_event_id)) then Some a
             else view_audit s t' i)
    end;

  record_audit_law s a : repo_inv s →
    let t := a.(au_tenant_id) in let c := a.(au_change_id) in
    let s' := (repo_record_audit a s).2 in
    let outcome := (repo_record_audit a s).1 in
    match view_change s t c, view_audit s t a.(au_audit_event_id) with
    | None, _ => s' = s ∧ ∃ e, outcome = Err e ∧ missing t c e
    | Some _, Some _ => s' = s ∧
        outcome = Err (EPersistence (AuditEventAlreadyExistsError t a.(au_audit_event_id)))
    | Some _, None => outcome = Ok tt ∧ repo_inv s' ∧
        (∀ t' c', view_change s' t' c' = view_change s t' c') ∧
        (∀ t' i, view_audit s' t' i =
           if bool_decide (t' = t ∧ i = a.(au_audit_event_id)) then Some a
           else view_audit s t' i)
    end;
}.

(** * The adapter: [memory.py] *)

Record InMemoryChangeStateRepository := mkChangeRepo {
  _changes : gmap (string * string) ChangeRecord;
  _tenants_by_change_id : gmap string (gset string);
  _audit : gmap (string * string) AuditEvent;
  _audit_ids_by_change : gmap (string * string) (list string);
}.

Module Memory.
Abbreviation store := InMemoryChangeStateRepository.

Definition empty : store := mkChangeRepo ∅ ∅ ∅ ∅.

Definition _get_unlocked (tenant_id change_id : string) : call store ChangeRecord := λ s,
  match s.(_changes) !! (tenant_id, change_id) with
  | Some change => (Ok change, s)
  | None =>
      if has_entry s.(_tenants_by_change_id) change_id
      then (Err (EPersistence (TenantScopeViolationError tenant_id change_id)), s)
      else (Err (EPersistence (ChangeNotFoundError tenant_id change_id)), s)
  end.

Definition _validate_audit_scope (change : ChangeRecord) (audit_event : AuditEvent)
  : call store unit :=
  raise_if (negb (bool_decide (audit_event.(au_tenant_id) = change.(cr_tenant_id))) ||
            negb (bool_decide (audit_event.(au_change_id) = change.(cr_change_id))))
    (EPersistence (TenantScopeViolationError audit_event.(au_tenant_id)
                     audit_event.(au_change_id))).

Definition _ensure_new_audit_id (audit_event : AuditEvent) : call store unit := λ s,
  match s.(_audit) !! (audit_event.(au_tenant_id), audit_event.(au_audit_event_id)) with
  | Some _ => (Err (EPersistence (AuditEventAlreadyExistsError audit_event.(au_tenant_id)
                                    audit_event.(au_audit_event_id))), s)
  | None => (Ok tt, s)
  end.

Definition _append_audit_unlocked (a : AuditEvent) : call store unit :=
  modify_state (λ s,
    let key := (a.(au_tenant_id), a.(au_change_id)) in
    mkChangeRepo s.(_changes) s.(_tenants_by_change_id)
      (<[(a.(au_tenant_id), a.(au_audit_event_id)) := a]> s.(_audit))
      (<[key := default [] (s.(_audit_ids_by_change) !! key) ++ [a.(au_audit_event_id)]]>
         s.(_audit_ids_by_change))).

Definition set_change (change : ChangeRecord) : call store unit :=
  modify_state (λ s,
    mkChangeRepo (<[(change.(cr_tenant_id), change.(cr_change_id)) := change]> s.(_changes))
      s.(_tenants_by_change_id) s.(_audit) s.(_audit_ids_by_change)).

Definition add_tenant (change : ChangeRecord) : call store unit :=
  modify_state (λ s,
    mkChangeRepo s.(_changes)
      (add_entry s.(_tenants_by_change_id) change.(cr_change_id) change.(cr_tenant_id))
      s.(_audit) s.(_audit_ids_by_change)).

Definition ensure_absent (change : ChangeRecord) : call store unit := λ s,
  match s.(_changes) !! (change.(cr_tenant_id), change.(cr_change_id)) with
  | Some _ => (Err (EPersistence (ChangeAlreadyExistsError change.(cr_tenant_id)
                                    change.(cr_change_id))), s)
  | None => (Ok tt, s)
  end.

Definition add (change : ChangeRecord) : call store unit :=
  _ ← ensure_absent change;
  _ ← set_change change;
  add_tenant change.

Definition add_with_audit (change : ChangeRecord) (audit_event : AuditEvent)
  : call store unit :=
  _ ← ensure_absent change;
  _ ← _validate_audit_scope change audit_event;
  _ ← _ensure_new_audit_id audit_event;
  _ ← set_change change;
  _ ← add_tenant change;
  _append_audit_unlocked audit_event.

Definition get (tenant_id change_id : string) : call store ChangeRecord :=
  _get_unlocked tenant_id change_id.

Definition change_key (c : ChangeRecord) : Z * string := (c.(cr_updated_at), c.(cr_change_id)).
Definition audit_key (a : AuditEvent) : Z * string := (a.(au_created_at), a.(au_audit_event_id)).

(** The values a tenant owns, in no particular order. *)
Definition owned {A} (tenant_id : string) (m : gmap (string * string) A) : list A :=
  (filter (λ kv : (string * string) * A, kv.1.1 = tenant_id) (map_to_list m)).*2.

Definition list_changes (tenant_id : string) (limit : Z) : call store (list ChangeRecord) := λ s,
  (Ok (slice_to limit (sort_by_desc change_key (owned tenant_id s.(_changes)))), s).

Definition commit_transition (change : ChangeRecord) (audit_event : AuditEvent)
    (expected_version : Z) : call store unit :=
  current ← _get_unlocked change.(cr_tenant_id) change.(cr_change_id);
  _ ← _validate_audit_scope change audit_event;
  _ ← _ensure_new_audit_id audit_event;
  _ ← raise_if (negb (bool_decide (current.(cr_version) = expected_version)))
        (EPersistence (OptimisticConcurrencyError change.(cr_change_id) expected_version
                         current.(cr_version)));
  _ ← raise_if (negb (bool_decide (change.(cr_version) = expected_version + 1)))
        (EPersistence (OptimisticConcurrencyError change.(cr_change_id) (expected_version + 1)
                         change.(cr_version)));
  _ ← set_change change;
  _append_audit_unlocked audit_event.

Definition record_audit (audit_event : AuditEvent) : call store unit :=
  _ ← _get_unlocked audit_event.(au_tenant_id) audit_event.(au_change_id);
  _ ← _ensure_new_audit_id audit_event;
  _append_audit_unlocked audit_event.

(** [self._audit_ids_by_change[key]] on a [defaultdict]: a missing key is
    created. *)
Definition audit_ids (tenant_id change_id : string) : call store (list string) := λ s,
  let ids := default [] (s.(_audit_ids_by_change) !! (tenant_id, change_id)) in
  (Ok ids, mkChangeRepo s.(_changes) s.(_tenants_by_change_id) s.(_audit)
             (<[(tenant_id, change_id) := ids]> s.(_audit_ids_by_change))).

Definition audit_event_at (tenant_id event_id : string) : call store AuditEvent := λ s,
  match s.(_audit) !! (tenant_id, event_id) with
  | Some a => (Ok a, s)
  | None => (Err KeyError, s)
  end.

Definition after_cursor (tenant_id change_id : string) (after_event_id : option string)
    (events : list AuditEvent) : result exn (list AuditEvent) :=
  match after_event_id with
  | None => Ok events
  | Some cursor =>
      match find_index (λ e, bool_decide (e.(au_audit_event_id) = cursor)) events with
      | None => Err (EPersistence (AuditCursorNotFoundError tenant_id change_id cursor))
      | Some cursor_index => Ok (drop (S cursor_index) events)
      end
  end.

Definition list_audit_after (tenant_id change_id : string) (after_event_id : option string)
    (limit : Z) : call store (list AuditEvent) :=
  _ ← _get_unlocked tenant_id change_id;
  event_ids ← audit_ids tenant_id change_id;
  events ← mapM (audit_event_at tenant_id) event_ids;
  events ← of_result (after_cursor tenant_id change_id after_event_id
                        (sort_by audit_key events));
  mret (slice_to limit events).

Definition list_audit (tenant_id change_id : string) : call store (list AuditEvent) :=
  list_audit_after tenant_id change_id None 10000.

Definition list_tenant_audit (tenant_id : string) (limit : Z) : call store (list AuditEvent) :=
  λ s, (Ok (slice_to limit (sort_by_desc audit_key (owned tenant_id s.(_audit)))), s).
End Memory.

#[export] Instance memory_repository : ChangeStateRepository InMemoryChangeStateRepository := {
  repo_add := Memory.add;
  repo_add_with_audit := Memory.add_with_audit;
  repo_get := Memory.get;
  repo_list_changes := Memory.list_changes;
  repo_commit_transition := Memory.commit_transition;
  repo_record_audit := Memory.record_audit;
  repo_list_audit_after := Memory.list_audit_after;
  repo_list_tenant_audit := Memory.list_tenant_audit;
}.

(** * The representation invariant *)

Module MemoryInv.
Import Memory.

Definition ids_of (s : store) (t c : string) : list string :=
  default [] (s.(_audit_ids_by_change) !! (t, c)).

Record inv (s : store) : Prop := {
  inv_key t c r : s.(_changes) !! (t, c) = Some r →
    r.(cr_tenant_id) = t ∧ r.(cr_change_id) = c;
  inv_tenants t c : is_Some (s.(_changes) !! (t, c)) ↔
    ∃ ts, s.(_tenants_by_change_id) !! c = Some ts ∧ t ∈ ts;
  inv_audit t i a : s.(_audit) !! (t, i) = Some a →
    a.(au_tenant_id) = t ∧ a.(au_audit_event_id) = i ∧ i ∈ ids_of s t a.(au_change_id) ∧
    is_Some (s.(_changes) !! (t, a.(au_change_id)));
  inv_ids t c i : i ∈ ids_of s t c →
    ∃ a, s.(_audit) !! (t, i) = Some a ∧ a.(au_change_id) = c;
  inv_ids_NoDup t c : NoDup (ids_of s t c);
}.

(** The three state updates of the adapter. *)
Definition with_change (r : ChangeRecord) (s : store) : store := (set_change r s).2.
Definition with_tenant (r : ChangeRecord) (s : store) : store := (add_tenant r s).2.
Definition with_audit (a : AuditEvent) (s : store) : store := (_append_audit_unlocked a s).2.

Lemma empty_inv : inv empty.
Proof.
  split; simpl.
  - intros t c r. by rewrite lookup_empty.
  - intros t c. rewrite lookup_empty. split; [by intros []|]. intros (ts & H & _).
    by rewrite lookup_empty in H.
  - intros t i a. by rewrite lookup_empty.
  - intros t c i. unfold ids_of; simpl. rewrite lookup_empty. by intros ?%elem_of_nil.
  - intros t c. unfold ids_of; simpl. rewrite lookup_empty. constructor.
Qed.

Lemma ids_of_with_audit a s t c :
  ids_of (with_audit a s) t c =
    if bool_decide (t = a.(au_tenant_id) ∧ c = a.(au_change_id))
    then ids_of s t c ++ [a.(au_audit_event_id)] else ids_of s t c.
Proof.
  unfold ids_of; simpl. rewrite lookup_insert. case_decide; case_bool_decide; simplify_eq/=;
    naive_solver.
Qed.

Lemma with_audit_inv a s :
  inv s → is_Some (s.(_changes) !! (a.(au_tenant_id), a.(au_change_id))) →
  s.(_audit) !! (a.(au_tenant_id), a.(au_audit_event_id)) = None →
  inv (with_audit a s).
Proof.
  intros Hinv Hch Hnew. split.
  - apply (inv_key s Hinv).
  - apply (inv_tenants s Hinv).
  - intros t i b. rewrite ids_of_with_audit. simpl. rewrite lookup_insert.
    case_decide as Hk; intros Hb; simplify_eq.
    + rewrite bool_decide_eq_true_2 by done. split_and!; [done..| |done].
      apply elem_of_app. right. by apply list_elem_of_singleton.
    + destruct (inv_audit s Hinv _ _ _ Hb) as (? & ? & Hin & ?). split_and!; [done..| |done].
      case_bool_decide; [|done]. apply elem_of_app; auto.
  - intros t c i. rewrite ids_of_with_audit. simpl.
    case_bool_decide as Hk.
    + destruct Hk as [-> ->]. intros [Hin|Hin%list_elem_of_singleton]%elem_of_app.
      * destruct (inv_ids s Hinv _ _ _ Hin) as (b & Hb & Hc). exists b. split; [|done].
        rewrite lookup_insert_ne; [done|]. intros [=E]; subst. congruence.
      * subst i. exists a. by rewrite lookup_insert_eq.
    + intros Hin. destruct (inv_ids s Hinv _ _ _ Hin) as (b & Hb & Hc). exists b.
      split; [|done]. rewrite lookup_insert_ne; [done|]. intros [=E]; subst. congruence.
  - intros t c. rewrite ids_of_with_audit. case_bool_decide as Hk; [|apply (inv_ids_NoDup s Hinv)].
    destruct Hk as [-> ->]. apply NoDup_app. split_and!.
    + apply (inv_ids_NoDup s Hinv).
    + intros i Hin ->%list_elem_of_singleton.
      destruct (inv_ids s Hinv _ _ _ Hin) as (b & Hb & _). congruence.
    + apply NoDup_singleton.
Qed.

Lemma with_change_inv r s :
  inv s → is_Some (s.(_changes) !! (r.(cr_tenant_id), r.(cr_change_id))) → inv (with_change r s).
Proof.
  intros Hinv Hold. split.
  - intros t c r'. simpl. rewrite lookup_insert. case_decide; [naive_solver|].
    apply (inv_key s Hinv).
  - intros t c. simpl. rewrite <-(inv_tenants s Hinv), lookup_insert.
    case_decide as E; [|done]. simplify_eq. by split.
  - intros t i a. simpl. intros Ha. destruct (inv_audit s Hinv _ _ _ Ha) as (?&?&?&?).
    split_and!; [done..|]. rewrite lookup_insert. by case_decide.
  - apply (inv_ids s Hinv).
  - apply (inv_ids_NoDup s Hinv).
Qed.

Lemma new_change_inv r s : inv s → inv (with_tenant r (with_change r s)).
Proof.
  intros Hinv. split.
  - intros t c r'. simpl. rewrite lookup_insert. case_decide; [naive_solver|].
    apply (inv_key s Hinv).
  - intros t c. simpl. unfold add_entry.
    destruct (decide (cr_change_id r = c)) as [<-|Hc]; [|
      rewrite !lookup_insert_ne by naive_solver; by rewrite (inv_tenants s Hinv)].
    rewrite lookup_insert_eq. destruct (decide (cr_tenant_id r = t)) as [<-|Ht].
    + rewrite lookup_insert_eq. split; [|done]. intros _. eexists. split; [done|]. set_solver.
    + rewrite lookup_insert_ne, (inv_tenants s Hinv) by naive_solver.
      destruct (s.(_tenants_by_change_id) !! _) as [ts|] eqn:Hts; simpl.
      * split; intros (ts' & [= <-] & Hin); eexists; (split; [done|]); set_solver.
      * split; intros (ts' & E & Hin); [done|]. simplify_eq. set_solver.
  - intros t i a. simpl. intros Ha. destruct (inv_audit s Hinv _ _ _ Ha) as (?&?&?&?).
    split_and!; [done..|]. rewrite lookup_insert. by case_decide.
  - apply (inv_ids s Hinv).
  - apply (inv_ids_NoDup s Hinv).
Qed.

Lemma reading_ids_inv t c s :
  inv s → inv (audit_ids t c s).2.
Proof.
  intros Hinv.
  assert (∀ t' c', ids_of (audit_ids t c s).2 t' c' = ids_of s t' c') as Hids.
  { intros t' c'. unfold ids_of; simpl. rewrite lookup_insert. case_decide; naive_solver. }
  split; [apply (inv_key s Hinv)|apply (inv_tenants s Hinv)|..].
  - intros t' i a. rewrite Hids. apply (inv_audit s Hinv).
  - intros t' c' i. rewrite Hids. apply (inv_ids s Hinv).
  - intros t' c'. rewrite Hids. apply (inv_ids_NoDup s Hinv).
Qed.

(** ** What each method does *)

Lemma get_run s t c :
  match s.(_changes) !! (t, c) with
  | Some r => get t c s = (Ok r, s)
  | None => ∃ e, get t c s = (Err e, s) ∧ missing t c e
  end.
Proof.
  unfold get, _get_unlocked, missing. destruct (s.(_changes) !! (t, c)); [done|].
  destruct (has_entry _ _); eauto.
Qed.

Lemma ensure_new_run a s :
  _ensure_new_audit_id a s =
    (match s.(_audit) !! (a.(au_tenant_id), a.(au_audit_event_id)) with
     | Some _ => Err (EPersistence (AuditEventAlreadyExistsError a.(au_tenant_id)
                                      a.(au_audit_event_id)))
     | None => Ok tt end, s).
Proof. unfold _ensure_new_audit_id. by destruct (s.(_audit) !! _). Qed.

Lemma scope_run r a s : scoped r a → _validate_audit_scope r a s = (Ok tt, s).
Proof.
  intros [Ht Hc]. unfold _validate_audit_scope. by rewrite !bool_decide_eq_true_2.
Qed.

Lemma commit_run s r a v : scoped r a →
  let t := r.(cr_tenant_id) in let c := r.(cr_change_id) in
  match s.(_changes) !! (t, c), s.(_audit) !! (t, a.(au_audit_event_id)) with
  | None, _ => ∃ e, commit_transition r a v s = (Err e, s) ∧ missing t c e
  | Some _, Some _ => commit_transition r a v s =
      (Err (EPersistence (AuditEventAlreadyExistsError t a.(au_audit_event_id))), s)
  | Some current, None => commit_transition r a v s =
      if bool_decide (current.(cr_version) ≠ v) then
        (Err (EPersistence (OptimisticConcurrencyError c v current.(cr_version))), s)
      else if bool_decide (r.(cr_version) ≠ v + 1) then
        (Err (EPersistence (OptimisticConcurrencyError c (v + 1) r.(cr_version))), s)
      else (Ok tt, with_audit a (with_change r s))
  end.
Proof.
  intros Hs. cbn zeta. unfold commit_transition.
  pose proof (get_run s r.(cr_tenant_id) r.(cr_change_id)) as Hget. unfold get in Hget.
  destruct (s.(_changes) !! _) as [cur|].
  - rewrite (bind_run _ _ _ _ _ Hget), (bind_run _ _ _ _ _ (scope_run r a s Hs)).
    pose proof (ensure_new_run a s) as Hnew. destruct Hs as [Ht Hc].
    rewrite Ht in Hnew. destruct (s.(_audit) !! _).
    + by rewrite (bind_run_err _ _ _ _ _ Hnew).
    + rewrite (bind_run _ _ _ _ _ Hnew).
      destruct (decide (cr_version cur = v)) as [E|E];
        [rewrite (bool_decide_eq_false_2 (cr_version cur ≠ v)) by auto
        |rewrite (bool_decide_eq_true_2 (cr_version cur ≠ v)) by auto];
        [rewrite (bool_decide_eq_true_2 (cr_version cur = v)) by auto
        |by rewrite (bool_decide_eq_false_2 (cr_version cur = v)) by auto].
      destruct (decide (cr_version r = v + 1)) as [E'|E'];
        [rewrite (bool_decide_eq_false_2 (cr_version r ≠ v + 1)) by auto
        |rewrite (bool_decide_eq_true_2 (cr_version r ≠ v + 1)) by auto];
        [rewrite (bool_decide_eq_true_2 (cr_version r = v + 1)) by auto
        |rewrite (bool_decide_eq_false_2 (cr_version r = v + 1)) by auto]; done.
  - destruct Hget as (e & He & Hm). exists e. split; [|done].
    by rewrite (bind_run_err _ _ _ _ _ He).
Qed.

Lemma record_audit_run s a :
  let t := a.(au_tenant_id) in let c := a.(au_change_id) in
  match s.(_changes) !! (t, c), s.(_audit) !! (t, a.(au_audit_event_id)) with
  | None, _ => ∃ e, record_audit a s = (Err e, s) ∧ missing t c e
  | Some _, Some _ => record_audit a s =
      (Err (EPersistence (AuditEventAlreadyExistsError t a.(au_audit_event_id))), s)
  | Some _, None => record_audit a s = (Ok tt, with_audit a s)
  end.
Proof.
  cbn zeta. unfold record_audit.
  pose proof (get_run s a.(au_tenant_id) a.(au_change_id)) as Hget. unfold get in Hget.
  destruct (s.(_changes) !! _) as [cur|].
  - rewrite (bind_run _ _ _ _ _ Hget). pose proof (ensure_new_run a s) as Hnew.
    destruct (s.(_audit) !! _).
    + by rewrite (bind_run_err _ _ _ _ _ Hnew).
    + by rewrite (bind_run _ _ _ _ _ Hnew).
  - destruct Hget as (e & He & Hm). exists e. split; [|done].
    by rewrite (bind_run_err _ _ _ _ _ He).
Qed.
Lemma add_with_audit_run s r a : inv s → scoped r a →
  let t := r.(cr_tenant_id) in let c := r.(cr_change_id) in
  let s' := (add_with_audit r a s).2 in
  let outcome := (add_with_audit r a s).1 in
  match s.(_changes) !! (t, c), s.(_audit) !! (t, a.(au_audit_event_id)) with
  | Some _, _ => s' = s ∧ outcome = Err (EPersistence (ChangeAlreadyExistsError t c))
  | None, Some _ => s' = s ∧
      outcome = Err (EPersistence (AuditEventAlreadyExistsError t a.(au_audit_event_id)))
  | None, None => outcome = Ok tt ∧ inv s' ∧
      (∀ t' c', s'.(_changes) !! (t', c') =
         if bool_decide (t' = t ∧ c' = c) then Some r else s.(_changes) !! (t', c')) ∧
      (∀ t' i, s'.(_audit) !! (t', i) =
         if bool_decide (t' = t ∧ i = a.(au_audit_event_id)) then Some a
         else s.(_audit) !! (t', i))
  end.
Proof.
  intros Hinv Hs. cbn zeta. unfold add_with_audit.
  destruct (s.(_changes) !! (cr_tenant_id r, cr_change_id r)) as [cur|] eqn:Hcur.
  { rewrite (bind_run_err _ _ s (EPersistence (ChangeAlreadyExistsError (cr_tenant_id r)
      (cr_change_id r))) s); [done|]. unfold ensure_absent. by rewrite Hcur. }
  rewrite (bind_run _ _ s tt s); [|unfold ensure_absent; by rewrite Hcur].
  rewrite (bind_run _ _ _ _ _ (scope_run r a s Hs)).
  pose proof (ensure_new_run a s) as Hnew. pose proof Hs as [Ht Hc]. rewrite Ht in Hnew.
  destruct (s.(_audit) !! (cr_tenant_id r, au_audit_event_id a)) as [a'|] eqn:Ha.
  { by rewrite (bind_run_err _ _ _ _ _ Hnew). }
  rewrite (bind_run _ _ _ _ _ Hnew). cbn [mbind M_bind set_change modify_state fst snd].
  split_and!; [done| | |].
  - apply (with_audit_inv a (with_tenant r (with_change r s))); [by apply new_change_inv| |].
    + simpl. by rewrite Ht, Hc, lookup_insert_eq.
    + simpl. by rewrite Ht.
  - intros t' c'. simpl. rewrite lookup_insert. case_decide; case_bool_decide; naive_solver.
  - intros t' i. simpl. rewrite lookup_insert, Ht. case_decide; case_bool_decide; naive_solver.
Qed.
End MemoryInv.

(** ** The adapter meets the contract *)

#[export] Program Instance memory_laws : RepositoryLaws InMemoryChangeStateRepository := {|
  repo_inv := MemoryInv.inv;
  view_change s t c := s.(_changes) !! (t, c);
  view_audit s t i := s.(_audit) !! (t, i);
|}.
Next Obligation. intros s t c r Hinv. apply (MemoryInv.inv_key s Hinv). Qed.
Next Obligation. intros s t c _. apply MemoryInv.get_run. Qed.
Next Obligation. intros s r a. apply MemoryInv.add_with_audit_run. Qed.
Next Obligation.
  intros s r a v Hinv Hs. cbn zeta. pose proof (MemoryInv.commit_run s r a v Hs) as H.
  cbn zeta in H. simpl.
  destruct (s.(_changes) !! _) as [cur|] eqn:Hcur.
  - destruct (s.(_audit) !! _) eqn:Ha; [by rewrite H|]. rewrite H.
    case_bool_decide; [done|]. case_bool_decide; [done|]. simpl. destruct Hs as [Ht Hc].
    split_and!; [done| | |].
    + apply MemoryInv.with_audit_inv.
      * apply MemoryInv.with_change_inv; [done|]. by rewrite Hcur.
      * simpl. by rewrite Ht, Hc, lookup_insert_eq.
      * simpl. by rewrite Ht.
    + intros t' c'. rewrite lookup_insert. case_decide; case_bool_decide; naive_solver.
    + intros t' i. rewrite lookup_insert, Ht. case_decide; case_bool_decide; naive_solver.
  - destruct H as (e & He & Hm). rewrite He. eauto.
Qed.
Next Obligation.
  intros s a Hinv. cbn zeta. pose proof (MemoryInv.record_audit_run s a) as H.
  cbn zeta in H. simpl.
  destruct (s.(_changes) !! _) as [cur|] eqn:Hcur.
  - destruct (s.(_audit) !! _) eqn:Ha; [by rewrite H|]. rewrite H. simpl. split_and!; [done| |done|].
    + apply MemoryInv.with_audit_inv; [done| |done]. by rewrite Hcur.
    + intros t' i. rewrite lookup_insert. case_decide; case_bool_decide; naive_solver.
  - destruct H as (e & He & Hm). rewrite He. eauto.
Qed.

(** * Reading the audit stream *)

Module MemoryAudit.
Import Memory MemoryInv.

(** [stream s t c events]: the audit events of a change, in stream order. *)
Definition stream (s : store) (t c : string) (events : list AuditEvent) : Prop :=
  NoDup (au_audit_event_id <$> events) ∧ StronglySorted (by_key audit_key) events ∧
  ∀ a, a ∈ events ↔ s.(_audit) !! (t, a.(au_audit_event_id)) = Some a ∧ a.(au_change_id) = c.

Lemma load_events s t c :
  inv s → ∃ events, mapM (audit_event_at t) (ids_of s t c) s = (Ok events, s) ∧
    au_audit_event_id <$> events = ids_of s t c ∧
    ∀ a, a ∈ events ↔ s.(_audit) !! (t, a.(au_audit_event_id)) = Some a ∧ a.(au_change_id) = c.
Proof.
  intros Hinv.
  destruct (mapM_reads (audit_event_at t)
    (λ i a, s.(_audit) !! (t, i) = Some a ∧ a.(au_audit_event_id) = i ∧ a.(au_change_id) = c)
    s (ids_of s t c)) as (events & Hrun & Hall).
  { intros i Hi. destruct (inv_ids s Hinv _ _ _ Hi) as (a & Ha & Hc). exists a.
    unfold audit_event_at. rewrite Ha. split_and!; [done..| |done].
    by destruct (inv_audit s Hinv _ _ _ Ha) as (_ & ? & _). }
  exists events. split; [done|]. split.
  - clear Hrun. induction Hall as [|i a l k (_ & <- & _) _ IH]; [done|]. by rewrite fmap_cons, IH.
  - intros a. split.
    + intros Ha. apply list_elem_of_lookup in Ha as [n Hn].
      destruct (Forall2_lookup_r _ _ _ _ _ Hall Hn) as (i & _ & H1 & <- & H3). done.
    + intros [Ha Hc]. destruct (inv_audit s Hinv _ _ _ Ha) as (_ & _ & Hin & _).
      rewrite Hc in Hin. apply list_elem_of_lookup in Hin as [n Hn].
      destruct (Forall2_lookup_l _ _ _ _ _ Hall Hn) as (b & Hb & H1 & H2 & H3).
      assert (b = a) as -> by congruence. by eapply list_elem_of_lookup_2.
Qed.

Lemma list_audit_after_run s t c cursor limit r :
  inv s → s.(_changes) !! (t, c) = Some r →
  ∃ events, stream s t c events ∧
    list_audit_after t c cursor limit s =
      (match after_cursor t c cursor events with
       | Ok l => Ok (slice_to limit l) | Err e => Err e end, (audit_ids t c s).2).
Proof.
  intros Hinv Hr. pose proof (get_run s t c) as Hget. rewrite Hr in Hget. unfold get in Hget.
  set (s' := (audit_ids t c s).2).
  assert (inv s') as Hinv' by (by apply reading_ids_inv).
  assert (ids_of s' t c = ids_of s t c) as Hids.
  { unfold ids_of, s'; simpl. by rewrite lookup_insert_eq. }
  destruct (load_events s' t c Hinv') as (events & Hrun & Hkeys & Hmem).
  exists (sort_by audit_key events). split.
  - split_and!.
    + rewrite sort_by_perm, Hkeys. apply (inv_ids_NoDup s' Hinv').
    + apply sort_by_sorted.
    + intros a. rewrite sort_by_perm. apply Hmem.
  - unfold list_audit_after. rewrite (bind_run _ _ _ _ _ Hget).
    rewrite (bind_run _ _ s (ids_of s t c) s'); [|done].
    rewrite Hids in Hrun. rewrite (bind_run _ _ _ _ _ Hrun).
    unfold mbind at 1, M_bind at 1, of_result.
    by destruct (after_cursor t c cursor (sort_by audit_key events)).
Qed.

(** A stream is determined by the stored events. *)
Lemma stream_unique s t c l l' : stream s t c l → stream s t c l' → l = l'.
Proof.
  intros (Hnd & Hs & Hm) (Hnd' & Hs' & Hm').
  apply (StronglySorted_unique_strong (by_key audit_key)); [|done|done|].
  - intros a b Ha Hb Hab Hba.
    pose proof (anti_symm stamp_le _ _ Hab Hba) as [=_ Hid].
    apply Hm in Ha as [Ha _]. apply Hm' in Hb as [Hb _]. congruence.
  - apply NoDup_Permutation.
    + by eapply NoDup_fmap_1.
    + by eapply NoDup_fmap_1.
    + intros a. by rewrite Hm, Hm'.
Qed.

Lemma stream_reading s t c l : stream s t c l → stream (audit_ids t c s).2 t c l.
Proof. done. Qed.

Lemma after_cursor_at t c events n a :
  NoDup (au_audit_event_id <$> events) → events !! n = Some a →
  after_cursor t c (Some a.(au_audit_event_id)) events = Ok (drop (S n) events).
Proof. intros Hnd Hn. simpl. by rewrite (find_index_key au_audit_event_id _ n). Qed.
End MemoryAudit.

(** * Histories of the adapter *)

Module MemoryHistory.
Import Memory MemoryInv MemoryAudit.

(** The calls of the protocol, reads included: reading an audit stream touches
    the [defaultdict]. *)
Inductive op :=
| Add (r : ChangeRecord)
| AddWithAudit (r : ChangeRecord) (a : AuditEvent)
| Get (t c : string)
| ListChanges (t : string) (limit : Z)
| Commit (r : ChangeRecord) (a : AuditEvent) (expected_version : Z)
| RecordAudit (a : AuditEvent)
| ListAuditAfter (t c : string) (cursor : option string) (limit : Z)
| ListTenantAudit (t : string) (limit : Z).

Definition run_op (o : op) (s : store) : store :=
  match o with
  | Add r => (add r s).2
  | AddWithAudit r a => (add_with_audit r a s).2
  | Get t c => (get t c s).2
  | ListChanges t limit => (list_changes t limit s).2
  | Commit r a v => (commit_transition r a v s).2
  | RecordAudit a => (record_audit a s).2
  | ListAuditAfter t c cursor limit => (list_audit_after t c cursor limit s).2
  | ListTenantAudit t limit => (list_tenant_audit t limit s).2
  end.

Definition run_ops (ops : list op) : store := foldl (λ s o, run_op o s) empty ops.

(** The tenant in whose partition a call writes. *)
Definition op_tenant (o : op) : option string :=
  match o with
  | Add r | AddWithAudit r _ | Commit r _ _ => Some r.(cr_tenant_id)
  | RecordAudit a => Some a.(au_tenant_id)
  | _ => None
  end.

Lemma ensure_absent_run r s :
  ensure_absent r s =
    (match s.(_changes) !! (r.(cr_tenant_id), r.(cr_change_id)) with
     | Some _ => Err (EPersistence (ChangeAlreadyExistsError r.(cr_tenant_id)
                                      r.(cr_change_id)))
     | None => Ok tt end, s).
Proof. unfold ensure_absent. by destruct (s.(_changes) !! _). Qed.

Lemma get_pure t c s : (get t c s).2 = s.
Proof.
  unfold get, _get_unlocked. destruct (s.(_changes) !! (t, c)); [done|].
  by destruct (has_entry _ _).
Qed.

(** Every call leaves the store as it was or performs its one update. *)
Lemma add_effect r s :
  (add r s).2 = s ∨
  s.(_changes) !! (r.(cr_tenant_id), r.(cr_change_id)) = None ∧
  (add r s).2 = with_tenant r (with_change r s).
Proof.
  unfold add, mbind, M_bind. rewrite ensure_absent_run.
  destruct (s.(_changes) !! _); auto.
Qed.

Lemma add_with_audit_effect r a s :
  (add_with_audit r a s).2 = s ∨
  s.(_changes) !! (r.(cr_tenant_id), r.(cr_change_id)) = None ∧ scoped r a ∧
  s.(_audit) !! (a.(au_tenant_id), a.(au_audit_event_id)) = None ∧
  (add_with_audit r a s).2 = with_audit a (with_tenant r (with_change r s)).
Proof.
  unfold add_with_audit, mbind, M_bind. rewrite ensure_absent_run.
  destruct (s.(_changes) !! _); [auto|].
  destruct (decide (au_tenant_id a = cr_tenant_id r)) as [Ht|Ht]; last first.
  { unfold _validate_audit_scope. rewrite bool_decide_eq_false_2 by done. auto. }
  destruct (decide (au_change_id a = cr_change_id r)) as [Hc|Hc]; last first.
  { unfold _validate_audit_scope.
    rewrite (bool_decide_eq_false_2 (au_change_id a = _)) by done. rewrite orb_true_r. auto. }
  rewrite scope_run, ensure_new_run by done. destruct (s.(_audit) !! _); auto.
  right. by split_and!.
Qed.

Lemma commit_effect r a v s :
  (commit_transition r a v s).2 = s ∨
  is_Some (s.(_changes) !! (r.(cr_tenant_id), r.(cr_change_id))) ∧ scoped r a ∧
  s.(_audit) !! (a.(au_tenant_id), a.(au_audit_event_id)) = None ∧
  (commit_transition r a v s).2 = with_audit a (with_change r s).
Proof.
  destruct (decide (au_tenant_id a = cr_tenant_id r ∧ au_change_id a = cr_change_id r)) as [Hs|Hs].
  - pose proof (commit_run s r a v Hs) as H. cbn zeta in H. destruct Hs as [Ht Hc].
    rewrite Ht. destruct (s.(_changes) !! _) eqn:?; [destruct (s.(_audit) !! _)|].
    + rewrite H. auto.
    + rewrite H. case_bool_decide; [auto|]. case_bool_decide; [auto|]. right. by split_and!.
    + destruct H as (e & -> & _). auto.
  - left. unfold commit_transition. pose proof (get_run s (cr_tenant_id r) (cr_change_id r)) as Hg.
    unfold get in Hg. destruct (s.(_changes) !! _).
    + rewrite (bind_run _ _ _ _ _ Hg). unfold _validate_audit_scope, mbind, M_bind.
      rewrite <-!bool_decide_not, <-bool_decide_or, bool_decide_eq_true_2; [done|].
      destruct (decide (au_tenant_id a = cr_tenant_id r)); naive_solver.
    + destruct Hg as (e & He & _). by rewrite (bind_run_err _ _ _ _ _ He).
Qed.

Lemma record_audit_effect a s :
  (record_audit a s).2 = s ∨
  is_Some (s.(_changes) !! (a.(au_tenant_id), a.(au_change_id))) ∧
  s.(_audit) !! (a.(au_tenant_id), a.(au_audit_event_id)) = None ∧
  (record_audit a s).2 = with_audit a s.
Proof.
  pose proof (record_audit_run s a) as H. cbn zeta in H.
  destruct (s.(_changes) !! _) eqn:?; [destruct (s.(_audit) !! _)|].
  - rewrite H. auto.
  - rewrite H. right. by split_and!.
  - destruct H as (e & -> & _). auto.
Qed.

Lemma list_audit_after_effect t c cursor limit s :
  inv s →
  (list_audit_after t c cursor limit s).2 = s ∨
  (list_audit_after t c cursor limit s).2 = (audit_ids t c s).2.
Proof.
  intros Hinv. destruct (s.(_changes) !! (t, c)) as [r|] eqn:Hr.
  - destruct (list_audit_after_run s t c cursor limit r Hinv Hr) as (l & _ & ->). auto.
  - pose proof (get_run s t c) as Hg. rewrite Hr in Hg. destruct Hg as (e & He & _).
    unfold list_audit_after. unfold get in He. rewrite (bind_run_err _ _ _ _ _ He). auto.
Qed.

Lemma run_op_inv o s : inv s → inv (run_op o s).
Proof.
  intros Hinv. destruct o as [r|r a|t c|t n|r a v|a|t c k n|t n]; simpl.
  - destruct (add_effect r s) as [->|(_ & ->)]; [done|]. by apply new_change_inv.
  - destruct (add_with_audit_effect r a s) as [->|(Hnone & (Ht & Hc) & Hnew & ->)]; [done|].
    apply with_audit_inv; [by apply new_change_inv| |done].
    simpl. by rewrite Ht, Hc, lookup_insert_eq.
  - by rewrite get_pure.
  - done.
  - destruct (commit_effect r a v s) as [->|(Hold & (Ht & Hc) & Hnew & ->)]; [done|].
    apply with_audit_inv; [by apply with_change_inv| |done].
    simpl. by rewrite Ht, Hc, lookup_insert_eq.
  - destruct (record_audit_effect a s) as [->|(Hold & Hnew & ->)]; [done|].
    by apply with_audit_inv.
  - destruct (list_audit_after_effect t c k n s Hinv) as [->| ->]; [done|].
    by apply reading_ids_inv.
  - done.
Qed.

Lemma run_ops_inv ops : inv (run_ops ops).
Proof.
  unfold run_ops. generalize empty_inv. generalize empty as s.
  induction ops as [|o ops IH]; intros s Hs; simpl; [done|]. apply IH. by apply run_op_inv.
Qed.

(** A call leaves the partition of every other tenant as it was. *)
Lemma run_op_frame o s t :
  inv s → op_tenant o ≠ Some t →
  (∀ c, (run_op o s).(_changes) !! (t, c) = s.(_changes) !! (t, c)) ∧
  (∀ i, (run_op o s).(_audit) !! (t, i) = s.(_audit) !! (t, i)).
Proof.
  intros Hinv Ht. destruct o as [r|r a|t' c'|t' n|r a v|a|t' c' k n|t' n]; simpl in *.
  - destruct (add_effect r s) as [->|(_ & ->)]; [done|]. simpl. split; intros; [|done].
    rewrite lookup_insert_ne; [done|congruence].
  - destruct (add_with_audit_effect r a s) as [->|(_ & (Hta & _) & _ & ->)]; [done|].
    simpl. split; intros; (rewrite lookup_insert_ne; [done|congruence]).
  - by rewrite get_pure.
  - done.
  - destruct (commit_effect r a v s) as [->|(_ & (Hta & _) & _ & ->)]; [done|].
    simpl. split; intros; (rewrite lookup_insert_ne; [done|congruence]).
  - destruct (record_audit_effect a s) as [->|(_ & _ & ->)]; [done|].
    simpl. split; intros; [done|]. rewrite lookup_insert_ne; [done|congruence].
  - by destruct (list_audit_after_effect t' c' k n s Hinv) as [->| ->].
  - done.
Qed.

(** The values a tenant owns. *)
Lemma elem_of_owned {A} (t : string) (m : gmap (string * string) A) (x : A) :
  x ∈ owned t m ↔ ∃ k, m !! (t, k) = Some x.
Proof.
  unfold owned. rewrite list_elem_of_fmap. split.
  - intros ([[t' k] y] & -> & Hin). apply list_elem_of_filter in Hin as [Ht Hin].
    simpl in Ht. subst t'. exists k. by apply elem_of_map_to_list.
  - intros (k & Hk). exists ((t, k), x). split; [done|].
    apply list_elem_of_filter. split; [done|]. by apply elem_of_map_to_list.
Qed.
End MemoryHistory.
