(* ===== verification/Samples.v ===== *)
(** Concrete inputs: a platform whose hash is a checksum, a migration event, a
    three-step plan and a change record.  The witnesses of the theorems run the
    definitions on them. *)

From Stdlib Require Import Ascii.
From S2P Require Import Prelude Json Contracts Errors Persistence.

(** * A platform *)

Definition hex_char (n : Z) : ascii :=
  ascii_of_N (Z.to_N (if n mod 16 <? 10 then 48 + n mod 16 else 87 + n mod 16)).
Fixpoint hex_digits (k : nat) (n : Z) : string :=
  match k with O => "" | S k => String (hex_char n) (hex_digits k (n / 16)) end.
Fixpoint checksum (s : string) (acc : Z) : Z :=
  match s with
  | EmptyString => acc
  | String c s => checksum s ((acc * 31 + Z.of_N (N_of_ascii c)) mod 4294967296)
  end.

Lemma hex_char_lower n : is_lower_hex (hex_char n) = true.
Proof.
  unfold hex_char. pose proof (Z.mod_pos_bound n 16 ltac:(lia)) as Hn.
  destruct (Z.ltb_spec (n mod 16) 10).
  - assert (n mod 16 ∈ seqZ 0 10) as Hin by (apply elem_of_seqZ; lia).
    generalize dependent (n mod 16). intros m _ _ Hin.
    revert m Hin. apply Forall_forall. by repeat constructor.
  - assert (n mod 16 ∈ seqZ 10 6) as Hin by (apply elem_of_seqZ; lia).
    generalize dependent (n mod 16). intros m _ _ Hin.
    revert m Hin. apply Forall_forall. by repeat constructor.
Qed.

Lemma hex_digits_shape k n :
  slen (hex_digits k n) = Z.of_nat k ∧ all_chars is_lower_hex (hex_digits k n) = true.
Proof.
  revert n. induction k as [|k IH]; intros n; [done|]. destruct (IH (n / 16)) as [Hl Ha].
  unfold slen in *. cbn [hex_digits all_chars String.length]. rewrite hex_char_lower, Ha.
  split; [lia|done].
Qed.

Definition toy_hash (s : string) : string := hex_digits 64 (checksum s 7).
Lemma toy_hash_shape s : is_hex64 (toy_hash s) = true.
Proof.
  unfold is_hex64, toy_hash. destruct (hex_digits_shape 64 (checksum s 7)) as [-> ->]. done.
Qed.

#[export] Instance demo_platform : Platform := {
  sha256_hex := toy_hash;
  sha256_hex_shape := toy_hash_shape;
  isoformat := zstr;
  isoformat_inj := zstr_inj;
}.

(** * A change and its plan *)

Definition demo_source : ChangeSource :=
  mkChangeSource "github" "pr-42" "https://changeops.example/pr/42".

Definition demo_event : ChangeEvent := {|
  ev_event_id := "evt-1"; ev_tenant_id := "acme"; ev_event_type := "api.contract.changed";
  ev_source := demo_source; ev_occurred_at := 1000; ev_received_at := 2000;
  ev_subject := mkChangeSubject "customer-api" "contract" "customer";
  ev_change := mkChangeDetails "customer_id becomes customer_uuid" "v1" "v2" ["openapi.json"];
  ev_correlation_id := "corr-1"; ev_trace_id := "trace-1" |}.

Definition demo_change : ChangeRecord := {|
  cr_change_id := "chg-1"; cr_tenant_id := "acme"; cr_event_id := "evt-1";
  cr_change_type := "api.contract.changed"; cr_title := "customer_id becomes customer_uuid";
  cr_description := "customer_id becomes customer_uuid"; cr_source := demo_source;
  cr_environment := SANDBOX; cr_status := RECEIVED; cr_risk_level := UNKNOWN;
  cr_current_phase := RECEIVED; cr_workflow_execution_id := None; cr_plan_version := 0;
  cr_plan_hash := None; cr_created_at := 5000; cr_updated_at := 5000;
  cr_created_by := "event-gateway"; cr_version := 1 |}.

Definition demo_step (id : string) (order : Z) (agent tool resource : string)
    (deps : list string) : RemediationStep := {|
  st_step_id := id; st_order := order; st_agent_id := agent; st_tool_name := tool;
  st_resource := resource;
  st_arguments := [("old_field", JStr "customer_id"); ("new_field", JStr "customer_uuid")];
  st_depends_on := deps; st_risk_level := HIGH; st_requires_approval := true;
  st_idempotency_key := "idem-" +:+ id |}.

Definition demo_plan : RemediationPlan := {|
  pl_plan_id := "plan-1"; pl_tenant_id := "acme"; pl_change_id := "chg-1"; pl_version := 1;
  pl_risk_level := HIGH; pl_summary := "Migrate the identifier field";
  pl_preconditions := [];
  pl_steps := [
    demo_step "s1" 1 "crm" "crm.update_field_mapping" "crm://tenant/acme/configuration/main" [];
    demo_step "s2" 2 "analytics" "analytics.update_field_mapping"
      "analytics://tenant/acme/configuration/main" ["s1"];
    demo_step "s3" 3 "support" "support.update_lookup_field"
      "support://tenant/acme/configuration/main" ["s1"]];
  pl_verification_steps := ["verify all systems"]; pl_rollback_steps := ["restore snapshots"];
  pl_evidence_refs := ["ev-1"]; pl_created_at := 6000 |}.

Definition demo_audit (i : string) (at_ : Z) : AuditEvent := {|
  au_audit_event_id := i; au_tenant_id := "acme"; au_change_id := "chg-1";
  au_trace_id := "trace-1"; au_event_type := "CHANGE_RECEIVED"; au_actor_type := ActorService;
  au_actor_id := "event-gateway"; au_resource := "changes/chg-1"; au_action := "create_change";
  au_decision_id := None; au_input_hash := sha256_digest JNull;
  au_output_hash := sha256_digest JNull; au_status := AuditSuccess;
  au_redacted_summary := "Change accepted."; au_created_at := at_ |}.

(** The store after the change was received. *)
Definition demo_store : InMemoryChangeStateRepository :=
  (Memory.add_with_audit demo_change (demo_audit "audit-1" 5000) Memory.empty).2.

Lemma demo_store_inv : MemoryInv.inv demo_store.
Proof.
  apply (MemoryHistory.run_op_inv (MemoryHistory.AddWithAudit demo_change _)).
  apply MemoryInv.empty_inv.
Qed.

Example demo_plan_ok : RemediationPlan_ok demo_plan = true.
Proof. vm_compute. reflexivity. Qed.
Example demo_change_ok : ChangeRecord_ok demo_change = true.
Proof. vm_compute. reflexivity. Qed.
Example demo_event_ok : ChangeEvent_ok demo_event = true.
Proof. vm_compute. reflexivity. Qed.
