(* ===== verification/ContractFacts.v ===== *)
(** What the contracts promise: canonical text identifies a document, a plan
    hash binds to one plan, and a validated plan is an acyclic, contiguously
    numbered step graph. *)

From S2P Require Import Prelude Json Contracts Errors Persistence Samples.

Module ContractProperties.


(** C26. A plan hash binds an approval or an intent to one exact plan: two valid plans
    with the same hash agree in every field, tool arguments compared as
    dictionaries, unless SHA-256 collides on the two plan documents. *)
Theorem plan_hash_binds `{Platform} p q :
  RemediationPlan_ok p = true → RemediationPlan_ok q = true →
  (sha256_hex (canonical_json (plan_json p)) = sha256_hex (canonical_json (plan_json q)) →
   canonical_json (plan_json p) = canonical_json (plan_json q)) →
  calculate_plan_hash p = calculate_plan_hash q → plan_eqb p q = true.
Proof. apply plan_hash_eqb. Qed.

(** The demonstration plan with the arguments of its steps listed in the other
    order. *)
Definition reordered_plan : RemediationPlan := {|
  pl_plan_id := pl_plan_id demo_plan; pl_tenant_id := pl_tenant_id demo_plan;
  pl_change_id := pl_change_id demo_plan; pl_version := pl_version demo_plan;
  pl_risk_level := pl_risk_level demo_plan; pl_summary := pl_summary demo_plan;
  pl_preconditions := pl_preconditions demo_plan;
  pl_steps := (λ s, {| st_step_id := st_step_id s; st_order := st_order s;
    st_agent_id := st_agent_id s; st_tool_name := st_tool_name s;
    st_resource := st_resource s; st_arguments := reverse (st_arguments s);
    st_depends_on := st_depends_on s; st_risk_level := st_risk_level s;
    st_requires_approval := st_requires_approval s;
    st_idempotency_key := st_idempotency_key s |}) <$> pl_steps demo_plan;
  pl_verification_steps := pl_verification_steps demo_plan;
  pl_rollback_steps := pl_rollback_steps demo_plan;
  pl_evidence_refs := pl_evidence_refs demo_plan; pl_created_at := pl_created_at demo_plan |}.

Lemma plan_hash_binds_witness :
  calculate_plan_hash demo_plan = calculate_plan_hash reordered_plan ∧
  plan_eqb demo_plan reordered_plan = true.
Proof.
  assert (calculate_plan_hash demo_plan = calculate_plan_hash reordered_plan) as Hh
    by (vm_compute; reflexivity).
  split; [exact Hh|].
  apply plan_hash_binds; [vm_compute; reflexivity..|exact Hh].
Defined.

(** C27. Plan validation accepts exactly the step graphs that can be executed in
    order: identifiers are unique, orders are the numbers 1..n, and every
    dependency names an earlier step of the plan; so while steps are left, one
    of them has all its dependencies done. *)
Theorem plan_validation_is_dag p :
  (RemediationPlan_validate p = Ok tt ↔ step_graph p.(pl_steps)) ∧
  (RemediationPlan_validate p = Ok tt →
   ∀ (done_ids : list string) s, s ∈ p.(pl_steps) → s.(st_step_id) ∉ done_ids →
   ∃ s', s' ∈ p.(pl_steps) ∧ s'.(st_step_id) ∉ done_ids ∧
         ∀ d, d ∈ s'.(st_depends_on) → d ∈ done_ids).
Proof.
  split; [apply RemediationPlan_validate_ok|]. intros Hok done_ids s.
  apply step_graph_ready. by apply RemediationPlan_validate_ok.
Qed.
End ContractProperties.
