(* ===== verification/PersistenceFacts.v ===== *)
(** What the in-memory repository promises: consistent indexes, isolation of
    tenants, and an audit stream that resumes at a cursor. *)

From S2P Require Import Prelude Json Contracts Errors Persistence Samples.

Module MemoryProperties.
Import Memory MemoryInv MemoryAudit MemoryHistory.

(** Two pages of a stream, the second starting behind the last event of the
    first. *)
Lemma pages_join l n m a page1 t c :
  NoDup (au_audit_event_id <$> l) → take n l = page1 → last page1 = Some a →
  ∃ rest, after_cursor t c (Some a.(au_audit_event_id)) l = Ok rest ∧
    take (n + m) l = page1 ++ take m rest.
Proof.
  intros Hnd <- Hlast. rewrite last_lookup in Hlast.
  assert (take n l ≠ []) as Hne by (intros E; by rewrite E in Hlast).
  remember (length (take n l)) as p eqn:Hlen.
  assert (p = n `min` length l)%nat as Hp by (by rewrite Hlen, length_take).
  assert (0 < p)%nat as Hpos by (destruct p; [by destruct (take n l)|lia]).
  assert (l !! pred p = Some a) as Hla.
  { rewrite lookup_take in Hlast. by case_decide. }
  exists (drop (S (pred p)) l). split; [by apply after_cursor_at|].
  replace (S (pred p)) with p by lia. rewrite <-(take_take_drop l n). f_equal.
  destruct (decide (n <= length l)%nat); [by replace p with n by lia|].
  rewrite !drop_ge by lia. done.
Qed.

(** C17. Whatever sequence of repository calls is made, the indexes of the
    in-memory store agree: every change is filed under its own tenant and
    identifier, the tenant index lists exactly the owners of an identifier,
    and each per-change audit list names, without repetition, exactly the
    stored events of that change; in particular reading an audit stream never
    meets a dangling identifier ([KeyError]). *)
Theorem memory_store_consistent ops :
  inv (run_ops ops) ∧
  ∀ t c cursor limit, (list_audit_after t c cursor limit (run_ops ops)).1 ≠ Err KeyError.
Proof.
  split; [apply run_ops_inv|]. intros t c cursor limit.
  pose proof (run_ops_inv ops) as Hinv. set (s := run_ops ops) in *.
  destruct (s.(_changes) !! (t, c)) as [r|] eqn:Hr.
  - destruct (list_audit_after_run s t c cursor limit r Hinv Hr) as (l & _ & ->).
    destruct cursor as [k|]; simpl; [|done]. by destruct (find_index _ _).
  - pose proof (get_run s t c) as Hg. rewrite Hr in Hg. destruct Hg as (e & He & Hm).
    unfold list_audit_after. unfold get in He. rewrite (bind_run_err _ _ _ _ _ He).
    by destruct Hm as [->| ->].
Qed.

(** C18. Tenant isolation of the in-memory store: after any history, a read on
    behalf of a tenant returns only records of that tenant (and of the change
    asked for), and a call that writes in another tenant's partition changes
    nothing this tenant can read. *)
Theorem memory_tenant_isolation ops o t :
  let s := run_ops ops in
  (∀ c r s', get t c s = (Ok r, s') → r.(cr_tenant_id) = t ∧ r.(cr_change_id) = c) ∧
  (∀ n l s' r, list_changes t n s = (Ok l, s') → r ∈ l → r.(cr_tenant_id) = t) ∧
  (∀ c k n l s' a, list_audit_after t c k n s = (Ok l, s') → a ∈ l →
     a.(au_tenant_id) = t ∧ a.(au_change_id) = c) ∧
  (∀ n l s' a, list_tenant_audit t n s = (Ok l, s') → a ∈ l → a.(au_tenant_id) = t) ∧
  (op_tenant o ≠ Some t →
     (∀ c, view_change (run_op o s) t c = view_change s t c) ∧
     (∀ i, view_audit (run_op o s) t i = view_audit s t i)).
Proof.
  cbn zeta. pose proof (run_ops_inv ops) as Hinv. set (s := run_ops ops) in *. split_and!.
  - intros c r s' Hg. pose proof (get_run s t c) as Hrun.
    destruct (s.(_changes) !! (t, c)) as [r'|] eqn:Hr; rewrite Hg in Hrun; simplify_eq.
    + by apply (inv_key s Hinv).
    + by destruct Hrun as (e & ? & _).
  - intros n l s' r [=<- <-] Hin%slice_to_subset. unfold sort_by_desc in Hin.
    rewrite merge_sort_Permutation in Hin. apply elem_of_owned in Hin as (k & Hk).
    by apply (inv_key s Hinv) in Hk as [? _].
  - intros c k n l s' a Hrun Hin. destruct (s.(_changes) !! (t, c)) as [r|] eqn:Hr.
    + destruct (list_audit_after_run s t c k n r Hinv Hr) as (ev & (_ & _ & Hm) & E).
      rewrite E in Hrun. destruct (after_cursor t c k ev) as [l'|] eqn:Hc; simplify_eq.
      apply slice_to_subset in Hin.
      assert (a ∈ ev) as [Ha ?]%Hm; [|by destruct (inv_audit s Hinv _ _ _ Ha)].
      destruct k as [k|]; simplify_eq/=; [|done].
      destruct (find_index _ _); simplify_eq. by eapply subseteq_drop.
    + pose proof (get_run s t c) as Hg. rewrite Hr in Hg. destruct Hg as (e & He & _).
      unfold list_audit_after in Hrun. unfold get in He.
      by rewrite (bind_run_err _ _ _ _ _ He) in Hrun.
  - intros n l s' a [=<- <-] Hin%slice_to_subset. unfold sort_by_desc in Hin.
    rewrite merge_sort_Permutation in Hin. apply elem_of_owned in Hin as (k & Hk).
    by destruct (inv_audit s Hinv _ _ _ Hk).
  - intros Ht. by apply run_op_frame.
Qed.

(** C19. The audit stream resumes without loss or repetition: if a first page of
    at most [n] events was read and its last event is then used as the cursor
    ([Last-Event-ID]), the next page of at most [m] events continues exactly
    where the first stopped: the two pages together are the first [n + m]
    events of the stream. *)
Theorem audit_stream_resumes s t c n m page1 s1 page2 s2 a :
  inv s → 0 <= n → 0 <= m →
  list_audit_after t c None n s = (Ok page1, s1) →
  last page1 = Some a →
  list_audit_after t c (Some a.(au_audit_event_id)) m s1 = (Ok page2, s2) →
  (list_audit_after t c None (n + m) s).1 = Ok (page1 ++ page2).
Proof.
  intros Hinv Hn Hm H1 Hlast H2.
  destruct (s.(_changes) !! (t, c)) as [r|] eqn:Hr; last first.
  { pose proof (get_run s t c) as Hg. rewrite Hr in Hg. destruct Hg as (e & He & _).
    unfold list_audit_after in H1. unfold get in He.
    by rewrite (bind_run_err _ _ _ _ _ He) in H1. }
  destruct (list_audit_after_run s t c None n r Hinv Hr) as (l & Hl & E1).
  rewrite E1 in H1. cbn [after_cursor] in H1.
  assert (s1 = (audit_ids t c s).2) as -> by congruence.
  assert (page1 = slice_to n l) as -> by congruence.
  destruct (list_audit_after_run s t c None (n + m) r Hinv Hr) as (l' & Hl' & E2).
  rewrite (stream_unique s t c l' l) in E2 by done. rewrite E2. simpl. clear l' Hl' E2.
  pose proof (reading_ids_inv t c s Hinv) as Hinv1.
  destruct (list_audit_after_run _ t c (Some a.(au_audit_event_id)) m r Hinv1 Hr)
    as (l' & Hl' & E3).
  rewrite (stream_unique _ t c l' l Hl' (stream_reading _ _ _ _ Hl)) in E3.
  rewrite E3 in H2. clear l' Hl' E3. rewrite !slice_to_nonneg in * by lia.
  destruct (pages_join l (Z.to_nat n) (Z.to_nat m) a _ t c (proj1 Hl) eq_refl Hlast)
    as (rest & Hrest & Hjoin).
  rewrite Hrest, slice_to_nonneg in H2 by lia. rewrite Z2Nat.inj_add by lia. congruence.
Qed.

(** Two audit events of one change, read one at a time. *)
Definition demo_history : list op :=
  [AddWithAudit demo_change (demo_audit "audit-1" 5000); RecordAudit (demo_audit "audit-0" 5500)].

Lemma audit_stream_resumes_witness :
  (list_audit_after "acme" "chg-1" None 2 (run_ops demo_history)).1 =
    Ok ([demo_audit "audit-1" 5000] ++ [demo_audit "audit-0" 5500]).
Proof.
  eapply (audit_stream_resumes _ _ _ 1 1 _ _ _ _ (demo_audit "audit-1" 5000)
    (run_ops_inv demo_history)); try lia.
  - vm_compute. reflexivity.
  - reflexivity.
  - vm_compute. reflexivity.
Defined.
End MemoryProperties.
