(* ===== verification/StateMachine.v ===== *)
(** The workflow state machine of [packages/changeops-core/.../state_machine.py]:
    the transition graph and [StateTransitionService.transition], proved against
    the repository interface. *)

From S2P Require Import Prelude Json Contracts Errors Persistence Samples.

(** * The transition graph *)

(** [_ALLOWED_TRANSITIONS] *)
Definition allowed_targets (state : WorkflowState) : list WorkflowState :=
  match state with
  | RECEIVED => [SCREENING; CANCELLED; FAILED]
  | SCREENING => [BLOCKED; ANALYZING; CANCELLED; FAILED; NEEDS_ATTENTION]
  | BLOCKED => [SCREENING; CANCELLED; NEEDS_ATTENTION]
  | ANALYZING => [PLAN_READY; BLOCKED; CANCELLED; FAILED; NEEDS_ATTENTION]
  | PLAN_READY => [AWAITING_APPROVAL; EXECUTING; ANALYZING; CANCELLED; NEEDS_ATTENTION]
  | AWAITING_APPROVAL => [APPROVED; REJECTED; CANCELLED; NEEDS_ATTENTION]
  | APPROVED => [EXECUTING; CANCELLED; NEEDS_ATTENTION]
  | REJECTED => [ANALYZING; CANCELLED]
  | EXECUTING => [VERIFYING; ROLLING_BACK; FAILED; PARTIAL; NEEDS_ATTENTION]
  | VERIFYING => [COMPLETED; ROLLING_BACK; FAILED; PARTIAL; NEEDS_ATTENTION]
  | ROLLING_BACK => [FAILED; PARTIAL; CANCELLED; NEEDS_ATTENTION]
  | NEEDS_ATTENTION =>
      [SCREENING; ANALYZING; AWAITING_APPROVAL; EXECUTING; VERIFYING; ROLLING_BACK; FAILED;
       CANCELLED]
  | COMPLETED | FAILED | PARTIAL | CANCELLED => []
  end.

Definition can_transition (current target : WorkflowState) : bool :=
  mem target (allowed_targets current).

Definition edge (a b : WorkflowState) : Prop := can_transition a b = true.

(** * The transition service *)

(** [record_updates]: the four fields a caller may set, and the names of any
    other keys of the mapping. *)
Record RecordUpdates := mkRecordUpdates {
  up_workflow_execution_id : option string;
  up_plan_version : option Z;
  up_plan_hash : option string;
  up_risk_level : option RiskLevel;
  up_unsupported : list string;
}.
Definition no_updates : RecordUpdates := mkRecordUpdates None None None None [].

Section Service.
Context `{Platform}.

Definition updates_json (u : RecordUpdates) : json :=
  let field k (o : option json) := match o with Some v => [(k, v)] | None => [] end in
  JObj (field "workflow_execution_id" (JStr <$> u.(up_workflow_execution_id)) ++
        field "plan_version" (JInt <$> u.(up_plan_version)) ++
        field "plan_hash" (JStr <$> u.(up_plan_hash)) ++
        field "risk_level" ((λ r, JStr (RiskLevel_value r)) <$> u.(up_risk_level))).

Definition _build_audit_event (audit_event_id : string) (current : ChangeRecord)
    (target : WorkflowState) (trace_id : string) (actor_type : ActorType) (actor_id : string)
    (input_hash output_hash : string) (status : AuditStatus) (created_at : Z)
  : result exn AuditEvent :=
  let outcome := if bool_decide (status = AuditSuccess) then "SUCCEEDED" else "REJECTED" in
  validated "AuditEvent" AuditEvent_ok {|
    au_audit_event_id := audit_event_id;
    au_tenant_id := current.(cr_tenant_id);
    au_change_id := current.(cr_change_id);
    au_trace_id := trace_id;
    au_event_type := "WORKFLOW_STATE_TRANSITION_" +:+ outcome;
    au_actor_type := actor_type;
    au_actor_id := actor_id;
    au_resource := "changes/" +:+ current.(cr_change_id);
    au_action := "transition_state";
    au_decision_id := None;
    au_input_hash := input_hash;
    au_output_hash := output_hash;
    au_status := status;
    au_redacted_summary :=
      "Workflow transition " +:+ WorkflowState_value current.(cr_status) +:+ " to " +:+
      WorkflowState_value target +:+ " " +:+ AuditStatus_value status +:+ ".";
    au_created_at := created_at |}.

(** The document the new record is validated from. *)
Definition transitioned (current : ChangeRecord) (u : RecordUpdates) (target : WorkflowState)
    (transitioned_at expected_version : Z) : ChangeRecord := {|
  cr_change_id := current.(cr_change_id);
  cr_tenant_id := current.(cr_tenant_id);
  cr_event_id := current.(cr_event_id);
  cr_change_type := current.(cr_change_type);
  cr_title := current.(cr_title);
  cr_description := current.(cr_description);
  cr_source := current.(cr_source);
  cr_environment := current.(cr_environment);
  cr_status := target;
  cr_risk_level := default current.(cr_risk_level) u.(up_risk_level);
  cr_current_phase := target;
  cr_workflow_execution_id :=
    match u.(up_workflow_execution_id) with
    | Some w => Some w | None => current.(cr_workflow_execution_id) end;
  cr_plan_version := default current.(cr_plan_version) u.(up_plan_version);
  cr_plan_hash :=
    match u.(up_plan_hash) with Some h => Some h | None => current.(cr_plan_hash) end;
  cr_created_at := current.(cr_created_at);
  cr_updated_at := transitioned_at;
  cr_created_by := current.(cr_created_by);
  cr_version := expected_version + 1 |}.

(** The audit event of a lost optimistic-concurrency race. *)
Definition conflict_audit (a : AuditEvent) (current target : WorkflowState)
    (expected_version actual_version : Z) : result exn AuditEvent :=
  validated "AuditEvent" AuditEvent_ok {|
    au_audit_event_id := a.(au_audit_event_id);
    au_tenant_id := a.(au_tenant_id);
    au_change_id := a.(au_change_id);
    au_trace_id := a.(au_trace_id);
    au_event_type := "WORKFLOW_STATE_TRANSITION_REJECTED";
    au_actor_type := a.(au_actor_type);
    au_actor_id := a.(au_actor_id);
    au_resource := a.(au_resource);
    au_action := a.(au_action);
    au_decision_id := a.(au_decision_id);
    au_input_hash := a.(au_input_hash);
    au_output_hash := sha256_digest (JObj [
      ("actual_version", JInt actual_version); ("expected_version", JInt expected_version);
      ("reason", JStr "optimistic_concurrency_conflict")]);
    au_status := AuditRejected;
    au_redacted_summary :=
      "Workflow transition " +:+ WorkflowState_value current +:+ " to " +:+
      WorkflowState_value target +:+ " rejected.";
    au_created_at := a.(au_created_at) |}.

Context {R : Type} `{ChangeStateRepository R}.

(** [StateTransitionService.transition]; the clock reading and the new audit
    identifier are arguments. *)
Definition transition (transitioned_at : Z) (audit_id : string)
    (tenant_id change_id : string) (target : WorkflowState) (expected_version : Z)
    (trace_id : string) (actor_type : ActorType) (actor_id : string) (updates : RecordUpdates)
  : call R ChangeRecord :=
  current ← repo_get tenant_id change_id;
  _ ← raise_if (transitioned_at <? current.(cr_updated_at))
        (ValueError "State transition clock cannot move updated_at backwards.");
  _ ← raise_if (negb (bool_decide (updates.(up_unsupported) = [])))
        (ValueError ("Unsupported transition record updates: " +:+
           String.concat ", " (merge_sort String.le (remove_dups updates.(up_unsupported)))));
  let input_hash := sha256_digest (JObj [
    ("change_id", JStr change_id);
    ("current", JStr (WorkflowState_value current.(cr_status)));
    ("expected_version", JInt expected_version);
    ("record_updates", updates_json updates);
    ("target", JStr (WorkflowState_value target));
    ("tenant_id", JStr tenant_id)]) in
  if negb (can_transition current.(cr_status) target) then
    audit_event ← of_result (_build_audit_event audit_id current target trace_id actor_type
      actor_id input_hash (sha256_digest (JObj [("reason", JStr "invalid_transition")]))
      AuditRejected transitioned_at);
    _ ← repo_record_audit audit_event;
    raise (InvalidStateTransitionError current.(cr_status) target
             audit_event.(au_audit_event_id))
  else
    updated ← of_result (validated "ChangeRecord" ChangeRecord_ok
      (transitioned current updates target transitioned_at expected_version));
    audit_event ← of_result (_build_audit_event audit_id current target trace_id actor_type
      actor_id input_hash (sha256_digest (change_json updated)) AuditSuccess transitioned_at);
    _ ← catch (repo_commit_transition updated audit_event expected_version) (λ error,
          match error with
          | EPersistence (OptimisticConcurrencyError _ expected actual) => Some (
              conflict ← of_result (conflict_audit audit_event current.(cr_status) target
                                      expected actual);
              _ ← repo_record_audit conflict;
              raise error)
          | _ => None
          end);
    mret updated.
End Service.

(** * Facts about the graph *)

Lemma edge_irreflexive s : can_transition s s = false.
Proof. by destruct s. Qed.

(** * Facts about the service *)

Section ServiceFacts.
Context `{Platform} {R : Type} `{RepositoryLaws R}.

Lemma build_audit_scoped i cur target tr ty ac ih oh st at_ a u v :
  _build_audit_event i cur target tr ty ac ih oh st at_ = Ok a →
  a.(au_audit_event_id) = i ∧ a.(au_status) = st ∧ a.(au_tenant_id) = cur.(cr_tenant_id) ∧
  a.(au_change_id) = cur.(cr_change_id) ∧ AuditEvent_ok a = true ∧
  scoped (transitioned cur u target at_ v) a.
Proof.
  unfold _build_audit_event. intros [Hok ->]%validated_ok. unfold scoped. by split_and!.
Qed.

(** Recording an audit event never touches a change record. *)
Lemma record_audit_keeps_changes s a :
  repo_inv s →
  repo_inv (repo_record_audit a s).2 ∧
  ∀ t c, view_change (repo_record_audit a s).2 t c = view_change s t c.
Proof.
  intros Hinv. pose proof (record_audit_law s a Hinv) as Hlaw. cbn zeta in Hlaw.
  destruct (view_change s _ _).
  - destruct (view_audit s _ _); [by destruct Hlaw as [-> _]|]. tauto.
  - by destruct Hlaw as [-> _].
Qed.

Definition success_effect (s s' : R) (r : ChangeRecord) (a : AuditEvent) : Prop :=
  (∀ t c, view_change s' t c =
     if bool_decide (t = r.(cr_tenant_id) ∧ c = r.(cr_change_id)) then Some r
     else view_change s t c) ∧
  (∀ t i, view_audit s' t i =
     if bool_decide (t = r.(cr_tenant_id) ∧ i = a.(au_audit_event_id)) then Some a
     else view_audit s t i).

(** Every outcome of a transition: it commits record and audit event together,
    or it leaves every record as it was. *)
Lemma transition_outcome s at_ i t c target v tr ty ac u :
  repo_inv s →
  let s' := (transition at_ i t c target v tr ty ac u s).2 in
  repo_inv s' ∧
  match (transition at_ i t c target v tr ty ac u s).1 with
  | Ok r => ∃ cur a, view_change s t c = Some cur ∧
      can_transition cur.(cr_status) target = true ∧ cur.(cr_version) = v ∧
      cur.(cr_updated_at) <= at_ ∧ u.(up_unsupported) = [] ∧
      r = transitioned cur u target at_ v ∧ ChangeRecord_ok r = true ∧
      a.(au_audit_event_id) = i ∧ a.(au_status) = AuditSuccess ∧ scoped r a ∧
      view_audit s t i = None ∧ success_effect s s' r a
  | Err _ => ∀ t' c', view_change s' t' c' = view_change s t' c'
  end.
Proof.
  intros Hinv. cbn zeta. unfold transition.
  pose proof (get_law s t c Hinv) as Hget.
  destruct (view_change s t c) as [cur|] eqn:Hcur; last first.
  { destruct Hget as (e & He & _). by rewrite (bind_run_err _ _ _ _ _ He). }
  rewrite (bind_run _ _ _ _ _ Hget).
  destruct (at_ <? cr_updated_at cur) eqn:Hclock; [done|].
  rewrite (bind_run _ _ s tt s) by done.
  destruct (decide (up_unsupported u = [])) as [Hu|Hu];
    [rewrite bool_decide_eq_true_2 by done|by rewrite bool_decide_eq_false_2 by done].
  rewrite (bind_run _ _ s tt s) by done. cbn zeta.
  destruct (can_transition (cr_status cur) target) eqn:Hcan; cbn [negb]; last first.
  - (* rejected by the graph *)
    destruct (_build_audit_event _ _ _ _ _ _ _ _ _ _) as [a|e] eqn:Ha; [|done].
    rewrite (bind_run _ _ s a s) by done.
    pose proof (record_audit_keeps_changes s a Hinv) as [? ?].
    unfold mbind, M_bind. by destruct (repo_record_audit a s) as [[[]|e] s1].
  - destruct (validated _ _ _) as [r|e] eqn:Hr; [|done].
    rewrite (bind_run _ _ s r s) by done.
    destruct (_build_audit_event _ _ _ _ _ _ _ _ _ _) as [a|e] eqn:Ha; [|done].
    rewrite (bind_run _ _ s a s) by done.
    apply validated_ok in Hr as [Hok ->].
    pose proof (build_audit_scoped _ _ _ _ _ _ _ _ _ _ a u v Ha) as (Hi & Hst & _ & _ & _ & Hsc).
    destruct (view_change_key s t c cur Hinv Hcur) as [Ht Hc].
    set (r := transitioned cur u target at_ v) in *.
    pose proof (commit_law s r a v Hinv Hsc) as Hlaw. cbn zeta in Hlaw.
    replace (cr_tenant_id r) with t in Hlaw by done.
    replace (cr_change_id r) with c in Hlaw by done.
    rewrite Hcur, Hi in Hlaw. unfold mbind, M_bind, catch.
    destruct (repo_commit_transition r a v s) as [out s1] eqn:Hrun. simpl in Hlaw.
    destruct (view_audit s t i) eqn:Hfresh.
    { destruct Hlaw as [Hs1 Hout]. subst s1 out. by split. }
    destruct (decide (cr_version cur = v)) as [Hv|Hv];
      [rewrite bool_decide_eq_false_2 in Hlaw by auto
      |rewrite bool_decide_eq_true_2 in Hlaw by auto].
    + rewrite bool_decide_eq_false_2 in Hlaw by (intros E; by apply E).
      destruct Hlaw as (-> & Hinv1 & Hch & Hau). simpl. split; [done|].
      exists cur, a. apply Z.ltb_ge in Hclock. split_and!; try done.
      unfold success_effect. replace (cr_tenant_id r) with t by done.
      replace (cr_change_id r) with c by done. by rewrite Hi.
    + destruct Hlaw as [Hs1 Hout]. subst s1 out. simpl. unfold of_result.
      destruct (conflict_audit _ _ _ _ _) as [a'|e]; [|done].
      pose proof (record_audit_keeps_changes s a' Hinv) as [? ?].
      by destruct (repo_record_audit a' s) as [[[]|e] s2].
Qed.
(** ** Audit events are never lost *)

Definition holds_audit (t i : string) (a : AuditEvent) (s : R) : Prop :=
  repo_inv s ∧ view_audit s t i = Some a.

Lemma get_holds_audit t i a t' c : preserves (holds_audit t i a) (repo_get t' c).
Proof.
  intros s [Hinv Ha]. pose proof (get_law s t' c Hinv) as Hget.
  destruct (view_change s t' c); [by rewrite Hget|]. by destruct Hget as (e & -> & _).
Qed.

Lemma record_audit_holds_audit t i a a' : preserves (holds_audit t i a) (repo_record_audit a').
Proof.
  intros s [Hinv Ha]. pose proof (record_audit_law s a' Hinv) as Hlaw. cbn zeta in Hlaw.
  destruct (view_change s _ _); [destruct (view_audit s (au_tenant_id a') _) eqn:Hfresh|];
    [by destruct Hlaw as [-> _]| |by destruct Hlaw as [-> _]].
  destruct Hlaw as (_ & Hinv' & _ & Hau). split; [done|]. rewrite Hau.
  case_bool_decide as Hk; [|done]. destruct Hk as [-> ->]. congruence.
Qed.

Lemma commit_holds_audit t i a r a' v :
  scoped r a' → preserves (holds_audit t i a) (repo_commit_transition r a' v).
Proof.
  intros Hsc s [Hinv Ha]. pose proof (commit_law s r a' v Hinv Hsc) as Hlaw. cbn zeta in Hlaw.
  destruct (view_change s _ _); [destruct (view_audit s (cr_tenant_id r) _) eqn:Hfresh|];
    [by destruct Hlaw as [-> _]| |by destruct Hlaw as [-> _]].
  case_bool_decide; [by destruct Hlaw as [-> _]|]. case_bool_decide; [by destruct Hlaw as [-> _]|].
  destruct Hlaw as (_ & Hinv' & _ & Hau). split; [done|]. rewrite Hau.
  case_bool_decide as Hk; [|done]. destruct Hk as [-> ->]. congruence.
Qed.

#[local] Hint Resolve get_holds_audit record_audit_holds_audit : preserves.

Lemma transition_holds_audit t i a at_ i' t' c target v tr ty ac u :
  preserves (holds_audit t i a) (transition at_ i' t' c target v tr ty ac u).
Proof.
  unfold transition. apply preserves_bind; [auto with preserves|intros cur].
  apply preserves_bind; [auto with preserves|intros _].
  apply preserves_bind; [auto with preserves|intros _]. cbn zeta.
  destruct (negb _).
  - apply preserves_of_result_bind. intros a' _. auto with preserves.
  - apply preserves_of_result_bind. intros r [_ ->]%validated_ok.
    apply preserves_of_result_bind. intros a' Ha'.
    apply preserves_bind; [|auto with preserves]. apply preserves_catch.
    + apply commit_holds_audit. by eapply build_audit_scoped.
    + intros e k. destruct e as [| | | |[]| | | | | | | | |]; try done. intros [= <-].
      apply preserves_of_result_bind. auto with preserves.
Qed.
End ServiceFacts.

(** * Graph paths *)

(** A sequence of states the graph allows, from [s]. *)
Fixpoint path (s : WorkflowState) (l : list WorkflowState) : bool :=
  match l with
  | [] => true
  | s' :: l => can_transition s s' && path s' l
  end.

Definition terminal (s : WorkflowState) : bool :=
  match s with COMPLETED | FAILED | PARTIAL | CANCELLED => true | _ => false end.

(** If [target] can be entered only from states in [gate] or from states already
    behind it, a path that reaches it visits the gate. *)
Definition guarded (gate target : WorkflowState → bool) (s : WorkflowState) : Prop :=
  ∀ l, path s l = true → existsb target l = true → existsb gate l = true.

Lemma guarded_paths (gate target before : WorkflowState → bool) s :
  (∀ a b, before a = true → edge a b → before b = true ∨ gate b = true) →
  (∀ a b, before a = true → edge a b → target b = true → gate b = true) →
  before s = true → guarded gate target s.
Proof.
  intros Hstep Htgt Hs l. revert s Hs.
  induction l as [|b l IH]; intros s Hs Hp Hin; [done|].
  simpl in Hp. apply andb_prop in Hp as [He Hp]. cbn [existsb] in *.
  destruct (gate b) eqn:Hg; [done|]. simpl.
  destruct (target b) eqn:Ht; [by rewrite (Htgt s b Hs He Ht) in Hg|].
  destruct (Hstep s b Hs He) as [Hb|Hb]; [|congruence]. by apply (IH b).
Qed.

(** One allowed transition. *)
Ltac hop := first [apply rtc_once; vm_compute; reflexivity | split; [hop | reflexivity]].

(** Two-state facts, by evaluation. *)
Ltac by_states := intros [] []; vm_compute; intuition congruence.

Definition is_state (s : WorkflowState) (x : WorkflowState) : bool := bool_decide (x = s).

(** * Sequences of requests *)

Record request := mkRequest {
  rq_at : Z; rq_audit_id : string; rq_tenant_id : string; rq_change_id : string;
  rq_target : WorkflowState; rq_expected_version : Z; rq_trace_id : string;
  rq_actor_type : ActorType; rq_actor_id : string; rq_updates : RecordUpdates }.

Section Requests.
Context `{Platform} {R : Type} `{ChangeStateRepository R}.

Definition serve (q : request) : call R ChangeRecord :=
  transition q.(rq_at) q.(rq_audit_id) q.(rq_tenant_id) q.(rq_change_id) q.(rq_target)
    q.(rq_expected_version) q.(rq_trace_id) q.(rq_actor_type) q.(rq_actor_id) q.(rq_updates).

Definition serve_all (qs : list request) (s : R) : R := foldl (λ s q, (serve q s).2) s qs.

(** The number of requests of the sequence that succeeded on one change. *)
Fixpoint successes (t c : string) (qs : list request) (s : R) : Z :=
  match qs with
  | [] => 0
  | q :: qs =>
      (if is_ok (serve q s).1 && bool_decide (q.(rq_tenant_id) = t ∧ q.(rq_change_id) = c)
       then 1 else 0) + successes t c qs (serve q s).2
  end.
End Requests.

(** What a transition may never alter. *)
Definition same_identity (a b : ChangeRecord) : Prop :=
  a.(cr_change_id) = b.(cr_change_id) ∧ a.(cr_tenant_id) = b.(cr_tenant_id) ∧
  a.(cr_event_id) = b.(cr_event_id) ∧ a.(cr_change_type) = b.(cr_change_type) ∧
  a.(cr_source) = b.(cr_source) ∧ a.(cr_environment) = b.(cr_environment) ∧
  a.(cr_created_at) = b.(cr_created_at) ∧ a.(cr_created_by) = b.(cr_created_by).

#[export] Instance same_identity_trans : Transitive same_identity.
Proof. unfold same_identity. intros x y z. intuition congruence. Qed.
#[export] Instance same_identity_refl : Reflexive same_identity.
Proof. by intros x. Qed.

Section RequestFacts.
Context `{Platform} {R : Type} `{RepositoryLaws R}.

(** What one served request does to one change. *)
Lemma serve_step (q : request) (s : R) t c r :
  repo_inv s → view_change s t c = Some r →
  let s' := (serve q s).2 in
  let hit := is_ok (serve q s).1 && bool_decide (rq_tenant_id q = t ∧ rq_change_id q = c) in
  repo_inv s' ∧ ∃ r', view_change s' t c = Some r' ∧
    if hit then edge r.(cr_status) r'.(cr_status) ∧ same_identity r r' ∧
                r.(cr_updated_at) <= r'.(cr_updated_at) ∧ rq_expected_version q = r.(cr_version) ∧
                r'.(cr_version) = r.(cr_version) + 1
    else r' = r.
Proof.
  intros Hinv Hr. cbn zeta. unfold serve.
  destruct (transition_outcome s (rq_at q) (rq_audit_id q) (rq_tenant_id q) (rq_change_id q)
    (rq_target q) (rq_expected_version q) (rq_trace_id q) (rq_actor_type q) (rq_actor_id q)
    (rq_updates q) Hinv) as [Hinv' Hout].
  split; [exact Hinv'|]. destruct (transition _ _ _ _ _ _ _ _ _ _ s) as [[r'|e] s'] eqn:Hrun;
    simpl in Hout |- *; [|exists r; by rewrite Hout].
  destruct Hout as (cur & a & Hcur & Hcan & Hv & Hat & _ & Hr' & _ & _ & _ & _ & _ & Hch & _).
  destruct (view_change_key s _ _ cur Hinv Hcur) as [Ht Hc].
  assert (cr_tenant_id r' = rq_tenant_id q ∧ cr_change_id r' = rq_change_id q) as [Ht' Hc']
    by (by subst r').
  rewrite Hch, Ht', Hc'. case_bool_decide as Hk; case_bool_decide as Hk'; [|naive_solver..|by eauto].
  destruct Hk as [-> ->]. exists r'. split; [done|].
  assert (cur = r) as -> by congruence. subst r'. rewrite Hv. split_and!; try done.
Qed.

Lemma serve_all_history qs (s : R) t c r :
  repo_inv s → view_change s t c = Some r →
  repo_inv (serve_all qs s) ∧ ∃ r', view_change (serve_all qs s) t c = Some r' ∧
    rtc edge r.(cr_status) r'.(cr_status) ∧ same_identity r r' ∧
    r.(cr_updated_at) <= r'.(cr_updated_at) ∧
    r'.(cr_version) = r.(cr_version) + successes t c qs s ∧ 0 <= successes t c qs s.
Proof.
  revert s r. induction qs as [|q qs IH]; intros s r Hinv Hr; simpl.
  { split; [done|]. exists r. split_and!; [done..| |lia|lia]. lia. }
  destruct (serve_step q s t c r Hinv Hr) as [Hinv1 (r1 & Hr1 & Hstep)].
  destruct (IH _ r1 Hinv1 Hr1) as [Hinv' (r' & Hr' & Hp & Hid & Hup & Hver & Hpos)].
  split; [done|]. exists r'. split; [done|]. destruct (_ && _).
  - destruct Hstep as (He & Hid1 & Hup1 & _ & Hver1).
    split_and!; [by eapply rtc_l|by etrans|lia|lia|lia].
  - subst r1. split_and!; [done..|lia|lia].
Qed.
End RequestFacts.

(** * Refusals are audited *)

Section RefusalFacts.
Context `{Platform} {R : Type} `{RepositoryLaws R}.

Lemma slen_resource c : slen ("changes/" +:+ c) = 8 + slen c.
Proof. by rewrite slen_app. Qed.

(** The audit events of the service are well formed when the caller's
    identifiers are and the change identifier leaves room for ["changes/"]. *)
Lemma build_audit_ok i cur target tr ty ac d1 d2 st at_ :
  nonempty_str i = true → nonempty_str tr = true → nonempty_str ac = true →
  nonempty_str cur.(cr_tenant_id) = true → nonempty_str cur.(cr_change_id) = true →
  slen cur.(cr_change_id) <= 504 →
  ∃ a, _build_audit_event i cur target tr ty ac (sha256_digest d1) (sha256_digest d2) st at_ = Ok a.
Proof.
  intros Hi Htr Hac Ht Hc Hlen. unfold _build_audit_event. eexists. apply validated_ok.
  split; [|reflexivity]. unfold AuditEvent_ok. cbn -[nonempty_str sha256_str sha256_digest].
  rewrite !sha256_digest_ok, Hi, Htr, Hac, Ht, Hc. rewrite !andb_true_l.
  assert (nonempty_str ("changes/" +:+ cr_change_id cur) = true) as ->.
  { unfold nonempty_str in *. rewrite slen_resource. lia. }
  destruct st, (cr_status cur), target; reflexivity.
Qed.

(** ... and are never accepted when it does not. *)
Lemma build_audit_long i cur target tr ty ac h1 h2 st at_ :
  504 < slen cur.(cr_change_id) →
  _build_audit_event i cur target tr ty ac h1 h2 st at_ = Err (ValidationError "AuditEvent").
Proof.
  intros Hlen. unfold _build_audit_event, validated.
  destruct (AuditEvent_ok _) eqn:Hok; [|done]. exfalso. revert Hok.
  unfold AuditEvent_ok. cbn [au_resource]. rewrite !andb_true_iff. unfold nonempty_str.
  rewrite slen_resource. lia.
Qed.

Lemma conflict_audit_ok a cur target e v :
  AuditEvent_ok a = true →
  ∃ a', conflict_audit a cur target e v = Ok a' ∧
    a'.(au_audit_event_id) = a.(au_audit_event_id) ∧ a'.(au_tenant_id) = a.(au_tenant_id) ∧
    a'.(au_change_id) = a.(au_change_id) ∧ a'.(au_status) = AuditRejected.
Proof.
  unfold AuditEvent_ok, conflict_audit. rewrite !andb_true_iff. intros Ha.
  unfold validated. match goal with |- context [AuditEvent_ok ?x] => set (b := x) end.
  assert (AuditEvent_ok b = true) as ->; [|by exists b].
  unfold AuditEvent_ok, b. cbn [au_audit_event_id au_tenant_id au_change_id au_trace_id
    au_event_type au_actor_id au_resource au_action au_decision_id au_input_hash au_output_hash
    au_redacted_summary].
  rewrite sha256_digest_ok, !andb_true_iff. split_and!; try tauto.
  destruct cur, target; reflexivity.
Qed.

Lemma long_id_fails s at_ i t c target v tr ty ac u r s' :
  repo_inv s → 504 < slen c → transition at_ i t c target v tr ty ac u s ≠ (Ok r, s').
Proof.
  intros Hinv Hlen. unfold transition. intros (cur & s1 & Hget & Hrun)%bind_ok.
  pose proof (get_law s t c Hinv) as Hlaw.
  destruct (view_change s t c) as [r0|] eqn:Hr0; [|destruct Hlaw as (e & He & _); congruence].
 
  destruct (view_change_key s t c r0 Hinv Hr0) as [_ Hc].
  assert (cur = r0) as -> by congruence. subst c.
  apply bind_ok in Hrun as (_ & s2 & _ & Hrun). apply bind_ok in Hrun as (_ & s3 & _ & Hrun). cbn zeta in Hrun.
  destruct (negb _).
  - rewrite (build_audit_long i r0) in Hrun by done. by apply bind_ok in Hrun as (a & s4 & ? & _).
  - apply bind_ok in Hrun as (r1 & s4 & _ & Hrun).
    rewrite (build_audit_long i r0) in Hrun by done. by apply bind_ok in Hrun as (a & s5 & ? & _).
Qed.

(** The prologue of a transition up to the graph test. *)
Definition admissible (s : R) (cur : ChangeRecord) (at_ : Z) (t c : string) (u : RecordUpdates)
    : Prop :=
  repo_inv s ∧ view_change s t c = Some cur ∧ cur.(cr_updated_at) <= at_ ∧
  u.(up_unsupported) = [].

(** The new audit identifier is fresh and the caller's identifiers fit the
    audit contract. *)
Definition auditable (s : R) (t c i tr ac : string) : Prop :=
  view_audit s t i = None ∧ nonempty_str i = true ∧ nonempty_str tr = true ∧
  nonempty_str ac = true ∧ nonempty_str t = true ∧ nonempty_str c = true ∧ slen c <= 504.

Lemma admissible_audit s cur at_ t c u i tr ac target ty d1 d2 st :
  admissible s cur at_ t c u → auditable s t c i tr ac →
  ∃ a, _build_audit_event i cur target tr ty ac (sha256_digest d1) (sha256_digest d2) st at_ =
      Ok a ∧
    a.(au_audit_event_id) = i ∧ a.(au_status) = st ∧ a.(au_tenant_id) = t ∧
    a.(au_change_id) = c ∧ AuditEvent_ok a = true.
Proof.
  intros (Hinv & Hcur & _) (_ & Hi & Htr & Hac & Ht & Hc & Hlen).
  destruct (view_change_key s t c cur Hinv Hcur) as [<- <-].
  destruct (build_audit_ok i cur target tr ty ac d1 d2 st at_) as [a Ha]; [done..|].
  exists a. split; [done|].
  by destruct (build_audit_scoped _ _ _ _ _ _ _ _ _ _ _ no_updates 0 Ha) as (?&?&?&?&?&_).
Qed.
End RefusalFacts.

(** * Properties *)

Module StateMachineProperties.
(** C25. The graph protects the outcomes that matter: from [RECEIVED], a sequence of
    allowed transitions that completes a change has screened it and verified
    it; execution is entered only behind a plan or an operator's attention;
    approval only follows the wait for one; the four terminal states are
    final, every other state can still reach one, and every state can be
    reached at all. *)
Theorem workflow_graph :
  guarded (is_state SCREENING) (is_state COMPLETED) RECEIVED ∧
  guarded (is_state VERIFYING) (is_state COMPLETED) RECEIVED ∧
  guarded (λ s, is_state PLAN_READY s || is_state NEEDS_ATTENTION s) (is_state EXECUTING)
    RECEIVED ∧
  (∀ s, edge s APPROVED → s = AWAITING_APPROVAL) ∧
  (∀ s, terminal s = true ↔ ∀ s', ¬ edge s s') ∧
  (∀ s, ∃ s', rtc edge s s' ∧ terminal s' = true) ∧
  (∀ s, rtc edge RECEIVED s).
Proof.
  split_and!.
  - apply (guarded_paths _ _ (λ s, negb (is_state COMPLETED s) &&
      (is_state RECEIVED s || terminal s))); [by_states..|done].
  - apply (guarded_paths _ _ (λ s, negb (is_state COMPLETED s || is_state VERIFYING s)));
      [by_states..|done].
  - apply (guarded_paths _ _ (λ s, terminal s || existsb (λ x, is_state x s)
      [RECEIVED; SCREENING; BLOCKED; ANALYZING])); [by_states..|done].
  - by intros [].
  - intros []; split; try by intros _ []. all: try done. all: intros Hno; exfalso.
    all: first [by eapply (Hno CANCELLED)|by eapply (Hno FAILED)].
  - intros s. destruct (terminal s) eqn:Ht; [by exists s|].
    destruct s; try done; first [by exists CANCELLED; hop|by exists FAILED; hop].
  - assert (rtc edge RECEIVED PLAN_READY) as H1 by
      (transitivity SCREENING; [hop|]; transitivity ANALYZING; hop).
    assert (rtc edge RECEIVED EXECUTING) as H2 by (transitivity PLAN_READY; [done|hop]).
    assert (rtc edge RECEIVED AWAITING_APPROVAL) as H3 by
      (transitivity PLAN_READY; [done|hop]).
    assert (rtc edge RECEIVED VERIFYING) as H4 by (transitivity EXECUTING; [done|hop]).
    intros []; first
      [ done | hop | (transitivity SCREENING; hop) | (transitivity PLAN_READY; [done|hop])
      | (transitivity EXECUTING; [done|hop]) | (transitivity AWAITING_APPROVAL; [done|hop])
      | (transitivity VERIFYING; [done|hop]) ].
Qed.

Section Laws.
Context `{Platform} {R : Type} `{RepositoryLaws R}.

(** C20. A transition is one atomic step.  When it succeeds, the current record had
    the expected version and an allowed edge to the target; record and success
    audit event are committed together, and nothing else changes.  When it
    raises - whatever the error - no change record of any tenant differs. *)
Theorem transition_atomic (s : R) (q : request) :
  repo_inv s →
  match serve q s with
  | (Ok r, s') => ∃ cur a,
      view_change s (rq_tenant_id q) (rq_change_id q) = Some cur ∧
      edge cur.(cr_status) (rq_target q) ∧ cur.(cr_version) = rq_expected_version q ∧
      r = transitioned cur (rq_updates q) (rq_target q) (rq_at q) (rq_expected_version q) ∧
      ChangeRecord_ok r = true ∧ scoped r a ∧ a.(au_status) = AuditSuccess ∧
      a.(au_audit_event_id) = rq_audit_id q ∧ success_effect s s' r a
  | (Err _, s') => ∀ t c, view_change s' t c = view_change s t c
  end.
Proof.
  intros Hinv. destruct q as [at_ i t c target v tr ty ac u]. unfold serve; simpl.
  pose proof (transition_outcome s at_ i t c target v tr ty ac u Hinv) as [_ Hout].
  destruct (transition _ _ _ _ _ _ _ _ _ _ s) as [[r|e] s']; [|done].
  destruct Hout as (cur & a & ? & ? & ? & _ & _ & ? & ? & ? & ? & ? & _ & ?).
  exists cur, a. by split_and!.
Qed.

(** C21. A stored record follows the graph.  Whatever transitions are requested, in
    whatever order, the record stays the same change, its status moves along
    allowed edges only, its timestamp never moves back, and its version counts
    exactly the successful transitions. *)
Theorem transition_history (s : R) (qs : list request) t c r :
  repo_inv s → view_change s t c = Some r →
  ∃ r', view_change (serve_all qs s) t c = Some r' ∧
    rtc edge r.(cr_status) r'.(cr_status) ∧ same_identity r r' ∧
    r.(cr_updated_at) <= r'.(cr_updated_at) ∧
    r'.(cr_version) = r.(cr_version) + successes t c qs s.
Proof.
  intros Hinv Hr. destruct (serve_all_history qs s t c r Hinv Hr) as [_ (r' & ?&?&?&?&?&_)].
  exists r'. by split_and!.
Qed.

(** C22. No update is lost.  If a transition succeeded, a later request on the same
    change that was computed from the same version fails, whatever other
    requests ran in between. *)
Theorem no_lost_update (s : R) (q : request) (qs : list request) (q' : request) :
  repo_inv s → is_ok (serve q s).1 = true →
  rq_tenant_id q' = rq_tenant_id q → rq_change_id q' = rq_change_id q →
  rq_expected_version q' = rq_expected_version q →
  is_ok (serve q' (serve_all qs (serve q s).2)).1 = false.
Proof.
  intros Hinv Hq Ht Hc Hv. set (t := rq_tenant_id q) in *. set (c := rq_change_id q) in *.
  assert (∃ r, view_change s t c = Some r) as [r Hr].
  { destruct (transition_outcome s (rq_at q) (rq_audit_id q) t c (rq_target q)
      (rq_expected_version q) (rq_trace_id q) (rq_actor_type q) (rq_actor_id q)
      (rq_updates q) Hinv) as [_ Hout]. unfold serve in Hq. fold t c in Hq.
    destruct (transition _ _ _ _ _ _ _ _ _ _ s) as [[]]; [|done].
    destruct Hout as (cur & _ & ? & _). by exists cur. }
  destruct (serve_step q s t c r Hinv Hr) as [Hinv1 (r1 & Hr1 & Hstep)].
  rewrite Hq, bool_decide_eq_true_2 in Hstep by done.
  destruct Hstep as (_ & _ & _ & Hv1 & Hver1).
  destruct (serve_all_history qs _ t c r1 Hinv1 Hr1)
    as [Hinv2 (r2 & Hr2 & _ & _ & _ & Hver2 & Hpos)].
  destruct (serve_step q' _ t c r2 Hinv2 Hr2) as [_ (r3 & _ & Hstep)].
  destruct (is_ok (serve q' _).1); [|done].
  rewrite bool_decide_eq_true_2 in Hstep by done. cbn [andb] in Hstep.
  destruct Hstep as (_ & _ & _ & Hv2 & _). lia.
Qed.

(** C23. A move the graph forbids is refused with [InvalidStateTransitionError], and
    the refusal is durably audited before the error is raised; records are
    untouched.  (The caller's identifiers fit the audit contract and the new
    audit identifier is fresh.) *)
Theorem forbidden_transition_audited (s : R) at_ i t c target v tr ty ac u cur :
  admissible s cur at_ t c u → auditable s t c i tr ac →
  ¬ edge cur.(cr_status) target →
  let (out, s') := transition at_ i t c target v tr ty ac u s in
  out = Err (InvalidStateTransitionError cur.(cr_status) target i) ∧
  (∃ a, view_audit s' t i = Some a ∧ a.(au_status) = AuditRejected ∧
        a.(au_change_id) = c) ∧
  ∀ t' c', view_change s' t' c' = view_change s t' c'.
Proof.
  intros Hadm Haud Hedge. pose proof Hadm as (Hinv & Hcur & Hat & Hu).
  pose proof (get_law s t c Hinv) as Hget. rewrite Hcur in Hget.
  unfold transition. rewrite (bind_run _ _ _ _ _ Hget).
  rewrite (proj2 (Z.ltb_ge at_ _) Hat), (bind_run _ _ s tt s) by done.
  rewrite bool_decide_eq_true_2, (bind_run _ _ s tt s) by done. cbn zeta.
  apply not_true_is_false in Hedge. rewrite Hedge. cbn [negb].
  edestruct (admissible_audit s cur at_ t c u i tr ac target ty) as
    (a & Ha & Hi & Hst & Hta & Hca & _); [done..|].
  rewrite Ha, (bind_run _ _ s a s) by done.
  pose proof (record_audit_law s a Hinv) as Hlaw. cbn zeta in Hlaw.
  rewrite Hta, Hca, Hi, Hcur, (proj1 Haud) in Hlaw.
  destruct Hlaw as (Hok & _ & Hch & Hview). unfold mbind, M_bind.
  destruct (repo_record_audit a s) as [out s1]. simpl in Hok, Hch, Hview. subst out.
  simpl. rewrite Hi. split_and!; [done| |done].
  exists a. rewrite Hview. by rewrite bool_decide_eq_true_2.
Qed.

(** C24. A transition computed from a version that is no longer current is refused
    with [OptimisticConcurrencyError] naming both versions, and the refusal is
    durably audited. *)
Theorem stale_transition_audited (s : R) at_ i t c target v tr ty ac u cur :
  admissible s cur at_ t c u → auditable s t c i tr ac →
  edge cur.(cr_status) target → cur.(cr_version) ≠ v →
  ChangeRecord_ok (transitioned cur u target at_ v) = true →
  let (out, s') := transition at_ i t c target v tr ty ac u s in
  out = Err (EPersistence (OptimisticConcurrencyError c v cur.(cr_version))) ∧
  (∃ a, view_audit s' t i = Some a ∧ a.(au_status) = AuditRejected ∧
        a.(au_change_id) = c) ∧
  ∀ t' c', view_change s' t' c' = view_change s t' c'.
Proof.
  intros Hadm Haud Hedge Hv Hok. pose proof Hadm as (Hinv & Hcur & Hat & Hu).
  pose proof (get_law s t c Hinv) as Hget. rewrite Hcur in Hget.
  destruct (view_change_key s t c cur Hinv Hcur) as [Htk Hck].
  unfold transition. rewrite (bind_run _ _ _ _ _ Hget).
  rewrite (proj2 (Z.ltb_ge at_ _) Hat), (bind_run _ _ s tt s) by done.
  rewrite bool_decide_eq_true_2, (bind_run _ _ s tt s) by done. cbn zeta.
  unfold edge in Hedge. rewrite Hedge. cbn [negb]. unfold validated at 1. rewrite Hok.
  set (r := transitioned cur u target at_ v) in *. rewrite (bind_run _ _ s r s) by done.
  edestruct (admissible_audit s cur at_ t c u i tr ac target ty) as
    (a & Ha & Hi & Hst & Hta & Hca & Haok); [done..|].
  rewrite Ha, (bind_run _ _ s a s) by done.
  assert (scoped r a) as Hsc by (unfold scoped; simpl; split; congruence).
  pose proof (commit_law s r a v Hinv Hsc) as Hlaw. cbn zeta in Hlaw.
  replace (cr_tenant_id r) with t in Hlaw by done.
  replace (cr_change_id r) with c in Hlaw by done.
  rewrite Hcur, Hi, (proj1 Haud), bool_decide_eq_true_2 in Hlaw by done.
  unfold mbind, M_bind, catch. destruct (repo_commit_transition r a v s) as [out s1].
  simpl in Hlaw. destruct Hlaw as [-> ->]. unfold of_result.
  destruct (conflict_audit_ok a (cr_status cur) target v (cr_version cur) Haok)
    as (a' & Ha' & Hi' & Hta' & Hca' & Hst'). rewrite Ha'.
  pose proof (record_audit_law s a' Hinv) as Hlaw. cbn zeta in Hlaw.
  rewrite Hta', Hca', Hi', Hta, Hca, Hi, Hcur, (proj1 Haud) in Hlaw.
  destruct Hlaw as (Hok' & _ & Hch & Hview).
  destruct (repo_record_audit a' s) as [out s2]. simpl in Hok', Hch, Hview. subst out.
  split_and!; [done| |done]. exists a'. rewrite Hview, bool_decide_eq_true_2 by done.
  split_and!; [done..|congruence].
Qed.

(** The audit resource of a change is ["changes/"] followed by its identifier,
    and an audit resource holds at most 512 characters: a change whose
    identifier is longer than 504 characters, which the record contract
    accepts, can never leave its state. *)
Theorem long_change_id_stuck (s : R) (qs : list request) t c r :
  repo_inv s → view_change s t c = Some r → 504 < slen c →
  view_change (serve_all qs s) t c = Some r.
Proof.
  intros Hinv Hr Hlen. revert s Hinv Hr. induction qs as [|q qs IH]; intros s Hinv Hr; [done|].
  simpl. destruct (serve_step q s t c r Hinv Hr) as [Hinv1 (r1 & Hr1 & Hstep)].
  apply IH; [done|]. rewrite Hr1. f_equal.
  destruct (is_ok (serve q s).1 && _) eqn:Hhit; [exfalso|done].
  apply andb_prop in Hhit as [Hok [Ht Hc]%bool_decide_eq_true]. unfold serve in Hok.
  rewrite Ht, Hc in Hok. destruct (transition _ _ _ _ _ _ _ _ _ _ s) as [[r'|] s'] eqn:Hrun;
    [|done]. eapply (long_id_fails s); [exact Hinv|exact Hlen|exact Hrun].
Qed.
End Laws.

Definition demo_request (v : Z) (target : WorkflowState) (i : string) : request :=
  mkRequest 6000 i "acme" "chg-1" target v "trace-1" ActorService "coordinator" no_updates.

Definition demo_q1 : request := demo_request 1 SCREENING "audit-2".

Lemma transition_atomic_witness :
  is_ok (serve demo_q1 demo_store).1 = true ∧
  match serve demo_q1 demo_store with
  | (Ok r, _) => r.(cr_version) = 2
  | _ => False
  end.
Proof.
  assert (is_ok (serve demo_q1 demo_store).1 = true) as Hok by (vm_compute; reflexivity).
  split; [exact Hok|].
  pose proof (transition_atomic demo_store demo_q1 demo_store_inv) as Hat.
  destruct (serve demo_q1 demo_store) as [[r|e] s']; [|discriminate Hok].
  destruct Hat as (cur & a & _ & _ & _ & -> & _). reflexivity.
Defined.

Lemma transition_history_witness :
  ∃ r', view_change (serve_all [demo_q1; demo_request 1 CANCELLED "audit-3"] demo_store)
          "acme" "chg-1" = Some r' ∧ rtc edge RECEIVED r'.(cr_status) ∧ r'.(cr_version) = 2.
Proof.
  destruct (transition_history demo_store [demo_q1; demo_request 1 CANCELLED "audit-3"]
    "acme" "chg-1" demo_change) as (r' & Hr' & Hp & _ & _ & Hv).
  - exact demo_store_inv.
  - vm_compute. reflexivity.
  - exists r'. split; [exact Hr'|]. split; [exact Hp|]. rewrite Hv. vm_compute. reflexivity.
Defined.

Lemma no_lost_update_witness :
  is_ok (serve (demo_request 1 CANCELLED "audit-4")
    (serve_all [demo_request 2 ANALYZING "audit-3"] (serve demo_q1 demo_store).2)).1 = false.
Proof.
  apply (no_lost_update demo_store demo_q1 [demo_request 2 ANALYZING "audit-3"]
    (demo_request 1 CANCELLED "audit-4")); [exact demo_store_inv|vm_compute; reflexivity..].
Defined.

Lemma demo_auditable i :
  nonempty_str i = true → view_audit demo_store "acme" i = None →
  auditable demo_store "acme" "chg-1" i "trace-1" "coordinator".
Proof. intros Hi Hv. by split_and!. Qed.

Lemma demo_admissible :
  admissible demo_store demo_change 6000 "acme" "chg-1" no_updates.
Proof. split_and!; [apply demo_store_inv|reflexivity|by vm_compute|done]. Qed.

Lemma forbidden_transition_audited_witness :
  ¬ edge RECEIVED COMPLETED ∧
  (transition 6000 "audit-2" "acme" "chg-1" COMPLETED 1 "trace-1" ActorService "coordinator"
     no_updates demo_store).1 =
    Err (InvalidStateTransitionError RECEIVED COMPLETED "audit-2").
Proof.
  assert (¬ edge RECEIVED COMPLETED) as Hno by (intros E; vm_compute in E; discriminate E).
  split; [exact Hno|].
  pose proof (forbidden_transition_audited demo_store 6000 "audit-2" "acme" "chg-1" COMPLETED 1
    "trace-1" ActorService "coordinator" no_updates demo_change demo_admissible
    (demo_auditable "audit-2" eq_refl eq_refl) Hno) as Hf.
  destruct (transition _ _ _ _ _ _ _ _ _ _ demo_store) as [out s']. exact (proj1 Hf).
Defined.

Lemma stale_transition_audited_witness :
  (transition 6000 "audit-2" "acme" "chg-1" SCREENING 7 "trace-1" ActorService "coordinator"
     no_updates demo_store).1 =
    Err (EPersistence (OptimisticConcurrencyError "chg-1" 7 1)).
Proof.
  assert (cr_version demo_change ≠ 7) as Hne by (vm_compute; discriminate).
  pose proof (stale_transition_audited demo_store 6000 "audit-2" "acme" "chg-1" SCREENING 7
    "trace-1" ActorService "coordinator" no_updates demo_change demo_admissible
    (demo_auditable "audit-2" eq_refl eq_refl) eq_refl Hne eq_refl) as Hf.
  destruct (transition _ _ _ _ _ _ _ _ _ _ demo_store) as [out s']. exact (proj1 Hf).
Defined.
End StateMachineProperties.
