(* ===== verification/Policy.v ===== *)
(** The policy engine of [packages/policy-engine]: verified identities, the closed
    tool registry, and the deterministic, fail-closed evaluation of a tool intent. *)

From Stdlib Require Import Ascii QArith.
From S2P Require Import Prelude Json Contracts Errors Persistence Samples.
Open Scope Z_scope.

(** * Glob matching: [fnmatch.fnmatchcase]

    A pattern is a sequence of tokens; a bracket without a closing bracket is
    a literal character. *)

Inductive glob_token :=
| GLit (c : ascii)
| GAny
| GStar
| GSet (negated : bool) (ranges : list (ascii * ascii)).

Definition code (c : ascii) : N := N_of_ascii c.
Definition in_range (c : ascii) (r : ascii * ascii) : bool :=
  (code r.1 <=? code c)%N && (code c <=? code r.2)%N.

(** The characters up to the closing bracket, and the rest. *)
Fixpoint until_bracket (s : string) : option (list ascii * string) :=
  match s with
  | EmptyString => None
  | String c s =>
      if bool_decide (c = "]"%char) then Some ([], s)
      else '(cs, rest) ← until_bracket s; Some (c :: cs, rest)
  end.

(** The content of a bracket starts behind an optional [!]; a [\]] in first place
    is a member. *)
Definition bracket (s : string) : option (bool * list ascii * string) :=
  let '(negated, s) := match s with
    | String c s' => if bool_decide (c = "!"%char) then (true, s') else (false, s)
    | EmptyString => (false, s)
    end in
  match s with
  | String c s' =>
      if bool_decide (c = "]"%char)
      then '(cs, rest) ← until_bracket s'; Some (negated, c :: cs, rest)
      else '(cs, rest) ← until_bracket s; Some (negated, cs, rest)
  | EmptyString => None
  end.

(** [a-z] is a range, any other character a singleton. *)
Fixpoint ranges (cs : list ascii) : list (ascii * ascii) :=
  match cs with
  | lo :: cs' =>
      match cs' with
      | dash :: hi :: rest =>
          if bool_decide (dash = "-"%char) then (lo, hi) :: ranges rest
          else (lo, lo) :: ranges cs'
      | _ => (lo, lo) :: ranges cs'
      end
  | [] => []
  end.

(** [fnmatch.translate]; the fuel is the length of the pattern. *)
Fixpoint glob_parse (fuel : nat) (s : string) : list glob_token :=
  match fuel, s with
  | S fuel, String c s =>
      if bool_decide (c = "*"%char) then GStar :: glob_parse fuel s
      else if bool_decide (c = "?"%char) then GAny :: glob_parse fuel s
      else if bool_decide (c = "["%char) then
        match bracket s with
        | Some (negated, cs, rest) => GSet negated (ranges cs) :: glob_parse fuel rest
        | None => GLit c :: glob_parse fuel s
        end
      else GLit c :: glob_parse fuel s
  | _, _ => []
  end.

Definition token_matches (t : glob_token) (c : ascii) : bool :=
  match t with
  | GLit d => bool_decide (c = d)
  | GAny => true
  | GStar => false
  | GSet negated rs => xorb negated (existsb (in_range c) rs)
  end.

Fixpoint glob_match (ts : list glob_token) (s : string) : bool :=
  match ts with
  | [] => bool_decide (s = EmptyString)
  | GStar :: ts =>
      (fix star s := glob_match ts s ||
         match s with EmptyString => false | String _ s => star s end) s
  | t :: ts =>
      match s with
      | EmptyString => false
      | String c s => token_matches t c && glob_match ts s
      end
  end.

Definition fnmatchcase (name pattern : string) : bool :=
  glob_match (glob_parse (String.length pattern) pattern) name.

(** [pattern.format(tenant_id=...)]: doubled braces are literal, [{tenant_id}] is
    replaced, and any other replacement field raises. *)
Fixpoint str_format (tenant_id pattern : string) {struct pattern} : option string :=
  match pattern with
  | EmptyString => Some ""
  | String c rest =>
      if bool_decide (c = "{"%char) then
        match rest with
        | String "{" rest' => String "{" <$> str_format tenant_id rest'
        | String "t" (String "e" (String "n" (String "a" (String "n" (String "t" (String "_"
            (String "i" (String "d" (String "}" rest'))))))))) =>
            (λ s, tenant_id +:+ s) <$> str_format tenant_id rest'
        | _ => None
        end
      else if bool_decide (c = "}"%char) then
        match rest with
        | String "}" rest' => String "}" <$> str_format tenant_id rest'
        | _ => None
        end
      else String c <$> str_format tenant_id rest
  end.

(** * Identities and tools: [models.py] *)

Inductive IdentityKind := KindAgent | KindService | KindUser.
#[export] Instance IdentityKind_eq_dec : EqDecision IdentityKind.
Proof. solve_decision. Defined.

Record VerifiedIdentity := mkVerifiedIdentity {
  vi_subject : NonEmptyStr;
  vi_tenant_id : NonEmptyStr;
  vi_kind : IdentityKind;
  vi_roles : list UserRole;
  vi_audience : NonEmptyStr;
  vi_issued_at : AwareDatetime;
  vi_expires_at : AwareDatetime }.
(** [validate_claims]. *)
Definition VerifiedIdentity_validate (x : VerifiedIdentity) : result string unit :=
  _ ← unless (x.(vi_issued_at) <? x.(vi_expires_at))
        "identity expiration must be after issuance";
  _ ← unless (unique x.(vi_roles)) "identity roles must be unique";
  unless (bool_decide (x.(vi_kind) = KindUser) || bool_decide (x.(vi_roles) = []))
    "only user identities may carry user roles".
Definition VerifiedIdentity_ok (x : VerifiedIdentity) : bool :=
  nonempty_str x.(vi_subject) && nonempty_str x.(vi_tenant_id) &&
  nonempty_str x.(vi_audience) && is_ok (VerifiedIdentity_validate x).

Record ToolRegistration := mkToolRegistration {
  tr_tool_name : NonEmptyStr;
  tr_owning_agent_id : NonEmptyStr;
  tr_action : NonEmptyStr;
  tr_resource_pattern : NonEmptyStr;
  tr_risk_level : RiskLevel;
  tr_mutating : bool;
  tr_allowed_environments : list ChangeEnvironment;
  tr_policy_ids : list NonEmptyStr;
  tr_timeout_seconds : Q }.
(** [validate_registration]. *)
Definition ToolRegistration_validate (x : ToolRegistration) : result string unit :=
  _ ← unless (negb (has_star x.(tr_tool_name) ||
                    mem x.(tr_tool_name) ["execute_sql"; "run_shell"; "fetch_url"]))
        "tool names must be exact and bounded";
  _ ← unless (negb x.(tr_mutating) || mem SANDBOX x.(tr_allowed_environments))
        "mutating demo tools must be restricted to the sandbox environment";
  unless (unique x.(tr_policy_ids)) "policy_ids values must be unique".
Definition ToolRegistration_ok (x : ToolRegistration) : bool :=
  nonempty_str x.(tr_tool_name) && nonempty_str x.(tr_owning_agent_id) &&
  nonempty_str x.(tr_action) && nonempty_str x.(tr_resource_pattern) &&
  tuple_ok 1 (λ _, true) x.(tr_allowed_environments) &&
  tuple_ok 1 nonempty_str x.(tr_policy_ids) &&
  negb (Qle_bool x.(tr_timeout_seconds) 0) && Qle_bool x.(tr_timeout_seconds) 60 &&
  is_ok (ToolRegistration_validate x).

(** * The registry: [registry.py] *)

Definition ToolRegistry := gmap string ToolRegistration.

(** [ToolRegistry.__init__] *)
Definition make_registry (registrations : list ToolRegistration) : result exn ToolRegistry :=
  let by_name : ToolRegistry :=
    foldl (λ m r, <[r.(tr_tool_name) := r]> m) ∅ registrations in
  if bool_decide (size by_name = length registrations) then Ok by_name
  else Err (ValueError "tool registry names must be unique").

Definition registry_get (r : ToolRegistry) (tool_name : string) : option ToolRegistration :=
  r !! tool_name.
Definition registry_list (r : ToolRegistry) : list ToolRegistration :=
  omap (λ name, r !! name) (merge_sort String.le (elements (dom r))).

Definition registration (tool_name owning_agent_id resource_pattern policy_id : string)
  : ToolRegistration := {|
  tr_tool_name := tool_name;
  tr_owning_agent_id := owning_agent_id;
  tr_action := "update";
  tr_resource_pattern := resource_pattern;
  tr_risk_level := HIGH;
  tr_mutating := true;
  tr_allowed_environments := [SANDBOX];
  tr_policy_ids := [policy_id];
  tr_timeout_seconds := 10 |}.

Definition default_registrations : list ToolRegistration := [
  registration "crm.update_field_mapping" "crm"
    "crm://tenant/{tenant_id}/configuration/*" "crm-sandbox-write-v1";
  registration "analytics.update_field_mapping" "analytics"
    "analytics://tenant/{tenant_id}/configuration/*" "analytics-sandbox-write-v1";
  registration "support.update_lookup_field" "support"
    "support://tenant/{tenant_id}/configuration/*" "support-sandbox-write-v1"].

Definition build_default_tool_registry : result exn ToolRegistry :=
  make_registry default_registrations.

(** * Evaluation: [engine.py] *)

Definition RISK_ORDER (r : RiskLevel) : Z :=
  match r with UNKNOWN => 0 | LOW => 1 | MEDIUM => 2 | HIGH => 3 | CRITICAL => 4 end.
(** [max((a, b), key=_RISK_ORDER.__getitem__)]: the first of two equal ones. *)
Definition max_risk (a b : RiskLevel) : RiskLevel :=
  if RISK_ORDER a <? RISK_ORDER b then b else a.

(** [if b: failures.append(message)] *)
Definition failing (b : bool) (message : string) : list string := if b then [message] else [].

Section Engine.
Context `{Platform}.

Definition _approval_valid (approval : option Approval) (intent : ToolIntent)
    (change : ChangeRecord) (plan : RemediationPlan) (evaluated_at : Z) : bool :=
  match approval with
  | None => false
  | Some approval =>
      bool_decide (approval.(ap_decision) = DecisionApproved) &&
      bool_decide (approval.(ap_tenant_id) = intent.(in_tenant_id)) &&
      bool_decide (approval.(ap_change_id) = intent.(in_change_id)) &&
      (bool_decide (approval.(ap_plan_id) = intent.(in_plan_id)) &&
       bool_decide (intent.(in_plan_id) = plan.(pl_plan_id))) &&
      (bool_decide (approval.(ap_plan_hash) = intent.(in_plan_hash)) &&
       bool_decide (intent.(in_plan_hash) = calculate_plan_hash plan)) &&
      ((approval.(ap_plan_version) =? plan.(pl_version)) &&
       (plan.(pl_version) =? change.(cr_plan_version))) &&
      bool_decide (approval.(ap_environment) = change.(cr_environment)) &&
      mem intent.(in_step_id) approval.(ap_scope) &&
      (evaluated_at <? approval.(ap_expires_at)) &&
      (approval.(ap_approved_at) <=? evaluated_at) &&
      intersects [APPROVER; PLATFORM_ADMIN] approval.(ap_approved_by_roles) &&
      negb (bool_decide (approval.(ap_approved_by) = intent.(in_agent_identity)))
  end.

(** The checks before the plan step is looked up. *)
Definition scope_failures (identity : VerifiedIdentity) (intent : ToolIntent)
    (change : ChangeRecord) (plan : RemediationPlan) (evaluated_at : Z) : list string :=
  failing (identity.(vi_expires_at) <=? evaluated_at) "Authenticated identity is expired." ++
  failing (negb (bool_decide (identity.(vi_kind) = KindAgent)))
    "Only an authenticated agent may submit a tool intent." ++
  failing (negb (bool_decide (identity.(vi_subject) = intent.(in_agent_identity))))
    "Intent identity does not match the authenticated caller." ++
  failing (negb (bool_decide (identity.(vi_tenant_id) = intent.(in_tenant_id))))
    "Intent tenant does not match the authenticated caller." ++
  failing (negb (bool_decide (change.(cr_tenant_id) = intent.(in_tenant_id))) ||
           negb (bool_decide (change.(cr_change_id) = intent.(in_change_id))))
    "Intent does not match the authoritative change scope." ++
  failing (negb (bool_decide (change.(cr_workflow_execution_id) =
                              Some intent.(in_workflow_execution_id))))
    "Intent does not match the active workflow execution." ++
  failing (negb (bool_decide (change.(cr_status) = EXECUTING)))
    "Workflow state does not permit tool execution." ++
  failing (negb (change.(cr_plan_version) =? plan.(pl_version)) ||
           negb (bool_decide (change.(cr_plan_hash) = Some intent.(in_plan_hash))))
    "Intent does not match the authoritative change plan." ++
  failing (negb (bool_decide (plan.(pl_tenant_id) = intent.(in_tenant_id))) ||
           negb (bool_decide (plan.(pl_change_id) = intent.(in_change_id))))
    "Plan does not match the intent scope." ++
  failing (negb (bool_decide (plan.(pl_plan_id) = intent.(in_plan_id))) ||
           negb (bool_decide (calculate_plan_hash plan = intent.(in_plan_hash))))
    "Plan identifier or canonical hash does not match the intent.".

(** [next((c for c in plan.steps if c.step_id == intent.step_id), None)] *)
Definition find_step (plan : RemediationPlan) (step_id : string) : option RemediationStep :=
  find (λ c, bool_decide (c.(st_step_id) = step_id)) plan.(pl_steps).

Definition step_failures (step : RemediationStep) (intent : ToolIntent) (tool : ToolRegistration)
  : list string :=
  failing (negb (bool_decide (step.(st_agent_id) = intent.(in_agent_identity))))
    "Intent agent does not own the selected plan step." ++
  failing (negb (bool_decide (step.(st_tool_name) = intent.(in_tool_name))) ||
           negb (bool_decide (step.(st_tool_name) = tool.(tr_tool_name))))
    "Intent tool does not match the selected plan step." ++
  failing (negb (bool_decide (step.(st_resource) = intent.(in_resource))))
    "Intent resource does not match the selected plan step." ++
  failing (negb (py_eq (JObj step.(st_arguments)) (JObj intent.(in_arguments))))
    "Intent arguments do not match the selected plan step." ++
  failing (negb (bool_decide (step.(st_idempotency_key) = intent.(in_idempotency_key))))
    "Intent idempotency key does not match the selected plan step.".

Definition tool_failures (intent : ToolIntent) (change : ChangeRecord) (tool : ToolRegistration)
    (expected_resource : string) (computed_risk : RiskLevel) : list string :=
  failing (negb (bool_decide (tool.(tr_owning_agent_id) = intent.(in_agent_identity))))
    "Agent is not authorized for this registered tool." ++
  failing (negb (bool_decide (tool.(tr_action) = intent.(in_action))))
    "Intent action does not match the registered tool action." ++
  failing (negb (fnmatchcase intent.(in_resource) expected_resource))
    "Intent resource is outside the registered agent scope." ++
  failing (negb (mem change.(cr_environment) tool.(tr_allowed_environments)))
    "Tool is not allowed in the authoritative change environment." ++
  failing (bool_decide (computed_risk = CRITICAL))
    "Critical-risk mutations are disabled in this build.".

(** The effect of a refusal. *)
Definition refusal_effect (change : ChangeRecord) (tool : ToolRegistration)
    (computed_risk : RiskLevel) (approval_required approval_valid : bool) : PolicyEffect :=
  let effect := DENY in
  let effect :=
    if negb (mem change.(cr_environment) tool.(tr_allowed_environments))
    then (if tool.(tr_mutating) then BLOCK_SECURITY else effect) else effect in
  let effect := if bool_decide (computed_risk = CRITICAL) then BLOCK_SECURITY else effect in
  if approval_required && negb approval_valid && negb (bool_decide (effect = BLOCK_SECURITY))
  then REQUIRE_APPROVAL else effect.

Definition allow_reasons : list string := [
  "Authenticated agent, tenant, tool, resource, workflow, and plan scope match.";
  "Exact-plan approval is current and covers the selected step."].

(** [PolicyEngine.evaluate]; [decision_uuid] is [uuid4().hex]. *)
Definition evaluate (decision_uuid : string) (identity : VerifiedIdentity) (intent : ToolIntent)
    (change : ChangeRecord) (plan : RemediationPlan) (tool : ToolRegistration)
    (approval : option Approval) (evaluated_at : Z) : result exn PolicyDecision :=
  let step := find_step plan intent.(in_step_id) in
  let '(step_risk, approval_required, failures) :=
    match step with
    | None =>
        (UNKNOWN, tool.(tr_mutating), ["Intent step is not present in the approved plan."])
    | Some step =>
        (step.(st_risk_level), step.(st_requires_approval) || tool.(tr_mutating),
         step_failures step intent tool)
    end in
  let computed_risk := max_risk tool.(tr_risk_level) step_risk in
  match str_format intent.(in_tenant_id) tool.(tr_resource_pattern) with
  | None => Err (ValueError "resource pattern")
  | Some expected_resource =>
      let approval_valid := _approval_valid approval intent change plan evaluated_at in
      let failures :=
        scope_failures identity intent change plan evaluated_at ++ failures ++
        tool_failures intent change tool expected_resource computed_risk ++
        failing (approval_required && negb approval_valid)
          "A current exact-plan approval is required for this step." in
      let '(effect, reasons) :=
        if bool_decide (failures = []) then (ALLOW, allow_reasons)
        else (refusal_effect change tool computed_risk approval_required approval_valid,
              failures) in
      validated "PolicyDecision" PolicyDecision_ok {|
        pd_decision_id := "decision_" +:+ decision_uuid;
        pd_tenant_id := intent.(in_tenant_id);
        pd_intent_id := intent.(in_intent_id);
        pd_effect := effect;
        pd_computed_risk := computed_risk;
        pd_approval_required := approval_required;
        pd_approval_valid := approval_valid;
        pd_matched_policy_ids := tool.(tr_policy_ids);
        pd_reasons := reasons;
        pd_evaluated_at := evaluated_at |}
  end.
End Engine.

(** * The specification: what an authorized action is *)

(** A current approval by an eligible person other than the agent, for exactly
    this plan, step and environment. *)
Record current_approval `{Platform} (a : Approval) (intent : ToolIntent) (change : ChangeRecord)
    (plan : RemediationPlan) (now : Z) : Prop := {
  ca_decision : a.(ap_decision) = DecisionApproved;
  ca_scope : a.(ap_tenant_id) = intent.(in_tenant_id) ∧ a.(ap_change_id) = intent.(in_change_id);
  ca_plan : a.(ap_plan_id) = plan.(pl_plan_id) ∧ a.(ap_plan_hash) = calculate_plan_hash plan ∧
            a.(ap_plan_version) = plan.(pl_version);
  ca_environment : a.(ap_environment) = change.(cr_environment);
  ca_step : intent.(in_step_id) ∈ a.(ap_scope);
  ca_time : a.(ap_approved_at) <= now < a.(ap_expires_at);
  ca_role : ∃ r, r ∈ a.(ap_approved_by_roles) ∧ (r = APPROVER ∨ r = PLATFORM_ADMIN);
  ca_other : a.(ap_approved_by) ≠ intent.(in_agent_identity);
}.

(** The caller is the live agent the intent names; intent, change and plan agree;
    the intent is exactly the selected step of that plan; the tool is registered
    for the agent, action, resource and environment; and the risk is not
    critical. *)
Record authorized `{Platform} (identity : VerifiedIdentity) (intent : ToolIntent)
    (change : ChangeRecord) (plan : RemediationPlan) (tool : ToolRegistration)
    (approval : option Approval) (now : Z) (step : RemediationStep) : Prop := {
  au_identity : identity.(vi_kind) = KindAgent ∧ now < identity.(vi_expires_at) ∧
    identity.(vi_subject) = intent.(in_agent_identity) ∧
    identity.(vi_tenant_id) = intent.(in_tenant_id);
  au_change : change.(cr_tenant_id) = intent.(in_tenant_id) ∧
    change.(cr_change_id) = intent.(in_change_id) ∧
    change.(cr_workflow_execution_id) = Some intent.(in_workflow_execution_id) ∧
    change.(cr_status) = EXECUTING ∧ change.(cr_plan_version) = plan.(pl_version) ∧
    change.(cr_plan_hash) = Some intent.(in_plan_hash);
  au_plan : plan.(pl_tenant_id) = intent.(in_tenant_id) ∧
    plan.(pl_change_id) = intent.(in_change_id) ∧ plan.(pl_plan_id) = intent.(in_plan_id) ∧
    calculate_plan_hash plan = intent.(in_plan_hash);
  au_step : find_step plan intent.(in_step_id) = Some step ∧
    step.(st_agent_id) = intent.(in_agent_identity) ∧
    step.(st_tool_name) = intent.(in_tool_name) ∧ step.(st_resource) = intent.(in_resource) ∧
    py_eq (JObj step.(st_arguments)) (JObj intent.(in_arguments)) = true ∧
    step.(st_idempotency_key) = intent.(in_idempotency_key);
  au_tool : step.(st_tool_name) = tool.(tr_tool_name) ∧
    tool.(tr_owning_agent_id) = intent.(in_agent_identity) ∧
    tool.(tr_action) = intent.(in_action) ∧
    change.(cr_environment) ∈ tool.(tr_allowed_environments) ∧
    ∃ pattern, str_format intent.(in_tenant_id) tool.(tr_resource_pattern) = Some pattern ∧
      fnmatchcase intent.(in_resource) pattern = true;
  au_risk : tool.(tr_risk_level) ≠ CRITICAL ∧ step.(st_risk_level) ≠ CRITICAL;
  au_approval : step.(st_requires_approval) || tool.(tr_mutating) = true →
    ∃ a, approval = Some a ∧ current_approval a intent change plan now;
}.

(** * Facts *)

Lemma failing_nil b m : failing b m = [] ↔ b = false.
Proof. by destruct b. Qed.

Create Rewrite HintDb failing.
#[export] Hint Rewrite @app_nil failing_nil orb_false_iff negb_false_iff @bool_decide_eq_true
  @bool_decide_eq_false @mem_true Z.leb_gt Z.ltb_lt Z.leb_le Z.eqb_eq : failing.

Lemma max_risk_not_critical a b : max_risk a b ≠ CRITICAL ↔ a ≠ CRITICAL ∧ b ≠ CRITICAL.
Proof. by destruct a, b; vm_compute; intuition congruence. Qed.

Lemma max_risk_bounds a b :
  RISK_ORDER a <= RISK_ORDER (max_risk a b) ∧ RISK_ORDER b <= RISK_ORDER (max_risk a b).
Proof. unfold max_risk. destruct (Z.ltb_spec (RISK_ORDER a) (RISK_ORDER b)); lia. Qed.

Section EngineFacts.
Context `{Platform}.

Lemma scope_failures_nil identity intent change plan now :
  scope_failures identity intent change plan now = [] ↔
  (identity.(vi_kind) = KindAgent ∧ now < identity.(vi_expires_at) ∧
    identity.(vi_subject) = intent.(in_agent_identity) ∧
    identity.(vi_tenant_id) = intent.(in_tenant_id)) ∧
  (change.(cr_tenant_id) = intent.(in_tenant_id) ∧
    change.(cr_change_id) = intent.(in_change_id) ∧
    change.(cr_workflow_execution_id) = Some intent.(in_workflow_execution_id) ∧
    change.(cr_status) = EXECUTING ∧ change.(cr_plan_version) = plan.(pl_version) ∧
    change.(cr_plan_hash) = Some intent.(in_plan_hash)) ∧
  (plan.(pl_tenant_id) = intent.(in_tenant_id) ∧
    plan.(pl_change_id) = intent.(in_change_id) ∧ plan.(pl_plan_id) = intent.(in_plan_id) ∧
    calculate_plan_hash plan = intent.(in_plan_hash)).
Proof.
  unfold scope_failures. autorewrite with failing. tauto.
Qed.

Lemma step_failures_nil step intent tool :
  step_failures step intent tool = [] ↔
  step.(st_agent_id) = intent.(in_agent_identity) ∧
  (step.(st_tool_name) = intent.(in_tool_name) ∧ step.(st_tool_name) = tool.(tr_tool_name)) ∧
  step.(st_resource) = intent.(in_resource) ∧
  py_eq (JObj step.(st_arguments)) (JObj intent.(in_arguments)) = true ∧
  step.(st_idempotency_key) = intent.(in_idempotency_key).
Proof. unfold step_failures. by autorewrite with failing. Qed.

Lemma tool_failures_nil intent change tool pattern risk :
  tool_failures intent change tool pattern risk = [] ↔
  tool.(tr_owning_agent_id) = intent.(in_agent_identity) ∧ tool.(tr_action) = intent.(in_action) ∧
  fnmatchcase intent.(in_resource) pattern = true ∧
  change.(cr_environment) ∈ tool.(tr_allowed_environments) ∧ risk ≠ CRITICAL.
Proof. unfold tool_failures. by autorewrite with failing. Qed.

Lemma approval_valid_iff approval intent change plan now :
  plan.(pl_plan_id) = intent.(in_plan_id) → calculate_plan_hash plan = intent.(in_plan_hash) →
  change.(cr_plan_version) = plan.(pl_version) →
  _approval_valid approval intent change plan now = true ↔
  ∃ a, approval = Some a ∧ current_approval a intent change plan now.
Proof.
  intros Hid Hh Hv. destruct approval as [a|]; [cbn [_approval_valid]|by split; [|intros (a & ? & _)]].
  rewrite !andb_true_iff, negb_true_iff, intersects_true.
  autorewrite with failing.
  assert ((∃ x, x ∈ [APPROVER; PLATFORM_ADMIN] ∧ x ∈ a.(ap_approved_by_roles)) ↔
          ∃ r, r ∈ a.(ap_approved_by_roles) ∧ (r = APPROVER ∨ r = PLATFORM_ADMIN)) as Hrole.
  { split; intros (r & ? & ?); exists r; set_solver. }
  rewrite Hrole. split.
  - intros Hall. exists a. split; [done|]. split; intuition congruence.
  - intros (? & [= <-] & []). intuition congruence.
Qed.

Definition step_risk (plan : RemediationPlan) (intent : ToolIntent) : RiskLevel :=
  from_option st_risk_level UNKNOWN (find_step plan intent.(in_step_id)).
Definition needs_approval (plan : RemediationPlan) (intent : ToolIntent) (tool : ToolRegistration)
  : bool :=
  from_option st_requires_approval false (find_step plan intent.(in_step_id)) ||
  tool.(tr_mutating).

Lemma failing_messages b m : nonempty_str m = true → forallb nonempty_str (failing b m) = true.
Proof. intros Hm. destruct b; simpl; [by rewrite Hm|done]. Qed.

(** The failures that remain after the step was looked up vanish together exactly
    when the action is authorized. *)
Lemma no_failures_iff identity intent change plan tool approval now pattern fs :
  str_format intent.(in_tenant_id) tool.(tr_resource_pattern) = Some pattern →
  (fs = [] ↔ ∃ step, find_step plan intent.(in_step_id) = Some step ∧
                     step_failures step intent tool = []) →
  scope_failures identity intent change plan now ++ fs ++
    tool_failures intent change tool pattern
      (max_risk tool.(tr_risk_level) (step_risk plan intent)) ++
    failing (needs_approval plan intent tool &&
             negb (_approval_valid approval intent change plan now))
      "A current exact-plan approval is required for this step." = [] ↔
  ∃ step, authorized identity intent change plan tool approval now step.
Proof.
  intros Hp Hfs. rewrite !app_nil, Hfs, scope_failures_nil, tool_failures_nil, failing_nil,
    max_risk_not_critical. unfold step_risk, needs_approval. split.
  - intros ((Hid & Hch & Hpl) & (step & Hst & Hsf) & Htool & Happ).
    rewrite Hst in Htool, Happ. simpl in Htool, Happ. apply step_failures_nil in Hsf.
    exists step. split; [done..|tauto| |tauto|].
    + destruct Htool as (? & ? & ? & ? & _). split_and!; [tauto..|]. by exists pattern.
    + intros Hreq. apply (approval_valid_iff approval intent change plan now); [tauto..|].
      rewrite Hreq in Happ. by apply negb_false_iff.
  - intros (step & [Hid Hch Hpl (Hst & Hs) Htool Hrisk Happ]). rewrite Hst. cbn [from_option].
    destruct Htool as (Hname & ? & ? & ? & pattern' & Hp' & ?).
    assert (pattern' = pattern) as -> by congruence.
    split; [tauto|]. split; [exists step; split; [done|]; apply step_failures_nil; tauto|].
    split; [tauto|]. destruct (st_requires_approval step || tr_mutating tool); [|done].
    rewrite (proj2 (approval_valid_iff approval intent change plan now
      ltac:(tauto) ltac:(tauto) ltac:(tauto))); [done|]. by apply Happ.
Qed.

(** What the plan step contributes to an evaluation. *)
Lemma step_parts plan intent tool :
  ∃ fs,
    match find_step plan intent.(in_step_id) with
    | None => (UNKNOWN, tool.(tr_mutating), ["Intent step is not present in the approved plan."])
    | Some step => (step.(st_risk_level), step.(st_requires_approval) || tool.(tr_mutating),
                    step_failures step intent tool)
    end = (step_risk plan intent, needs_approval plan intent tool, fs) ∧
    forallb nonempty_str fs = true ∧
    (fs = [] ↔ ∃ step, find_step plan intent.(in_step_id) = Some step ∧
                       step_failures step intent tool = []).
Proof.
  unfold step_risk, needs_approval. destruct (find_step plan _) as [step|]; simpl.
  - eexists. split; [reflexivity|]. split; [|naive_solver].
    unfold step_failures. rewrite !forallb_app, !andb_true_iff.
    split_and!; by apply failing_messages.
  - eexists. split; [reflexivity|]. split; [done|]. naive_solver.
Qed.

Lemma refusal_not_allow change tool risk req valid :
  refusal_effect change tool risk req valid ≠ ALLOW.
Proof. unfold refusal_effect. repeat case_match; done. Qed.

(** A decision to allow was made for an authorized action. *)
Lemma evaluate_allow i identity intent change plan tool approval now d :
  evaluate i identity intent change plan tool approval now = Ok d → d.(pd_effect) = ALLOW →
  d.(pd_approval_required) = needs_approval plan intent tool ∧
  ∃ step, authorized identity intent change plan tool approval now step.
Proof.
  unfold evaluate. destruct (step_parts plan intent tool) as (fs & -> & _ & Hfs).
  destruct (str_format _ _) as [pattern|] eqn:Hp; [|done]. cbn zeta.
  pose proof (no_failures_iff identity intent change plan tool approval now pattern fs Hp Hfs)
    as Hauth.
  case_bool_decide as Hnil; intros [_ ->]%validated_ok Heff; cbn [pd_effect] in Heff.
  - split; [done|]. by apply Hauth.
  - by apply refusal_not_allow in Heff.
Qed.

(** A decision renders the risk, the need for an approval and its validity, and
    allows exactly the authorized actions. *)
Lemma evaluate_spec i identity intent change plan tool approval now pattern :
  nonempty_str ("decision_" +:+ i) = true → ToolIntent_ok intent = true →
  ToolRegistration_ok tool = true →
  str_format intent.(in_tenant_id) tool.(tr_resource_pattern) = Some pattern →
  ∃ d, evaluate i identity intent change plan tool approval now = Ok d ∧
    d.(pd_computed_risk) = max_risk tool.(tr_risk_level) (step_risk plan intent) ∧
    d.(pd_approval_required) = needs_approval plan intent tool ∧
    d.(pd_approval_valid) = _approval_valid approval intent change plan now ∧
    ((d.(pd_effect) = ALLOW ∧ d.(pd_reasons) = allow_reasons ∧
      ∃ step, authorized identity intent change plan tool approval now step) ∨
     (d.(pd_effect) = refusal_effect change tool d.(pd_computed_risk)
        d.(pd_approval_required) d.(pd_approval_valid) ∧
      ∀ step, ¬ authorized identity intent change plan tool approval now step)).
Proof.
  intros Hi Hin Htool Hp.
  unfold evaluate. rewrite Hp.
  destruct (step_parts plan intent tool) as (fs & -> & Hmsgs & Hfs).
  pose proof (no_failures_iff identity intent change plan tool approval now pattern fs Hp Hfs)
    as Hauth.
  set (risk := max_risk _ _) in *. set (req := needs_approval _ _ _) in *.
  set (valid := _approval_valid _ _ _ _ _) in *. cbn zeta. set (failures := _ ++ _) in *.
  assert (forallb nonempty_str failures = true) as Hall.
  { unfold failures, scope_failures, tool_failures.
    rewrite !forallb_app, Hmsgs, !andb_true_iff.
    split_and!; first [done|by apply failing_messages]. }
  unfold ToolIntent_ok in Hin. unfold ToolRegistration_ok, tuple_ok in Htool.
  rewrite !andb_true_iff in Hin. rewrite !andb_true_iff in Htool.
  assert (∀ effect reasons, tuple_ok 1 nonempty_str reasons = true →
    PolicyDecision_ok {| pd_decision_id := "decision_" +:+ i; pd_tenant_id := in_tenant_id intent;
      pd_intent_id := in_intent_id intent; pd_effect := effect; pd_computed_risk := risk;
      pd_approval_required := req; pd_approval_valid := valid;
      pd_matched_policy_ids := tr_policy_ids tool; pd_reasons := reasons;
      pd_evaluated_at := now |} = true) as Hok.
  { intros effect reasons Hr. unfold PolicyDecision_ok, tuple_ok at 1. simpl. rewrite Hi, Hr.
    rewrite !andb_true_iff. tauto. }
  case_bool_decide as Hnil; (eexists; split; [apply validated_ok; split; [|reflexivity]; apply Hok|]).
  - done.
  - split_and!; [done..|]. left. split_and!; [done..|]. by apply Hauth.
  - unfold tuple_ok. rewrite Hall, andb_true_r. by destruct failures.
  - split_and!; [done..|]. right. split; [done|]. intros step Hstep. apply Hnil, Hauth. eauto.
Qed.
End EngineFacts.

(** * Glob patterns without metacharacters in front of a star *)

Definition glob_plain (c : ascii) : bool :=
  negb (bool_decide (c = "*"%char ∨ c = "?"%char ∨ c = "["%char)).

Lemma glob_parse_plain s :
  all_chars glob_plain s = true →
  glob_parse (String.length (s +:+ "*")) (s +:+ "*") = map GLit (String.list_ascii_of_string s) ++ [GStar].
Proof.
  induction s as [|c s IH]; [done|]. intros [Hc Hs]%andb_prop.
  change (String c s +:+ "*") with (String c (s +:+ "*")). cbn [String.length glob_parse].
  unfold glob_plain in Hc. rewrite negb_true_iff, bool_decide_eq_false in Hc.
  rewrite !bool_decide_eq_false_2 by tauto. by rewrite IH.
Qed.

Lemma glob_match_prefix l name :
  glob_match (map GLit l ++ [GStar]) name = true →
  ∃ rest, name = String.string_of_list_ascii l +:+ rest.
Proof.
  revert name. induction l as [|c l IH]; intros name; [by exists name|].
  destruct name as [|d name]; [done|]. cbn [map app glob_match token_matches].
  intros [Hd%bool_decide_eq_true Hm]%andb_prop. destruct (IH name Hm) as [rest ->].
  exists rest. by rewrite Hd.
Qed.

Lemma fnmatchcase_plain s name :
  all_chars glob_plain s = true → fnmatchcase name (s +:+ "*") = true →
  ∃ rest, name = s +:+ rest.
Proof.
  intros Hs. unfold fnmatchcase. rewrite glob_parse_plain by done.
  intros [rest ->]%glob_match_prefix. exists rest. by rewrite String.string_of_list_ascii_of_string.
Qed.

Lemma all_chars_app p s t : all_chars p (s +:+ t) = all_chars p s && all_chars p t.
Proof.
  induction s as [|c s IH]; [done|].
  change (String c s +:+ t) with (String c (s +:+ t)). cbn [all_chars]. by rewrite IH, andb_assoc.
Qed.

(** * Properties *)

Module PolicyProperties.
(** C16. Evaluation is total on well-formed inputs and fails closed: the decision is
    [ALLOW] exactly when the action is authorized in the sense of the record
    [authorized]; every other decision carries a non-empty list of reasons. *)
Theorem policy_allows_exactly `{Platform} i identity intent change plan tool approval now :
  nonempty_str ("decision_" +:+ i) = true → ToolIntent_ok intent = true →
  ToolRegistration_ok tool = true →
  is_Some (str_format intent.(in_tenant_id) tool.(tr_resource_pattern)) →
  ∃ d, evaluate i identity intent change plan tool approval now = Ok d ∧
    (d.(pd_effect) = ALLOW ↔
     ∃ step, authorized identity intent change plan tool approval now step) ∧
    d.(pd_reasons) ≠ [].
Proof.
  intros Hi Hin Htool [pattern Hp].
  destruct (evaluate_spec i identity intent change plan tool approval now pattern Hi Hin Htool Hp)
    as (d & Hd & _ & _ & _ & Hcase).
  exists d. split; [done|]. split.
  - destruct Hcase as [(-> & _ & Hstep)|[-> Hno]]; [done|].
    split; [|intros [step Hstep]; by destruct (Hno step)].
    by intros E%refusal_not_allow.
  - unfold evaluate in Hd. rewrite Hp in Hd. repeat case_match; apply validated_ok in Hd;
      destruct Hd as [Hok ->]; unfold PolicyDecision_ok in Hok; simpl in *; intros E;
      rewrite E in Hok; by rewrite andb_false_r in Hok.
Qed.

(** C29. Refusals are graded.  A security block is issued exactly for a mutating tool
    outside its environments or for critical risk, an approval is demanded
    exactly when nothing is blocked and a required approval is missing, and
    the risk reported is at least the tool's and the step's. *)
Theorem policy_refusal_grades `{Platform} i identity intent change plan tool approval now d :
  evaluate i identity intent change plan tool approval now = Ok d →
  d.(pd_effect) ≠ ALLOW →
  let blocked := (change.(cr_environment) ∉ tool.(tr_allowed_environments) ∧
                  tool.(tr_mutating) = true) ∨ d.(pd_computed_risk) = CRITICAL in
  (d.(pd_effect) = BLOCK_SECURITY ↔ blocked) ∧
  (d.(pd_effect) = REQUIRE_APPROVAL ↔
     ¬ blocked ∧ d.(pd_approval_required) = true ∧ d.(pd_approval_valid) = false) ∧
  (d.(pd_effect) = DENY ↔
     ¬ blocked ∧ (d.(pd_approval_required) = false ∨ d.(pd_approval_valid) = true)) ∧
  RISK_ORDER tool.(tr_risk_level) <= RISK_ORDER d.(pd_computed_risk) ∧
  RISK_ORDER (step_risk plan intent) <= RISK_ORDER d.(pd_computed_risk).
Proof.
  intros Hd Hne. cbn zeta.
  assert (d.(pd_effect) = refusal_effect change tool d.(pd_computed_risk)
            d.(pd_approval_required) d.(pd_approval_valid) ∧
          d.(pd_computed_risk) = max_risk tool.(tr_risk_level) (step_risk plan intent)) as [He Hr].
  { unfold evaluate, step_risk in *. destruct (find_step plan _) as [step|];
      destruct (str_format _ _) as [pattern|]; try done; simpl in *;
      case_bool_decide; apply validated_ok in Hd as [_ ->]; done. }
  split_and!; [..|rewrite Hr; apply max_risk_bounds|rewrite Hr; apply max_risk_bounds];
    rewrite He; unfold refusal_effect; clear He Hr Hne Hd.
  all: destruct (mem (cr_environment change) _) eqn:Hm;
    [apply mem_true in Hm|apply mem_false in Hm];
    destruct (tr_mutating tool), (pd_approval_required d), (pd_approval_valid d),
      (decide (pd_computed_risk d = CRITICAL)) as [Hc|Hc];
    first [rewrite (bool_decide_eq_true_2 _ Hc)|rewrite (bool_decide_eq_false_2 _ Hc)];
    simpl; intuition congruence.
Qed.

(** C30. The registered tools are confined.  If one of the three default tools is
    allowed for a tenant whose identifier has no glob metacharacter, the resource
    lies in that tenant's own configuration namespace, the change runs in the
    sandbox, and a person other than the agent approved exactly this plan
    and step, with an approval that is current. *)
Theorem default_tools_confined `{Platform} i identity intent change plan tool approval now d :
  tool ∈ default_registrations → all_chars glob_plain intent.(in_tenant_id) = true →
  nonempty_str ("decision_" +:+ i) = true → ToolIntent_ok intent = true →
  evaluate i identity intent change plan tool approval now = Ok d → d.(pd_effect) = ALLOW →
  (∃ rest, intent.(in_resource) = tool.(tr_owning_agent_id) +:+ "://tenant/" +:+
     intent.(in_tenant_id) +:+ "/configuration/" +:+ rest) ∧
  change.(cr_environment) = SANDBOX ∧
  ∃ a, approval = Some a ∧ current_approval a intent change plan now.
Proof.
  intros Htool Hplain Hi Hin Hd Heff.
  assert (ToolRegistration_ok tool = true ∧ tool.(tr_allowed_environments) = [SANDBOX] ∧
    tool.(tr_mutating) = true ∧
    str_format intent.(in_tenant_id) tool.(tr_resource_pattern) =
      Some ((tool.(tr_owning_agent_id) +:+ "://tenant/" +:+ intent.(in_tenant_id) +:+
             "/configuration/") +:+ "*") ∧
    all_chars glob_plain tool.(tr_owning_agent_id) = true) as (Hok & Henv & Hmut & Hp & Hag).
  { unfold default_registrations in Htool. rewrite !elem_of_cons, elem_of_nil in Htool.
    destruct Htool as [->|[->|[->|[]]]]; (split_and!; [by vm_compute..| |by vm_compute]);
      simpl; rewrite !append_assoc; reflexivity. }
  destruct (evaluate_spec i identity intent change plan tool approval now _ Hi Hin Hok Hp)
    as (d' & Hd' & _ & _ & _ & Hcase). assert (d' = d) as -> by congruence.
  assert (∃ step, authorized identity intent change plan tool approval now step) as [step Ha].
  { destruct Hcase as [(_ & _ & ?)|[E _]]; [done|]. rewrite Heff in E. symmetry in E.
    by apply refusal_not_allow in E. }
  destruct Ha as [_ _ _ _ (_ & _ & _ & He & pattern & Hp' & Hmatch) _ Happ].
  assert (pattern = (tool.(tr_owning_agent_id) +:+ "://tenant/" +:+ intent.(in_tenant_id) +:+
             "/configuration/") +:+ "*") as -> by congruence.
  apply fnmatchcase_plain in Hmatch as [rest Hrest];
    [|rewrite !all_chars_app, Hag, Hplain; reflexivity].
  split_and!.
  - exists rest. by rewrite Hrest, !append_assoc.
  - rewrite Henv in He. by apply list_elem_of_singleton in He.
  - apply Happ. rewrite Hmut. apply orb_true_r.
Qed.

(** A change that is executing the demonstration plan, and the intent of its
    first step. *)
Definition executing_change : ChangeRecord := {|
  cr_change_id := "chg-1"; cr_tenant_id := "acme"; cr_event_id := "evt-1";
  cr_change_type := "api.contract.changed"; cr_title := "customer_id becomes customer_uuid";
  cr_description := "customer_id becomes customer_uuid"; cr_source := demo_source;
  cr_environment := SANDBOX; cr_status := EXECUTING; cr_risk_level := HIGH;
  cr_current_phase := EXECUTING; cr_workflow_execution_id := Some "wf-1"; cr_plan_version := 1;
  cr_plan_hash := Some (calculate_plan_hash demo_plan); cr_created_at := 5000;
  cr_updated_at := 9000; cr_created_by := "event-gateway"; cr_version := 7 |}.

Definition crm_identity : VerifiedIdentity :=
  mkVerifiedIdentity "crm" "acme" KindAgent [] "tool-gateway" 9000 20000.

Definition crm_tool : ToolRegistration :=
  registration "crm.update_field_mapping" "crm"
    "crm://tenant/{tenant_id}/configuration/*" "crm-sandbox-write-v1".

Definition crm_intent : ToolIntent := {|
  in_intent_id := "intent-1"; in_tenant_id := "acme"; in_change_id := "chg-1";
  in_workflow_execution_id := "wf-1"; in_plan_id := "plan-1";
  in_plan_hash := calculate_plan_hash demo_plan; in_step_id := "s1"; in_agent_identity := "crm";
  in_tool_name := "crm.update_field_mapping"; in_action := "update";
  in_resource := "crm://tenant/acme/configuration/main";
  in_arguments := [("new_field", JStr "customer_uuid"); ("old_field", JStr "customer_id")];
  in_reason := "approved plan step"; in_evidence_refs := []; in_idempotency_key := "idem-s1";
  in_requested_at := 9500 |}.

Definition crm_approval : Approval := {|
  ap_approval_id := "apr-1"; ap_tenant_id := "acme"; ap_change_id := "chg-1";
  ap_plan_id := "plan-1"; ap_plan_hash := calculate_plan_hash demo_plan; ap_plan_version := 1;
  ap_environment := SANDBOX; ap_decision := DecisionApproved; ap_scope := ["s1"; "s2"; "s3"];
  ap_approved_by := "alice"; ap_approved_by_roles := [APPROVER]; ap_approved_at := 8000;
  ap_expires_at := 30000; ap_comment := "reviewed" |}.

Abbreviation crm_decision approval :=
  (evaluate "1" crm_identity crm_intent executing_change demo_plan crm_tool approval 10000).

Lemma policy_allows_exactly_witness :
  (∃ d, crm_decision (Some crm_approval) = Ok d ∧ d.(pd_reasons) ≠ []) ∧
  pd_effect <$> crm_decision (Some crm_approval) = Ok ALLOW.
Proof.
  destruct (policy_allows_exactly "1" crm_identity crm_intent executing_change demo_plan crm_tool
    (Some crm_approval) 10000) as (d & Hd & _ & Hr).
  - vm_compute. reflexivity.
  - vm_compute. reflexivity.
  - vm_compute. reflexivity.
  - eexists. vm_compute. reflexivity.
  - split; [exists d; split; [exact Hd|exact Hr]|vm_compute; reflexivity].
Defined.

Lemma policy_refusal_grades_witness :
  ∃ d, crm_decision None = Ok d ∧ d.(pd_effect) = REQUIRE_APPROVAL.
Proof.
  assert ((λ d, (pd_effect d, pd_computed_risk d, pd_approval_required d, pd_approval_valid d)) <$>
    crm_decision None = Ok (REQUIRE_APPROVAL, HIGH, true, false)) as E
    by (vm_compute; reflexivity).
  destruct (crm_decision None) as [d|e] eqn:Hd; [|discriminate E].
  injection E as He Hr Hq Hv. exists d. split; [reflexivity|].
  apply (policy_refusal_grades "1" crm_identity crm_intent executing_change demo_plan crm_tool
    None 10000 d Hd); [rewrite He; discriminate|].
  split; [|split; [exact Hq|exact Hv]]. intros [[Hn _]|Hc]; [|rewrite Hr in Hc; discriminate Hc].
  apply Hn. left.
Defined.

Lemma default_tools_confined_witness :
  (∃ rest, in_resource crm_intent = "crm" +:+ "://tenant/" +:+ "acme" +:+ "/configuration/" +:+ rest) ∧
  cr_environment executing_change = SANDBOX.
Proof.
  assert (pd_effect <$> crm_decision (Some crm_approval) = Ok ALLOW) as E
    by (vm_compute; reflexivity).
  destruct (crm_decision (Some crm_approval)) as [d|e] eqn:Hd; [|discriminate E].
  injection E as He.
  destruct (default_tools_confined "1" crm_identity crm_intent executing_change demo_plan crm_tool
    (Some crm_approval) 10000 d) as (Hr & Henv & _);
    [left|vm_compute; reflexivity..|exact Hd|exact He|].
  split; [exact Hr|exact Henv].
Defined.
End PolicyProperties.

(** The tenant identifier is substituted into the pattern before it is matched: one
    that is itself a metacharacter matches the resources of every tenant. *)
Example star_tenant_matches_all :
  (fnmatchcase "crm://tenant/acme/configuration/main" <$>
     str_format "*" "crm://tenant/{tenant_id}/configuration/*") = Some true.
Proof. vm_compute. reflexivity. Qed.
