(* ===== verification/Governance.v ===== *)
(** Governance state of [services/tool-gateway]: approval requests, tool execution
    records and their lifecycle rules ([models.py]), and the in-memory repository
    ([repository.py]) that stores plans, approvals, idempotent executions and audit
    events per tenant.

    Every repository method runs under one [RLock], so a method is one atomic step
    on the state. *)

From Stdlib Require Import Ascii.
From S2P Require Import Prelude Json Contracts Errors Persistence Samples StateMachine Policy.
Open Scope Z_scope.

(** * Models *)

Inductive ApprovalRequestStatus :=
| RequestPending | RequestApproved | RequestRejected | RequestChangesRequested.
Inductive ToolExecutionStatus := ExecutionReserved | ExecutionSucceeded | ExecutionFailed.

#[export] Instance ApprovalRequestStatus_eq_dec : EqDecision ApprovalRequestStatus.
Proof. solve_decision. Defined.
#[export] Instance ToolExecutionStatus_eq_dec : EqDecision ToolExecutionStatus.
Proof. solve_decision. Defined.

Definition ApprovalRequestStatus_value (s : ApprovalRequestStatus) : string :=
  match s with
  | RequestPending => "PENDING" | RequestApproved => "APPROVED"
  | RequestRejected => "REJECTED" | RequestChangesRequested => "CHANGES_REQUESTED"
  end.

Record ApprovalCreateRequest := mkApprovalCreateRequest {
  ac_approval_id : NonEmptyStr;
  ac_plan : RemediationPlan;
  ac_environment : ChangeEnvironment;
  ac_scope : list NonEmptyStr;
  ac_expires_at : AwareDatetime }.
(** [validate_scope]. *)
Definition ApprovalCreateRequest_validate (x : ApprovalCreateRequest) : result string unit :=
  _ ← unless (subset x.(ac_scope) (st_step_id <$> x.(ac_plan).(pl_steps)))
        "approval scope must contain only plan step identifiers";
  unless (unique x.(ac_scope)) "approval scope values must be unique".
Definition ApprovalCreateRequest_ok (x : ApprovalCreateRequest) : bool :=
  nonempty_str x.(ac_approval_id) && RemediationPlan_ok x.(ac_plan) &&
  tuple_ok 1 nonempty_str x.(ac_scope) && is_ok (ApprovalCreateRequest_validate x).

Record ApprovalDecisionRequest := mkApprovalDecisionRequest {
  ad_expected_version : Z; ad_comment : NonEmptyStr }.
Definition ApprovalDecisionRequest_ok (x : ApprovalDecisionRequest) : bool :=
  (1 <=? x.(ad_expected_version)) && nonempty_str x.(ad_comment).

Record ApprovalRequestRecord := mkApprovalRequestRecord {
  ar_approval_id : NonEmptyStr;
  ar_tenant_id : NonEmptyStr;
  ar_change_id : NonEmptyStr;
  ar_plan_id : NonEmptyStr;
  ar_plan_hash : Sha256Digest;
  ar_plan_version : Z;
  ar_environment : ChangeEnvironment;
  ar_scope : list NonEmptyStr;
  ar_status : ApprovalRequestStatus;
  ar_requested_by : NonEmptyStr;
  ar_requested_at : AwareDatetime;
  ar_expires_at : AwareDatetime;
  ar_decided_by : option NonEmptyStr;
  ar_decided_by_roles : list UserRole;
  ar_decided_at : option AwareDatetime;
  ar_comment : option NonEmptyStr;
  ar_version : Z }.
Definition is_none {A} (o : option A) : bool := match o with None => true | Some _ => false end.
(** [validate_lifecycle]. *)
Definition ApprovalRequestRecord_validate (x : ApprovalRequestRecord) : result string unit :=
  let decided := negb (bool_decide (x.(ar_status) = RequestPending)) in
  let missing := [is_none x.(ar_decided_by); is_none x.(ar_decided_at); is_none x.(ar_comment)] in
  _ ← unless (x.(ar_requested_at) <? x.(ar_expires_at))
        "approval request expiration must be after creation";
  _ ← unless (negb (decided && existsb id missing))
        "decided approval requests require decision metadata";
  _ ← unless (negb (negb decided && existsb negb missing))
        "pending approval requests cannot contain decision metadata";
  _ ← unless (negb (negb decided && negb (bool_decide (x.(ar_decided_by_roles) = []))))
        "pending approval requests cannot contain decision roles";
  unless (match x.(ar_decided_at) with Some t => x.(ar_requested_at) <=? t | None => true end)
    "approval decision cannot precede its request".
Definition ApprovalRequestRecord_ok (x : ApprovalRequestRecord) : bool :=
  nonempty_str x.(ar_approval_id) && nonempty_str x.(ar_tenant_id) &&
  nonempty_str x.(ar_change_id) && nonempty_str x.(ar_plan_id) && sha256_str x.(ar_plan_hash) &&
  (1 <=? x.(ar_plan_version)) && tuple_ok 1 nonempty_str x.(ar_scope) &&
  nonempty_str x.(ar_requested_by) && opt_ok nonempty_str x.(ar_decided_by) &&
  opt_ok nonempty_str x.(ar_comment) && (1 <=? x.(ar_version)) &&
  is_ok (ApprovalRequestRecord_validate x).

(** [ApprovalRequestRecord.as_approval] *)
Definition as_approval (r : ApprovalRequestRecord) : result exn (option Approval) :=
  if negb (bool_decide (r.(ar_status) = RequestApproved)) then Ok None
  else match r.(ar_decided_by), r.(ar_decided_at), r.(ar_comment) with
  | Some decided_by, Some decided_at, Some comment =>
      Some <$> validated "Approval" Approval_ok {|
        ap_approval_id := r.(ar_approval_id);
        ap_tenant_id := r.(ar_tenant_id);
        ap_change_id := r.(ar_change_id);
        ap_plan_id := r.(ar_plan_id);
        ap_plan_hash := r.(ar_plan_hash);
        ap_plan_version := r.(ar_plan_version);
        ap_environment := r.(ar_environment);
        ap_decision := DecisionApproved;
        ap_scope := r.(ar_scope);
        ap_approved_by := decided_by;
        ap_approved_by_roles := r.(ar_decided_by_roles);
        ap_approved_at := decided_at;
        ap_expires_at := r.(ar_expires_at);
        ap_comment := comment |}
  | _, _, _ => Err (RuntimeError "approved request is missing validated decision metadata")
  end.

Record GatewayExecutionRequest := mkGatewayExecutionRequest {
  ge_intent : ToolIntent; ge_approval_id : option NonEmptyStr }.

Record ToolExecutionRecord := mkToolExecutionRecord {
  te_execution_id : NonEmptyStr;
  te_tenant_id : NonEmptyStr;
  te_change_id : NonEmptyStr;
  te_intent_id : NonEmptyStr;
  te_idempotency_key : NonEmptyStr;
  te_input_hash : Sha256Digest;
  te_approval_id : option NonEmptyStr;
  te_decision_id : NonEmptyStr;
  te_status : ToolExecutionStatus;
  te_attempt_count : Z;
  te_output : option (list (string * json));
  te_output_hash : option Sha256Digest;
  te_error_code : option NonEmptyStr;
  te_created_at : AwareDatetime;
  te_updated_at : AwareDatetime }.
(** [validate_status_fields]. *)
Definition ToolExecutionRecord_validate (x : ToolExecutionRecord) : result string unit :=
  let no_output := is_none x.(te_output) in
  let no_hash := is_none x.(te_output_hash) in
  let no_error := is_none x.(te_error_code) in
  _ ← unless (negb (bool_decide (x.(te_status) = ExecutionSucceeded) &&
                    (no_output || no_hash || negb no_error)))
        "successful execution requires output and no error";
  _ ← unless (negb (bool_decide (x.(te_status) = ExecutionFailed) && no_error))
        "failed execution requires an error code";
  unless (negb (bool_decide (x.(te_status) = ExecutionReserved) &&
                (negb no_output || negb no_hash || negb no_error)))
    "reserved execution cannot have a result".
Definition ToolExecutionRecord_ok (x : ToolExecutionRecord) : bool :=
  nonempty_str x.(te_execution_id) && nonempty_str x.(te_tenant_id) &&
  nonempty_str x.(te_change_id) && nonempty_str x.(te_intent_id) &&
  nonempty_str x.(te_idempotency_key) && sha256_str x.(te_input_hash) &&
  opt_ok nonempty_str x.(te_approval_id) && nonempty_str x.(te_decision_id) &&
  (1 <=? x.(te_attempt_count)) && opt_ok (λ o, wf_json (JObj o)) x.(te_output) &&
  opt_ok sha256_str x.(te_output_hash) && opt_ok nonempty_str x.(te_error_code) &&
  is_ok (ToolExecutionRecord_validate x).

Record ExecutionReservation := mkExecutionReservation {
  re_record : ToolExecutionRecord; re_replayed : bool }.

Record GatewayExecutionResult := mkGatewayExecutionResult {
  gr_execution_id : NonEmptyStr;
  gr_decision : PolicyDecision;
  gr_output : list (string * json);
  gr_output_hash : Sha256Digest;
  gr_replayed : bool }.

(** [^[A-Za-z_][A-Za-z0-9_]{0,63}$] *)
Definition is_letter (c : ascii) : bool :=
  let n := N_of_ascii c in
  ((65 <=? n) && (n <=? 90) || (97 <=? n) && (n <=? 122) || (n =? 95))%N.
Definition is_digit (c : ascii) : bool :=
  let n := N_of_ascii c in ((48 <=? n) && (n <=? 57))%N.
Definition field_name_ok (s : string) : bool :=
  match s with
  | EmptyString => false
  | String c rest =>
      is_letter c && all_chars (λ c, is_letter c || is_digit c) rest && (slen rest <=? 63)
  end.

Record FieldPatchArguments := mkFieldPatchArguments {
  fp_old_field : string; fp_new_field : string }.
Definition FieldPatchArguments_ok (x : FieldPatchArguments) : bool :=
  field_name_ok x.(fp_old_field) && field_name_ok x.(fp_new_field) &&
  negb (bool_decide (x.(fp_old_field) = x.(fp_new_field))).

(** [FieldPatchArguments.model_validate(document)]: exactly the two keys, string
    values, stripped before they are tested. *)
Definition parse_field_patch (document : list (string * json)) : result exn FieldPatchArguments :=
  match assoc "old_field" document, assoc "new_field" document with
  | Some (JStr old_field), Some (JStr new_field) =>
      if subset document.*1 ["old_field"; "new_field"]
      then validated "FieldPatchArguments" FieldPatchArguments_ok
             (mkFieldPatchArguments (trim old_field) (trim new_field))
      else Err (ValidationError "FieldPatchArguments")
  | _, _ => Err (ValidationError "FieldPatchArguments")
  end.

Record PatchExecutionOutput := mkPatchExecutionOutput {
  po_system_id : NonEmptyStr;
  po_field_name : NonEmptyStr;
  po_before : NonEmptyStr;
  po_after : NonEmptyStr;
  po_idempotency_key : NonEmptyStr;
  po_configuration_hash : Sha256Digest;
  po_replayed : bool }.
Definition PatchExecutionOutput_ok (x : PatchExecutionOutput) : bool :=
  nonempty_str x.(po_system_id) && nonempty_str x.(po_field_name) &&
  nonempty_str x.(po_before) && nonempty_str x.(po_after) &&
  nonempty_str x.(po_idempotency_key) && sha256_str x.(po_configuration_hash).

(** * The repository interface *)

Definition same_approval_request (current candidate : ApprovalRequestRecord) : bool :=
  bool_decide (current.(ar_approval_id) = candidate.(ar_approval_id)) &&
  bool_decide (current.(ar_tenant_id) = candidate.(ar_tenant_id)) &&
  bool_decide (current.(ar_change_id) = candidate.(ar_change_id)) &&
  bool_decide (current.(ar_plan_id) = candidate.(ar_plan_id)) &&
  bool_decide (current.(ar_plan_hash) = candidate.(ar_plan_hash)) &&
  (current.(ar_plan_version) =? candidate.(ar_plan_version)) &&
  bool_decide (current.(ar_environment) = candidate.(ar_environment)) &&
  bool_decide (current.(ar_scope) = candidate.(ar_scope)) &&
  bool_decide (current.(ar_status) = candidate.(ar_status)) &&
  bool_decide (current.(ar_requested_by) = candidate.(ar_requested_by)) &&
  (current.(ar_expires_at) =? candidate.(ar_expires_at)) &&
  bool_decide (current.(ar_decided_by) = candidate.(ar_decided_by)) &&
  bool_decide (current.(ar_decided_by_roles) = candidate.(ar_decided_by_roles)) &&
  bool_decide (current.(ar_decided_at) = candidate.(ar_decided_at)) &&
  bool_decide (current.(ar_comment) = candidate.(ar_comment)) &&
  (current.(ar_version) =? candidate.(ar_version)).

Definition same_approval_decision (current : ApprovalRequestRecord)
    (target : ApprovalRequestStatus) (expected_version : Z) (decided_by : string)
    (decided_by_roles : list UserRole) (comment : string) : bool :=
  bool_decide (current.(ar_status) = target) &&
  (current.(ar_version) =? expected_version + 1) &&
  bool_decide (current.(ar_decided_by) = Some decided_by) &&
  bool_decide (current.(ar_decided_by_roles) = decided_by_roles) &&
  bool_decide (current.(ar_comment) = Some comment).

Class GovernanceRepository (G : Type) := {
  gov_create_approval_request :
    ApprovalRequestRecord → RemediationPlan → call G ApprovalRequestRecord;
  gov_get_plan : string → string → string → call G RemediationPlan;
  gov_get_approval_request : string → string → call G ApprovalRequestRecord;
  gov_list_approval_requests : string → Z → call G (list ApprovalRequestRecord);
  (** tenant, approval, target, expected version, actor, roles, comment, time *)
  gov_decide_approval : string → string → ApprovalRequestStatus → Z → string → list UserRole →
    string → Z → call G ApprovalRequestRecord;
  gov_reserve_execution :
    ToolIntent → PolicyDecision → option Approval → string → Z → call G ExecutionReservation;
  (** tenant, change, execution, output, output hash, time *)
  gov_complete_execution :
    string → string → string → list (string * json) → string → Z → call G ToolExecutionRecord;
  (** tenant, change, execution, error code, time *)
  gov_fail_execution : string → string → string → string → Z → call G ToolExecutionRecord;
  gov_record_audit : AuditEvent → call G unit;
  gov_list_audit : string → Z → call G (list AuditEvent);
}.

(** ** Its contract

    A repository shows plans, approval requests and audit events per tenant.  Reads
    change nothing; reserving, completing or failing an execution and recording an
    audit event change no plan and no request; a granted reservation that needs an
    approval found the stored request approved, current and covering the step. *)

Class GovernanceLaws (G : Type) `{Platform} `{GovernanceRepository G} := {
  gov_plan : G → string → string → string → option RemediationPlan;
  gov_approval : G → string → string → option ApprovalRequestRecord;
  gov_audit_event : G → string → string → option AuditEvent;

  gov_get_plan_law s t c p :
    gov_get_plan t c p s =
      (match gov_plan s t c p with
       | Some plan => Ok plan | None => Err (EGateway (GatewayNotFoundError "plan")) end, s);
  gov_get_approval_law s t a :
    gov_get_approval_request t a s =
      (match gov_approval s t a with
       | Some r => Ok r | None => Err (EGateway (GatewayNotFoundError "approval")) end, s);
  gov_record_audit_law s ev :
    let id := ev.(au_audit_event_id) in
    let s' := (gov_record_audit ev s).2 in
    match gov_audit_event s ev.(au_tenant_id) id with
    | Some _ => s' = s ∧
        (gov_record_audit ev s).1 =
          Err (EGateway (conflict "Audit event identifier already exists."))
    | None => (gov_record_audit ev s).1 = Ok tt ∧
        (∀ t c p, gov_plan s' t c p = gov_plan s t c p) ∧
        (∀ t a, gov_approval s' t a = gov_approval s t a) ∧
        gov_audit_event s' ev.(au_tenant_id) id = Some ev ∧
        (∀ t i, is_Some (gov_audit_event s t i) →
           gov_audit_event s' t i = gov_audit_event s t i)
    end;
  gov_reserve_law s i d a h n res s' :
    gov_reserve_execution i d a h n s = (Ok res, s') → d.(pd_approval_required) = true →
    ∃ ap r, a = Some ap ∧ gov_approval s i.(in_tenant_id) ap.(ap_approval_id) = Some r ∧
      r.(ar_status) = RequestApproved ∧ as_approval r = Ok (Some ap) ∧ n < ap.(ap_expires_at) ∧
      i.(in_step_id) ∈ ap.(ap_scope) ∧ ap.(ap_plan_hash) = i.(in_plan_hash);
}.

(** * The in-memory adapter *)

Record InMemoryGovernanceRepository := mkGovernance {
  _plans : gmap (string * string * string) RemediationPlan;
  _approvals : gmap (string * string) ApprovalRequestRecord;
  _approval_tenants : gmap string (gset string);
  _executions : gmap (string * string) ToolExecutionRecord;
  _execution_ids : gmap (string * string) string;
  _gov_audit : gmap (string * string) AuditEvent;
}.

Module Gov.
Abbreviation store := InMemoryGovernanceRepository.

Definition empty : store := mkGovernance ∅ ∅ ∅ ∅ ∅ ∅.

Section Methods.
Context `{Platform}.

Definition store_request (plan : RemediationPlan) (record : ApprovalRequestRecord)
  : call store unit :=
  modify_state (λ s, mkGovernance
    (<[(plan.(pl_tenant_id), plan.(pl_change_id), plan.(pl_plan_id)) := plan]> s.(_plans))
    (<[(record.(ar_tenant_id), record.(ar_approval_id)) := record]> s.(_approvals))
    (add_entry s.(_approval_tenants) record.(ar_approval_id) record.(ar_tenant_id))
    s.(_executions) s.(_execution_ids) s.(_gov_audit)).

Definition create_approval_request (record : ApprovalRequestRecord) (plan : RemediationPlan)
  : call store ApprovalRequestRecord :=
  let plan_key := (plan.(pl_tenant_id), plan.(pl_change_id), plan.(pl_plan_id)) in
  let approval_key := (record.(ar_tenant_id), record.(ar_approval_id)) in
  s ← get_state;
  _ ← raise_if (negb (bool_decide (calculate_plan_hash plan = record.(ar_plan_hash))))
        (EGateway (conflict "Approval request plan hash is not canonical."));
  let existing_plan := s.(_plans) !! plan_key in
  _ ← raise_if (match existing_plan with
                | Some p => negb (bool_decide (calculate_plan_hash p = record.(ar_plan_hash)))
                | None => false
                end)
        (EGateway (conflict "A different plan already uses this plan identifier."));
  match s.(_approvals) !! approval_key with
  | Some existing_approval =>
      if from_option (λ p, plan_eqb p plan) false existing_plan &&
         same_approval_request existing_approval record
      then mret existing_approval
      else raise (EGateway (conflict "Approval request identifier already exists."))
  | None => _ ← store_request plan record; mret record
  end.

Definition get_plan (tenant_id change_id plan_id : string) : call store RemediationPlan := λ s,
  match s.(_plans) !! (tenant_id, change_id, plan_id) with
  | Some plan => (Ok plan, s)
  | None => (Err (EGateway (GatewayNotFoundError "plan")), s)
  end.

Definition get_approval_request (tenant_id approval_id : string)
  : call store ApprovalRequestRecord := λ s,
  match s.(_approvals) !! (tenant_id, approval_id) with
  | Some record => (Ok record, s)
  | None => (Err (EGateway (GatewayNotFoundError "approval")), s)
  end.

Definition request_key (r : ApprovalRequestRecord) : Z * string :=
  (r.(ar_requested_at), r.(ar_approval_id)).

Definition list_approval_requests (tenant_id : string) (limit : Z)
  : call store (list ApprovalRequestRecord) := λ s,
  (Ok (slice_to limit (sort_by_desc request_key (Memory.owned tenant_id s.(_approvals)))), s).

Definition set_approval (tenant_id approval_id : string) (r : ApprovalRequestRecord)
  : call store unit :=
  modify_state (λ s, mkGovernance s.(_plans) (<[(tenant_id, approval_id) := r]> s.(_approvals))
    s.(_approval_tenants) s.(_executions) s.(_execution_ids) s.(_gov_audit)).

(** The document a decided request is validated from. *)
Definition decided (current : ApprovalRequestRecord) (target : ApprovalRequestStatus)
    (decided_by : string) (decided_by_roles : list UserRole) (comment : string) (decided_at : Z)
  : ApprovalRequestRecord := {|
  ar_approval_id := current.(ar_approval_id);
  ar_tenant_id := current.(ar_tenant_id);
  ar_change_id := current.(ar_change_id);
  ar_plan_id := current.(ar_plan_id);
  ar_plan_hash := current.(ar_plan_hash);
  ar_plan_version := current.(ar_plan_version);
  ar_environment := current.(ar_environment);
  ar_scope := current.(ar_scope);
  ar_status := target;
  ar_requested_by := current.(ar_requested_by);
  ar_requested_at := current.(ar_requested_at);
  ar_expires_at := current.(ar_expires_at);
  ar_decided_by := Some decided_by;
  ar_decided_by_roles := decided_by_roles;
  ar_decided_at := Some decided_at;
  ar_comment := Some comment;
  ar_version := current.(ar_version) + 1 |}.

Definition decide_approval (tenant_id approval_id : string) (target : ApprovalRequestStatus)
    (expected_version : Z) (decided_by : string) (decided_by_roles : list UserRole)
    (comment : string) (decided_at : Z) : call store ApprovalRequestRecord :=
  current ← get_approval_request tenant_id approval_id;
  if negb (bool_decide (current.(ar_status) = RequestPending)) then
    if same_approval_decision current target expected_version decided_by decided_by_roles comment
    then mret current
    else raise (EGateway (conflict "Approval request already has a final decision."))
  else
    _ ← raise_if (negb (current.(ar_version) =? expected_version))
          (EGateway (GatewayConflictError "Approval request version is stale."
                       "VERSION_CONFLICT"));
    _ ← raise_if (current.(ar_expires_at) <=? decided_at)
          (EGateway (GatewayConflictError "Approval request has expired." "APPROVAL_EXPIRED"));
    _ ← raise_if (bool_decide (current.(ar_requested_by) = decided_by))
          (EGateway (AuthorizationError
             "Separation of duties prevents the plan requester from approving it."));
    updated ← of_result (validated "ApprovalRequestRecord" ApprovalRequestRecord_ok
                (decided current target decided_by decided_by_roles comment decided_at));
    _ ← set_approval tenant_id approval_id updated;
    mret updated.

Definition set_execution (tenant_id execution_id : string) (r : ToolExecutionRecord)
  : call store unit :=
  modify_state (λ s, mkGovernance s.(_plans) s.(_approvals) s.(_approval_tenants)
    (<[(tenant_id, execution_id) := r]> s.(_executions)) s.(_execution_ids) s.(_gov_audit)).
Definition set_execution_id (key : string * string) (execution_id : string) : call store unit :=
  modify_state (λ s, mkGovernance s.(_plans) s.(_approvals) s.(_approval_tenants)
    s.(_executions) (<[key := execution_id]> s.(_execution_ids)) s.(_gov_audit)).

(** The stored approval must still be the one the decision was made with. *)
Definition check_approval (intent : ToolIntent) (approval : option Approval) (now : Z)
  : call store unit :=
  match approval with
  | None => raise (EGateway ApprovalRequiredError)
  | Some approval =>
      current ← get_approval_request intent.(in_tenant_id) approval.(ap_approval_id);
      stored ← of_result (as_approval current);
      match stored with
      | Some stored =>
          if negb (bool_decide (stored = approval)) || (stored.(ap_expires_at) <=? now)
          then raise (EGateway ApprovalRequiredError)
          else raise_if (negb (mem intent.(in_step_id) stored.(ap_scope)) ||
                         negb (bool_decide (stored.(ap_plan_hash) = intent.(in_plan_hash))))
                 (EGateway ApprovalRequiredError)
      | None => raise (EGateway ApprovalRequiredError)
      end
  end.

Definition execution_id_of (intent : ToolIntent) : string :=
  "execution_" +:+ String.substring 7 24 (sha256_digest (JObj [
    ("tenant_id", JStr intent.(in_tenant_id)); ("key", JStr intent.(in_idempotency_key))])).

(** A record reserved again after a failure or an abandoned attempt. *)
Definition reserved_again (existing : ToolExecutionRecord) (intent : ToolIntent)
    (decision : PolicyDecision) (approval : option Approval) (now : Z) : ToolExecutionRecord := {|
  te_execution_id := existing.(te_execution_id);
  te_tenant_id := existing.(te_tenant_id);
  te_change_id := existing.(te_change_id);
  te_intent_id := intent.(in_intent_id);
  te_idempotency_key := existing.(te_idempotency_key);
  te_input_hash := existing.(te_input_hash);
  te_approval_id := ap_approval_id <$> approval;
  te_decision_id := decision.(pd_decision_id);
  te_status := ExecutionReserved;
  te_attempt_count := existing.(te_attempt_count) + 1;
  te_output := None;
  te_output_hash := None;
  te_error_code := None;
  te_created_at := existing.(te_created_at);
  te_updated_at := now |}.

Definition first_reservation (intent : ToolIntent) (decision : PolicyDecision)
    (approval : option Approval) (input_hash : string) (now : Z) : ToolExecutionRecord := {|
  te_execution_id := execution_id_of intent;
  te_tenant_id := intent.(in_tenant_id);
  te_change_id := intent.(in_change_id);
  te_intent_id := intent.(in_intent_id);
  te_idempotency_key := intent.(in_idempotency_key);
  te_input_hash := input_hash;
  te_approval_id := ap_approval_id <$> approval;
  te_decision_id := decision.(pd_decision_id);
  te_status := ExecutionReserved;
  te_attempt_count := 1;
  te_output := None;
  te_output_hash := None;
  te_error_code := None;
  te_created_at := now;
  te_updated_at := now |}.

Definition execution_at (tenant_id execution_id : string) : call store ToolExecutionRecord := λ s,
  match s.(_executions) !! (tenant_id, execution_id) with
  | Some r => (Ok r, s)
  | None => (Err KeyError, s)
  end.

Definition reserve_execution (intent : ToolIntent) (decision : PolicyDecision)
    (approval : option Approval) (input_hash : string) (now : Z)
  : call store ExecutionReservation :=
  let key := (intent.(in_tenant_id), intent.(in_idempotency_key)) in
  _ ← (if decision.(pd_approval_required) then check_approval intent approval now else mret tt);
  s ← get_state;
  match s.(_execution_ids) !! key with
  | Some existing_id =>
      existing ← execution_at intent.(in_tenant_id) existing_id;
      _ ← raise_if (negb (bool_decide (existing.(te_input_hash) = input_hash)))
            (EGateway (GatewayConflictError
               "Idempotency key was already used for a different tool action."
               "IDEMPOTENCY_CONFLICT"));
      if bool_decide (existing.(te_status) = ExecutionSucceeded)
      then mret (mkExecutionReservation existing true)
      else
        _ ← raise_if (bool_decide (existing.(te_status) = ExecutionReserved) &&
                      (now - minutes 2 <? existing.(te_updated_at)))
              (EGateway (GatewayConflictError "The idempotent tool action is already in progress."
                 "EXECUTION_IN_PROGRESS"));
        reserved ← of_result (validated "ToolExecutionRecord" ToolExecutionRecord_ok
                     (reserved_again existing intent decision approval now));
        _ ← set_execution intent.(in_tenant_id) existing_id reserved;
        mret (mkExecutionReservation reserved false)
  | None =>
      record ← of_result (validated "ToolExecutionRecord" ToolExecutionRecord_ok
                 (first_reservation intent decision approval input_hash now));
      _ ← set_execution intent.(in_tenant_id) record.(te_execution_id) record;
      _ ← set_execution_id key record.(te_execution_id);
      mret (mkExecutionReservation record false)
  end.

Definition get_reserved (tenant_id change_id execution_id : string)
  : call store ToolExecutionRecord := λ s,
  match s.(_executions) !! (tenant_id, execution_id) with
  | None => (Err (EGateway (GatewayNotFoundError "tool execution")), s)
  | Some current =>
      if negb (bool_decide (current.(te_change_id) = change_id))
      then (Err (EGateway (GatewayNotFoundError "tool execution")), s)
      else if negb (bool_decide (current.(te_status) = ExecutionReserved))
      then (Err (EGateway (conflict "Tool execution is not reserved.")), s)
      else (Ok current, s)
  end.

(** A record with a new status and result. *)
Definition finished (current : ToolExecutionRecord) (status : ToolExecutionStatus)
    (output : option (list (string * json))) (output_hash error_code : option string)
    (updated_at : Z) : ToolExecutionRecord := {|
  te_execution_id := current.(te_execution_id);
  te_tenant_id := current.(te_tenant_id);
  te_change_id := current.(te_change_id);
  te_intent_id := current.(te_intent_id);
  te_idempotency_key := current.(te_idempotency_key);
  te_input_hash := current.(te_input_hash);
  te_approval_id := current.(te_approval_id);
  te_decision_id := current.(te_decision_id);
  te_status := status;
  te_attempt_count := current.(te_attempt_count);
  te_output := output;
  te_output_hash := output_hash;
  te_error_code := error_code;
  te_created_at := current.(te_created_at);
  te_updated_at := updated_at |}.

Definition complete_execution (tenant_id change_id execution_id : string)
    (output : list (string * json)) (output_hash : string) (completed_at : Z)
  : call store ToolExecutionRecord :=
  current ← get_reserved tenant_id change_id execution_id;
  updated ← of_result (validated "ToolExecutionRecord" ToolExecutionRecord_ok
              (finished current ExecutionSucceeded (Some output) (Some output_hash)
                 current.(te_error_code) completed_at));
  _ ← set_execution tenant_id execution_id updated;
  mret updated.

Definition fail_execution (tenant_id change_id execution_id error_code : string) (failed_at : Z)
  : call store ToolExecutionRecord :=
  current ← get_reserved tenant_id change_id execution_id;
  updated ← of_result (validated "ToolExecutionRecord" ToolExecutionRecord_ok
              (finished current ExecutionFailed current.(te_output) current.(te_output_hash)
                 (Some error_code) failed_at));
  _ ← set_execution tenant_id execution_id updated;
  mret updated.

Definition record_audit (event : AuditEvent) : call store unit := λ s,
  let key := (event.(au_tenant_id), event.(au_audit_event_id)) in
  match s.(_gov_audit) !! key with
  | Some _ => (Err (EGateway (conflict "Audit event identifier already exists.")), s)
  | None => (Ok tt, mkGovernance s.(_plans) s.(_approvals) s.(_approval_tenants)
                      s.(_executions) s.(_execution_ids) (<[key := event]> s.(_gov_audit)))
  end.

Definition list_audit (tenant_id : string) (limit : Z) : call store (list AuditEvent) := λ s,
  (Ok (slice_to limit (sort_by_desc Memory.audit_key (Memory.owned tenant_id s.(_gov_audit)))), s).
End Methods.
End Gov.

#[export] Instance memory_governance `{Platform}
  : GovernanceRepository InMemoryGovernanceRepository := {
  gov_create_approval_request := Gov.create_approval_request;
  gov_get_plan := Gov.get_plan;
  gov_get_approval_request := Gov.get_approval_request;
  gov_list_approval_requests := Gov.list_approval_requests;
  gov_decide_approval := Gov.decide_approval;
  gov_reserve_execution := Gov.reserve_execution;
  gov_complete_execution := Gov.complete_execution;
  gov_fail_execution := Gov.fail_execution;
  gov_record_audit := Gov.record_audit;
  gov_list_audit := Gov.list_audit;
}.
