(* ===== verification/GovernanceFacts.v ===== *)
(** What the governance repository promises: an approval request is decided once,
    by someone other than its requester and before it expires; an idempotency key
    has one execution, which is held exclusively while it runs and is final
    once it succeeded. *)

From S2P Require Import Prelude Json Contracts Errors Persistence Samples StateMachine Policy Governance.

(** * Calls and histories *)

Module GovHistory.
Import Gov.

Section History.
Context `{Platform}.

Inductive op :=
| Create (r : ApprovalRequestRecord) (p : RemediationPlan)
| Decide (t a : string) (target : ApprovalRequestStatus) (v : Z) (by_ : string)
    (roles : list UserRole) (comment : string) (at_ : Z)
| Reserve (i : ToolIntent) (d : PolicyDecision) (a : option Approval) (hash : string) (now : Z)
| Complete (t c e : string) (output : list (string * json)) (hash : string) (at_ : Z)
| Failed (t c e code : string) (at_ : Z)
| Audit (a : AuditEvent).

Definition run_op (o : op) (s : store) : store :=
  match o with
  | Create r p => (create_approval_request r p s).2
  | Decide t a target v b rs c at_ => (decide_approval t a target v b rs c at_ s).2
  | Reserve i d a h n => (reserve_execution i d a h n s).2
  | Complete t c e o h at_ => (complete_execution t c e o h at_ s).2
  | Failed t c e k at_ => (fail_execution t c e k at_ s).2
  | Audit a => (record_audit a s).2
  end.
Definition run_ops (ops : list op) (s : store) : store := foldl (λ s o, run_op o s) s ops.

(** ** Effects *)

Lemma get_approval_run t a s :
  get_approval_request t a s =
    (match s.(_approvals) !! (t, a) with
     | Some r => Ok r | None => Err (EGateway (GatewayNotFoundError "approval")) end, s).
Proof. unfold get_approval_request. by destruct (s.(_approvals) !! _). Qed.

Lemma create_effect r p s :
  (create_approval_request r p s).2 = s ∨
  s.(_approvals) !! (r.(ar_tenant_id), r.(ar_approval_id)) = None ∧
  calculate_plan_hash p = r.(ar_plan_hash) ∧
  (create_approval_request r p s).2 = (store_request p r s).2.
Proof.
  unfold create_approval_request. unfold mbind, M_bind, get_state, raise_if, raise.
  destruct (negb (bool_decide (calculate_plan_hash p = _))) eqn:Hh; [by left|].
  apply negb_false_iff, bool_decide_eq_true in Hh.
  destruct (match s.(_plans) !! _ with Some _ => _ | None => _ end); [by left|].
  simpl. destruct (s.(_approvals) !! _) eqn:Ha; [|by right].
  by destruct (_ && _); left.
Qed.

Lemma decide_effect t a target v b rs c at_ s :
  (decide_approval t a target v b rs c at_ s).2 = s ∨
  ∃ cur, s.(_approvals) !! (t, a) = Some cur ∧ cur.(ar_status) = RequestPending ∧
    cur.(ar_version) = v ∧ at_ < cur.(ar_expires_at) ∧ cur.(ar_requested_by) ≠ b ∧
    ApprovalRequestRecord_ok (decided cur target b rs c at_) = true ∧
    decide_approval t a target v b rs c at_ s =
      (Ok (decided cur target b rs c at_), (set_approval t a (decided cur target b rs c at_) s).2).
Proof.
  unfold decide_approval, mbind, M_bind. rewrite get_approval_run.
  destruct (s.(_approvals) !! (t, a)) as [cur|] eqn:Hcur; [|by left].
  destruct (decide (cur.(ar_status) = RequestPending)) as [Hs|Hs]; last first.
  { rewrite bool_decide_eq_false_2 by done. simpl.
    destruct (same_approval_decision _ _ _ _ _ _); by left. }
  rewrite bool_decide_eq_true_2 by done. cbn [negb].
  destruct (Z.eqb_spec cur.(ar_version) v) as [Hv|]; [cbn [negb raise_if]|by left].
  destruct (Z.leb_spec cur.(ar_expires_at) at_) as [|Hx]; [by left|cbn [raise_if]].
  destruct (decide (cur.(ar_requested_by) = b)) as [Hb|Hb];
    [rewrite bool_decide_eq_true_2 by done; by left|rewrite bool_decide_eq_false_2 by done].
  cbn [raise_if]. unfold of_result, validated.
  destruct (ApprovalRequestRecord_ok _) eqn:Hok; [|by left].
  right. exists cur. by split_and!.
Qed.

Lemma check_approval_state i a n s : (check_approval i a n s).2 = s.
Proof.
  unfold check_approval. destruct a as [a|]; [|done]. unfold mbind, M_bind.
  rewrite get_approval_run. destruct (s.(_approvals) !! _) as [cur|]; [|done].
  unfold of_result. destruct (as_approval cur) as [[stored|]|]; try done.
  destruct (_ || _); [done|]. unfold raise_if. by destruct (_ || _).
Qed.

(** A passed check: the stored request is approved, is the approval at hand, is
    not expired and covers the step and plan hash. *)
Lemma check_approval_ok i a n s s' :
  check_approval i a n s = (Ok tt, s') →
  ∃ ap r, a = Some ap ∧ s.(_approvals) !! (i.(in_tenant_id), ap.(ap_approval_id)) = Some r ∧
    as_approval r = Ok (Some ap) ∧ n < ap.(ap_expires_at) ∧ i.(in_step_id) ∈ ap.(ap_scope) ∧
    ap.(ap_plan_hash) = i.(in_plan_hash).
Proof.
  unfold check_approval. destruct a as [ap|]; [|done]. unfold mbind, M_bind.
  rewrite get_approval_run. destruct (s.(_approvals) !! _) as [r|] eqn:Hr; [|done].
  unfold of_result. destruct (as_approval r) as [[stored|]|] eqn:Has; try done.
  destruct (decide (stored = ap)) as [->|]; [|by rewrite bool_decide_eq_false_2].
  rewrite bool_decide_eq_true_2 by done. cbn [negb orb].
  destruct (Z.leb_spec ap.(ap_expires_at) n); [done|]. unfold raise_if.
  destruct (negb (mem _ _) || _) eqn:Hc; [done|]. intros _.
  apply orb_false_iff in Hc as [Hm%negb_false_iff%mem_true Hh%negb_false_iff%bool_decide_eq_true].
  exists ap, r. by split_and!.
Qed.

(** The approval part of a reservation. *)
Definition approval_checked (i : ToolIntent) (d : PolicyDecision) (a : option Approval) (n : Z)
  : call store unit :=
  if d.(pd_approval_required) then check_approval i a n else mret tt.

Lemma approval_checked_run i d a n s :
  approval_checked i d a n s = ((approval_checked i d a n s).1, s).
Proof.
  unfold approval_checked. destruct (pd_approval_required d); [|done].
  rewrite <-(check_approval_state i a n s) at 3. by destruct (check_approval i a n s).
Qed.

(** Every outcome of a reservation. *)
Lemma reserve_run i d a h n s :
  let t := i.(in_tenant_id) in let k := i.(in_idempotency_key) in
  reserve_execution i d a h n s =
    match (approval_checked i d a n s).1 with
    | Err e => (Err e, s)
    | Ok _ =>
        match s.(_execution_ids) !! (t, k) with
        | Some e =>
            match s.(_executions) !! (t, e) with
            | None => (Err KeyError, s)
            | Some r =>
                if negb (bool_decide (r.(te_input_hash) = h)) then
                  (Err (EGateway (GatewayConflictError
                     "Idempotency key was already used for a different tool action."
                     "IDEMPOTENCY_CONFLICT")), s)
                else if bool_decide (r.(te_status) = ExecutionSucceeded)
                then (Ok (mkExecutionReservation r true), s)
                else if bool_decide (r.(te_status) = ExecutionReserved) &&
                        (n - minutes 2 <? r.(te_updated_at))
                then (Err (EGateway (GatewayConflictError
                       "The idempotent tool action is already in progress."
                       "EXECUTION_IN_PROGRESS")), s)
                else let r' := reserved_again r i d a n in
                  if ToolExecutionRecord_ok r'
                  then (Ok (mkExecutionReservation r' false), (set_execution t e r' s).2)
                  else (Err (ValidationError "ToolExecutionRecord"), s)
            end
        | None =>
            let r := first_reservation i d a h n in
            if ToolExecutionRecord_ok r
            then (Ok (mkExecutionReservation r false),
                  (set_execution_id (t, k) (execution_id_of i)
                     (set_execution t (execution_id_of i) r s).2).2)
            else (Err (ValidationError "ToolExecutionRecord"), s)
        end
    end.
Proof.
  cbn zeta. unfold reserve_execution. fold (approval_checked i d a n).
  pose proof (approval_checked_run i d a n s) as Hrun. unfold mbind, M_bind.
  rewrite Hrun. destruct ((approval_checked i d a n s).1) as [[]|e]; [|done].
  unfold get_state. destruct (s.(_execution_ids) !! _) as [e|].
  - unfold execution_at. destruct (s.(_executions) !! _) as [r|]; [|done].
    unfold raise_if. destruct (negb _); [done|]. destruct (bool_decide (_ = ExecutionSucceeded));
      [done|]. destruct (_ && _); [done|]. unfold of_result, validated.
    by destruct (ToolExecutionRecord_ok _).
  - unfold of_result, validated. by destruct (ToolExecutionRecord_ok _).
Qed.

Lemma reserve_effect i d a h n s :
  let t := i.(in_tenant_id) in let k := i.(in_idempotency_key) in
  let s' := (reserve_execution i d a h n s).2 in
  s' = s ∨
  (∃ e r, s.(_execution_ids) !! (t, k) = Some e ∧ s.(_executions) !! (t, e) = Some r ∧
     r.(te_status) ≠ ExecutionSucceeded ∧
     (r.(te_status) = ExecutionReserved → r.(te_updated_at) <= n - minutes 2) ∧
     ToolExecutionRecord_ok (reserved_again r i d a n) = true ∧
     s' = (set_execution t e (reserved_again r i d a n) s).2) ∨
  (s.(_execution_ids) !! (t, k) = None ∧
     ToolExecutionRecord_ok (first_reservation i d a h n) = true ∧
     s' = (set_execution_id (t, k) (execution_id_of i)
             (set_execution t (execution_id_of i) (first_reservation i d a h n) s).2).2).
Proof.
  cbn zeta. rewrite reserve_run. cbn zeta.
  destruct ((approval_checked i d a n s).1); [|by left].
  destruct (s.(_execution_ids) !! _) as [e|]; last first.
  { destruct (ToolExecutionRecord_ok _); [by right; right|by left]. }
  destruct (s.(_executions) !! _) as [r|] eqn:Hr; [|by left]. destruct (negb _); [by left|].
  case_bool_decide as Hs; [by left|].
  destruct (bool_decide _ && _) eqn:Hbusy; [by left|].
  destruct (ToolExecutionRecord_ok _) eqn:Hok; [|by left].
  right; left. exists e, r. split_and!; try done. intros Hres.
  rewrite bool_decide_eq_true_2 in Hbusy by done. by apply Z.ltb_ge in Hbusy.
Qed.

Lemma finish_run t c e s :
  (∃ r, s.(_executions) !! (t, e) = Some r ∧ r.(te_change_id) = c ∧
        r.(te_status) = ExecutionReserved ∧ get_reserved t c e s = (Ok r, s)) ∨
  ∃ x, get_reserved t c e s = (Err x, s).
Proof.
  unfold get_reserved. destruct (s.(_executions) !! (t, e)) as [r|]; [|eauto].
  destruct (negb (bool_decide (te_change_id r = c))) eqn:Hc; [eauto|].
  destruct (negb (bool_decide (te_status r = ExecutionReserved))) eqn:Hs; [eauto|].
  apply negb_false_iff, bool_decide_eq_true in Hc, Hs. left. by exists r.
Qed.

Lemma complete_effect t c e o h at_ s :
  (complete_execution t c e o h at_ s).2 = s ∨
  ∃ r, s.(_executions) !! (t, e) = Some r ∧ r.(te_status) = ExecutionReserved ∧
    let r' := finished r ExecutionSucceeded (Some o) (Some h) r.(te_error_code) at_ in
    ToolExecutionRecord_ok r' = true ∧
    complete_execution t c e o h at_ s = (Ok r', (set_execution t e r' s).2).
Proof.
  unfold complete_execution, mbind, M_bind.
  destruct (finish_run t c e s) as [(r & Hr & _ & Hs & ->)|[x ->]]; [|by left].
  unfold of_result, validated. destruct (ToolExecutionRecord_ok _) eqn:Hok; [|by left].
  right. exists r. by split_and!.
Qed.

Lemma fail_effect t c e k at_ s :
  (fail_execution t c e k at_ s).2 = s ∨
  ∃ r, s.(_executions) !! (t, e) = Some r ∧ r.(te_status) = ExecutionReserved ∧
    let r' := finished r ExecutionFailed r.(te_output) r.(te_output_hash) (Some k) at_ in
    ToolExecutionRecord_ok r' = true ∧
    fail_execution t c e k at_ s = (Ok r', (set_execution t e r' s).2).
Proof.
  unfold fail_execution, mbind, M_bind.
  destruct (finish_run t c e s) as [(r & Hr & _ & Hs & ->)|[x ->]]; [|by left].
  unfold of_result, validated. destruct (ToolExecutionRecord_ok _) eqn:Hok; [|by left].
  right. exists r. by split_and!.
Qed.

Lemma reserve_approval i d a h n s res s' :
  d.(pd_approval_required) = true → reserve_execution i d a h n s = (Ok res, s') →
  ∃ ap r, a = Some ap ∧ s.(_approvals) !! (i.(in_tenant_id), ap.(ap_approval_id)) = Some r ∧
    r.(ar_status) = RequestApproved ∧ as_approval r = Ok (Some ap) ∧ n < ap.(ap_expires_at) ∧
    i.(in_step_id) ∈ ap.(ap_scope) ∧ ap.(ap_plan_hash) = i.(in_plan_hash).
Proof.
  intros Hreq. rewrite reserve_run. cbn zeta. unfold approval_checked. rewrite Hreq.
  destruct (check_approval i a n s) as [[[]|e] s1] eqn:Hc; [|done]. intros _.
  destruct (check_approval_ok i a n s s1 Hc) as (ap & r & -> & Hr & Hap & Hrest).
  exists ap, r. split_and!; try tauto. unfold as_approval in Hap.
  by destruct (decide (r.(ar_status) = RequestApproved)); [|rewrite bool_decide_eq_false_2 in Hap].
Qed.
End History.
End GovHistory.

(** ** The adapter meets the contract *)

#[export] Program Instance memory_governance_laws `{Platform}
  : GovernanceLaws InMemoryGovernanceRepository := {|
  gov_plan s t c p := s.(_plans) !! (t, c, p);
  gov_approval s t a := s.(_approvals) !! (t, a);
  gov_audit_event s t i := s.(_gov_audit) !! (t, i);
|}.
Next Obligation. intros ? s t c p. simpl. unfold Gov.get_plan. by destruct (s.(_plans) !! _). Qed.
Next Obligation. intros ? s t a. apply GovHistory.get_approval_run. Qed.
Next Obligation.
  intros ? s ev. cbn zeta. simpl. unfold Gov.record_audit.
  destruct (s.(_gov_audit) !! _) eqn:Hev; [done|]. simpl. split_and!; [done..| |].
  - by rewrite lookup_insert_eq.
  - intros t i Hi. rewrite lookup_insert_ne; [done|]. intros E. rewrite <-E, Hev in Hi.
    by destruct Hi.
Qed.
Next Obligation.
  intros ? s i d a h n res s' Hrun Hreq.
  exact (GovHistory.reserve_approval i d a h n s res s' Hreq Hrun).
Qed.

(** * Approvals *)

Module GovApprovals.
Import Gov GovHistory.

Section Approvals.
Context `{Platform}.

(** What a call does to one approval request: nothing, file it, or decide it. *)
Lemma approval_step o s t a :
  (run_op o s).(_approvals) !! (t, a) = s.(_approvals) !! (t, a) ∨
  (∃ r p, o = Create r p ∧ r.(ar_tenant_id) = t ∧ r.(ar_approval_id) = a ∧
     s.(_approvals) !! (t, a) = None ∧ (run_op o s).(_approvals) !! (t, a) = Some r) ∨
  (∃ cur target b rs c at_, o = Decide t a target cur.(ar_version) b rs c at_ ∧
     s.(_approvals) !! (t, a) = Some cur ∧
     cur.(ar_status) = RequestPending ∧ at_ < cur.(ar_expires_at) ∧ cur.(ar_requested_by) ≠ b ∧
     ApprovalRequestRecord_ok (decided cur target b rs c at_) = true ∧
     (run_op o s).(_approvals) !! (t, a) = Some (decided cur target b rs c at_)).
Proof.
  destruct o as [r p|t' a' target v b rs c at_|i d ap h n|t' c e out h at_|t' c e k at_|ev]; simpl.
  - destruct (create_effect r p s) as [->|(Hn & _ & ->)]; [by left|]. simpl.
    destruct (decide ((ar_tenant_id r, ar_approval_id r) = (t, a))) as [[= <- <-]|Hne].
    + right; left. exists r, p. by rewrite lookup_insert_eq.
    + left. by rewrite lookup_insert_ne.
  - destruct (decide_effect t' a' target v b rs c at_ s) as
      [->|(cur & Hc & Hp & <- & Hx & Hb & Hok & ->)]; [by left|]. simpl.
    destruct (decide ((t', a') = (t, a))) as [[= <- <-]|Hne].
    + right; right. exists cur, target, b, rs, c, at_. by rewrite lookup_insert_eq.
    + left. by rewrite lookup_insert_ne.
  - left. by destruct (reserve_effect i d ap h n s) as
      [->|[(e & r & _ & _ & _ & _ & _ & ->)|(_ & _ & ->)]].
  - left. destruct (complete_effect t' c e out h at_ s) as [->|(r & _ & _ & _ & ->)]; done.
  - left. destruct (fail_effect t' c e k at_ s) as [->|(r & _ & _ & _ & ->)]; done.
  - left. unfold record_audit. by destruct (s.(_gov_audit) !! _).
Qed.

Lemma decided_final s ops t a r :
  s.(_approvals) !! (t, a) = Some r → r.(ar_status) ≠ RequestPending →
  (run_ops ops s).(_approvals) !! (t, a) = Some r.
Proof.
  revert s. induction ops as [|o ops IH]; intros s Hr Hs; [done|]. simpl. apply IH; [|done].
  destruct (approval_step o s t a) as [->|[(r' & p & _ & _ & _ & Hn & _)|
    (cur & target & b & rs & c & at_ & _ & Hc & Hp & _)]]; [done|congruence|congruence].
Qed.

(** The rules a filed request obeys. *)
Record lawful (t a : string) (r : ApprovalRequestRecord) : Prop := {
  lawful_key : r.(ar_tenant_id) = t ∧ r.(ar_approval_id) = a;
  lawful_ok : ApprovalRequestRecord_ok r = true;
  lawful_decision : r.(ar_status) ≠ RequestPending →
    ∃ b at_, r.(ar_decided_by) = Some b ∧ r.(ar_decided_at) = Some at_ ∧
      b ≠ r.(ar_requested_by) ∧ r.(ar_requested_at) <= at_ < r.(ar_expires_at) ∧
      ∃ role, role ∈ r.(ar_decided_by_roles) ∧ (role = APPROVER ∨ role = PLATFORM_ADMIN);
}.

(** The gateway files new requests as pending records that passed validation, and
    decides them on behalf of approvers and administrators. *)
Definition proper_op (o : op) : Prop :=
  match o with
  | Create r _ => r.(ar_status) = RequestPending ∧ ApprovalRequestRecord_ok r = true
  | Decide _ _ _ _ _ roles _ _ => ∃ role, role ∈ roles ∧ (role = APPROVER ∨ role = PLATFORM_ADMIN)
  | _ => True
  end.

Lemma decided_after_request cur target b rs c at_ :
  ApprovalRequestRecord_ok (decided cur target b rs c at_) = true → cur.(ar_requested_at) <= at_.
Proof.
  unfold ApprovalRequestRecord_ok. rewrite !andb_true_iff. intros [_ Hv].
  destruct (ApprovalRequestRecord_validate _) as [[]|] eqn:E; [|done].
  unfold ApprovalRequestRecord_validate in E.
  apply result_bind_ok in E as (_ & _ & E). apply result_bind_ok in E as (_ & _ & E).
  apply result_bind_ok in E as (_ & _ & E). apply result_bind_ok in E as (_ & _ & E).
  apply unless_ok in E. by apply Z.leb_le in E.
Qed.

Lemma lawful_step o s :
  proper_op o → (∀ t a r, s.(_approvals) !! (t, a) = Some r → lawful t a r) →
  ∀ t a r, (run_op o s).(_approvals) !! (t, a) = Some r → lawful t a r.
Proof.
  intros Ho Hs t a r Hr.
  destruct (approval_step o s t a) as [E|[(r' & p & -> & Ht & Ha & _ & E)|
    (cur & target & b & rs & c & at_ & -> & Hc & Hp & Hx & Hb & Hok & E)]]; rewrite E in Hr.
  - by apply Hs.
  - simplify_eq. destruct Ho as [Hp Hok]. by split.
  - assert (r = decided cur target b rs c at_) as -> by congruence.
    destruct (Hs t a cur Hc) as [Hk _ _]. split; [done..|]. intros _. exists b, at_.
    pose proof (decided_after_request _ _ _ _ _ _ Hok). split_and!; done.
Qed.

Lemma lawful_ops ops s :
  Forall proper_op ops → (∀ t a r, s.(_approvals) !! (t, a) = Some r → lawful t a r) →
  ∀ t a r, (run_ops ops s).(_approvals) !! (t, a) = Some r → lawful t a r.
Proof.
  revert s. induction ops as [|o ops IH]; intros s Hops Hs; [done|].
  apply Forall_cons in Hops as [Ho Hops]. simpl. apply IH; [done|]. by apply lawful_step.
Qed.
End Approvals.
End GovApprovals.

(** * Executions *)

Module GovExecutions.
Import Gov GovHistory.

Section Executions.
Context `{Platform}.

(** The execution identifier of a tenant's idempotency key. *)
Definition exec_id (t k : string) : string :=
  "execution_" +:+ String.substring 7 24
    (sha256_digest (JObj [("tenant_id", JStr t); ("key", JStr k)])).

(** Execution identifiers are truncated digests: the facts below are about sets of
    keys whose digests do not collide. *)
Context (K : list (string * string)).
Definition collision_free : Prop :=
  ∀ t k k', (t, k) ∈ K → (t, k') ∈ K → exec_id t k = exec_id t k' → k = k'.
Definition uses_keys (o : op) : Prop :=
  match o with
  | Reserve i _ _ _ _ => (i.(in_tenant_id), i.(in_idempotency_key)) ∈ K
  | _ => True
  end.

(** The execution filed under a tenant's idempotency key. *)
Definition execution_of (s : store) (t k : string) : option ToolExecutionRecord :=
  e ← s.(_execution_ids) !! (t, k); s.(_executions) !! (t, e).

Record exec_inv (s : store) : Prop := {
  inv_id t k e : s.(_execution_ids) !! (t, k) = Some e →
    (t, k) ∈ K ∧ e = exec_id t k ∧
    ∃ r, s.(_executions) !! (t, e) = Some r ∧ r.(te_idempotency_key) = k;
  inv_exec t e r : s.(_executions) !! (t, e) = Some r →
    r.(te_tenant_id) = t ∧ r.(te_execution_id) = e ∧
    s.(_execution_ids) !! (t, r.(te_idempotency_key)) = Some e ∧
    ToolExecutionRecord_ok r = true;
}.

Lemma empty_exec_inv : exec_inv empty.
Proof. split; intros ? ? ?; simpl; by rewrite lookup_empty. Qed.

Lemma exec_id_of_intent i : execution_id_of i = exec_id i.(in_tenant_id) i.(in_idempotency_key).
Proof. done. Qed.

(** Replacing the record of an execution by one of the same identity. *)
Lemma set_execution_inv s t e r r' :
  exec_inv s → s.(_executions) !! (t, e) = Some r →
  r'.(te_tenant_id) = r.(te_tenant_id) → r'.(te_execution_id) = r.(te_execution_id) →
  r'.(te_idempotency_key) = r.(te_idempotency_key) → ToolExecutionRecord_ok r' = true →
  exec_inv (set_execution t e r' s).2.
Proof.
  intros Hinv Hr Ht He Hk Hok. destruct (inv_exec s Hinv t e r Hr) as (Ht' & He' & Hid & _). split.
  - intros t1 k1 e1 Hid1. simpl in *. destruct (inv_id s Hinv _ _ _ Hid1) as (? & ? & r1 & Hr1 & ?).
    split_and!; [done..|]. rewrite lookup_insert. case_decide; [|eauto].
    simplify_eq. exists r'. split; [done|congruence].
  - intros t1 e1 r1. simpl. rewrite lookup_insert. case_decide as Hd; intros Hr1.
    + simplify_eq. split_and!; [congruence..|by rewrite Hk|done].
    + by apply (inv_exec s Hinv).
Qed.

Lemma first_reservation_inv s i d a h n :
  collision_free → exec_inv s → (i.(in_tenant_id), i.(in_idempotency_key)) ∈ K →
  s.(_execution_ids) !! (i.(in_tenant_id), i.(in_idempotency_key)) = None →
  ToolExecutionRecord_ok (first_reservation i d a h n) = true →
  exec_inv (set_execution_id (i.(in_tenant_id), i.(in_idempotency_key)) (execution_id_of i)
    (set_execution i.(in_tenant_id) (execution_id_of i) (first_reservation i d a h n) s).2).2.
Proof.
  intros HK Hinv Hin Hnone Hok. set (t := i.(in_tenant_id)) in *.
  set (k := i.(in_idempotency_key)) in *. rewrite !exec_id_of_intent. fold t k.
  assert (s.(_executions) !! (t, exec_id t k) = None) as Hfree.
  { destruct (s.(_executions) !! _) as [r|] eqn:Hr; [|done].
    destruct (inv_exec s Hinv _ _ _ Hr) as (_ & _ & Hid & _).
    destruct (inv_id s Hinv _ _ _ Hid) as (Hin' & He & _).
    rewrite (HK t k _ Hin Hin' He) in Hnone. congruence. }
  split.
  - intros t1 k1 e1. simpl. rewrite (lookup_insert s.(_execution_ids)). case_decide as Hd;
      intros He1.
    + simplify_eq. split_and!; [done..|]. rewrite lookup_insert_eq. by eexists.
    + destruct (inv_id s Hinv _ _ _ He1) as (? & ? & r1 & Hs & ?). split_and!; [done..|].
      rewrite lookup_insert_ne; [by eauto|]. congruence.
  - intros t1 e1 r1. simpl. rewrite (lookup_insert s.(_executions)). case_decide as Hd; intros Hr1.
    + simplify_eq. split_and!; [done..| |done]. simpl. by rewrite lookup_insert_eq.
    + destruct (inv_exec s Hinv _ _ _ Hr1) as (? & ? & Hid & ?). split_and!; [done..| |done].
      rewrite lookup_insert_ne; [done|]. intros E. rewrite <-E in Hid. congruence.
Qed.

Lemma exec_inv_step o s :
  collision_free → uses_keys o → exec_inv s → exec_inv (run_op o s).
Proof.
  intros HK Ho Hinv.
  destruct o as [r p|t a target v b rs c at_|i d ap h n|t c e out h at_|t c e k at_|ev]; simpl.
  - destruct (create_effect r p s) as [->|(_ & _ & ->)]; [done|].
    split; [apply (inv_id s Hinv)|apply (inv_exec s Hinv)].
  - destruct (decide_effect t a target v b rs c at_ s) as [->|(? & _ & _ & _ & _ & _ & _ & ->)];
      [done|]. split; [apply (inv_id s Hinv)|apply (inv_exec s Hinv)].
  - destruct (reserve_effect i d ap h n s) as [->|[(e & r & _ & Hr & _ & _ & Hok & ->)|
      (Hn & Hok & ->)]]; [done| |by apply first_reservation_inv].
    by apply (set_execution_inv s _ e r).
  - destruct (complete_effect t c e out h at_ s) as [->|(r & Hr & _ & Hok & ->)]; [done|].
    by apply (set_execution_inv s _ e r).
  - destruct (fail_effect t c e k at_ s) as [->|(r & Hr & _ & Hok & ->)]; [done|].
    by apply (set_execution_inv s _ e r).
  - unfold record_audit. destruct (s.(_gov_audit) !! _); [done|].
    split; [apply (inv_id s Hinv)|apply (inv_exec s Hinv)].
Qed.

Lemma exec_inv_ops ops s :
  collision_free → Forall uses_keys ops → exec_inv s → exec_inv (run_ops ops s).
Proof.
  intros HK. revert s. induction ops as [|o ops IH]; intros s Hops Hs; [done|].
  apply Forall_cons in Hops as [Ho Hops]. simpl. apply IH; [done|]. by apply exec_inv_step.
Qed.

(** Changing one execution record touches one key. *)
Lemma execution_of_set s t e r r' t' k' :
  exec_inv s → s.(_executions) !! (t, e) = Some r →
  execution_of (set_execution t e r' s).2 t' k' =
    if bool_decide (t' = t ∧ k' = r.(te_idempotency_key)) then Some r' else execution_of s t' k'.
Proof.
  intros Hinv Hr. destruct (inv_exec s Hinv t e r Hr) as (_ & _ & Hid & _).
  unfold execution_of. simpl. case_bool_decide as Hd.
  - destruct Hd as [-> ->]. rewrite Hid. simpl. by rewrite lookup_insert_eq.
  - destruct (s.(_execution_ids) !! (t', k')) as [e'|] eqn:He'; [|done]. simpl.
    rewrite lookup_insert_ne; [done|]. intros [= -> ->]. apply Hd. split; [done|].
    destruct (inv_id s Hinv _ _ _ He') as (_ & -> & r0 & Hr0 & <-).
    congruence.
Qed.

Lemma execution_of_first s i d a h n t' k' :
  let t := i.(in_tenant_id) in let k := i.(in_idempotency_key) in
  collision_free → exec_inv s → (t, k) ∈ K → s.(_execution_ids) !! (t, k) = None →
  let r := first_reservation i d a h n in
  execution_of (set_execution_id (t, k) (execution_id_of i)
      (set_execution t (execution_id_of i) r s).2).2 t' k' =
    if bool_decide (t' = t ∧ k' = k) then Some r else execution_of s t' k'.
Proof.
  cbn zeta. intros HK Hinv Hin Hn. rewrite exec_id_of_intent. unfold execution_of. simpl.
  rewrite (lookup_insert s.(_execution_ids)). case_bool_decide as Hd.
  - destruct Hd as [-> ->]. rewrite decide_True by done. simpl. by rewrite lookup_insert_eq.
  - rewrite decide_False by naive_solver.
    destruct (s.(_execution_ids) !! (t', k')) as [e'|] eqn:He'; [|done]. simpl.
    destruct (inv_id s Hinv _ _ _ He') as (Hin' & -> & _).
    rewrite lookup_insert_ne; [done|]. intros E. apply Hd.
    apply (inj2 pair) in E as [<- E]. split; [done|]. symmetry. by eapply HK.
Qed.

(** What a call does to the execution of one key. *)
Inductive exec_step (o : op) (t k : string) : option ToolExecutionRecord →
    option ToolExecutionRecord → Prop :=
| step_same r : exec_step o t k r r
| step_first i d a h n :
    o = Reserve i d a h n → i.(in_tenant_id) = t → i.(in_idempotency_key) = k →
    exec_step o t k None (Some (first_reservation i d a h n))
| step_again i d a h n r :
    o = Reserve i d a h n → r.(te_status) ≠ ExecutionSucceeded →
    (r.(te_status) = ExecutionReserved → r.(te_updated_at) <= n - minutes 2) →
    exec_step o t k (Some r) (Some (reserved_again r i d a n))
| step_complete out h at_ r :
    r.(te_status) = ExecutionReserved →
    exec_step o t k (Some r)
      (Some (finished r ExecutionSucceeded (Some out) (Some h) r.(te_error_code) at_))
| step_fail c code at_ r :
    o = Failed t c r.(te_execution_id) code at_ → r.(te_status) = ExecutionReserved →
    exec_step o t k (Some r)
      (Some (finished r ExecutionFailed r.(te_output) r.(te_output_hash) (Some code) at_)).

Lemma execution_of_lookup s t e r :
  exec_inv s → s.(_executions) !! (t, e) = Some r →
  execution_of s t r.(te_idempotency_key) = Some r.
Proof.
  intros Hinv Hr. destruct (inv_exec s Hinv t e r Hr) as (_ & _ & Hid & _).
  unfold execution_of. by rewrite Hid.
Qed.

(** Updating the execution [e] is a step of its key and leaves the others. *)
Lemma set_execution_step o s t e r r' t' k' :
  exec_inv s → s.(_executions) !! (t, e) = Some r →
  (t' = t → k' = r.(te_idempotency_key) → exec_step o t' k' (Some r) (Some r')) →
  exec_step o t' k' (execution_of s t' k') (execution_of (set_execution t e r' s).2 t' k').
Proof.
  intros Hinv Hr Hstep. rewrite (execution_of_set s t e r) by done.
  case_bool_decide as Hd; [|constructor]. destruct Hd as [-> ->].
  rewrite (execution_of_lookup s t e r) by done. by apply Hstep.
Qed.

Lemma execution_step o s t k :
  collision_free → uses_keys o → exec_inv s →
  exec_step o t k (execution_of s t k) (execution_of (run_op o s) t k).
Proof.
  intros HK Ho Hinv.
  destruct o as [r p|t' a target v b rs c at_|i d ap h n|t' c e out h at_|t' c e k' at_|ev]; simpl.
  - destruct (create_effect r p s) as [->|(_ & _ & ->)]; constructor.
  - destruct (decide_effect t' a target v b rs c at_ s) as [->|(? & _ & _ & _ & _ & _ & _ & ->)];
      constructor.
  - destruct (reserve_effect i d ap h n s) as [->|[(e & r & _ & Hr & Hs & Hb & Hok & ->)|
      (Hn & Hok & ->)]]; [constructor| |].
    + apply (set_execution_step _ s _ e r); [done..|]. intros _ _. by econstructor.
    + rewrite execution_of_first by done. case_bool_decide as Hd; [|constructor].
      destruct Hd as [-> ->]. unfold execution_of. rewrite Hn. by econstructor.
  - destruct (complete_effect t' c e out h at_ s) as [->|(r & Hr & Hs & Hok & ->)]; [constructor|].
    apply (set_execution_step _ s _ e r); [done..|]. intros _ _. by constructor.
  - destruct (fail_effect t' c e k' at_ s) as [->|(r & Hr & Hs & Hok & ->)]; [constructor|].
    apply (set_execution_step _ s _ e r); [done..|]. intros -> _.
    destruct (inv_exec s Hinv _ _ _ Hr) as (_ & <- & _). by econstructor.
  - unfold record_audit. destruct (s.(_gov_audit) !! _); constructor.
Qed.

(** A successful execution is final. *)
Lemma succeeded_final ops s t k r :
  collision_free → Forall uses_keys ops → exec_inv s →
  execution_of s t k = Some r → r.(te_status) = ExecutionSucceeded →
  execution_of (run_ops ops s) t k = Some r.
Proof.
  intros HK. revert s. induction ops as [|o ops IH]; intros s Hops Hinv Hr Hs; [done|].
  apply Forall_cons in Hops as [Ho Hops]. simpl. apply IH; [done|by apply exec_inv_step| |done].
  pose proof (execution_step o s t k HK Ho Hinv) as Hstep. rewrite Hr in Hstep.
  inversion Hstep; subst; [done|congruence..].
Qed.

(** From a reservation at [now] on, until a failure is recorded, the key is held
    by a reservation no older than [now] or has succeeded. *)
Definition held (now : Z) (r : ToolExecutionRecord) : Prop :=
  r.(te_status) = ExecutionSucceeded ∨
  (r.(te_status) = ExecutionReserved ∧ now <= r.(te_updated_at)).

Lemma held_kept now ops s t k r :
  collision_free → Forall uses_keys ops → exec_inv s →
  Forall (λ o, ∀ c code at_, o ≠ Failed t c (exec_id t k) code at_) ops →
  execution_of s t k = Some r → held now r →
  ∃ r', execution_of (run_ops ops s) t k = Some r' ∧ held now r'.
Proof.
  intros HK. revert s r. induction ops as [|o ops IH]; intros s r Hops Hinv Hnf Hr Hh; [by exists r|].
  apply Forall_cons in Hops as [Ho Hops], Hnf as [Hno Hnf]. simpl.
  pose proof (execution_step o s t k HK Ho Hinv) as Hstep. rewrite Hr in Hstep.
  pose proof (exec_inv_step o s HK Ho Hinv) as Hinv'.
  assert (r.(te_execution_id) = exec_id t k) as Hid.
  { unfold execution_of in Hr. destruct (s.(_execution_ids) !! (t, k)) as [e|] eqn:He; [|done].
    simpl in Hr. destruct (inv_id s Hinv _ _ _ He) as (_ & -> & _).
    by destruct (inv_exec s Hinv _ _ _ Hr) as (_ & ? & _). }
  destruct (execution_of (run_op o s) t k) as [r1|] eqn:E1; [|by inversion Hstep].
  apply (IH (run_op o s) r1); [done..|].
  inversion Hstep as [|i d a h n Eo|i d a h n r0 Eo Hns Hold|out h at_ r0 Hs|
    c code at_ r0 Eo Hs]; subst; [done| |by left|].
  - right. simpl. split; [done|]. destruct Hh as [?|[Hres Hnow]]; [done|].
    specialize (Hold Hres). unfold minutes, seconds in Hold. lia.
  - exfalso. eapply Hno. by rewrite <-Hid.
Qed.
End Executions.
End GovExecutions.

(** * Properties *)

Module GovernanceProperties.
Import Gov GovHistory GovApprovals GovExecutions.

(** C31. An approval request is decided once.  In every history of the repository in
    which requests are filed pending and decided by eligible people, a filed request
    is under its own tenant and identifier; if it is decided, the decision came from
    an approver or administrator other than the requester, not before the request
    and before it expired; and no later call changes a decided request. *)
Theorem approval_decided_once `{Platform} ops later t a r :
  Forall proper_op ops → (run_ops ops empty).(_approvals) !! (t, a) = Some r →
  lawful t a r ∧
  (r.(ar_status) ≠ RequestPending →
   (run_ops later (run_ops ops empty)).(_approvals) !! (t, a) = Some r).
Proof.
  intros Hops Hr. split.
  - apply (lawful_ops ops empty Hops); [|done]. intros t' a' r'. simpl. by rewrite lookup_empty.
  - intros Hs. by apply decided_final.
Qed.

(** C32. A reservation that needs an approval holds one: the stored request is approved,
    its approval is the one the decision was made with, it is not expired, and it
    covers the step and the exact plan of the intent. *)
Theorem reservation_needs_approval `{Platform} i d a h n s res s' :
  d.(pd_approval_required) = true → reserve_execution i d a h n s = (Ok res, s') →
  ∃ ap r, a = Some ap ∧ s.(_approvals) !! (i.(in_tenant_id), ap.(ap_approval_id)) = Some r ∧
    r.(ar_status) = RequestApproved ∧ as_approval r = Ok (Some ap) ∧ n < ap.(ap_expires_at) ∧
    i.(in_step_id) ∈ ap.(ap_scope) ∧ ap.(ap_plan_hash) = i.(in_plan_hash).
Proof. apply reserve_approval. Qed.

(** C6. An idempotency key has one result.  Once the execution of a key succeeded, every
    later reservation with the same input and a valid approval replays the stored
    record, one with another input is refused, and neither changes the store,
    whatever calls were made in between. *)
Theorem execution_idempotent `{Platform} K ops later r i d a h n :
  collision_free K → Forall (uses_keys K) (ops ++ later) →
  let t := i.(in_tenant_id) in
  execution_of (run_ops ops empty) t i.(in_idempotency_key) = Some r →
  r.(te_status) = ExecutionSucceeded →
  let s := run_ops later (run_ops ops empty) in
  (d.(pd_approval_required) = true → (check_approval i a n s).1 = Ok tt) →
  reserve_execution i d a h n s =
    (if bool_decide (r.(te_input_hash) = h) then Ok (mkExecutionReservation r true)
     else Err (EGateway (GatewayConflictError
            "Idempotency key was already used for a different tool action."
            "IDEMPOTENCY_CONFLICT")), s).
Proof.
  intros HK [Hops Hlater]%Forall_app t Hr Hs s Hc.
  assert (exec_inv K (run_ops ops empty)) as Hinv
    by (apply exec_inv_ops; [done..|apply empty_exec_inv]).
  assert (execution_of s t (in_idempotency_key i) = Some r) as Hrs
    by (by eapply (succeeded_final K later)).
  rewrite reserve_run. cbn zeta. unfold approval_checked.
  assert ((if pd_approval_required d then check_approval i a n else mret tt) s = (Ok tt, s)) as ->.
  { destruct (pd_approval_required d); [|done]. specialize (Hc eq_refl).
    pose proof (check_approval_state i a n s) as Hst.
    destruct (check_approval i a n s) as [out s1]. simpl in Hc, Hst. by subst. }
  unfold execution_of in Hrs. fold t. cbn [fst].
  destruct (_execution_ids s !! (t, in_idempotency_key i)) as [e|]; [|done]. simpl in Hrs.
  rewrite Hrs. case_bool_decide; [|done]. cbn [negb]. by rewrite bool_decide_eq_true_2.
Qed.

(** C7. A key is held exclusively.  After a reservation at [now] that is to be executed,
    and until its failure is recorded, no reservation within two minutes is
    granted for execution again. *)
Theorem execution_exclusive `{Platform} K ops i d a h n res between i' d' a' h' n' :
  collision_free K → Forall (uses_keys K) (ops ++ Reserve i d a h n :: between) →
  let s := run_ops ops empty in
  (reserve_execution i d a h n s).1 = Ok res → res.(re_replayed) = false →
  Forall (λ o, ∀ c code at_,
    o ≠ Failed i.(in_tenant_id) c res.(re_record).(te_execution_id) code at_) between →
  i'.(in_tenant_id) = i.(in_tenant_id) → i'.(in_idempotency_key) = i.(in_idempotency_key) →
  n' < n + minutes 2 →
  ∀ res', (reserve_execution i' d' a' h' n'
             (run_ops (Reserve i d a h n :: between) s)).1 = Ok res' → res'.(re_replayed) = true.
Proof.
  intros HK [Hops [Ho Hbetween]%Forall_cons]%Forall_app s Hres Hrep Hnf Ht Hk Hn res' Hres'.
  assert (exec_inv K s) as Hinv by (apply exec_inv_ops; [done..|apply empty_exec_inv]).
  pose proof (exec_inv_step K _ s HK Ho Hinv) as Hinv1. cbn [run_ops foldl] in Hres'.
  set (s1 := run_op (Reserve i d a h n) s) in *.
  assert (execution_of s1 i.(in_tenant_id) i.(in_idempotency_key) = Some res.(re_record) ∧
    res.(re_record).(te_status) = ExecutionReserved ∧ res.(re_record).(te_updated_at) = n ∧
    res.(re_record).(te_execution_id) = exec_id i.(in_tenant_id) i.(in_idempotency_key))
    as (Hr1 & Hst & Hup & Hid).
  { unfold s1. cbn [run_op]. revert Hres Hrep. rewrite reserve_run. cbn zeta.
    destruct ((approval_checked i d a n s).1); [|done].
    destruct (s.(_execution_ids) !! _) as [e|] eqn:He; last first.
    { destruct (ToolExecutionRecord_ok _) eqn:Hok; [|done]. intros E%ok_inj _. subst res. cbn [snd].
      rewrite (execution_of_first K) by done. by rewrite bool_decide_eq_true_2. }
    destruct (inv_id K s Hinv _ _ _ He) as (_ & -> & r & Hr & Hkr). rewrite Hr.
    destruct (inv_exec K s Hinv _ _ _ Hr) as (_ & Hide & _).
    destruct (negb _); [done|]. case_bool_decide; [by intros E%ok_inj; subst res|].
    destruct (_ && _); [done|]. destruct (ToolExecutionRecord_ok _); [|done].
    intros E%ok_inj _. subst res. cbn [snd].
    rewrite (execution_of_set K s _ _ r) by done. by rewrite bool_decide_eq_true_2. }
  destruct (held_kept K n between s1 i.(in_tenant_id) i.(in_idempotency_key) res.(re_record))
    as (r2 & Hr2 & Hheld); [done..|by rewrite <-Hid|done|right; split; [done|lia]|].
  revert Hres'. change (foldl _ s1 between) with (run_ops between s1). rewrite reserve_run.
  cbn zeta. destruct ((approval_checked _ _ _ _ _).1); [|done]. rewrite Ht, Hk.
  unfold execution_of in Hr2. destruct (_execution_ids (run_ops between s1) !! _) as [e|]; [|done].
  simpl in Hr2. rewrite Hr2. destruct (negb _); [done|]. case_bool_decide; [by intros E%ok_inj; subst res'|].
  destruct Hheld as [?|[-> Hup2]]; [done|]. rewrite bool_decide_eq_true_2 by done. cbn [andb].
  destruct (Z.ltb_spec (n' - minutes 2) (te_updated_at r2)); [done|lia].
Qed.

(** The demonstration approval is requested and granted, and the first step is
    reserved and completed. *)
Definition demo_request : ApprovalRequestRecord := {|
  ar_approval_id := "apr-1"; ar_tenant_id := "acme"; ar_change_id := "chg-1";
  ar_plan_id := "plan-1"; ar_plan_hash := calculate_plan_hash demo_plan; ar_plan_version := 1;
  ar_environment := SANDBOX; ar_scope := ["s1"; "s2"; "s3"]; ar_status := RequestPending;
  ar_requested_by := "workflow-coordinator"; ar_requested_at := 7000; ar_expires_at := 30000;
  ar_decided_by := None; ar_decided_by_roles := []; ar_decided_at := None; ar_comment := None;
  ar_version := 1 |}.

Definition demo_decision : PolicyDecision := {|
  pd_decision_id := "decision_1"; pd_tenant_id := "acme"; pd_intent_id := "intent-1";
  pd_effect := ALLOW; pd_computed_risk := HIGH; pd_approval_required := true;
  pd_approval_valid := true; pd_matched_policy_ids := ["crm-sandbox-write-v1"];
  pd_reasons := allow_reasons; pd_evaluated_at := 10000 |}.

Definition demo_input_hash : string := sha256_digest JNull.
Definition demo_keys : list (string * string) := [("acme", "idem-s1")].

Definition granted : list op := [
  Create demo_request demo_plan;
  Decide "acme" "apr-1" RequestApproved 1 "alice" [APPROVER] "reviewed" 8000].
Definition reserve_s1 (n : Z) : op :=
  Reserve PolicyProperties.crm_intent demo_decision (Some PolicyProperties.crm_approval)
    demo_input_hash n.
Definition completed_s1 : list op := granted ++ [
  reserve_s1 10000;
  Complete "acme" "chg-1" (exec_id "acme" "idem-s1") [] (sha256_digest (JObj [])) 11000].

Lemma demo_keys_free : collision_free demo_keys.
Proof.
  intros t k k' H1 H2 _. apply list_elem_of_singleton in H1, H2. congruence.
Qed.

Lemma approval_decided_once_witness :
  (run_ops [Decide "acme" "apr-1" RequestRejected 2 "bob" [APPROVER] "no" 9000]
     (run_ops granted empty)).(_approvals) !! ("acme", "apr-1") =
  Some (decided demo_request RequestApproved "alice" [APPROVER] "reviewed" 8000).
Proof.
  apply (approval_decided_once granted).
  - repeat constructor. exists APPROVER. split; [left|left; reflexivity].
  - vm_compute. reflexivity.
  - discriminate.
Defined.

Lemma reservation_needs_approval_witness :
  is_ok (reserve_execution PolicyProperties.crm_intent demo_decision
    (Some PolicyProperties.crm_approval) demo_input_hash 10000 (run_ops granted empty)).1 = true ∧
  ∃ ap, Some PolicyProperties.crm_approval = Some ap ∧ 10000 < ap.(ap_expires_at).
Proof.
  assert (is_ok (reserve_execution PolicyProperties.crm_intent demo_decision
    (Some PolicyProperties.crm_approval) demo_input_hash 10000 (run_ops granted empty)).1 = true)
    as Hok by (vm_compute; reflexivity).
  split; [exact Hok|].
  destruct (reserve_execution _ _ _ _ _ _) as [[res|e] s'] eqn:Hrun; [|discriminate Hok].
  destruct (reservation_needs_approval PolicyProperties.crm_intent demo_decision
    (Some PolicyProperties.crm_approval) demo_input_hash 10000 (run_ops granted empty) res s'
    eq_refl Hrun)
    as (ap & r & Hap & _ & _ & _ & Hx & _).
  exists ap. split; [exact Hap|exact Hx].
Defined.

Lemma execution_idempotent_witness :
  ∃ r, (reserve_execution PolicyProperties.crm_intent demo_decision
      (Some PolicyProperties.crm_approval) demo_input_hash 12000
      (run_ops [reserve_s1 11500] (run_ops completed_s1 empty))).1 =
    Ok (mkExecutionReservation r true) ∧ r.(te_status) = ExecutionSucceeded.
Proof.
  assert (from_option te_status ExecutionFailed
    (execution_of (run_ops completed_s1 empty) "acme" "idem-s1") = ExecutionSucceeded ∧
    from_option te_input_hash "" (execution_of (run_ops completed_s1 empty) "acme" "idem-s1") =
      demo_input_hash) as [Hs Hh] by (vm_compute; split; reflexivity).
  destruct (execution_of (run_ops completed_s1 empty) "acme" "idem-s1") as [r|] eqn:Hr;
    [|discriminate Hs].
  exists r. split; [|exact Hs].
  rewrite (execution_idempotent demo_keys completed_s1 [reserve_s1 11500] r PolicyProperties.crm_intent
    demo_decision (Some PolicyProperties.crm_approval) demo_input_hash 12000 demo_keys_free).
  - simpl in Hh. rewrite Hh. vm_compute. reflexivity.
  - repeat constructor.
  - exact Hr.
  - exact Hs.
  - intros _. vm_compute. reflexivity.
Defined.

Lemma execution_exclusive_witness :
  ¬ ∃ r, (reserve_execution PolicyProperties.crm_intent demo_decision
    (Some PolicyProperties.crm_approval) demo_input_hash 20000
    (run_ops [reserve_s1 10000] (run_ops granted empty))).1 = Ok (mkExecutionReservation r false).
Proof.
  assert (re_replayed <$> (reserve_execution PolicyProperties.crm_intent demo_decision
    (Some PolicyProperties.crm_approval) demo_input_hash 10000 (run_ops granted empty)).1 =
    Ok false) as E by (vm_compute; reflexivity).
  destruct ((reserve_execution PolicyProperties.crm_intent demo_decision
    (Some PolicyProperties.crm_approval) demo_input_hash 10000 (run_ops granted empty)).1)
    as [res|] eqn:Hres; [|discriminate E].
  injection E as E. intros [r Hr].
  assert (re_replayed (mkExecutionReservation r false) = true) as Habs; [|discriminate Habs].
  apply (execution_exclusive demo_keys granted PolicyProperties.crm_intent demo_decision
    (Some PolicyProperties.crm_approval) demo_input_hash 10000 res [] PolicyProperties.crm_intent
    demo_decision (Some PolicyProperties.crm_approval) demo_input_hash 20000 demo_keys_free).
  - repeat constructor.
  - exact Hres.
  - exact E.
  - constructor.
  - reflexivity.
  - reflexivity.
  - vm_compute. reflexivity.
  - exact Hr.
Defined.
End GovernanceProperties.
