(* ===== verification/Gateway.v ===== *)
(** The tool gateway, [services/tool-gateway]: bounded concurrency ([quota.py]), the
    typed tool adapter ([executor.py]), the approval callback ([callback.py]) and
    the HTTP handlers of [app.py], from approval requests to evaluate-and-execute. *)

From S2P Require Import Prelude Json Contracts Errors Persistence Samples StateMachine Policy Governance.

(** * Concurrency quotas *)

Record ToolQuotaManager := mkQuota { _maximum : Z; _active : gmap (string * string) Z }.

Definition make_quota (maximum_concurrent_per_tool : Z) : result exn ToolQuotaManager :=
  if maximum_concurrent_per_tool <? 1 then Err (ValueError "tool quota must be positive")
  else Ok (mkQuota maximum_concurrent_per_tool ∅).

Definition active_count (q : ToolQuotaManager) (key : string * string) : Z :=
  default 0 (q.(_active) !! key).

(** Entering and leaving the [acquire] context, each under the manager's lock. *)
Definition quota_enter (tenant_id tool_name : string) : call ToolQuotaManager unit := λ q,
  let key := (tenant_id, tool_name) in
  if q.(_maximum) <=? active_count q key then
    (Err (EGateway RateLimitedError), mkQuota q.(_maximum) (<[key := active_count q key]> q.(_active)))
  else (Ok tt, mkQuota q.(_maximum) (<[key := active_count q key + 1]> q.(_active))).

Definition quota_leave (tenant_id tool_name : string) (q : ToolQuotaManager) : ToolQuotaManager :=
  let key := (tenant_id, tool_name) in
  let n := active_count q key - 1 in
  mkQuota q.(_maximum) (if n =? 0 then delete key q.(_active) else <[key := n]> q.(_active)).

(** * The executor and callback interfaces

    [W] is the world outside the process: what has been sent so far decides what is
    answered. *)

Class ToolExecutor (W : Type) := {
  validate_arguments : ToolIntent → result exn FieldPatchArguments;
  execute : ToolIntent → ToolRegistration → FieldPatchArguments → string →
    call W (list (string * json));
}.

Class ApprovalCallbackNotifier (W : Type) := {
  notify : ApprovalRequestRecord → call W unit;
}.

(** * The HTTP adapter: [executor.py]

    An HTTP client answers a request with a status and a body, or it fails; the
    platform's identity service supplies headers or fails. *)

Record HttpRequest := mkHttpRequest {
  hr_url : string; hr_headers : list (string * string); hr_json : json }.
Inductive HttpAnswer :=
| Response (status_code : Z) (body : option json)
| TransportError
| OtherHttpError.

Section HttpExecutor.
Context {W : Type}.
Context (post : HttpRequest → W → HttpAnswer * W).
Context (service_auth : string → option (list (string * string))).
Context (base_urls : string → string).

(** [_SERVICE_BY_TOOL] *)
Definition SERVICE_BY_TOOL (tool_name : string) : option string :=
  assoc tool_name [("crm.update_field_mapping", "crm");
                   ("analytics.update_field_mapping", "analytics");
                   ("support.update_lookup_field", "support")].

Definition http_validate_arguments (intent : ToolIntent) : result exn FieldPatchArguments :=
  match SERVICE_BY_TOOL intent.(in_tool_name) with
  | None => Err (EGateway (GatewayValidationError "No argument schema is registered for this tool."))
  | Some _ =>
      match parse_field_patch intent.(in_arguments) with
      | Ok arguments => Ok arguments
      | Err _ => Err (EGateway default_validation)
      end
  end.

(** Coercion of a JSON value to a [bool] field. *)
Definition parse_bool (j : json) : option bool :=
  match j with
  | JBool b => Some b
  | JInt 0 => Some false
  | JInt 1 => Some true
  | JStr s =>
      if mem (lower s) ["0"; "off"; "f"; "false"; "n"; "no"] then Some false
      else if mem (lower s) ["1"; "on"; "t"; "true"; "y"; "yes"] then Some true else None
  | _ => None
  end.

Definition jstr_field (k : string) (document : json) : option string :=
  match jget k document with Some (JStr s) => Some (trim s) | _ => None end.

(** [PatchExecutionOutput.model_validate(response.json())] *)
Definition parse_patch_output (document : json) : option PatchExecutionOutput :=
  system_id ← jstr_field "system_id" document;
  field_name ← jstr_field "field_name" document;
  before ← jstr_field "before" document;
  after ← jstr_field "after" document;
  idempotency_key ← jstr_field "idempotency_key" document;
  configuration_hash ← jstr_field "configuration_hash" document;
  replayed ← jget "replayed" document ≫= parse_bool;
  let out := {| po_system_id := system_id; po_field_name := field_name; po_before := before;
    po_after := after; po_idempotency_key := idempotency_key;
    po_configuration_hash := configuration_hash; po_replayed := replayed |} in
  let known := ["system_id"; "field_name"; "before"; "after"; "idempotency_key";
                "configuration_hash"; "replayed"] in
  match document with
  | JObj kvs => if subset kvs.*1 known && PatchExecutionOutput_ok out then Some out else None
  | _ => None
  end.

Definition patch_output_json (o : PatchExecutionOutput) : list (string * json) := [
  ("system_id", JStr o.(po_system_id)); ("field_name", JStr o.(po_field_name));
  ("before", JStr o.(po_before)); ("after", JStr o.(po_after));
  ("idempotency_key", JStr o.(po_idempotency_key));
  ("configuration_hash", JStr o.(po_configuration_hash));
  ("replayed", JBool o.(po_replayed))].

Definition adapter_error (code detail : string) (transient : bool) : exn :=
  EGateway (ToolAdapterError code detail transient).
Definition invalid_response : exn :=
  adapter_error "VALIDATION" "The registered sandbox tool returned an invalid response." false.
Definition unavailable : exn :=
  adapter_error "TRANSIENT" "The registered sandbox tool is temporarily unavailable." true.

(** [HttpToolExecutor.execute]; an error of the HTTP library that is neither a
    timeout nor a network error propagates. *)
Definition http_execute (intent : ToolIntent) (registration : ToolRegistration)
    (arguments : FieldPatchArguments) (request_id : string) : call W (list (string * json)) :=
  match SERVICE_BY_TOOL registration.(tr_tool_name) with
  | None => raise (EGateway (GatewayValidationError "Tool has no bounded execution adapter."))
  | Some service =>
      let payload := JObj [
        ("old_field", JStr arguments.(fp_old_field)); ("new_field", JStr arguments.(fp_new_field));
        ("idempotency_key", JStr intent.(in_idempotency_key));
        ("change_id", JStr intent.(in_change_id)); ("plan_hash", JStr intent.(in_plan_hash))] in
      match service_auth (base_urls service) with
      | None => raise unavailable
      | Some platform_headers =>
          answer ← (λ w, let '(a, w) := post {|
            hr_url := base_urls service +:+ "/v1/patches/apply";
            hr_headers := [("X-Tenant-ID", intent.(in_tenant_id)); ("X-Request-ID", request_id)] ++
                          platform_headers;
            hr_json := payload |} w in (Ok a, w));
          match answer with
          | TransportError => raise unavailable
          | OtherHttpError => raise (RuntimeError "http client")
          | Response status_code body =>
              if 400 <=? status_code then
                let transient := (500 <=? status_code) || (status_code =? 429) in
                raise (adapter_error (if transient then "TRANSIENT" else "PERMANENT")
                  "The registered sandbox tool rejected the request." transient)
              else
                match body ≫= parse_patch_output with
                | None => raise invalid_response
                | Some result =>
                    if negb (bool_decide (result.(po_before) = arguments.(fp_old_field))) ||
                       negb (bool_decide (result.(po_after) = arguments.(fp_new_field))) ||
                       negb (bool_decide (result.(po_idempotency_key) =
                                          intent.(in_idempotency_key)))
                    then raise (adapter_error "VALIDATION"
                           "The registered sandbox tool returned an out-of-scope result." false)
                    else mret (patch_output_json result)
                end
          end
      end
  end.

(** [HttpApprovalCallbackNotifier.notify] *)
Definition http_notify `{Platform} (endpoint secret : string) (record : ApprovalRequestRecord)
  : call W unit :=
  match record.(ar_decided_at) with
  | None => raise (ValueError "Only final approval decisions can trigger a callback.")
  | Some decided_at =>
      match service_auth endpoint with
      | None => raise (EGateway ApprovalCallbackDeliveryError)
      | Some platform_headers =>
          answer ← (λ w, let '(a, w) := post {|
            hr_url := endpoint;
            hr_headers := [("X-Workflow-Callback-Secret", secret)] ++ platform_headers;
            hr_json := JObj [
              ("tenant_id", JStr record.(ar_tenant_id));
              ("change_id", JStr record.(ar_change_id));
              ("approval_id", JStr record.(ar_approval_id));
              ("plan_hash", JStr record.(ar_plan_hash));
              ("plan_version", JInt record.(ar_plan_version));
              ("status", JStr (ApprovalRequestStatus_value record.(ar_status)));
              ("decided_at", jtime decided_at)] |} w in (Ok a, w));
          match answer with
          | Response status_code _ =>
              raise_if (400 <=? status_code) (EGateway ApprovalCallbackDeliveryError)
          | _ => raise (EGateway ApprovalCallbackDeliveryError)
          end
      end
  end.
End HttpExecutor.

(** * The application: [app.py] *)

Record GatewayState (G R W : Type) := mkGatewayState {
  gw_governance : G; gw_changes : R; gw_quota : ToolQuotaManager; gw_world : W }.
Arguments mkGatewayState {G R W} _ _ _ _.
Arguments gw_governance {G R W} _.
Arguments gw_changes {G R W} _.
Arguments gw_quota {G R W} _.
Arguments gw_world {G R W} _.

(** The HTTP status and problem code of a raised error. *)
Definition gateway_problem (e : exn) : Z * string :=
  match e with
  | EGateway e => (gateway_status e, gateway_code e)
  | EPersistence (ChangeNotFoundError _ _ | TenantScopeViolationError _ _) => (404, "NOT_FOUND")
  | EPersistence _ => (503, "PERSISTENCE_UNAVAILABLE")
  | ValidationError "RequestValidation" => (422, "VALIDATION")
  | _ => (500, "INTERNAL")
  end.

Definition _actor_type (identity : VerifiedIdentity) : ActorType :=
  match identity.(vi_kind) with
  | KindAgent => ActorAgent | KindService => ActorService | KindUser => ActorUser
  end.

Section App.
Context `{Platform} {G R W : Type} `{GovernanceRepository G} `{ChangeStateRepository R}
  `{ToolExecutor W} `{ApprovalCallbackNotifier W}.
Abbreviation gateway A := (call (GatewayState G R W) A).

Definition governance {A} (m : call G A) : gateway A :=
  zoom gw_governance (λ g s, mkGatewayState g s.(gw_changes) s.(gw_quota) s.(gw_world)) m.
Definition changes {A} (m : call R A) : gateway A :=
  zoom gw_changes (λ r s, mkGatewayState s.(gw_governance) r s.(gw_quota) s.(gw_world)) m.
Definition quotas {A} (m : call ToolQuotaManager A) : gateway A :=
  zoom gw_quota (λ q s, mkGatewayState s.(gw_governance) s.(gw_changes) q s.(gw_world)) m.
Definition world {A} (m : call W A) : gateway A :=
  zoom gw_world (λ w s, mkGatewayState s.(gw_governance) s.(gw_changes) s.(gw_quota) w) m.

Definition _semantic_input_hash (intent : ToolIntent) : string :=
  sha256_digest (JObj [
    ("tenant_id", JStr intent.(in_tenant_id));
    ("change_id", JStr intent.(in_change_id));
    ("workflow_execution_id", JStr intent.(in_workflow_execution_id));
    ("plan_id", JStr intent.(in_plan_id));
    ("plan_hash", JStr intent.(in_plan_hash));
    ("step_id", JStr intent.(in_step_id));
    ("agent_identity", JStr intent.(in_agent_identity));
    ("tool_name", JStr intent.(in_tool_name));
    ("action", JStr intent.(in_action));
    ("resource", JStr intent.(in_resource));
    ("arguments", JObj intent.(in_arguments));
    ("idempotency_key", JStr intent.(in_idempotency_key))]).

(** [_tool_audit]; [audit_uuid] is [uuid4().hex]. *)
Definition _tool_audit (audit_uuid : string) (identity : VerifiedIdentity) (intent : ToolIntent)
    (event_type : string) (decision : PolicyDecision) (input_hash : string) (output : json)
    (status_value : AuditStatus) (summary : string) (now : Z) : result exn AuditEvent :=
  validated "AuditEvent" AuditEvent_ok {|
    au_audit_event_id := "audit_" +:+ audit_uuid;
    au_tenant_id := intent.(in_tenant_id);
    au_change_id := intent.(in_change_id);
    au_trace_id := intent.(in_workflow_execution_id);
    au_event_type := event_type;
    au_actor_type := _actor_type identity;
    au_actor_id := identity.(vi_subject);
    au_resource := intent.(in_resource);
    au_action := intent.(in_action);
    au_decision_id := Some decision.(pd_decision_id);
    au_input_hash := input_hash;
    au_output_hash := sha256_digest output;
    au_status := status_value;
    au_redacted_summary := summary;
    au_created_at := now |}.

Definition approval_record_json (r : ApprovalRequestRecord) : json := JObj [
  ("approval_id", JStr r.(ar_approval_id));
  ("tenant_id", JStr r.(ar_tenant_id));
  ("change_id", JStr r.(ar_change_id));
  ("plan_id", JStr r.(ar_plan_id));
  ("plan_hash", JStr r.(ar_plan_hash));
  ("plan_version", JInt r.(ar_plan_version));
  ("environment", JStr (ChangeEnvironment_value r.(ar_environment)));
  ("scope", jstrs r.(ar_scope));
  ("status", JStr (ApprovalRequestStatus_value r.(ar_status)));
  ("requested_by", JStr r.(ar_requested_by));
  ("requested_at", jtime r.(ar_requested_at));
  ("expires_at", jtime r.(ar_expires_at));
  ("decided_by", jopt r.(ar_decided_by));
  ("decided_by_roles", JArr ((λ x, JStr (UserRole_value x)) <$> r.(ar_decided_by_roles)));
  ("decided_at", match r.(ar_decided_at) with Some t => jtime t | None => JNull end);
  ("comment", jopt r.(ar_comment));
  ("version", JInt r.(ar_version))].

Definition _approval_audit (audit_uuid : string) (identity : VerifiedIdentity)
    (record : ApprovalRequestRecord) (event_type summary : string) (now : Z)
  : result exn AuditEvent :=
  validated "AuditEvent" AuditEvent_ok {|
    au_audit_event_id := "audit_" +:+ audit_uuid;
    au_tenant_id := record.(ar_tenant_id);
    au_change_id := record.(ar_change_id);
    au_trace_id := "approval:" +:+ record.(ar_approval_id);
    au_event_type := event_type;
    au_actor_type := _actor_type identity;
    au_actor_id := identity.(vi_subject);
    au_resource := "approvals/" +:+ record.(ar_approval_id);
    au_action := lower event_type;
    au_decision_id := None;
    au_input_hash := sha256_digest (JObj [
      ("approval_id", JStr record.(ar_approval_id)); ("plan_hash", JStr record.(ar_plan_hash));
      ("scope", jstrs record.(ar_scope))]);
    au_output_hash := sha256_digest (approval_record_json record);
    au_status := AuditSuccess;
    au_redacted_summary := summary;
    au_created_at := now |}.

Definition _require_roles (identity : VerifiedIdentity) (roles : list UserRole)
  : gateway unit :=
  raise_if (negb (bool_decide (identity.(vi_kind) = KindUser)) ||
            negb (intersects identity.(vi_roles) roles))
    (EGateway default_authorization).

(** A query parameter with bounds. *)
Definition query_limit (low high limit : Z) : gateway unit :=
  raise_if (negb ((low <=? limit) && (limit <=? high))) (ValidationError "RequestValidation").

Definition audited (event : result exn AuditEvent) : gateway unit :=
  event ← of_result event; governance (gov_record_audit event).

(** [POST /v1/approvals] *)
Definition create_approval (created_at : Z) (audit_uuid : string) (body : ApprovalCreateRequest)
    (identity : VerifiedIdentity) : gateway ApprovalRequestRecord :=
  let plan := body.(ac_plan) in
  _ ← raise_if (negb (ApprovalCreateRequest_ok body)) (ValidationError "RequestValidation");
  _ ← raise_if (bool_decide (identity.(vi_kind) = KindUser))
        (EGateway (AuthorizationError
           "Only a workflow service or registered agent may request approval."));
  _ ← raise_if (negb (bool_decide (plan.(pl_tenant_id) = identity.(vi_tenant_id))))
        (EGateway default_authorization);
  _ ← raise_if ((body.(ac_expires_at) <=? created_at) ||
                (created_at + hours 1 <? body.(ac_expires_at)))
        (EGateway (GatewayValidationError "Approval expiration must be within the next hour."));
  change ← changes (repo_get identity.(vi_tenant_id) plan.(pl_change_id));
  let plan_hash := calculate_plan_hash plan in
  _ ← raise_if (negb (bool_decide (change.(cr_status) = AWAITING_APPROVAL)))
        (EGateway (conflict "Change is not awaiting approval."));
  _ ← raise_if (negb (change.(cr_plan_version) =? plan.(pl_version)) ||
                negb (bool_decide (change.(cr_plan_hash) = Some plan_hash)) ||
                negb (bool_decide (change.(cr_environment) = body.(ac_environment))))
        (EGateway (conflict "Approval request does not match the authoritative change plan."));
  record ← of_result (validated "ApprovalRequestRecord" ApprovalRequestRecord_ok {|
    ar_approval_id := body.(ac_approval_id);
    ar_tenant_id := plan.(pl_tenant_id);
    ar_change_id := plan.(pl_change_id);
    ar_plan_id := plan.(pl_plan_id);
    ar_plan_hash := plan_hash;
    ar_plan_version := plan.(pl_version);
    ar_environment := body.(ac_environment);
    ar_scope := body.(ac_scope);
    ar_status := RequestPending;
    ar_requested_by := identity.(vi_subject);
    ar_requested_at := created_at;
    ar_expires_at := body.(ac_expires_at);
    ar_decided_by := None;
    ar_decided_by_roles := [];
    ar_decided_at := None;
    ar_comment := None;
    ar_version := 1 |});
  stored ← governance (gov_create_approval_request record plan);
  _ ← (if stored.(ar_requested_at) =? created_at
       then audited (_approval_audit audit_uuid identity stored "APPROVAL_REQUESTED"
              "Exact-plan sandbox approval requested." created_at)
       else mret tt);
  mret stored.

(** [GET /v1/approvals] *)
Definition list_approvals (identity : VerifiedIdentity) (limit : Z)
  : gateway (list ApprovalRequestRecord) :=
  _ ← query_limit 1 100 limit;
  _ ← _require_roles identity [APPROVER; AUDITOR; PLATFORM_ADMIN];
  governance (gov_list_approval_requests identity.(vi_tenant_id) limit).

(** [GET /v1/approvals/{approval_id}] *)
Definition get_approval (approval_id : string) (identity : VerifiedIdentity)
  : gateway ApprovalRequestRecord :=
  _ ← _require_roles identity [APPROVER; AUDITOR; PLATFORM_ADMIN];
  governance (gov_get_approval_request identity.(vi_tenant_id) approval_id).

Definition decision_event (target : ApprovalRequestStatus) : result exn string :=
  match target with
  | RequestApproved => Ok "APPROVAL_GRANTED"
  | RequestRejected => Ok "APPROVAL_REJECTED"
  | RequestChangesRequested => Ok "APPROVAL_CHANGES_REQUESTED"
  | RequestPending => Err KeyError
  end.

(** The body of [POST /v1/approvals/{approval_id}/approve], [/reject] and
    [/request-changes]. *)
Definition decide_approval (timestamp : Z) (audit_uuid approval_id : string)
    (body : ApprovalDecisionRequest) (identity : VerifiedIdentity)
    (target : ApprovalRequestStatus) : gateway ApprovalRequestRecord :=
  _ ← raise_if (negb (ApprovalDecisionRequest_ok body)) (ValidationError "RequestValidation");
  _ ← _require_roles identity [APPROVER; PLATFORM_ADMIN];
  record ← governance (gov_decide_approval identity.(vi_tenant_id) approval_id target
             body.(ad_expected_version) identity.(vi_subject) identity.(vi_roles)
             body.(ad_comment) timestamp);
  event_type ← of_result (decision_event target);
  _ ← audited (_approval_audit audit_uuid identity record event_type
        ("Exact-plan sandbox approval decision: " +:+ ApprovalRequestStatus_value target +:+ ".")
        timestamp);
  _ ← world (notify record);
  mret record.

Definition approve t u i b id := decide_approval t u i b id RequestApproved.
Definition reject t u i b id := decide_approval t u i b id RequestRejected.
Definition request_changes t u i b id := decide_approval t u i b id RequestChangesRequested.

(** [GET /v1/audit] *)
Definition list_audit (identity : VerifiedIdentity) (limit : Z) : gateway (list AuditEvent) :=
  _ ← query_limit 1 500 limit;
  _ ← _require_roles identity [AUDITOR; PLATFORM_ADMIN];
  governance (gov_list_audit identity.(vi_tenant_id) limit).

(** ** Evaluate and execute

    The clock readings and identifiers a request consumes, in order. *)
Record Readings := mkReadings {
  rd_evaluated_at : Z;
  rd_reserved_at : Z;
  rd_finished_at : Z;
  rd_decision_uuid : string;
  rd_policy_audit : string;
  rd_result_audit : string;
}.

(** A refusal before the policy is consulted: a decision, its audit event and the
    error. *)
Definition refuse (rd : Readings) (identity : VerifiedIdentity) (intent : ToolIntent)
    (input_hash : string) (effect : PolicyEffect) (computed_risk : RiskLevel)
    (approval_required : bool) (policy_ids : list string) (reason event_type summary : string)
    (error : exn) : gateway GatewayExecutionResult :=
  decision ← of_result (validated "PolicyDecision" PolicyDecision_ok {|
    pd_decision_id := "decision_" +:+ rd.(rd_decision_uuid);
    pd_tenant_id := intent.(in_tenant_id);
    pd_intent_id := intent.(in_intent_id);
    pd_effect := effect;
    pd_computed_risk := computed_risk;
    pd_approval_required := approval_required;
    pd_approval_valid := false;
    pd_matched_policy_ids := policy_ids;
    pd_reasons := [reason];
    pd_evaluated_at := rd.(rd_evaluated_at) |});
  _ ← audited (_tool_audit rd.(rd_policy_audit) identity intent event_type decision input_hash
        (decision_json decision) AuditRejected summary decision.(pd_evaluated_at));
  raise error.

(** The part of the request that runs inside the quota: a replayed result, or the
    reservation with what the adapter answered. *)
Definition attempt (rd : Readings) (identity : VerifiedIdentity) (intent : ToolIntent)
    (registration : ToolRegistration) (arguments : FieldPatchArguments)
    (decision : PolicyDecision) (approval : option Approval) (input_hash request_id : string)
  : gateway (GatewayExecutionResult +
             ExecutionReservation * result (string * exn) (list (string * json))) :=
  reservation ← governance (gov_reserve_execution intent decision approval input_hash
                              rd.(rd_reserved_at));
  let record := reservation.(re_record) in
  if reservation.(re_replayed) then
    match record.(te_output), record.(te_output_hash) with
    | Some output, Some output_hash =>
        if bool_decide (record.(te_status) = ExecutionSucceeded) then
          _ ← audited (_tool_audit rd.(rd_result_audit) identity intent "TOOL_EXECUTION_REPLAYED"
                decision input_hash (JObj output) AuditSuccess
                "Existing idempotent tool result returned without another mutation."
                rd.(rd_finished_at));
          mret (inl {| gr_execution_id := record.(te_execution_id); gr_decision := decision;
                       gr_output := output; gr_output_hash := output_hash;
                       gr_replayed := true |})
        else raise (RuntimeError "replayed execution is missing its validated successful result")
    | _, _ => raise (RuntimeError "replayed execution is missing its validated successful result")
    end
  else
    answer ← catch (output ← world (execute intent registration arguments request_id);
                    mret (Ok output))
               (λ error, match error with
                         | EGateway (ToolAdapterError code _ _) => Some (mret (Err (code, error)))
                         | _ => None
                         end);
    mret (inr (reservation, answer)).

(** [async with quotas.acquire(...)]: the slot is given back however the body ends. *)
Definition with_quota {A} (tenant_id tool_name : string) (body : gateway A) : gateway A := λ s,
  match quotas (quota_enter tenant_id tool_name) s with
  | (Err e, s) => (Err e, s)
  | (Ok _, s) =>
      let '(r, s) := body s in
      (r, mkGatewayState s.(gw_governance) s.(gw_changes)
            (quota_leave tenant_id tool_name s.(gw_quota)) s.(gw_world))
  end.

(** Recording the outcome of a call that was made. *)
Definition conclude (rd : Readings) (identity : VerifiedIdentity) (intent : ToolIntent)
    (decision : PolicyDecision) (input_hash : string) (reservation : ExecutionReservation)
    (answer : result (string * exn) (list (string * json))) : gateway GatewayExecutionResult :=
  let execution_id := reservation.(re_record).(te_execution_id) in
  match answer with
  | Err (code, error) =>
      _ ← governance (gov_fail_execution intent.(in_tenant_id) intent.(in_change_id) execution_id
            code rd.(rd_finished_at));
      _ ← audited (_tool_audit rd.(rd_result_audit) identity intent "TOOL_EXECUTION_FAILED"
            decision input_hash (JObj [("error_code", JStr code)]) AuditFailure
            "Registered sandbox tool execution failed." rd.(rd_finished_at));
      raise error
  | Ok output =>
      let output_hash := sha256_digest (JObj output) in
      completed ← governance (gov_complete_execution intent.(in_tenant_id) intent.(in_change_id)
                    execution_id output output_hash rd.(rd_finished_at));
      _ ← audited (_tool_audit rd.(rd_result_audit) identity intent "TOOL_EXECUTION_SUCCEEDED"
            decision input_hash (JObj output) AuditSuccess
            "Approved typed sandbox tool action completed." completed.(te_updated_at));
      match completed.(te_output), completed.(te_output_hash) with
      | Some output, Some output_hash =>
          mret {| gr_execution_id := completed.(te_execution_id); gr_decision := decision;
                  gr_output := output; gr_output_hash := output_hash; gr_replayed := false |}
      | _, _ => raise (RuntimeError "completed execution is missing its validated result")
      end
  end.

(** The policy decision on an intent for a registered tool, audited. *)
Definition decide_policy (rd : Readings) (identity : VerifiedIdentity)
    (body : GatewayExecutionRequest) (registration : ToolRegistration) (input_hash : string)
  : gateway (PolicyDecision * option Approval) :=
  let intent := body.(ge_intent) in
  change ← changes (repo_get identity.(vi_tenant_id) intent.(in_change_id));
  plan ← governance (gov_get_plan identity.(vi_tenant_id) intent.(in_change_id)
                       intent.(in_plan_id));
  approval ← match body.(ge_approval_id) with
             | Some approval_id =>
                 record ← governance (gov_get_approval_request identity.(vi_tenant_id) approval_id);
                 of_result (as_approval record)
             | None => mret None
             end;
  decision ← of_result (evaluate rd.(rd_decision_uuid) identity intent change plan registration
                          approval rd.(rd_evaluated_at));
  let allowed := bool_decide (decision.(pd_effect) = ALLOW) in
  _ ← audited (_tool_audit rd.(rd_policy_audit) identity intent
        (if allowed then "TOOL_POLICY_ALLOWED" else "TOOL_POLICY_DENIED") decision input_hash
        (decision_json decision) (if allowed then AuditSuccess else AuditRejected)
        (if allowed then "Deterministic tool policy allowed the exact-plan action."
         else "Deterministic tool policy denied the action.") decision.(pd_evaluated_at));
  mret (decision, approval).

(** [POST /internal/v1/tool-intents/evaluate-and-execute] *)
Definition evaluate_and_execute (registry : ToolRegistry) (rd : Readings) (request_id : string)
    (body : GatewayExecutionRequest) (identity : VerifiedIdentity)
  : gateway GatewayExecutionResult :=
  let intent := body.(ge_intent) in
  _ ← raise_if (negb (ToolIntent_ok intent && opt_ok nonempty_str body.(ge_approval_id)))
        (ValidationError "RequestValidation");
  _ ← raise_if (negb (bool_decide (identity.(vi_kind) = KindAgent)))
        (EGateway (AuthorizationError "Only authenticated agents may submit tool intents."));
  _ ← raise_if (negb (bool_decide (identity.(vi_tenant_id) = intent.(in_tenant_id))))
        (EGateway default_authorization);
  let input_hash := _semantic_input_hash intent in
  match registry_get registry intent.(in_tool_name) with
  | None =>
      refuse rd identity intent input_hash DENY UNKNOWN false [] "Tool is not registered."
        "TOOL_INTENT_DENIED" "Unregistered tool intent denied." (EGateway PolicyDeniedError)
  | Some registration =>
      match validate_arguments intent with
      | Err (EGateway (GatewayValidationError detail)) =>
          refuse rd identity intent input_hash BLOCK_SECURITY registration.(tr_risk_level)
            registration.(tr_mutating) registration.(tr_policy_ids)
            "Tool arguments failed the registered schema." "TOOL_ARGUMENTS_BLOCKED"
            "Out-of-schema tool arguments blocked." (EGateway (GatewayValidationError detail))
      | Err error => raise error
      | Ok arguments =>
          '(decision, approval) ← decide_policy rd identity body registration input_hash;
          if bool_decide (decision.(pd_effect) = REQUIRE_APPROVAL)
          then raise (EGateway ApprovalRequiredError)
          else if negb (bool_decide (decision.(pd_effect) = ALLOW))
          then raise (EGateway PolicyDeniedError)
          else
            outcome ← with_quota intent.(in_tenant_id) intent.(in_tool_name)
                        (attempt rd identity intent registration arguments decision approval
                           input_hash request_id);
            match outcome with
            | inl replayed => mret replayed
            | inr (reservation, answer) =>
                conclude rd identity intent decision input_hash reservation answer
            end
      end
  end.
End App.
