(* ===== verification/GatewayFacts.v ===== *)
(** What the tool gateway promises: a tool runs at most once per request and only
    for an authorized action under a current approval, every refusal by the policy
    is audited, approvals are requested for the authoritative plan and decided by
    eligible people, and quota slots are bounded and given back. *)

From S2P Require Import Prelude Json Contracts Errors Persistence Samples StateMachine Policy Governance GovernanceFacts Gateway.

(** * The quota manager *)

Section QuotaFacts.
(** The counts stay between one and the maximum; keys without a count are free. *)
Definition quota_inv (q : ToolQuotaManager) : Prop :=
  1 <= q.(_maximum) ∧ ∀ key n, q.(_active) !! key = Some n → 1 <= n <= q.(_maximum).

Lemma quota_enter_run t n q :
  quota_inv q →
  quota_enter t n q =
    if q.(_maximum) <=? active_count q (t, n) then (Err (EGateway RateLimitedError), q)
    else (Ok tt, mkQuota q.(_maximum) (<[(t, n) := active_count q (t, n) + 1]> q.(_active))).
Proof.
  intros [Hmax Hq]. unfold quota_enter. destruct (Z.leb_spec (_maximum q) (active_count q (t, n)));
    [|done].
  unfold active_count in *. destruct (q.(_active) !! (t, n)) as [k|] eqn:Hk; [|simpl in *; lia].
  simpl. rewrite insert_id by done. by destruct q.
Qed.

Lemma quota_enter_inv t n q q' :
  quota_inv q → quota_enter t n q = (Ok tt, q') →
  quota_inv q' ∧ active_count q' (t, n) = active_count q (t, n) + 1 ∧
  (∀ key, key ≠ (t, n) → active_count q' key = active_count q key).
Proof.
  intros Hinv. rewrite quota_enter_run by done.
  destruct (Z.leb_spec (_maximum q) (active_count q (t, n))) as [|Hlt]; [done|]. intros [= <-].
  destruct Hinv as [Hmax Hq]. split_and!.
  - split; [done|]. intros key k. simpl. rewrite lookup_insert. case_decide as Hd; [|apply Hq].
    intros [= <-]. unfold active_count in *. destruct (q.(_active) !! (t, n)) eqn:Hk; simpl in *;
      [pose proof (Hq _ _ Hk)|]; lia.
  - unfold active_count. simpl. by rewrite lookup_insert_eq.
  - intros key Hne. unfold active_count. simpl. by rewrite lookup_insert_ne.
Qed.

Lemma quota_leave_inv t n q :
  quota_inv q → 1 <= active_count q (t, n) →
  quota_inv (quota_leave t n q) ∧
  active_count (quota_leave t n q) (t, n) = active_count q (t, n) - 1 ∧
  (∀ key, key ≠ (t, n) → active_count (quota_leave t n q) key = active_count q key).
Proof.
  intros [Hmax Hq] Hpos. unfold quota_leave. set (k := active_count q (t, n)) in *.
  assert (k <= q.(_maximum)) as Hk.
  { unfold k, active_count. destruct (q.(_active) !! (t, n)) eqn:E; simpl; [apply (Hq _ _ E)|lia]. }
  destruct (Z.eqb_spec (k - 1) 0) as [E|E]; (split_and!; [split; [done|]| |]).
  - intros key m. simpl. rewrite lookup_delete. case_decide; [done|apply Hq].
  - unfold active_count. simpl. rewrite lookup_delete_eq. simpl. lia.
  - intros key Hne. unfold active_count. simpl. by rewrite lookup_delete_ne.
  - intros key m. simpl. rewrite lookup_insert. case_decide; [intros [= <-]; lia|apply Hq].
  - unfold active_count. simpl. by rewrite lookup_insert_eq.
  - intros key Hne. unfold active_count. simpl. by rewrite lookup_insert_ne.
Qed.

(** Leaving undoes entering. *)
Lemma quota_enter_leave t n q q' :
  quota_inv q → quota_enter t n q = (Ok tt, q') → quota_leave t n q' = q.
Proof.
  intros Hinv. rewrite quota_enter_run by done.
  destruct (Z.leb_spec (_maximum q) (active_count q (t, n))) as [|Hlt]; [done|]. intros [= <-].
  unfold quota_leave, active_count. simpl. rewrite lookup_insert_eq. simpl.
  destruct q as [m act], Hinv as [Hmax Hq]. simpl in *.
  destruct (act !! (t, n)) as [k|] eqn:Hk; simpl.
  - pose proof (Hq _ _ Hk). destruct (Z.eqb_spec (k + 1 - 1) 0); [lia|].
    rewrite insert_insert_eq. replace (k + 1 - 1) with k by lia. by rewrite insert_id.
  - by rewrite delete_insert_id.
Qed.
End QuotaFacts.

(** * Frames *)

Section Frames.
Context `{Platform} {G R W : Type} `{GovernanceRepository G, !GovernanceLaws G}
  `{RepositoryLaws R}
  `{ToolExecutor W} `{ApprovalCallbackNotifier W}.
Abbreviation state := (GatewayState G R W).

(** What a step that only audits may change: the audit trail grows, everything
    else stays. *)
Record frame (s s' : state) : Prop := {
  frame_changes : gw_changes s' = gw_changes s;
  frame_quota : gw_quota s' = gw_quota s;
  frame_world : gw_world s' = gw_world s;
  frame_plan t c p : gov_plan (gw_governance s') t c p = gov_plan (gw_governance s) t c p;
  frame_approval t a : gov_approval (gw_governance s') t a = gov_approval (gw_governance s) t a;
  frame_audit t i : is_Some (gov_audit_event (gw_governance s) t i) →
    gov_audit_event (gw_governance s') t i = gov_audit_event (gw_governance s) t i;
}.

#[export] Instance frame_refl : Reflexive frame.
Proof. by split. Qed.
#[export] Instance frame_trans : Transitive frame.
Proof.
  intros x y z [] []. split; try congruence.
  intros t i Hi. rewrite frame_audit1; [by apply frame_audit0|]. by rewrite frame_audit0.
Qed.

(** The audit step: the event is recorded, or its identifier was taken. *)
Lemma audited_run (ev : result exn AuditEvent) (s : state) :
  frame s (audited ev s).2 ∧
  ((audited ev s).1 = Ok tt →
   ∃ e, ev = Ok e ∧
     gov_audit_event (gw_governance (audited ev s).2) e.(au_tenant_id) e.(au_audit_event_id) =
       Some e).
Proof.
  unfold audited, mbind, M_bind, of_result. destruct ev as [e|]; [|by split].
  unfold governance, zoom. pose proof (gov_record_audit_law (gw_governance s) e) as Hlaw.
  cbn zeta in Hlaw. destruct (gov_record_audit e (gw_governance s)) as [out g'] eqn:Hrun.
  simpl in *. destruct (gov_audit_event _ _ _).
  - destruct Hlaw as [-> ->]. split; [by destruct s|done].
  - destruct Hlaw as (-> & Hp & Ha & Hev & Hold). split; [by split|]. intros _. by exists e.
Qed.

Lemma changes_get_run (s : state) t c :
  repo_inv (gw_changes s) →
  changes (repo_get t c) s =
    (match view_change (gw_changes s) t c with
     | Some r => (Ok r, s) | None => ((changes (repo_get t c) s).1, s) end) ∧
  (view_change (gw_changes s) t c = None → is_ok (changes (repo_get t c) s).1 = false).
Proof.
  intros Hinv. pose proof (get_law (gw_changes s) t c Hinv) as Hget. unfold changes, zoom.
  destruct (view_change _ t c) as [r|].
  - rewrite Hget. by destruct s.
  - destruct Hget as (e & -> & _). by destruct s.
Qed.

Lemma governance_read {A} (m : call G A) r (s : state) :
  m (gw_governance s) = (r, gw_governance s) → governance m s = (r, s).
Proof. unfold governance, zoom. intros ->. by destruct s. Qed.

(** ** The policy decision of a request *)

Lemma decide_policy_ok rd identity body registration h (s s' : state) d ap :
  repo_inv (gw_changes s) →
  decide_policy rd identity body registration h s = (Ok (d, ap), s') →
  let intent := ge_intent body in let t := vi_tenant_id identity in
  frame s s' ∧
  ∃ change plan ev,
    view_change (gw_changes s) t (in_change_id intent) = Some change ∧
    gov_plan (gw_governance s) t (in_change_id intent) (in_plan_id intent) = Some plan ∧
    evaluate (rd_decision_uuid rd) identity intent change plan registration ap
      (rd_evaluated_at rd) = Ok d ∧
    gov_audit_event (gw_governance s') (in_tenant_id intent) ("audit_" +:+ rd_policy_audit rd) =
      Some ev ∧
    ev.(au_decision_id) = Some d.(pd_decision_id) ∧
    ev.(au_status) = (if bool_decide (d.(pd_effect) = ALLOW) then AuditSuccess else AuditRejected).
Proof.
  intros Hinv Hrun. cbn zeta. unfold decide_policy in Hrun.
  apply bind_ok in Hrun as (change & s1 & Hget & Hrun).
  destruct (changes_get_run s (vi_tenant_id identity) (in_change_id (ge_intent body)) Hinv)
    as [Hc Hnone].
  destruct (view_change (gw_changes s) _ _) as [r|] eqn:Hv; last first.
  { specialize (Hnone eq_refl). rewrite Hget in Hnone. done. }
  rewrite Hc in Hget. assert (change = r ∧ s1 = s) as [-> ->] by (split; congruence). clear Hc Hnone.
  apply bind_ok in Hrun as (plan & s2 & Hplan & Hrun).
  rewrite (governance_read _ _ _ (gov_get_plan_law _ _ _ _)) in Hplan.
  destruct (gov_plan _ _ _ _) as [p|] eqn:Hp; [|done].
  assert (plan = p ∧ s2 = s) as [-> ->] by (split; congruence).
  apply bind_ok in Hrun as (ap' & s3 & Hap & Hrun).
  assert (s3 = s) as ->.
  { destruct (ge_approval_id body) as [a|]; [|unfold mret, M_ret in Hap; congruence].
    apply bind_ok in Hap as (rec & s4 & Hrec & Hap).
    rewrite (governance_read _ _ _ (gov_get_approval_law _ _ _)) in Hrec.
    unfold of_result in Hap. congruence. }
  apply bind_ok in Hrun as (d' & s4 & Hd & Hrun). unfold of_result in Hd.
  assert (s4 = s) as -> by congruence. cbn zeta in Hrun.
  apply bind_ok in Hrun as ([] & s5 & Haud & Hrun). unfold mret, M_ret in Hrun.
  assert (d' = d ∧ ap' = ap ∧ s5 = s') as (-> & -> & ->) by (split_and!; congruence).
  destruct (audited_run (_tool_audit (rd_policy_audit rd) identity (ge_intent body)
    (if bool_decide (pd_effect d = ALLOW) then "TOOL_POLICY_ALLOWED" else "TOOL_POLICY_DENIED") d h
    (decision_json d) (if bool_decide (pd_effect d = ALLOW) then AuditSuccess else AuditRejected)
    (if bool_decide (pd_effect d = ALLOW)
     then "Deterministic tool policy allowed the exact-plan action."
     else "Deterministic tool policy denied the action.") (pd_evaluated_at d)) s) as [Hf Hev].
  rewrite Haud in Hf, Hev. split; [done|]. destruct (Hev eq_refl) as (ev & E & Hstored).
  unfold _tool_audit in E. apply validated_ok in E as [_ E].
  assert (ev.(au_tenant_id) = in_tenant_id (ge_intent body) ∧
    ev.(au_audit_event_id) = "audit_" +:+ rd_policy_audit rd) as [Ht Hi] by (by rewrite E).
  rewrite Ht, Hi in Hstored. exists r, p, ev.
  split_and!; [done|done|congruence|done|by rewrite E|by rewrite E].
Qed.

(** ** The world outside *)

Definition keeps_world {A} (m : call state A) : Prop := ∀ s, gw_world (m s).2 = gw_world s.

Lemma keeps_bind {A B} (m : call state A) (f : A → call state B) :
  keeps_world m → (∀ a, keeps_world (f a)) → keeps_world (mbind f m).
Proof.
  intros Hm Hf s. unfold mbind, M_bind. specialize (Hm s).
  destruct (m s) as [[a|e] s1]; simpl in *; [by rewrite Hf|done].
Qed.
Lemma keeps_governance {A} (m : call G A) : keeps_world (governance m).
Proof. intros s. unfold governance, zoom. by destruct (m _). Qed.
Lemma keeps_raise {A} (e : exn) : keeps_world (A:=A) (raise e).
Proof. by intros s. Qed.
Lemma keeps_ret {A} (a : A) : keeps_world (mret a).
Proof. by intros s. Qed.
Lemma keeps_of_result {A} (r : result exn A) : keeps_world (of_result r).
Proof. by intros s. Qed.
Lemma keeps_audited (ev : result exn AuditEvent) : keeps_world (audited ev).
Proof. intros s. apply (frame_world _ _ (proj1 (audited_run ev s))). Qed.

Lemma keeps_conclude rd identity intent d h res answer :
  keeps_world (conclude rd identity intent d h res answer).
Proof.
  unfold conclude. destruct answer as [out|[code e]].
  - apply keeps_bind; [apply keeps_governance|]. intros r.
    apply keeps_bind; [apply keeps_audited|]. intros _.
    destruct (te_output r), (te_output_hash r); first [apply keeps_ret|apply keeps_raise].
  - apply keeps_bind; [apply keeps_governance|]. intros r.
    apply keeps_bind; [apply keeps_audited|]. intros _. apply keeps_raise.
Qed.

Lemma keeps_refuse rd identity intent h eff risk req ids reason ty sm e :
  keeps_world (refuse rd identity intent h eff risk req ids reason ty sm e).
Proof.
  unfold refuse. apply keeps_bind; [apply keeps_of_result|]. intros d.
  apply keeps_bind; [apply keeps_audited|]. intros _. apply keeps_raise.
Qed.

Lemma keeps_decide_policy rd identity body reg h :
  keeps_world (decide_policy rd identity body reg h).
Proof.
  unfold decide_policy. apply keeps_bind.
  { intros s. unfold changes, zoom. by destruct (repo_get _ _ _). }
  intros c. apply keeps_bind; [apply keeps_governance|]. intros p. apply keeps_bind.
  { destruct (ge_approval_id body); [|apply keeps_ret].
    apply keeps_bind; [apply keeps_governance|]. intros r. apply keeps_of_result. }
  intros ap. apply keeps_bind; [apply keeps_of_result|]. intros d.
  apply keeps_bind; [apply keeps_audited|]. intros _. apply keeps_ret.
Qed.

(** The attempt calls the executor once, or not at all. *)
Lemma attempt_world rd identity intent reg args d ap h rid (s : state) :
  let s' := (attempt rd identity intent reg args d ap h rid s).2 in
  gw_world s' = gw_world s ∨
  ∃ res g', gov_reserve_execution intent d ap h (rd_reserved_at rd) (gw_governance s) = (Ok res, g') ∧
    re_replayed res = false ∧
    gw_world s' = (execute intent reg args rid (gw_world s)).2.
Proof.
  cbn zeta. unfold attempt.
  destruct (gov_reserve_execution intent d ap h (rd_reserved_at rd) (gw_governance s))
    as [[res|e] g'] eqn:Hres.
  all: match type of Hres with _ = (?r, _) =>
    assert (governance (gov_reserve_execution intent d ap h (rd_reserved_at rd)) s =
      (r, mkGatewayState g' (gw_changes s) (gw_quota s) (gw_world s))) as Hg
      by (unfold governance, zoom; by rewrite Hres) end.
  2: { left. by rewrite (bind_run_err _ _ _ _ _ Hg). }
  rewrite (bind_run _ _ _ _ _ Hg). cbn zeta. destruct (re_replayed res) eqn:Hrep.
  - left. destruct (te_output (re_record res)), (te_output_hash (re_record res)); try done.
    destruct (bool_decide (te_status (re_record res) = ExecutionSucceeded)); [|done].
    by rewrite (keeps_bind _ _ (keeps_audited _)).
  - right. exists res, g'. split_and!; [done..|].
    unfold mbind, M_bind, catch, world, zoom. cbn [gw_world].
    destruct (execute intent reg args rid (gw_world s)) as [[out|e] w']; [done|].
    destruct e as [| | | | | |e0| | | | | | |]; try done. by destruct e0.
Qed.

Lemma with_quota_world {A} t n (m : call state A) (s : state) :
  gw_world (with_quota t n m s).2 = gw_world s ∨
  ∃ s1, gw_world s1 = gw_world s ∧ gw_governance s1 = gw_governance s ∧
    gw_world (with_quota t n m s).2 = gw_world (m s1).2.
Proof.
  unfold with_quota, quotas, zoom. destruct (quota_enter t n (gw_quota s)) as [[[]|e] q]; [|by left].
  right. exists (mkGatewayState (gw_governance s) (gw_changes s) q (gw_world s)).
  split_and!; [done..|]. by destruct (m _).
Qed.

(** A request calls the executor at most once; if it does, the caller is an agent of
    the intent's tenant, the tool is registered, the arguments fit its schema, the
    policy allowed the action, and the reservation was granted. *)
Lemma evaluate_and_execute_world registry rd rid body identity (s : state) :
  repo_inv (gw_changes s) →
  let intent := ge_intent body in
  let s' := (evaluate_and_execute registry rd rid body identity s).2 in
  gw_world s' = gw_world s ∨
  ∃ reg args d ap s1 res g',
    ToolIntent_ok intent = true ∧ vi_kind identity = KindAgent ∧
    vi_tenant_id identity = in_tenant_id intent ∧
    registry_get registry (in_tool_name intent) = Some reg ∧
    validate_arguments intent = Ok args ∧
    decide_policy rd identity body reg (_semantic_input_hash intent) s = (Ok (d, ap), s1) ∧
    pd_effect d = ALLOW ∧
    gov_reserve_execution intent d ap (_semantic_input_hash intent) (rd_reserved_at rd)
      (gw_governance s1) = (Ok res, g') ∧
    re_replayed res = false ∧
    gw_world s' = (execute intent reg args rid (gw_world s)).2.
Proof.
  intros Hinv. cbn zeta.
  remember (gw_world (evaluate_and_execute registry rd rid body identity s).2) as w eqn:Ew.
  revert Ew. unfold evaluate_and_execute. set (intent := ge_intent body).
  set (h := _semantic_input_hash intent).
  destruct (ToolIntent_ok intent && _) eqn:Hok; [apply andb_prop in Hok as [Hok _]|by intros ->; left].
  rewrite (bind_run _ _ s tt s) by done.
  destruct (decide (vi_kind identity = KindAgent)) as [Hk|Hk];
    [rewrite (bool_decide_eq_true_2 _ Hk)|rewrite (bool_decide_eq_false_2 _ Hk); by intros ->; left].
  rewrite (bind_run _ _ s tt s) by done.
  destruct (decide (vi_tenant_id identity = in_tenant_id intent)) as [Ht|Ht];
    [rewrite (bool_decide_eq_true_2 _ Ht)|rewrite (bool_decide_eq_false_2 _ Ht); by intros ->; left].
  rewrite (bind_run _ _ s tt s) by done. cbn zeta.
  destruct (registry_get registry _) as [reg|] eqn:Hreg; [|intros ->; left; apply keeps_refuse].
  destruct (validate_arguments intent) as [args|e] eqn:Hargs; last first.
  { intros ->. left. destruct e as [| | | | | |e'| | | | | | |]; try done. destruct e'; try done.
    apply keeps_refuse. }
  pose proof (keeps_decide_policy rd identity body reg h s) as Hw.
  unfold mbind at 1, M_bind at 1.
  destruct (decide_policy rd identity body reg h s) as [[[d ap]|e] s1] eqn:Hdec; [|intros ->; by left].
  simpl in Hw. destruct (bool_decide (pd_effect d = REQUIRE_APPROVAL)); [by intros ->; left|].
  destruct (decide (pd_effect d = ALLOW)) as [Ha|Ha];
    [rewrite (bool_decide_eq_true_2 _ Ha)|rewrite (bool_decide_eq_false_2 _ Ha); by intros ->; left].
  cbn [negb].
  assert (∀ o (s2 : state), gw_world ((match o with
    | inl replayed => mret replayed
    | inr (reservation, answer) => conclude rd identity intent d h reservation answer
    end : call state GatewayExecutionResult) s2).2 = gw_world s2) as Hrest.
  { intros [rep|[res' ans]] s2; [done|apply keeps_conclude]. }
  unfold mbind, M_bind. intros ->.
  destruct (with_quota_world (in_tenant_id intent) (in_tool_name intent)
    (attempt rd identity intent reg args d ap h rid) s1) as [Hq|(s2 & Hw2 & Hg2 & Hq)].
  - left. destruct (with_quota _ _ _ s1) as [[o|e] s3];
        (transitivity (gw_world s3); [first [exact (Hrest o s3)|reflexivity]|cbn [snd] in Hq; congruence]).
  - destruct (attempt_world rd identity intent reg args d ap h rid s2) as
      [Hsame|(res & g' & Hres & Hrep & Hex)].
    + left. destruct (with_quota _ _ _ s1) as [[o|e] s3];
        (transitivity (gw_world s3); [first [exact (Hrest o s3)|reflexivity]|cbn [snd] in Hq; congruence]).
    + right. exists reg, args, d, ap, s1, res, g'. rewrite <-Hg2.
      split_and!; try done. rewrite <-Hw, <-Hw2.
      destruct (with_quota _ _ _ s1) as [[o|e] s3];
        (transitivity (gw_world s3); [first [exact (Hrest o s3)|reflexivity]|cbn [snd] in Hq; congruence]).
Qed.
End Frames.

(** * Concurrent requests and the quota

    Requests of an event loop interleave between entering and leaving the quota;
    [holders] lists the slots that are taken. *)

Inductive quota_step : ToolQuotaManager * list (string * string) →
    ToolQuotaManager * list (string * string) → Prop :=
| step_enter t n q q' holders :
    quota_enter t n q = (Ok tt, q') → quota_step (q, holders) (q', (t, n) :: holders)
| step_refuse t n q q' e holders :
    quota_enter t n q = (Err e, q') → quota_step (q, holders) (q', holders)
| step_leave t n q before after :
    quota_step (q, before ++ (t, n) :: after) (quota_leave t n q, before ++ after).

Definition holding (key : string * string) (holders : list (string * string)) : Z :=
  Z.of_nat (length (filter (λ k, k = key) holders)).

Lemma holding_app key before t n after :
  holding key (before ++ (t, n) :: after) =
    holding key (before ++ after) + (if bool_decide ((t, n) = key) then 1 else 0).
Proof.
  unfold holding. rewrite !filter_app, !length_app, filter_cons.
  case_bool_decide; destruct (decide _); try done; simpl; lia.
Qed.

(** The manager counts the holders of every key. *)
Definition counts (m : Z) (st : ToolQuotaManager * list (string * string)) : Prop :=
  quota_inv st.1 ∧ st.1.(_maximum) = m ∧ ∀ key, active_count st.1 key = holding key st.2.

Lemma quota_step_counts m st st' : counts m st → quota_step st st' → counts m st'.
Proof.
  intros (Hinv & Hm & Hcount) Hstep.
  destruct Hstep as [t n q q' h He|t n q q' e h He|t n q before after]; simpl in *.
  - destruct (quota_enter_inv t n q q' Hinv He) as (Hinv' & Hk & Hne). split; [done|]. split.
    { rewrite quota_enter_run in He by done. destruct (_ <=? _); [done|]. by injection He as <-. }
    intros key. pose proof (holding_app key [] t n h) as Hh. simpl in Hh |- *. rewrite Hh, <-Hcount.
    case_bool_decide as Hd; [by rewrite <-Hd, Hk|]. rewrite Hne by done. lia.
  - rewrite quota_enter_run in He by done. destruct (_ <=? _); [|done]. injection He as _ <-. done.
  - pose proof (Hcount (t, n)) as Hpos. rewrite holding_app in Hpos.
    rewrite bool_decide_eq_true_2 in Hpos by done.
    assert (0 <= holding (t, n) (before ++ after)) by (unfold holding; lia).
    destruct (quota_leave_inv t n q Hinv) as (Hinv' & Hk & Hne); [lia|].
    split; [done|]. split; [done|]. intros key. simpl.
    specialize (Hcount key). rewrite holding_app in Hcount.
    case_bool_decide as Hd; [subst key; lia|]. rewrite Hne by done. lia.
Qed.

(** * Properties *)

Module GatewayProperties.
Section Laws.
Context `{Platform} {G R W : Type} `{GovernanceRepository G, !GovernanceLaws G}
  `{RepositoryLaws R} `{ToolExecutor W} `{ApprovalCallbackNotifier W}.

(** C1. A tool runs only when it may.  Evaluate-and-execute either leaves the outside
    world untouched, or makes exactly one executor call, for an intent that is
    authorized - live agent of the tenant, executing change, exact plan step,
    registered tool and scope - against the stored change and plan; and if the
    step or the tool demands approval, the stored approval request is approved
    by an eligible person other than the agent for exactly this plan and step, and
    is still current when the execution is reserved. *)
Theorem tool_call_authorized registry rd rid body identity (s : GatewayState G R W) :
  repo_inv (gw_changes s) →
  let intent := ge_intent body in let t := in_tenant_id intent in
  let s' := (evaluate_and_execute registry rd rid body identity s).2 in
  gw_world s' = gw_world s ∨
  ∃ reg args change plan step ap,
    registry_get registry (in_tool_name intent) = Some reg ∧
    validate_arguments intent = Ok args ∧
    gw_world s' = (execute intent reg args rid (gw_world s)).2 ∧
    view_change (gw_changes s) t (in_change_id intent) = Some change ∧
    gov_plan (gw_governance s) t (in_change_id intent) (in_plan_id intent) = Some plan ∧
    authorized identity intent change plan reg ap (rd_evaluated_at rd) step ∧
    (step.(st_requires_approval) || reg.(tr_mutating) = true →
     ∃ a r, ap = Some a ∧ gov_approval (gw_governance s) t a.(ap_approval_id) = Some r ∧
       r.(ar_status) = RequestApproved ∧ as_approval r = Ok (Some a) ∧
       current_approval a intent change plan (rd_evaluated_at rd) ∧
       rd_reserved_at rd < a.(ap_expires_at)).
Proof.
  intros Hinv intent t s'.
  destruct (evaluate_and_execute_world registry rd rid body identity s Hinv) as [Hw|Hw];
    [by left|right].
  destruct Hw as (reg & args & d & ap & s1 & res & g' & _ & _ & Ht & Hreg & Hargs & Hdec & Ha &
    Hres & _ & Hex).
  destruct (decide_policy_ok rd identity body reg _ s s1 d ap Hinv Hdec)
    as (Hf & change & plan & _ & Hch & Hpl & Hev & _).
  destruct (evaluate_allow _ _ _ _ _ _ _ _ d Hev Ha) as (Hreq & step & Hauth).
  rewrite Ht in Hch, Hpl. exists reg, args, change, plan, step, ap. split_and!; try done.
  intros Hneed. destruct (au_approval _ _ _ _ _ _ _ _ Hauth Hneed) as (a & -> & Hcur).
  assert (pd_approval_required d = true) as Hd.
  { rewrite Hreq. unfold needs_approval. by rewrite (proj1 (au_step _ _ _ _ _ _ _ _ Hauth)). }
  destruct (gov_reserve_law _ _ _ _ _ _ _ _ Hres Hd) as (a' & r & [= <-] & Hr & ? & ? & ? & _ & _).
  rewrite (frame_approval _ _ Hf) in Hr. by exists a, r.
Qed.

(** C33. Denials are audited.  When the policy does not allow an intent, the request fails
    with [APPROVAL_REQUIRED] (409) or [POLICY_DENIED] (403), nothing but the audit
    trail changes, and a rejected audit event that carries the decision is stored. *)
Theorem denial_audited registry rd rid body identity reg args d ap (s s1 : GatewayState G R W) :
  let intent := ge_intent body in
  repo_inv (gw_changes s) → ToolIntent_ok intent = true →
  opt_ok nonempty_str (ge_approval_id body) = true →
  vi_kind identity = KindAgent → vi_tenant_id identity = in_tenant_id intent →
  registry_get registry (in_tool_name intent) = Some reg → validate_arguments intent = Ok args →
  decide_policy rd identity body reg (_semantic_input_hash intent) s = (Ok (d, ap), s1) →
  pd_effect d ≠ ALLOW →
  evaluate_and_execute registry rd rid body identity s =
    (Err (EGateway (if bool_decide (pd_effect d = REQUIRE_APPROVAL) then ApprovalRequiredError
                    else PolicyDeniedError)), s1) ∧
  frame s s1 ∧
  ∃ ev, gov_audit_event (gw_governance s1) (in_tenant_id intent)
          ("audit_" +:+ rd_policy_audit rd) = Some ev ∧
        ev.(au_status) = AuditRejected ∧ ev.(au_decision_id) = Some d.(pd_decision_id).
Proof.
  cbn zeta. intros Hinv Hok Hap Hk Ht Hreg Hargs Hdec Ha.
  destruct (decide_policy_ok rd identity body reg _ s s1 d ap Hinv Hdec)
    as (Hf & _ & _ & ev & _ & _ & _ & Hev & Hid & Hst).
  rewrite bool_decide_eq_false_2 in Hst by done. split; [|split; [done|by exists ev]].
  unfold evaluate_and_execute. rewrite Hok, Hap. rewrite (bind_run _ _ s tt s) by done.
  rewrite (bool_decide_eq_true_2 _ Hk), (bind_run _ _ s tt s) by done.
  rewrite (bool_decide_eq_true_2 _ Ht), (bind_run _ _ s tt s) by done. cbn zeta.
  rewrite Hreg, Hargs, (bind_run _ _ _ _ _ Hdec). case_bool_decide; [done|].
  by rewrite (bool_decide_eq_false_2 _ Ha).
Qed.
End Laws.

(** C34. The quota holds under interleaving.  However requests enter and leave, the
    manager counts exactly the slots that are taken, at most [m] requests hold a
    slot of one tenant's tool, and a request is refused exactly when [m] do. *)
Theorem quota_bounded m q q' holders :
  make_quota m = Ok q → rtc quota_step (q, []) (q', holders) →
  (∀ key, active_count q' key = holding key holders ∧ holding key holders <= m) ∧
  (∀ t n, is_ok (quota_enter t n q').1 = false ↔ holding (t, n) holders = m).
Proof.
  unfold make_quota. destruct (Z.ltb_spec m 1); [done|]. intros [= <-] Hsteps.
  assert (counts m (q', holders)) as (Hinv & Hm & Hcount).
  { revert Hsteps. generalize (q', holders). intros st Hsteps.
    assert (counts m (mkQuota m ∅, [])) as Hinit.
    { split; [|split; [done|]]; simpl; [split; [done|]|]; intros key;
        [intros n|]; simpl; unfold active_count; simpl; by rewrite lookup_empty. }
    clear q' holders. induction Hsteps as [|x y z Hstep _ IH]; [done|].
    apply IH. by eapply quota_step_counts. }
  simpl in *.
  assert (∀ key, active_count q' key <= m) as Hle.
  { intros key. unfold active_count. destruct (q'.(_active) !! key) as [k|] eqn:Hk; simpl; [|lia].
    destruct Hinv as [_ Hq]. pose proof (Hq _ _ Hk). lia. }
  split; [intros key; rewrite <-Hcount; by split|]. intros t n. rewrite quota_enter_run by done.
  specialize (Hle (t, n)). rewrite <-Hcount, Hm.
  destruct (Z.leb_spec m (active_count q' (t, n))); simpl; split; intros; try done; lia.
Qed.

(** ** A demonstration gateway

    The outside world is the list of requests sent; the sandbox answers every patch
    with what it was asked to do. *)

Definition demo_post (r : HttpRequest) (w : list HttpRequest) : HttpAnswer * list HttpRequest :=
  (Response 200 (Some (JObj [
     ("system_id", JStr "crm"); ("field_name", JStr "customer_identifier");
     ("before", default JNull (jget "old_field" r.(hr_json)));
     ("after", default JNull (jget "new_field" r.(hr_json)));
     ("idempotency_key", default JNull (jget "idempotency_key" r.(hr_json)));
     ("configuration_hash", JStr (sha256_digest JNull)); ("replayed", JBool false)])), w ++ [r]).
Definition demo_auth (url : string) : option (list (string * string)) := Some [].

#[export] Instance demo_executor : ToolExecutor (list HttpRequest) := {
  validate_arguments := http_validate_arguments;
  execute := http_execute demo_post demo_auth (λ service, "http://" +:+ service);
}.
#[export] Instance demo_notifier : ApprovalCallbackNotifier (list HttpRequest) := {
  notify := http_notify demo_post demo_auth "http://coordinator/callbacks" "secret";
}.

Abbreviation demo_gateway :=
  (GatewayState InMemoryGovernanceRepository InMemoryChangeStateRepository (list HttpRequest)).

Definition demo_changes : InMemoryChangeStateRepository :=
  (Memory.add_with_audit PolicyProperties.executing_change (demo_audit "audit-1" 5000)
     Memory.empty).2.
Lemma demo_changes_inv : MemoryInv.inv demo_changes.
Proof.
  apply (MemoryHistory.run_op_inv (MemoryHistory.AddWithAudit PolicyProperties.executing_change _)).
  apply MemoryInv.empty_inv.
Qed.

Definition demo_state : demo_gateway :=
  mkGatewayState (GovHistory.run_ops GovernanceProperties.granted Gov.empty) demo_changes
    (mkQuota 4 ∅) [].
Definition demo_registry : ToolRegistry := from_option id ∅
  (match build_default_tool_registry with Ok r => Some r | Err _ => None end).
Definition demo_readings : Readings := mkReadings 10000 10100 10200 "d1" "a1" "a2".
Definition demo_body (approval : option string) : GatewayExecutionRequest :=
  mkGatewayExecutionRequest PolicyProperties.crm_intent approval.

Lemma tool_call_authorized_witness :
  length (gw_world (evaluate_and_execute demo_registry demo_readings "req-1"
    (demo_body (Some "apr-1")) PolicyProperties.crm_identity demo_state).2) = 1%nat ∧
  ∃ change, view_change demo_changes "acme" "chg-1" = Some change.
Proof.
  assert (length (gw_world (evaluate_and_execute demo_registry demo_readings "req-1"
    (demo_body (Some "apr-1")) PolicyProperties.crm_identity demo_state).2) = 1%nat) as Hlen
    by (vm_compute; reflexivity).
  split; [exact Hlen|].
  destruct (tool_call_authorized demo_registry demo_readings "req-1" (demo_body (Some "apr-1"))
    PolicyProperties.crm_identity demo_state) as [Hw|Hw].
  - exact demo_changes_inv.
  - rewrite Hw in Hlen. discriminate Hlen.
  - destruct Hw as (reg & args & change & plan & step & ap & _ & _ & _ & Hch & _).
    exists change. exact Hch.
Defined.

Lemma denial_audited_witness :
  ∃ d s1, decide_policy demo_readings PolicyProperties.crm_identity (demo_body None)
      PolicyProperties.crm_tool (_semantic_input_hash PolicyProperties.crm_intent) demo_state =
      (Ok (d, None), s1) ∧
    (evaluate_and_execute demo_registry demo_readings "req-1" (demo_body None)
       PolicyProperties.crm_identity demo_state).1 = Err (EGateway ApprovalRequiredError).
Proof.
  assert ((λ x, (pd_effect x.1, is_none x.2)) <$> (decide_policy demo_readings
    PolicyProperties.crm_identity (demo_body None)
    PolicyProperties.crm_tool (_semantic_input_hash PolicyProperties.crm_intent) demo_state).1 =
    Ok (REQUIRE_APPROVAL, true)) as E by (vm_compute; reflexivity).
  destruct (decide_policy _ _ _ _ _ demo_state) as [[[d ap]|e] s1] eqn:Hdec; [|discriminate E].
  injection E as He Hap. destruct ap; [discriminate Hap|]. exists d, s1. split; [reflexivity|].
  destruct (denial_audited demo_registry demo_readings "req-1" (demo_body None)
    PolicyProperties.crm_identity PolicyProperties.crm_tool
    (mkFieldPatchArguments "customer_id" "customer_uuid") d None demo_state s1) as [Hrun _].
  - exact demo_changes_inv.
  - vm_compute. reflexivity.
  - reflexivity.
  - reflexivity.
  - reflexivity.
  - vm_compute. reflexivity.
  - vm_compute. reflexivity.
  - exact Hdec.
  - rewrite He. discriminate.
  - rewrite Hrun, He. reflexivity.
Defined.

Lemma quota_bounded_witness :
  is_ok (quota_enter "acme" "crm.update_field_mapping"
    (mkQuota 1 {[("acme", "crm.update_field_mapping") := 1]})).1 = false.
Proof.
  apply (quota_bounded 1 (mkQuota 1 ∅) _ [("acme", "crm.update_field_mapping")]).
  - reflexivity.
  - apply rtc_once. apply step_enter. reflexivity.
  - vm_compute. reflexivity.
Defined.
End GatewayProperties.
