(* ===== verification/GatewayHistory.v ===== *)
(** Requests to the tool gateway as histories of the governance repository: every
    handler acts on the in-memory store by a sequence of its calls, so what holds of
    all histories holds of every state the gateway reaches. *)

From S2P Require Import Prelude Json Contracts Errors Persistence Samples StateMachine Policy Governance GovernanceFacts Gateway GatewayFacts.

Import GovHistory GovApprovals.

Section History.
Context `{Platform} {R W : Type} `{RepositoryLaws R} `{ToolExecutor W}
  `{ApprovalCallbackNotifier W}.
Abbreviation state := (GatewayState InMemoryGovernanceRepository R W).

(** A computation that acts on the governance store by proper repository calls. *)
Definition governed {A} (m : call state A) : Prop := ∀ s,
  ∃ ops, Forall proper_op ops ∧ gw_governance (m s).2 = run_ops ops (gw_governance s).

Lemma run_ops_app ops ops' s : run_ops (ops ++ ops') s = run_ops ops' (run_ops ops s).
Proof. unfold run_ops. by rewrite foldl_app. Qed.

Lemma governed_bind {A B} (m : call state A) (f : A → call state B) :
  governed m → (∀ a, governed (f a)) → governed (mbind f m).
Proof.
  intros Hm Hf s. destruct (Hm s) as (ops & Hp & Hops). unfold mbind, M_bind.
  destruct (m s) as [[a|e] s1]; simpl in Hops; [|by exists ops].
  destruct (Hf a s1) as (ops' & Hp' & Hops'). exists (ops ++ ops').
  split; [by apply Forall_app|]. by rewrite run_ops_app, Hops', Hops.
Qed.

(** A guard that raised lets nothing follow. *)
Lemma governed_guard {B} (b : bool) (e : exn) (f : unit → call state B) :
  (b = false → governed (f tt)) → governed (mbind f (raise_if b e)).
Proof. intros Hf. destruct b; [by exists []|]. by apply Hf. Qed.

Lemma governed_catch {A} (m : call state A) h :
  governed m → (∀ e k, h e = Some k → governed k) → governed (catch m h).
Proof.
  intros Hm Hh s. destruct (Hm s) as (ops & Hp & Hops). unfold catch.
  destruct (m s) as [[a|e] s1]; simpl in Hops; [by exists ops|].
  destruct (h e) as [k|] eqn:He; [|by exists ops].
  destruct (Hh e k He s1) as (ops' & Hp' & Hops'). exists (ops ++ ops').
  split; [by apply Forall_app|]. by rewrite run_ops_app, Hops', Hops.
Qed.

Lemma governed_ret {A} (a : A) : governed (mret a).
Proof. by exists []. Qed.
Lemma governed_raise {A} (e : exn) : governed (A:=A) (raise e).
Proof. by exists []. Qed.
Lemma governed_of_result {A} (r : result exn A) : governed (of_result r).
Proof. by exists []. Qed.
Lemma governed_world {A} (m : call W A) : governed (world m).
Proof. intros s. exists []. split; [done|]. unfold world, zoom. by destruct (m _). Qed.
Lemma governed_changes {A} (m : call R A) : governed (changes m).
Proof. intros s. exists []. split; [done|]. unfold changes, zoom. by destruct (m _). Qed.

Lemma governed_op {A} (m : call InMemoryGovernanceRepository A) o :
  proper_op o → (∀ s, (m s).2 = run_op o s) → governed (governance m).
Proof.
  intros Hp Hm s. exists [o]. split; [by constructor|]. unfold governance, zoom.
  specialize (Hm (gw_governance s)). by destruct (m _).
Qed.
Lemma governed_read {A} (m : call InMemoryGovernanceRepository A) :
  (∀ s, (m s).2 = s) → governed (governance m).
Proof.
  intros Hm s. exists []. split; [done|]. unfold governance, zoom.
  specialize (Hm (gw_governance s)). by destruct (m _).
Qed.
Lemma governed_get_plan t c p : governed (governance (gov_get_plan t c p)).
Proof. apply governed_read. intros s. simpl. unfold Gov.get_plan. by destruct (_plans s !! _). Qed.
Lemma governed_get_approval t a : governed (governance (gov_get_approval_request t a)).
Proof. apply governed_read. intros s. simpl. by rewrite get_approval_run. Qed.
Lemma governed_audit ev : governed (governance (gov_record_audit ev)).
Proof. by apply (governed_op _ (Audit ev)). Qed.
Lemma governed_reserve i d a h n : governed (governance (gov_reserve_execution i d a h n)).
Proof. by apply (governed_op _ (Reserve i d a h n)). Qed.
Lemma governed_complete t c e o h n : governed (governance (gov_complete_execution t c e o h n)).
Proof. by apply (governed_op _ (Complete t c e o h n)). Qed.
Lemma governed_fail t c e k n : governed (governance (gov_fail_execution t c e k n)).
Proof. by apply (governed_op _ (Failed t c e k n)). Qed.
End History.

Create HintDb governed discriminated.
#[export] Hint Resolve governed_ret governed_raise governed_of_result governed_world
  governed_changes governed_get_plan governed_get_approval governed_audit governed_reserve
  governed_complete governed_fail : governed.

(** Follows the structure of a handler. *)
Ltac govern := repeat first
  [ progress auto with governed
  | apply governed_guard; intros ?
  | apply governed_bind; [|intros ?]
  | match goal with |- governed (match ?x with _ => _ end) => destruct x end ].

Section Handlers.
Context `{Platform} {R W : Type} `{RepositoryLaws R} `{ToolExecutor W}
  `{ApprovalCallbackNotifier W}.
Abbreviation state := (GatewayState InMemoryGovernanceRepository R W).

Lemma governed_audited ev : governed (R:=R) (W:=W) (audited ev).
Proof. unfold audited. govern. Qed.
#[local] Hint Resolve governed_audited : governed.

Lemma governed_create t u body identity :
  governed (R:=R) (W:=W) (create_approval t u body identity).
Proof.
  unfold create_approval. do 4 (apply governed_guard; intros _). cbn zeta.
  apply governed_bind; [auto with governed|]. intros change.
  do 2 (apply governed_guard; intros _).
  intros s. unfold mbind at 1, M_bind at 1, of_result, validated.
  destruct (ApprovalRequestRecord_ok _) eqn:Hok; [|by exists []].
  apply governed_bind; [|intros stored; govern].
  match type of Hok with ApprovalRequestRecord_ok ?r = true =>
    by apply (governed_op _ (Create r (ac_plan body))) end.
Qed.

Lemma governed_decide t u a body identity target :
  governed (R:=R) (W:=W) (decide_approval t u a body identity target).
Proof.
  unfold decide_approval. apply governed_guard. intros _. unfold _require_roles.
  apply governed_guard. intros [_ Hroles%negb_false_iff]%orb_false_iff.
  apply governed_bind; [|intros record; govern].
  apply (governed_op _ (Decide (vi_tenant_id identity) a target (ad_expected_version body)
    (vi_subject identity) (vi_roles identity) (ad_comment body) t)); [|done].
  apply intersects_true in Hroles as (role & Hin & Hr). exists role. split; [done|].
  rewrite !elem_of_cons, elem_of_nil in Hr. naive_solver.
Qed.

Lemma governed_attempt rd identity intent reg args d ap h rid :
  governed (R:=R) (W:=W) (attempt rd identity intent reg args d ap h rid).
Proof.
  unfold attempt. govern.
  apply governed_catch; [govern|]. intros e k Hk.
  destruct e as [| | | | | |e'| | | | | | |]; try done. destruct e'; simplify_eq. apply governed_ret.
Qed.

Lemma governed_quota {A} t n (m : call state A) : governed m → governed (with_quota t n m).
Proof.
  intros Hm s. unfold with_quota, quotas, zoom.
  destruct (quota_enter t n (gw_quota s)) as [[[]|e] q]; [|by exists []].
  specialize (Hm (mkGatewayState (gw_governance s) (gw_changes s) q (gw_world s))).
  by destruct (m _).
Qed.

Lemma governed_execute registry rd rid body identity :
  governed (R:=R) (W:=W) (evaluate_and_execute registry rd rid body identity).
Proof.
  unfold evaluate_and_execute. do 3 (apply governed_guard; intros _). cbn zeta.
  destruct (registry_get _ _) as [reg|]; [|unfold refuse; govern].
  destruct (validate_arguments _) as [args|e]; last first.
  { destruct e as [| | | | | |e'| | | | | | |]; try apply governed_raise.
    destruct e'; try apply governed_raise. unfold refuse. govern. }
  apply governed_bind.
  { unfold decide_policy. govern. }
  intros [d ap]. destruct (bool_decide _); [govern|]. destruct (negb _); [govern|].
  apply governed_bind; [apply governed_quota, governed_attempt|].
  intros [rep|[res ans]]; [govern|]. unfold conclude. govern.
Qed.

(** The requests that write, and the state after serving them in some order. *)
Inductive gateway_request :=
| CreateApproval (at_ : Z) (uuid : string) (body : ApprovalCreateRequest)
    (identity : VerifiedIdentity)
| DecideApproval (at_ : Z) (uuid approval_id : string) (body : ApprovalDecisionRequest)
    (identity : VerifiedIdentity) (target : ApprovalRequestStatus)
| ExecuteIntent (registry : ToolRegistry) (rd : Readings) (request_id : string)
    (body : GatewayExecutionRequest) (identity : VerifiedIdentity).

Definition serve_request (q : gateway_request) (s : state) : state :=
  match q with
  | CreateApproval t u b i => (create_approval t u b i s).2
  | DecideApproval t u a b i target => (decide_approval t u a b i target s).2
  | ExecuteIntent reg rd rid b i => (evaluate_and_execute reg rd rid b i s).2
  end.
Definition serve_requests (qs : list gateway_request) (s : state) : state :=
  foldl (λ s q, serve_request q s) s qs.

Lemma served_history qs (s : state) :
  ∃ ops, Forall proper_op ops ∧
    gw_governance (serve_requests qs s) = run_ops ops (gw_governance s).
Proof.
  revert s. induction qs as [|q qs IH]; intros s; [by exists []|]. simpl.
  assert (∃ ops, Forall proper_op ops ∧
    gw_governance (serve_request q s) = run_ops ops (gw_governance s)) as (ops & Hp & Hops).
  { destruct q as [t u b i|t u a b i target|reg rd rid b i]; simpl;
      [apply governed_create|apply governed_decide|apply governed_execute]. }
  destruct (IH (serve_request q s)) as (ops' & Hp' & Hops'). exists (ops ++ ops').
  split; [by apply Forall_app|]. by rewrite run_ops_app, Hops', Hops.
Qed.
End Handlers.

(** * Properties *)

Module GatewayHistoryProperties.
Import GatewayProperties.

(** C5. Separation of duties, end to end.  Whatever requests the gateway serves from an
    empty store - approvals created and decided, intents executed, by whatever
    identities - every approved or rejected approval request was decided by an
    identity with the approver or administrator role that is not the requester,
    before it expired, and later requests never change it. *)
Theorem gateway_separation_of_duties `{Platform} {R W : Type} `{RepositoryLaws R}
    `{ToolExecutor W} `{ApprovalCallbackNotifier W} (r0 : R) (q0 : ToolQuotaManager) (w0 : W)
    qs later t a r :
  let s := serve_requests qs (mkGatewayState Gov.empty r0 q0 w0) in
  (gw_governance s).(_approvals) !! (t, a) = Some r → r.(ar_status) ≠ RequestPending →
  (∃ b at_ role, r.(ar_decided_by) = Some b ∧ b ≠ r.(ar_requested_by) ∧
     r.(ar_decided_at) = Some at_ ∧ r.(ar_requested_at) <= at_ < r.(ar_expires_at) ∧
     role ∈ r.(ar_decided_by_roles) ∧ (role = APPROVER ∨ role = PLATFORM_ADMIN)) ∧
  (gw_governance (serve_requests later s)).(_approvals) !! (t, a) = Some r.
Proof.
  intros s Hr Hs. destruct (served_history qs (mkGatewayState Gov.empty r0 q0 w0))
    as (ops & Hp & Hops).
  destruct (served_history later s) as (ops' & _ & Hops'). rewrite Hops'.
  split; [|by apply decided_final]. unfold s in Hr. rewrite Hops in Hr.
  assert (lawful t a r) as Hl.
  { apply (lawful_ops ops Gov.empty Hp); [|exact Hr]. intros t' a' r'. simpl.
    by rewrite lookup_empty. }
  destruct (lawful_decision _ _ _ Hl Hs) as (b & at_ & ? & ? & ? & ? & role & ? & ?).
  by exists b, at_, role.
Qed.

Definition alice : VerifiedIdentity :=
  mkVerifiedIdentity "alice" "acme" KindUser [APPROVER] "tool-gateway" 7000 20000.
Definition coordinator : VerifiedIdentity :=
  mkVerifiedIdentity "workflow-coordinator" "acme" KindService [] "tool-gateway" 7000 20000.

(** The change while it waits for the approval of the demonstration plan. *)
Definition awaiting_change : ChangeRecord :=
  transitioned PolicyProperties.executing_change no_updates AWAITING_APPROVAL 9000 6.
Definition awaiting_changes : InMemoryChangeStateRepository :=
  (Memory.add_with_audit awaiting_change (demo_audit "audit-1" 5000) Memory.empty).2.

Definition approval_requests : list gateway_request := [
  CreateApproval 7000 "c1" {| ac_approval_id := "apr-1"; ac_plan := demo_plan;
    ac_environment := SANDBOX; ac_scope := ["s1"; "s2"; "s3"]; ac_expires_at := 30000 |}
    coordinator;
  DecideApproval 8000 "c2" "apr-1" (mkApprovalDecisionRequest 1 "reviewed") alice
    RequestApproved].

Lemma gateway_separation_of_duties_witness :
  ∃ r : ApprovalRequestRecord, r.(ar_status) = RequestApproved ∧
    ∃ b, r.(ar_decided_by) = Some b ∧ b ≠ r.(ar_requested_by).
Proof.
  assert (ar_status <$> (gw_governance (serve_requests approval_requests
    (mkGatewayState Gov.empty awaiting_changes (mkQuota 4 ∅) ([] : list HttpRequest)))).(_approvals)
    !! ("acme", "apr-1") = Some RequestApproved) as E by (vm_compute; reflexivity).
  destruct ((gw_governance (serve_requests approval_requests _)).(_approvals) !! _) as [r|] eqn:Hr;
    [|discriminate E].
  injection E as E. exists r. split; [exact E|].
  destruct (gateway_separation_of_duties awaiting_changes (mkQuota 4 ∅) ([] : list HttpRequest)
    approval_requests [] "acme" "apr-1" r Hr) as [(b & at_ & role & Hb & Hne & _) _].
  - rewrite E. discriminate.
  - exists b. split; [exact Hb|exact Hne].
Defined.
End GatewayHistoryProperties.
