(* ===== verification/Coroutine.v ===== *)
(** Asynchronous code.  An [async def] is a tree of awaited calls: each awaited
    call is one atomic step on the shared state, and what other coroutines do in
    between is up to the scheduler.  [gather] runs coroutines under every
    interleaving a scheduler can choose, and [spec] is the rely-guarantee logic
    the components' coroutines are proved in. *)

From S2P Require Import Prelude.

Inductive co (S E A : Type) : Type :=
| Done (r : result E A)
| Await (X : Type) (m : M S E X) (k : result E X → co S E A).
Arguments Done {S E A} r.
Arguments Await {S E A} X m k.

(** * The coroutine monad *)

Section Co.
Context {S E : Type}.

Fixpoint co_bind {A B} (f : A → co S E B) (c : co S E A) : co S E B :=
  match c with
  | Done (Ok a) => f a
  | Done (Err e) => Done (Err e)
  | Await X m k => Await X m (λ x, co_bind f (k x))
  end.

(** [await call]. *)
Definition perform {A} (m : M S E A) : co S E A := Await A m Done.
Definition throw {A} (e : E) : co S E A := Done (Err e).
Definition throw_if (b : bool) (e : E) : co S E unit := if b then throw e else Done (Ok tt).
Definition from_result {A} (r : result E A) : co S E A := Done r.

(** The outcome of a coroutine as a value, exceptions included. *)
Fixpoint settle {A} (c : co S E A) : co S E (result E A) :=
  match c with
  | Done r => Done (Ok r)
  | Await X m k => Await X m (λ x, settle (k x))
  end.

(** Running alone. *)
Fixpoint run {A} (c : co S E A) : M S E A := λ s,
  match c with
  | Done r => (r, s)
  | Await X m k => let '(x, s1) := m s in run (k x) s1
  end.
End Co.

#[export] Instance co_ret {S E} : MRet (co S E) := λ A a, Done (Ok a).
#[export] Instance co_mbind {S E} : MBind (co S E) := λ A B f c, co_bind f c.

Section TryGather.
Context {S E : Type}.

(** [try c except h]: [h] selects the exceptions it handles. *)
Definition co_catch {A} (c : co S E A) (h : E → option (co S E A)) : co S E A :=
  r ← settle c;
  match r with
  | Ok a => mret a
  | Err e => match h e with Some handler => handler | None => throw e end
  end.

(** Two coroutines, interleaved: while both have something to await,
    [turn] says whether the left one advances. *)
Context (turn : M S E bool).

Fixpoint par {A B} (c : co S E A) : co S E B → co S E (result E A * result E B) :=
  match c with
  | Done r => λ d, co_bind (λ r', Done (Ok (r, r'))) (settle d)
  | Await X m k =>
      fix right (d : co S E B) : co S E (result E A * result E B) :=
        match d with
        | Done r' => Await X m (λ x, co_bind (λ r, Done (Ok (r, r'))) (settle (k x)))
        | Await Y m' k' =>
            Await bool turn (λ t,
              if is_ok t && match t with Ok b => b | Err _ => false end
              then Await X m (λ x, par (k x) d)
              else Await Y m' (λ y, right (k' y)))
        end
  end.

(** [asyncio.gather] with [return_exceptions=True]: the outcomes in order. *)
Fixpoint gather_settled {A} (cs : list (co S E A)) : co S E (list (result E A)) :=
  match cs with
  | [] => mret []
  | c :: cs =>
      r ← par c (gather_settled cs);
      match r with
      | (x, Ok xs) => mret (x :: xs)
      | (_, Err e) => throw e
      end
  end.

Fixpoint errors_of {A} (rs : list (result E A)) : list E :=
  match rs with
  | [] => []
  | Err e :: rs => e :: errors_of rs
  | Ok _ :: rs => errors_of rs
  end.
Fixpoint values_of {A} (rs : list (result E A)) : list A :=
  match rs with
  | [] => []
  | Ok a :: rs => a :: values_of rs
  | Err _ :: rs => values_of rs
  end.

(** The exception [gather] raises is the first one in time; the scheduler
    chooses it among the exceptions. *)
Fixpoint raise_one {A} (e : E) (es : list E) : co S E A :=
  match es with
  | [] => throw e
  | e' :: es => Await bool turn (λ t, match t with Ok true => throw e | _ => raise_one e' es end)
  end.

(** [asyncio.gather]: the coroutines that did not raise run to their end. *)
Definition gather {A} (cs : list (co S E A)) : co S E (list A) :=
  rs ← gather_settled cs;
  match errors_of rs with
  | [] => mret (values_of rs)
  | e :: es => raise_one e es
  end.
End TryGather.

(** * Running *)

Section RunRules.
Context {S E : Type}.

Lemma run_ret {A} (a : A) (s : S) : run (E:=E) (mret a) s = (Ok a, s).
Proof. done. Qed.

Lemma run_perform {A} (m : M S E A) s : run (perform m) s = m s.
Proof. simpl. by destruct (m s). Qed.

Lemma run_bind {A B} (c : co S E A) (f : A → co S E B) s :
  run (mbind f c) s = match run c s with (Ok a, s1) => run (f a) s1 | (Err e, s1) => (Err e, s1) end.
Proof.
  unfold mbind, co_mbind. revert s.
  induction c as [[a|e]|X m k IH]; intros s; simpl; [done..|].
  destruct (m s) as [x s1]. apply IH.
Qed.

Lemma run_settle {A} (c : co S E A) s : run (settle c) s = (Ok (run c s).1, (run c s).2).
Proof.
  revert s. induction c as [r|X m k IH]; intros s; simpl; [done|].
  destruct (m s) as [x s1]. apply IH.
Qed.
End RunRules.

(** * Rely-guarantee specifications

    [G] bounds what one atomic step does to the shared state: it is what every
    coroutine guarantees and what every coroutine may assume of the others.
    [spec G c s Q]: started in [s], every step of [c] keeps [G] whatever the others
    do meanwhile, and its outcome satisfies [Q], in every later state. *)

Section Spec.
Context {S E : Type} (G : S → S → Prop) `{!PreOrder G}.

Fixpoint spec {A} (c : co S E A) (s : S) (Q : result E A → S → Prop) : Prop :=
  match c with
  | Done r => ∀ s', G s s' → Q r s'
  | Await X m k => ∀ s', G s s' → G s' (m s').2 ∧ spec (k (m s').1) (m s').2 Q
  end.

Lemma spec_later {A} (c : co S E A) s s' Q : G s s' → spec c s Q → spec c s' Q.
Proof. intros HG. destruct c; simpl; intros Hc t Ht; apply Hc; by etrans. Qed.

Lemma spec_mono {A} (c : co S E A) s (Q Q' : result E A → S → Prop) :
  spec c s Q → (∀ r s', G s s' → Q r s' → Q' r s') → spec c s Q'.
Proof.
  revert s. induction c as [r|X m k IH]; intros s; simpl; intros Hc HQ.
  - intros s' HG. auto.
  - intros s' HG. destruct (Hc s' HG) as [Hm Hk]. split; [done|].
    eapply IH; [done|]. intros r t Ht. apply HQ. etrans; [done|]. by etrans.
Qed.

Lemma spec_and {A} (c : co S E A) s Q Q' :
  spec c s Q → spec c s Q' → spec c s (λ r s', Q r s' ∧ Q' r s').
Proof.
  revert s. induction c as [r|X m k IH]; intros s; simpl; intros H1 H2 s' HG; [naive_solver|].
  destruct (H1 s' HG) as [Hm Hk], (H2 s' HG) as [_ Hk']. split; [done|]. by apply IH.
Qed.

Lemma spec_ret {A} (a : A) s (Q : result E A → S → Prop) :
  (∀ s', G s s' → Q (Ok a) s') → spec (mret a) s Q.
Proof. done. Qed.
Lemma spec_throw {A} (e : E) s (Q : result E A → S → Prop) :
  (∀ s', G s s' → Q (Err e) s') → spec (throw e) s Q.
Proof. done. Qed.

Lemma spec_bind {A B} (c : co S E A) (f : A → co S E B) s (Q : result E B → S → Prop) :
  spec c s (λ r s', match r with Ok a => spec (f a) s' Q | Err e => Q (Err e) s' end) →
  spec (mbind f c) s Q.
Proof.
  unfold mbind, co_mbind. revert s.
  induction c as [[a|e]|X m k IH]; intros s; simpl; intros Hc.
  - by apply Hc.
  - done.
  - intros s' HG. destruct (Hc s' HG) as [Hm Hk]. split; [done|]. by apply IH.
Qed.

Lemma spec_perform {A} (m : M S E A) s (Q : result E A → S → Prop) :
  (∀ s', G s s' → G s' (m s').2 ∧ ∀ s2, G (m s').2 s2 → Q (m s').1 s2) → spec (perform m) s Q.
Proof. done. Qed.

Lemma spec_settle {A} (c : co S E A) s (Q : result E (result E A) → S → Prop) :
  spec c s (λ r, Q (Ok r)) → spec (settle c) s Q.
Proof.
  revert s. induction c as [r|X m k IH]; intros s; simpl; intros Hc; [done|].
  intros s' HG. destruct (Hc s' HG) as [Hm Hk]. split; [done|]. by apply IH.
Qed.

Lemma spec_stable {A} (c : co S E A) s Q :
  spec c s Q → spec c s (λ r s', ∀ s2, G s' s2 → Q r s2).
Proof.
  revert s. induction c as [r|X m k IH]; intros s; simpl; intros Hc s' HG.
  - intros s2 HG2. apply Hc. by etrans.
  - destruct (Hc s' HG) as [Hm Hk]. split; [done|]. by apply IH.
Qed.

Lemma spec_catch {A} (c : co S E A) h s (Q : result E A → S → Prop) :
  spec c s (λ r s', match r with
    | Ok a => Q (Ok a) s'
    | Err e => match h e with Some handler => spec handler s' Q | None => Q (Err e) s' end end) →
  spec (co_catch c h) s Q.
Proof.
  intros Hc. unfold co_catch. apply spec_bind, spec_settle.
  eapply spec_mono; [exact (spec_stable _ _ _ Hc)|].
  intros [a|e] s' _ HQ; [done|].
  pose proof (HQ s' ltac:(reflexivity)) as HQ'. destruct (h e) as [handler|]; done.
Qed.

Lemma spec_true {A} (c : co S E A) s Q : spec c s Q → spec c s (λ _ _, True).
Proof. intros Hc. by eapply spec_mono. Qed.

(** A run alone is one of the interleavings. *)
Lemma spec_run {A} (c : co S E A) s Q :
  spec c s Q → G s (run c s).2 ∧ Q (run c s).1 (run c s).2.
Proof.
  revert s. induction c as [r|X m k IH]; intros s; simpl; intros Hc; [split; [done|by apply Hc]|].
  destruct (Hc s ltac:(reflexivity)) as [Hm Hk]. destruct (m s) as [x s1]; simpl in *.
  destruct (IH _ _ Hk) as [HG HQ]. split; [by etrans|done].
Qed.

(** ** Concurrent composition *)

Context (turn : M S E bool) (Hturn : ∀ s, G s (turn s).2).

Lemma spec_par {A B} (c : co S E A) (d : co S E B) s Qa Qb :
  spec c s Qa → spec d s Qb →
  spec (par turn c d) s (λ r s', ∃ ra rb, r = Ok (ra, rb) ∧ Qa ra s' ∧ Qb rb s').
Proof.
  revert d s. induction c as [r|X m k IHc]; intros d s Hc Hd.
  - simpl. apply (spec_bind (settle d)). apply spec_settle.
    assert (∀ s', G s s' → Qa r s') as Hr by done.
    clear Hc. revert s Hd Hr. induction d as [r'|Y m' k' IHd]; intros s Hd Hr; simpl in *.
    + intros s' HG s2 HG2. exists r, r'. split_and!; [done| |]; [apply Hr|apply Hd]; by etrans.
    + intros s' HG. destruct (Hd s' HG) as [Hm Hk]. split; [done|]. apply IHd; [done|].
      intros s2 HG2. apply Hr. etrans; [done|]. by etrans.
  - revert s Hc Hd. induction d as [r'|Y m' k' IHd]; intros s Hc Hd; simpl.
    + intros s' HG. destruct (Hc s' HG) as [Hm Hk]. split; [done|].
      apply (spec_bind (settle _)). apply spec_settle.
      eapply spec_mono; [exact (spec_stable _ _ _ Hk)|].
      intros r s2 HG2 HQ s3 HG3. exists r, r'. split_and!; [done|by apply HQ|].
      apply Hd. etrans; [exact HG|]. etrans; [exact Hm|]. by etrans.
    + intros s' HG. split; [apply Hturn|].
      assert (G s (turn s').2) as Ht by (etrans; [exact HG|apply Hturn]).
      destruct (is_ok _ && _).
      * intros s2 HG2. assert (G s s2) as HG3 by by etrans.
        destruct (Hc s2 HG3) as [Hm Hk]. split; [done|]. apply IHc; [done|].
        eapply spec_later; [|exact Hd]. by etrans.
      * intros s2 HG2. assert (G s s2) as HG3 by by etrans.
        destruct (Hd s2 HG3) as [Hm Hk]. split; [done|].
        apply IHd; [|exact Hk]. eapply (spec_later (Await X m k)); [|exact Hc]. by etrans.
Qed.

Lemma spec_gather_settled {A} (Qs : list (result E A → S → Prop)) (cs : list (co S E A)) s :
  Forall2 (λ c Q, spec c s Q) cs Qs →
  spec (gather_settled turn cs) s (λ r s',
    ∃ rs, r = Ok rs ∧ Forall2 (λ r Q, Q r s') rs Qs).
Proof.
  intros Hcs. induction Hcs as [|c Q cs Qs Hc Hcs IH]; cbn [gather_settled].
  - apply spec_ret. intros s' _. by exists [].
  - apply spec_bind. eapply spec_mono; [exact (spec_stable _ _ _ (spec_par _ _ _ _ _ Hc IH))|].
    intros r s' _ HQ. destruct (HQ s' ltac:(reflexivity)) as (ra & rb & -> & _ & rs & -> & _).
    apply spec_ret. intros s2 HG2. destruct (HQ s2 HG2) as (? & ? & E0 & Ha & rs' & -> & Hrs).
    simplify_eq. eexists. split; [reflexivity|]. by constructor.
Qed.

Lemma spec_raise_one {A} (e : E) es s (Q : result E A → S → Prop) :
  (∀ e' s', e' ∈ e :: es → G s s' → Q (Err e') s') → spec (raise_one turn e es) s Q.
Proof.
  revert e s. induction es as [|e' es IH]; intros e s HQ; simpl.
  - intros s' HG. apply HQ; [by left|done].
  - intros s' HG. split; [apply Hturn|]. assert (G s (turn s').2) as HG1.
    { etrans; [exact HG|apply Hturn]. }
    assert (spec (raise_one turn e' es : co S E A) (turn s').2 Q) as Hother.
    { apply IH. intros e'' s2 Hin HG2. apply HQ; [by right|by etrans]. }
    destruct (turn s').1 as [[]|]; [|done..].
    intros s2 HG2. apply HQ; [by left|by etrans].
Qed.

(** If every coroutine meets its post-condition, [gather] returns values that meet
    them in order, or raises an exception one of them raises. *)
Lemma spec_gather {A} (Qs : list (result E A → S → Prop)) (cs : list (co S E A)) s :
  Forall2 (λ c Q, spec c s Q) cs Qs →
  spec (gather turn cs) s (λ r s', match r with
    | Ok vs => Forall2 (λ v Q, Q (Ok v) s') vs Qs
    | Err e => ∃ Q, Q ∈ Qs ∧ Q (Err e) s' end).
Proof.
  intros Hcs. unfold gather. apply spec_bind.
  eapply spec_mono; [exact (spec_stable _ _ _ (spec_gather_settled _ _ _ Hcs))|].
  intros r s' _ HQ. destruct (HQ s' ltac:(reflexivity)) as (rs & -> & _).
  assert (∀ s2, G s' s2 → Forall2 (λ r Q, Q r s2) rs Qs) as Hrs.
  { intros s2 HG. by destruct (HQ s2 HG) as (? & [= <-] & ?). }
  clear HQ. destruct (errors_of rs) as [|e es] eqn:He.
  - apply spec_ret. intros s2 HG. specialize (Hrs s2 HG). clear -He Hrs.
    induction Hrs as [|[a|e] Q rs Qs HQ Hrs IH]; simpl in *; [constructor| |done].
    constructor; [done|]. by apply IH.
  - apply spec_raise_one. rewrite <-He. intros e' s2 Hin HG. specialize (Hrs s2 HG).
    clear -Hin Hrs. induction Hrs as [|[a|x] Q rs Qs HQ Hrs IH]; simpl in *.
    + by apply elem_of_nil in Hin.
    + destruct (IH Hin) as (Q' & ? & ?). exists Q'. split; [by right|done].
    + apply elem_of_cons in Hin as [->|Hin]; [exists Q; split; [by left|done]|].
      destruct (IH Hin) as (Q' & ? & ?). exists Q'. split; [by right|done].
Qed.
End Spec.

(** ** Outcomes of the calls that return

    Most methods let exceptions through; [okspec] bounds the steps of a
    coroutine and describes the value it returns, if it returns. *)

Section OkSpec.
Context {S E : Type} (G : S → S → Prop) `{!PreOrder G}.

Definition okspec {A} (c : co S E A) (s : S) (P : A → S → Prop) : Prop :=
  spec G c s (λ r s', match r with Ok a => P a s' | Err _ => True end).

Lemma ok_later {A} (c : co S E A) s s' P : G s s' → okspec c s P → okspec c s' P.
Proof. apply spec_later, _. Qed.

Lemma ok_mono {A} (c : co S E A) s (P P' : A → S → Prop) :
  okspec c s P → (∀ a s', G s s' → P a s' → P' a s') → okspec c s P'.
Proof. intros Hc HP. eapply (spec_mono G); [exact Hc|]. intros [a|e] s' HG; auto. Qed.

Lemma ok_stable {A} (c : co S E A) s (P : A → S → Prop) :
  okspec c s P → okspec c s (λ a s', ∀ s2, G s' s2 → P a s2).
Proof.
  intros Hc. eapply (spec_mono G); [exact (spec_stable G _ _ _ Hc)|].
  intros [a|e] s' _ HQ; [exact HQ|done].
Qed.

Lemma ok_ret {A} (a : A) s (P : A → S → Prop) :
  (∀ s', G s s' → P a s') → okspec (mret a) s P.
Proof. done. Qed.

Lemma ok_throw {A} (e : E) s (P : A → S → Prop) : okspec (throw e) s P.
Proof. done. Qed.

Lemma ok_throw_if b (e : E) s (P : unit → S → Prop) :
  (b = false → ∀ s', G s s' → P tt s') → okspec (throw_if b e) s P.
Proof. destruct b; [done|]. intros HP s' HG. by apply HP. Qed.

Lemma ok_from_result {A} (r : result E A) s (P : A → S → Prop) :
  (∀ a, r = Ok a → ∀ s', G s s' → P a s') → okspec (from_result r) s P.
Proof. destruct r; [intros HP s' HG; by apply HP|done]. Qed.

Lemma ok_bind {A B} (c : co S E A) (f : A → co S E B) s (P : B → S → Prop) :
  okspec c s (λ a s', okspec (f a) s' P) → okspec (mbind f c) s P.
Proof. intros Hc. apply (spec_bind G). eapply (spec_mono G); [exact Hc|]. by intros [a|e]. Qed.

Lemma ok_perform {A} (m : M S E A) s (P : A → S → Prop) :
  (∀ s', G s s' → G s' (m s').2 ∧ ∀ a, (m s').1 = Ok a → ∀ s2, G (m s').2 s2 → P a s2) →
  okspec (perform m) s P.
Proof.
  intros Hm. apply (spec_perform G). intros s' HG. destruct (Hm s' HG) as [Hg HP].
  split; [done|]. intros s2 HG2. destruct (m s').1 as [a|]; [by apply HP|done].
Qed.

Lemma ok_settle {A} (c : co S E A) s (P : A → S → Prop) :
  okspec c s P →
  okspec (settle c) s (λ r s', match r with Ok a => P a s' | Err _ => True end).
Proof. intros Hc. apply (spec_settle G). exact Hc. Qed.

Lemma ok_catch {A} (c : co S E A) h s (P : A → S → Prop) :
  okspec c s P → (∀ e k s', G s s' → h e = Some k → okspec k s' P) →
  okspec (co_catch c h) s P.
Proof.
  intros Hc Hh. apply (spec_catch G). eapply (spec_mono G); [exact Hc|].
  intros [a|e] s' HG; [done|]. intros _. destruct (h e) as [k|] eqn:He; [|done]. by eapply Hh.
Qed.

Lemma ok_run {A} (c : co S E A) s (P : A → S → Prop) a s' :
  okspec c s P → run c s = (Ok a, s') → G s s' ∧ P a s'.
Proof. intros Hc Hr. pose proof (spec_run G c s _ Hc) as H. by rewrite Hr in H. Qed.

Lemma ok_keeps {A} (c : co S E A) s P : okspec c s P → G s (run c s).2.
Proof. intros Hc. apply (spec_run G c s _ Hc). Qed.

Context (turn : M S E bool) (Hturn : ∀ s, G s (turn s).2).

Lemma ok_gather_settled {A} (Ps : list (A → S → Prop)) (cs : list (co S E A)) s :
  Forall2 (λ c P, okspec c s P) cs Ps →
  okspec (gather_settled turn cs) s (λ rs s',
    Forall2 (λ r P, match r with Ok a => P a s' | Err _ => True end) rs Ps).
Proof.
  intros Hcs. eapply (spec_mono G).
  - apply (spec_gather_settled G turn Hturn
      ((λ P r s', match r with Ok a => P a s' | Err _ => True end) <$> Ps)).
    clear Hturn. induction Hcs; simpl; by constructor.
  - intros r s' _ (rs & -> & Hrs). by rewrite Forall2_fmap_r in Hrs.
Qed.

Lemma ok_gather {A} (Ps : list (A → S → Prop)) (cs : list (co S E A)) s :
  Forall2 (λ c P, okspec c s P) cs Ps →
  okspec (gather turn cs) s (λ vs s', Forall2 (λ v P, P v s') vs Ps).
Proof.
  intros Hcs. eapply (spec_mono G).
  - apply (spec_gather G turn Hturn
      ((λ P r s', match r with Ok a => P a s' | Err _ => True end) <$> Ps)).
    clear Hturn. induction Hcs; simpl; by constructor.
  - intros [vs|e] s' _ Hrs; [by rewrite Forall2_fmap_r in Hrs|done].
Qed.
(** The coroutines made from a list of inputs. *)
Lemma ok_gather_map {A B} (f : A → co S E B) (P : A → B → S → Prop) l s :
  (∀ x, x ∈ l → okspec (f x) s (P x)) →
  okspec (gather turn (f <$> l)) s (λ vs s', Forall2 (λ x v, P x v s') l vs).
Proof.
  intros Hf. eapply ok_mono; [apply (ok_gather (P <$> l))|].
  - apply Forall2_fmap, Forall_Forall2_diag. apply Forall_forall. exact Hf.
  - intros vs s' _ Hvs. rewrite Forall2_fmap_r in Hvs. apply Forall2_flip in Hvs.
    eapply Forall2_impl; [exact Hvs|]. done.
Qed.

Lemma ok_gather_settled_map {A B} (f : A → co S E B) (P : A → B → S → Prop) l s :
  (∀ x, x ∈ l → okspec (f x) s (P x)) →
  okspec (gather_settled turn (f <$> l)) s (λ rs s',
    Forall2 (λ x r, match r with Ok a => P x a s' | Err _ => True end) l rs).
Proof.
  intros Hf. eapply ok_mono; [apply (ok_gather_settled (P <$> l))|].
  - apply Forall2_fmap, Forall_Forall2_diag. apply Forall_forall. exact Hf.
  - intros rs s' _ Hrs. rewrite Forall2_fmap_r in Hrs. apply Forall2_flip in Hrs.
    eapply Forall2_impl; [exact Hrs|]. done.
Qed.
End OkSpec.

(** * A running process

    A process holds the coroutines it has accepted.  One step advances one of them
    by one awaited call, accepts another one, or loses one: a coroutine that is
    cancelled, or all of them one after the other when the process dies. *)

Section Process.
Context {S E A : Type} (accepts : co S E A → Prop).

Inductive process_step : S * list (co S E A) → S * list (co S E A) → Prop :=
| ProcessAdvance pool n X (m : M S E X) k s :
    pool !! n = Some (Await X m k) →
    process_step (s, pool) ((m s).2, <[n := k (m s).1]> pool)
| ProcessAccept pool c s : accepts c → process_step (s, pool) (s, c :: pool)
| ProcessLose pool n s : process_step (s, pool) (s, delete n pool).

(** If everything the process accepts keeps [G] when started in a state satisfying
    [I], which [G] preserves, so does the process. *)
Lemma process_keeps (G : S → S → Prop) `{!PreOrder G} (I : S → Prop) s0 s pool :
  (∀ s s', I s → G s s' → I s') →
  (∀ c s, accepts c → I s → spec G c s (λ _ _, True)) →
  I s0 → rtc process_step (s0, []) (s, pool) → G s0 s.
Proof.
  intros HI Hacc Hs0 Hsteps.
  assert (∀ x y, rtc process_step x y →
    G s0 x.1 ∧ Forall (λ c, spec G c x.1 (λ _ _, True)) x.2 →
    G s0 y.1 ∧ Forall (λ c, spec G c y.1 (λ _ _, True)) y.2) as Hinv.
  { clear Hsteps. intros x y Hxy. induction Hxy as [|x y z Hstep _ IH]; [done|].
    intros [HG Hpool]. apply IH. clear IH z. destruct Hstep as [pool' n X m k s' Hn|pool' c s' Hc|pool' n s'].
    - simpl in *. pose proof (Forall_lookup_1 _ _ _ _ Hpool Hn) as Hc.
      destruct (Hc s' ltac:(reflexivity)) as [Hm Hk]. split; [by etrans|].
      apply Forall_insert; [|done]. eapply Forall_impl; [exact Hpool|].
      intros c. by apply (spec_later G).
    - split; [done|]. constructor; [|done]. apply Hacc; [done|]. by eapply HI.
    - split; [done|]. by apply Forall_delete. }
  by apply (Hinv _ _ Hsteps); split; [|constructor].
Qed.

(** A coroutine of the process may run to its end undisturbed. *)
Lemma process_run c s pool :
  rtc process_step (s, c :: pool) ((run c s).2, Done (run c s).1 :: pool).
Proof.
  revert s. induction c as [r|X m k IH]; intros s; simpl; [reflexivity|].
  destruct (m s) as [x s1] eqn:Hm. eapply rtc_l; [|apply IH].
  replace s1 with (m s).2 by (by rewrite Hm). replace x with (m s).1 by (by rewrite Hm).
  exact (ProcessAdvance (Await X m k :: pool) 0 X m k s eq_refl).
Qed.

Lemma process_serves c s : accepts c → ∃ pool, rtc process_step (s, []) ((run c s).2, pool).
Proof. intros Hc. eexists. eapply rtc_l; [by apply ProcessAccept|apply process_run]. Qed.
End Process.

(** * Results for every answer

    [returns stuck c Q]: whatever the awaited calls answer, short of
    [stuck], the outcome of [c] satisfies [Q].  With [stuck] the exception of a
    loop whose fuel ran out, it shows that the fuel is enough. *)

Section Returns.
Context {S E : Type} (stuck : E).

Fixpoint returns {A} (c : co S E A) (Q : result E A → Prop) : Prop :=
  match c with
  | Done r => Q r
  | Await X m k => ∀ x, x ≠ Err stuck → returns (k x) Q
  end.

Lemma returns_mono {A} (c : co S E A) (Q Q' : result E A → Prop) :
  returns c Q → (∀ r, Q r → Q' r) → returns c Q'.
Proof. intros Hc HQ. induction c as [r|X m k IH]; simpl in *; auto. Qed.

Lemma returns_bind {A B} (c : co S E A) (f : A → co S E B) (Q : result E B → Prop) :
  returns c (λ r, match r with Ok a => returns (f a) Q | Err e => Q (Err e) end) →
  returns (mbind f c) Q.
Proof.
  unfold mbind, co_mbind. induction c as [[a|e]|X m k IH]; simpl; [done..|].
  intros Hc x Hx. by apply IH, Hc.
Qed.

Lemma returns_settle {A} (c : co S E A) (Q : result E (result E A) → Prop) :
  returns c (λ r, Q (Ok r)) → returns (settle c) Q.
Proof. induction c as [r|X m k IH]; simpl; [done|]. intros Hc x Hx. by apply IH, Hc. Qed.

Lemma returns_perform {A} (m : M S E A) (Q : result E A → Prop) :
  (∀ r, r ≠ Err stuck → Q r) → returns (perform m) Q.
Proof. done. Qed.

Context (turn : M S E bool).

Lemma returns_par {A B} (c : co S E A) (d : co S E B) Qa Qb :
  returns c Qa → returns d Qb →
  returns (par turn c d) (λ r, ∃ ra rb, r = Ok (ra, rb) ∧ Qa ra ∧ Qb rb).
Proof.
  revert d. induction c as [r|X m k IHc]; intros d Hc Hd.
  - simpl. apply (returns_bind (settle d)), returns_settle. simpl in Hc.
    eapply returns_mono; [exact Hd|]. intros r' Hr'. simpl. eauto.
  - induction d as [r'|Y m' k' IHd]; simpl.
    + intros x Hx. apply (returns_bind (settle _)), returns_settle.
      eapply returns_mono; [by apply Hc|]. intros r Hr. simpl. eauto.
    + intros t _. destruct (is_ok t && _).
      * intros x Hx. apply IHc; [by apply Hc|done].
      * intros y Hy. by apply IHd, Hd.
Qed.

Lemma returns_gather_settled {A} (Qs : list (result E A → Prop)) (cs : list (co S E A)) :
  Forall2 (λ c Q, returns c Q) cs Qs →
  returns (gather_settled turn cs) (λ r, ∃ rs, r = Ok rs ∧ Forall2 (λ r Q, Q r) rs Qs).
Proof.
  intros Hcs. induction Hcs as [|c Q cs Qs Hc Hcs IH]; cbn [gather_settled].
  - by exists [].
  - apply returns_bind. eapply returns_mono; [exact (returns_par _ _ _ _ Hc IH)|].
    intros r (ra & rb & -> & Ha & rs & -> & Hrs). exists (ra :: rs). by repeat constructor.
Qed.

Lemma returns_raise_one {A} (e : E) es (Q : result E A → Prop) :
  (∀ e', e' ∈ e :: es → Q (Err e')) → returns (raise_one turn e es) Q.
Proof.
  revert e. induction es as [|e' es IH]; intros e HQ; simpl; [apply HQ; by left|].
  assert (returns (raise_one turn e' es : co S E A) Q) as Hother.
  { apply IH. intros e'' Hin. apply HQ. by right. }
  intros [[]|] _; [|done..]. apply HQ. by left.
Qed.

Lemma returns_gather {A} (Qs : list (result E A → Prop)) (cs : list (co S E A)) :
  Forall2 (λ c Q, returns c Q) cs Qs →
  returns (gather turn cs) (λ r, match r with
    | Ok vs => Forall2 (λ v Q, Q (Ok v)) vs Qs
    | Err e => ∃ Q, Q ∈ Qs ∧ Q (Err e) end).
Proof.
  intros Hcs. unfold gather. apply returns_bind.
  eapply returns_mono; [exact (returns_gather_settled _ _ Hcs)|].
  intros r (rs & -> & Hrs). clear Hcs. destruct (errors_of rs) as [|e es] eqn:He.
  - simpl. induction Hrs as [|[a|e] Q rs Qs HQ Hrs IH]; simpl in *; [constructor| |done].
    constructor; [done|]. by apply IH.
  - apply returns_raise_one. rewrite <-He. intros e' Hin. clear He.
    induction Hrs as [|[a|x] Q rs Qs HQ Hrs IH]; simpl in *.
    + by apply elem_of_nil in Hin.
    + destruct (IH Hin) as (Q' & ? & ?). exists Q'. split; [by right|done].
    + apply elem_of_cons in Hin as [->|Hin]; [exists Q; split; [by left|done]|].
      destruct (IH Hin) as (Q' & ? & ?). exists Q'. split; [by right|done].
Qed.

(** ** Never [stuck]

    [total c Q]: the outcome is not [stuck], and a value satisfies [Q]. *)

Definition total {A} (c : co S E A) (Q : A → Prop) : Prop :=
  returns c (λ r, match r with Ok a => Q a | Err e => e ≠ stuck end).

Lemma total_mono {A} (c : co S E A) (Q Q' : A → Prop) :
  total c Q → (∀ a, Q a → Q' a) → total c Q'.
Proof. intros Hc HQ. eapply returns_mono; [exact Hc|]. intros [a|e]; auto. Qed.

Lemma total_true {A} (c : co S E A) Q : total c Q → total c (λ _, True).
Proof. intros Hc. by eapply total_mono. Qed.

Lemma total_ret {A} (a : A) (Q : A → Prop) : Q a → total (mret a) Q.
Proof. done. Qed.

Lemma total_throw {A} e (Q : A → Prop) : e ≠ stuck → total (throw e) Q.
Proof. done. Qed.

Lemma total_throw_if b e (Q : unit → Prop) :
  e ≠ stuck → (b = false → Q tt) → total (throw_if b e) Q.
Proof. by destruct b; [|intros _ HQ; apply HQ]. Qed.

Lemma total_from_result {A} (r : result E A) (Q : A → Prop) :
  match r with Ok a => Q a | Err e => e ≠ stuck end → total (from_result r) Q.
Proof. done. Qed.

Lemma total_bind {A B} (c : co S E A) (f : A → co S E B) (Q : A → Prop) (Q' : B → Prop) :
  total c Q → (∀ a, Q a → total (f a) Q') → total (mbind f c) Q'.
Proof.
  intros Hc Hf. apply returns_bind. eapply returns_mono; [exact Hc|].
  intros [a|e] HQ; [by apply Hf|exact HQ].
Qed.

(** The call's answer is arbitrary. *)
Lemma total_perform {A} (m : M S E A) : total (perform m) (λ _, True).
Proof. intros [a|e] Hr; [done|]. intros ->. by apply Hr. Qed.

Lemma total_perform_bind {A B} (m : M S E A) (f : A → co S E B) (Q : B → Prop) :
  (∀ a, total (f a) Q) → total (a ← perform m; f a) Q.
Proof. intros Hf. by eapply total_bind; [apply total_perform|]. Qed.

Lemma total_catch {A} (c : co S E A) (h : E → option (co S E A)) (Q : A → Prop) :
  total c Q → (∀ e handler, h e = Some handler → total handler Q) → total (co_catch c h) Q.
Proof.
  intros Hc Hh. apply returns_bind, returns_settle. eapply returns_mono; [exact Hc|].
  intros [a|e] HQ; [exact HQ|]. destruct (h e) as [handler|] eqn:E1; [by eapply Hh|exact HQ].
Qed.

Lemma total_gather_map {A B} (f : A → co S E B) (Q : A → B → Prop) l :
  (∀ x, x ∈ l → total (f x) (Q x)) → total (gather turn (f <$> l)) (λ vs, Forall2 Q l vs).
Proof.
  intros Hf. eapply returns_mono; [apply (returns_gather
    ((λ x r, match r with Ok a => Q x a | Err e => e ≠ stuck end) <$> l))|].
  - apply Forall2_fmap, Forall_Forall2_diag, Forall_forall. exact Hf.
  - intros [vs|e] Hr.
    + rewrite Forall2_fmap_r in Hr. by apply Forall2_flip in Hr.
    + destruct Hr as (P & HP & He). by apply list_elem_of_fmap in HP as (x & -> & _).
Qed.

Lemma total_gather_settled {A} (cs : list (co S E A)) :
  Forall (λ c, total c (λ _, True)) cs → total (gather_settled turn cs) (λ _, True).
Proof.
  intros Hcs. eapply returns_mono.
  - apply (returns_gather_settled ((λ _ r, match r with Ok _ => True | Err e => e ≠ stuck end) <$> cs)).
    rewrite Forall2_fmap_r. by apply Forall_Forall2_diag.
  - by intros r (rs & -> & _).
Qed.
End Returns.
