(* ===== verification/Workflow.v ===== *)
(** Durable workflow state of [services/workflow-coordinator]: the records and
    their lifecycle rules ([models.py]), the retry policy ([retry.py]) and the
    workflow repository with its in-memory adapter ([repository.py]).

    Every method of the adapter runs under one [RLock], so a method is one atomic
    step on the state. *)

From Stdlib Require Import QArith.
From S2P Require Import Prelude Json Contracts Errors Governance.
Open Scope Z_scope.

(** * Models *)

Inductive WorkflowRuntimeStatus :=
| RunReceived | RunAnalyzing | RunWaitingApproval | RunExecuting | RunVerifying | RunRollingBack
| RunCompleted | RunFailed | RunNeedsAttention | RunDeadLettered.
Inductive WorkflowTaskStatus :=
| TaskPending | TaskRunning | TaskSucceeded | TaskFailed | TaskRolledBack | TaskRollbackFailed.
(** [Literal["crm", "analytics", "support"]] *)
Inductive System := Crm | Analytics | Support.

#[export] Instance WorkflowRuntimeStatus_eq_dec : EqDecision WorkflowRuntimeStatus.
Proof. solve_decision. Defined.
#[export] Instance WorkflowTaskStatus_eq_dec : EqDecision WorkflowTaskStatus.
Proof. solve_decision. Defined.
#[export] Instance System_eq_dec : EqDecision System.
Proof. solve_decision. Defined.

Definition System_value (s : System) : string :=
  match s with Crm => "crm" | Analytics => "analytics" | Support => "support" end.
(** [system_id.upper()] *)
Definition System_upper (s : System) : string :=
  match s with Crm => "CRM" | Analytics => "ANALYTICS" | Support => "SUPPORT" end.

Record WorkflowTaskRecord := mkWorkflowTaskRecord {
  wt_step_id : NonEmptyStr;
  wt_system_id : System;
  wt_status : WorkflowTaskStatus;
  wt_attempt_count : Z;
  wt_snapshot_id : option NonEmptyStr;
  wt_snapshot_hash : option Sha256Digest;
  wt_execution_id : option NonEmptyStr;
  wt_output_hash : option Sha256Digest;
  wt_error_code : option NonEmptyStr;
  wt_updated_at : AwareDatetime }.
(** [validate_artifacts]. *)
Definition WorkflowTaskRecord_validate (x : WorkflowTaskRecord) : result string unit :=
  _ ← unless (bool_decide (is_none x.(wt_snapshot_id) = is_none x.(wt_snapshot_hash)))
        "snapshot identifier and hash must be stored together";
  _ ← unless (negb (bool_decide (x.(wt_status) = TaskSucceeded) &&
                    (is_none x.(wt_execution_id) || is_none x.(wt_output_hash))))
        "successful workflow tasks require execution evidence";
  unless (negb (mem x.(wt_status) [TaskFailed; TaskRollbackFailed] && is_none x.(wt_error_code)))
    "failed workflow tasks require an error code".
Definition WorkflowTaskRecord_ok (x : WorkflowTaskRecord) : bool :=
  nonempty_str x.(wt_step_id) && (0 <=? x.(wt_attempt_count)) &&
  opt_ok nonempty_str x.(wt_snapshot_id) && opt_ok sha256_str x.(wt_snapshot_hash) &&
  opt_ok nonempty_str x.(wt_execution_id) && opt_ok sha256_str x.(wt_output_hash) &&
  opt_ok nonempty_str x.(wt_error_code) && is_ok (WorkflowTaskRecord_validate x).

Record WorkflowExecutionRecord := mkWorkflowExecutionRecord {
  we_workflow_execution_id : NonEmptyStr;
  we_tenant_id : NonEmptyStr;
  we_change_id : NonEmptyStr;
  we_event_id : NonEmptyStr;
  we_trace_id : NonEmptyStr;
  we_event : ChangeEvent;
  we_status : WorkflowRuntimeStatus;
  we_delivery_attempts : Z;
  we_plan : option RemediationPlan;
  we_plan_hash : option Sha256Digest;
  we_approval_id : option NonEmptyStr;
  we_approval_expires_at : option AwareDatetime;
  we_tasks : list WorkflowTaskRecord;
  we_last_error_code : option NonEmptyStr;
  we_started_at : AwareDatetime;
  we_updated_at : AwareDatetime;
  we_completed_at : option AwareDatetime;
  we_version : Z }.

Definition terminal_runtime (s : WorkflowRuntimeStatus) : bool :=
  mem s [RunCompleted; RunFailed; RunNeedsAttention; RunDeadLettered].

Section Lifecycle.
Context `{Platform}.

(** [validate_lifecycle]. *)
Definition WorkflowExecutionRecord_validate (x : WorkflowExecutionRecord) : result string unit :=
  _ ← unless (bool_decide (x.(we_event).(ev_tenant_id) = x.(we_tenant_id)) &&
              bool_decide (x.(we_event).(ev_event_id) = x.(we_event_id)))
        "workflow event scope must match the workflow record";
  _ ← unless (x.(we_started_at) <=? x.(we_updated_at))
        "workflow updated_at cannot precede started_at";
  _ ← unless (bool_decide (is_none x.(we_plan) = is_none x.(we_plan_hash)))
        "workflow plan and hash must be stored together";
  _ ← match x.(we_plan) with
      | Some plan =>
          _ ← unless (bool_decide (plan.(pl_tenant_id) = x.(we_tenant_id)) &&
                      bool_decide (plan.(pl_change_id) = x.(we_change_id)) &&
                      bool_decide (Some (calculate_plan_hash plan) = x.(we_plan_hash)))
                "workflow plan scope or hash is invalid";
          let task_ids := wt_step_id <$> x.(we_tasks) in
          let step_ids := st_step_id <$> plan.(pl_steps) in
          unless (subset task_ids step_ids && subset step_ids task_ids)
            "workflow tasks must match every plan step"
      | None =>
          unless (bool_decide (x.(we_tasks) = [])) "workflow tasks cannot exist before a plan"
      end;
  unless (bool_decide (terminal_runtime x.(we_status) = negb (is_none x.(we_completed_at))))
    "terminal workflow status and completed_at must agree".
Definition WorkflowExecutionRecord_ok (x : WorkflowExecutionRecord) : bool :=
  nonempty_str x.(we_workflow_execution_id) && nonempty_str x.(we_tenant_id) &&
  nonempty_str x.(we_change_id) && nonempty_str x.(we_event_id) &&
  nonempty_str x.(we_trace_id) && ChangeEvent_ok x.(we_event) &&
  (1 <=? x.(we_delivery_attempts)) && opt_ok RemediationPlan_ok x.(we_plan) &&
  opt_ok sha256_str x.(we_plan_hash) && opt_ok nonempty_str x.(we_approval_id) &&
  tuple_ok 0 WorkflowTaskRecord_ok x.(we_tasks) && opt_ok nonempty_str x.(we_last_error_code) &&
  (1 <=? x.(we_version)) && is_ok (WorkflowExecutionRecord_validate x).
End Lifecycle.

Record ApprovalCallbackRequest := mkApprovalCallbackRequest {
  cb_tenant_id : NonEmptyStr;
  cb_change_id : NonEmptyStr;
  cb_approval_id : NonEmptyStr;
  cb_plan_hash : Sha256Digest;
  cb_plan_version : Z;
  cb_status : ApprovalRequestStatus;
  cb_decided_at : AwareDatetime }.
Definition ApprovalCallbackRequest_ok (x : ApprovalCallbackRequest) : bool :=
  nonempty_str x.(cb_tenant_id) && nonempty_str x.(cb_change_id) &&
  nonempty_str x.(cb_approval_id) && sha256_str x.(cb_plan_hash) && (1 <=? x.(cb_plan_version)) &&
  negb (bool_decide (x.(cb_status) = RequestPending)).

Record DeadLetterRecord := mkDeadLetterRecord {
  dl_dead_letter_id : NonEmptyStr;
  dl_tenant_id : NonEmptyStr;
  dl_event_id : NonEmptyStr;
  dl_workflow_execution_id : NonEmptyStr;
  dl_error_code : NonEmptyStr;
  dl_input_hash : Sha256Digest;
  dl_created_at : AwareDatetime }.
Definition DeadLetterRecord_ok (x : DeadLetterRecord) : bool :=
  nonempty_str x.(dl_dead_letter_id) && nonempty_str x.(dl_tenant_id) &&
  nonempty_str x.(dl_event_id) && nonempty_str x.(dl_workflow_execution_id) &&
  nonempty_str x.(dl_error_code) && sha256_str x.(dl_input_hash).

(** * Retries: [retry.py] *)

Record RetryPolicy := mkRetryPolicy {
  maximum_attempts : Z; base_delay_seconds : Q; maximum_delay_seconds : Q }.

Definition make_retry_policy (maximum_attempts : Z) (base_delay_seconds maximum_delay_seconds : Q)
  : result exn RetryPolicy :=
  if maximum_attempts <? 1 then Err (ValueError "maximum_attempts must be positive")
  else if Qle_bool base_delay_seconds 0 || Qle_bool maximum_delay_seconds 0
  then Err (ValueError "retry delays must be positive")
  else Ok (mkRetryPolicy maximum_attempts base_delay_seconds maximum_delay_seconds).

Definition should_retry (p : RetryPolicy) (transient : bool) (attempt : Z) : bool :=
  transient && (attempt <? p.(maximum_attempts)).

Definition qmin (a b : Q) : Q := if Qle_bool a b then a else b.
Definition qmax (a b : Q) : Q := if Qle_bool a b then b else a.

(** [delay]; [jitter] is the value the injected source returns. *)
Definition delay (p : RetryPolicy) (jitter : Q) (attempt : Z) : result exn Q :=
  if attempt <? 1 then Err (ValueError "attempt must be positive")
  else
    let exponential :=
      qmin p.(maximum_delay_seconds) (p.(base_delay_seconds) * inject_Z (2 ^ (attempt - 1))) in
    let jitter_factor := ((8 # 10) + qmax 0 (qmin 1 jitter) * (4 # 10))%Q in
    Ok (exponential * jitter_factor)%Q.

(** * The repository: [repository.py] *)

Class WorkflowRepository (V : Type) := {
  wf_create_or_get : WorkflowExecutionRecord → call V WorkflowExecutionRecord;
  wf_get : string → string → string → call V WorkflowExecutionRecord;
  wf_update : WorkflowExecutionRecord → Z → call V WorkflowExecutionRecord;
  wf_record_dead_letter : DeadLetterRecord → call V DeadLetterRecord;
  wf_list_dead_letters : string → Z → call V (list DeadLetterRecord);
}.

(** ** Its contract *)

Abbreviation wf_key := (string * string * string)%type.
Definition key_of (r : WorkflowExecutionRecord) : wf_key :=
  (r.(we_tenant_id), r.(we_change_id), r.(we_workflow_execution_id)).

Definition dead_letter_key (d : DeadLetterRecord) : Z * string :=
  (d.(dl_created_at), d.(dl_dead_letter_id)).

Definition workflow_error (e : WorkflowError) : exn := EWorkflow e.

Class WorkflowLaws (V : Type) `{WorkflowRepository V} := {
  wf_inv : V → Prop;
  wf_view : V → wf_key → option WorkflowExecutionRecord;
  dl_view : V → string → string → option DeadLetterRecord;

  wf_view_key s k r : wf_inv s → wf_view s k = Some r → key_of r = k;

  wf_get_law s t c w : wf_inv s →
    wf_get t c w s = (match wf_view s (t, c, w) with
      | Some r => Ok r | None => Err (workflow_error WorkflowNotFoundError) end, s);

  (** The first record with an identifier is kept. *)
  wf_create_law s r : wf_inv s →
    let s' := (wf_create_or_get r s).2 in
    let outcome := (wf_create_or_get r s).1 in
    match wf_view s (key_of r) with
    | Some existing => s' = s ∧ outcome =
        if bool_decide (existing.(we_event_id) = r.(we_event_id)) then Ok existing
        else Err (workflow_error (WorkflowConflictError "Workflow identifier collision."))
    | None => outcome = Ok r ∧ wf_inv s' ∧
        (∀ k, wf_view s' k = if bool_decide (k = key_of r) then Some r else wf_view s k) ∧
        (∀ t i, dl_view s' t i = dl_view s t i)
    end;

  (** An update replaces exactly the version it was computed from. *)
  wf_update_law s r v : wf_inv s →
    let s' := (wf_update r v s).2 in
    let outcome := (wf_update r v s).1 in
    match wf_view s (key_of r) with
    | None => s' = s ∧ outcome = Err (workflow_error WorkflowNotFoundError)
    | Some current =>
        if negb (current.(we_version) =? v) || negb (r.(we_version) =? v + 1)
        then s' = s ∧ outcome = Err (workflow_error stale_workflow)
        else outcome = Ok r ∧ wf_inv s' ∧
          (∀ k, wf_view s' k = if bool_decide (k = key_of r) then Some r else wf_view s k) ∧
          (∀ t i, dl_view s' t i = dl_view s t i)
    end;

  (** The first dead letter with an identifier is kept. *)
  wf_dead_letter_law s d : wf_inv s →
    let s' := (wf_record_dead_letter d s).2 in
    let outcome := (wf_record_dead_letter d s).1 in
    match dl_view s d.(dl_tenant_id) d.(dl_dead_letter_id) with
    | Some existing => s' = s ∧ outcome =
        if bool_decide (existing.(dl_input_hash) = d.(dl_input_hash)) then Ok existing
        else Err (workflow_error (WorkflowConflictError "Dead-letter identifier collision."))
    | None => outcome = Ok d ∧ wf_inv s' ∧ (∀ k, wf_view s' k = wf_view s k) ∧
        (∀ t i, dl_view s' t i =
           if bool_decide (t = d.(dl_tenant_id) ∧ i = d.(dl_dead_letter_id)) then Some d
           else dl_view s t i)
    end;

  dl_view_key s t i d : wf_inv s → dl_view s t i = Some d →
    d.(dl_tenant_id) = t ∧ d.(dl_dead_letter_id) = i;

  (** A tenant's dead letters, the latest first. *)
  wf_list_law s t n : wf_inv s → ∃ items, NoDup items ∧
    (∀ d, d ∈ items ↔ dl_view s t d.(dl_dead_letter_id) = Some d) ∧
    wf_list_dead_letters t n s = (Ok (slice_to n (sort_by_desc dead_letter_key items)), s);
}.

(** ** The in-memory adapter *)

Record InMemoryWorkflowRepository := mkWorkflowRepo {
  _workflows : gmap (string * string * string) WorkflowExecutionRecord;
  _dead_letters : gmap (string * string) DeadLetterRecord }.

Module Wf.
Abbreviation store := InMemoryWorkflowRepository.
Definition empty : store := mkWorkflowRepo ∅ ∅.

Definition create_or_get (record : WorkflowExecutionRecord) : call store WorkflowExecutionRecord :=
  λ s,
  let key := (record.(we_tenant_id), record.(we_change_id), record.(we_workflow_execution_id)) in
  match s.(_workflows) !! key with
  | Some existing =>
      if negb (bool_decide (existing.(we_event_id) = record.(we_event_id)))
      then (Err (workflow_error (WorkflowConflictError "Workflow identifier collision.")), s)
      else (Ok existing, s)
  | None => (Ok record, mkWorkflowRepo (<[key := record]> s.(_workflows)) s.(_dead_letters))
  end.

Definition get (tenant_id change_id workflow_execution_id : string)
  : call store WorkflowExecutionRecord := λ s,
  match s.(_workflows) !! (tenant_id, change_id, workflow_execution_id) with
  | Some record => (Ok record, s)
  | None => (Err (workflow_error WorkflowNotFoundError), s)
  end.

Definition update (record : WorkflowExecutionRecord) (expected_version : Z)
  : call store WorkflowExecutionRecord := λ s,
  let key := (record.(we_tenant_id), record.(we_change_id), record.(we_workflow_execution_id)) in
  match s.(_workflows) !! key with
  | None => (Err (workflow_error WorkflowNotFoundError), s)
  | Some current =>
      if negb (current.(we_version) =? expected_version) ||
         negb (record.(we_version) =? expected_version + 1)
      then (Err (workflow_error stale_workflow), s)
      else (Ok record, mkWorkflowRepo (<[key := record]> s.(_workflows)) s.(_dead_letters))
  end.

Definition record_dead_letter (record : DeadLetterRecord) : call store DeadLetterRecord := λ s,
  let key := (record.(dl_tenant_id), record.(dl_dead_letter_id)) in
  match s.(_dead_letters) !! key with
  | Some existing =>
      if negb (bool_decide (existing.(dl_input_hash) = record.(dl_input_hash)))
      then (Err (workflow_error (WorkflowConflictError "Dead-letter identifier collision.")), s)
      else (Ok existing, s)
  | None => (Ok record, mkWorkflowRepo s.(_workflows) (<[key := record]> s.(_dead_letters)))
  end.

Definition list_dead_letters (tenant_id : string) (limit : Z) : call store (list DeadLetterRecord) :=
  λ s,
  let items := (filter (λ kv, kv.1.1 = tenant_id) (map_to_list s.(_dead_letters))).*2 in
  (Ok (slice_to limit (sort_by_desc dead_letter_key items)), s).
End Wf.

#[export] Instance memory_workflows : WorkflowRepository InMemoryWorkflowRepository := {
  wf_create_or_get := Wf.create_or_get;
  wf_get := Wf.get;
  wf_update := Wf.update;
  wf_record_dead_letter := Wf.record_dead_letter;
  wf_list_dead_letters := Wf.list_dead_letters;
}.

(** The adapter keeps the contract; its invariant files every record under its own
    key. *)

Definition filed (s : InMemoryWorkflowRepository) : Prop :=
  (∀ k r, s.(_workflows) !! k = Some r → key_of r = k) ∧
  (∀ k d, s.(_dead_letters) !! k = Some d → (d.(dl_tenant_id), d.(dl_dead_letter_id)) = k).

Lemma filed_empty : filed Wf.empty.
Proof. split; intros k x; simpl; by rewrite lookup_empty. Qed.

Lemma filed_insert k r s :
  filed s → key_of r = k → filed (mkWorkflowRepo (<[k := r]> s.(_workflows)) s.(_dead_letters)).
Proof.
  intros [Hs Hd] Hk. split; [|done]. intros k' r'. simpl. rewrite lookup_insert.
  case_decide; [naive_solver|apply Hs].
Qed.

Lemma filed_dead_letter k d s :
  filed s → (d.(dl_tenant_id), d.(dl_dead_letter_id)) = k →
  filed (mkWorkflowRepo s.(_workflows) (<[k := d]> s.(_dead_letters))).
Proof.
  intros [Hs Hd] Hk. split; [done|]. intros k' d'. simpl. rewrite lookup_insert.
  case_decide; [naive_solver|apply Hd].
Qed.

#[export] Program Instance memory_workflow_laws : WorkflowLaws InMemoryWorkflowRepository := {|
  wf_inv := filed;
  wf_view s k := s.(_workflows) !! k;
  dl_view s t i := s.(_dead_letters) !! (t, i);
|}.
Next Obligation. intros s k r [Hs _]. apply Hs. Qed.
Next Obligation. intros s t c w _. simpl. unfold Wf.get. by destruct (_ !! _). Qed.
Next Obligation.
  intros s r Hs. simpl. unfold Wf.create_or_get.
  change (r.(we_tenant_id), r.(we_change_id), r.(we_workflow_execution_id)) with (key_of r).
  destruct (_workflows s !! key_of r) as [existing|].
  - by case_bool_decide.
  - simpl. split_and!; [done|by apply filed_insert| |done].
    intros k. rewrite lookup_insert. by case_decide; case_bool_decide.
Qed.
Next Obligation.
  intros s r v Hs. simpl. unfold Wf.update.
  change (r.(we_tenant_id), r.(we_change_id), r.(we_workflow_execution_id)) with (key_of r).
  destruct (_workflows s !! key_of r) as [current|]; [|done].
  destruct (_ || _); [done|]. simpl. split_and!; [done|by apply filed_insert| |done].
  intros k. rewrite lookup_insert. by case_decide; case_bool_decide.
Qed.
Next Obligation.
  intros s d Hs. simpl. unfold Wf.record_dead_letter.
  destruct (_dead_letters s !! _) as [existing|]; [by case_bool_decide|].
  simpl. split_and!; [done|by apply filed_dead_letter|done|]. intros t i. rewrite lookup_insert.
  case_decide; case_bool_decide; naive_solver.
Qed.
Next Obligation. intros s t i d [_ Hd] Hi%Hd. by injection Hi. Qed.
Next Obligation.
  intros s t n [_ Hd]. exists (filter (λ kv, kv.1.1 = t) (map_to_list s.(_dead_letters))).*2.
  split_and!; [| |done].
  - apply NoDup_fmap_2_strong; [|apply NoDup_filter, NoDup_map_to_list].
    intros [k d] [k' d'] [_ Hx]%list_elem_of_filter [_ Hy]%list_elem_of_filter Heq.
    simpl in Heq. subst d'. apply elem_of_map_to_list, Hd in Hx as <-, Hy as <-. done.
  - intros d. simpl. rewrite list_elem_of_fmap. split.
    + intros ([[t' i] d'] & -> & [Ht Hin]%list_elem_of_filter). simpl in *. subst t'.
      apply elem_of_map_to_list in Hin. by injection (Hd _ _ Hin) as _ ->.
    + intros Hin. exists ((t, d.(dl_dead_letter_id)), d). split; [done|].
      by apply list_elem_of_filter; split; [|apply elem_of_map_to_list].
Qed.
