(* ===== verification/Clients.v ===== *)
(** The coordinator's clients of the other services, [clients.py]: the calls the
    workflow engine makes, as interfaces over the outside world, and the HTTP
    clients that implement them.

    Decoding a JSON document into the typed fields of a model is pydantic's; the
    decoders are parameters, and the constraints of the models are tested here. *)

From Stdlib Require Import Ascii QArith.
From S2P Require Import Prelude Json Contracts Errors Policy Governance Gateway Workflow.
Open Scope Z_scope.

(** * Records of the sandbox services *)

Record SnapshotRecord := mkSnapshotRecord {
  sn_snapshot_id : NonEmptyStr; sn_tenant_id : NonEmptyStr; sn_system_id : NonEmptyStr;
  sn_configuration : list (string * json); sn_configuration_hash : Sha256Digest;
  sn_created_at : AwareDatetime }.
Definition SnapshotRecord_ok (x : SnapshotRecord) : bool :=
  nonempty_str x.(sn_snapshot_id) && nonempty_str x.(sn_tenant_id) &&
  nonempty_str x.(sn_system_id) && wf_json (JObj x.(sn_configuration)) &&
  sha256_str x.(sn_configuration_hash).

Record RestoreResult := mkRestoreResult {
  rs_system_id : NonEmptyStr; rs_snapshot_id : NonEmptyStr; rs_configuration_hash : Sha256Digest;
  rs_restored : bool }.
Definition RestoreResult_ok (x : RestoreResult) : bool :=
  nonempty_str x.(rs_system_id) && nonempty_str x.(rs_snapshot_id) &&
  sha256_str x.(rs_configuration_hash).

Record VerificationCheck := mkVerificationCheck {
  vc_name : NonEmptyStr; vc_passed : bool; vc_detail : NonEmptyStr }.
Definition VerificationCheck_ok (x : VerificationCheck) : bool :=
  nonempty_str x.(vc_name) && nonempty_str x.(vc_detail).

(** The three fields [AnalyticsVerificationResult] adds. *)
Record AnalyticsMeasures := mkAnalyticsMeasures {
  am_baseline_row_count : Z; am_observed_row_count : Z; am_null_rate : Q }.

(** [VerificationResult], and [AnalyticsVerificationResult] when the measures are
    present. *)
Record VerificationResult := mkVerificationResult {
  vr_system_id : NonEmptyStr; vr_passed : bool; vr_checks : list VerificationCheck;
  vr_measures : option AnalyticsMeasures }.
Definition VerificationResult_ok (x : VerificationResult) : bool :=
  nonempty_str x.(vr_system_id) && tuple_ok 0 VerificationCheck_ok x.(vr_checks).

(** * The interfaces

    [W] is the world outside the process.  Reading the clock, drawing an
    identifier, sleeping and the scheduler's choice are calls on it too. *)

Class Environment (W : Type) := {
  read_clock : W → Z * W;
  new_uuid : W → string * W;
  read_jitter : W → Q * W;
  sleep : Q → W → W;
  choose_turn : W → bool * W;
  (** The JSON library's rendering of a float. *)
  float_json : Q → json;
}.

Class FleetClient (W : Type) := {
  fleet_analyze : string → ChangeEvent → string → call W FleetAnalysisResult;
}.

Class GatewayClient (W : Type) := {
  (** approval, plan, expiry, request *)
  gateway_create_approval :
    string → RemediationPlan → Z → string → call W ApprovalRequestRecord;
  (** workflow, plan, step, approval, time, request *)
  gateway_execute : string → RemediationPlan → RemediationStep → string → Z → string →
    call W GatewayExecutionResult;
}.

Class SandboxClient (W : Type) := {
  (** system, tenant, then the call's own argument, then request *)
  sandbox_snapshot : System → string → string → call W SnapshotRecord;
  sandbox_restore : System → string → string → string → call W RestoreResult;
  sandbox_verify : System → string → string → string → call W VerificationResult;
  sandbox_configuration_hash : System → string → string → call W string;
}.

Definition dependency (code : string) (transient : bool) : exn :=
  EWorkflow (DependencyCallError code transient).

(** [SandboxClient.system_for_step] *)
Definition system_for_step (step : RemediationStep) : result exn System :=
  match assoc step.(st_tool_name)
    [("crm.update_field_mapping", Crm); ("analytics.update_field_mapping", Analytics);
     ("support.update_lookup_field", Support)] with
  | Some system => Ok system
  | None => Err (dependency "UNSUPPORTED_PLAN_TOOL" false)
  end.

(** * The HTTP clients *)

Inductive HttpMethod := GET | POST.
Record ClientRequest := mkClientRequest {
  rq_method : HttpMethod; rq_url : string; rq_headers : list (string * string);
  rq_json : option json }.

(** [ServiceAuthProvider.headers]: headers, no identity, or a rejected audience. *)
Inductive AuthAnswer :=
| AuthHeaders (headers : list (string * string)) | AuthUnavailable | AuthInvalid.

(** [url.rstrip("/")] *)
Fixpoint rstrip_slash (s : string) : string :=
  match s with
  | EmptyString => EmptyString
  | String c rest =>
      match rstrip_slash rest with
      | EmptyString => if bool_decide (c = "/"%char) then EmptyString else String c EmptyString
      | rest => String c rest
      end
  end.

(** Scheme and network location of [urlsplit(url)]. *)
Fixpoint until (stop : ascii → bool) (s : string) : string :=
  match s with
  | EmptyString => EmptyString
  | String c rest => if stop c then EmptyString else String c (until stop rest)
  end.
Definition url_origin (url : string) : string :=
  let scheme := until (λ c, bool_decide (c = ":"%char)) url in
  match strip_prefix (scheme +:+ "://") url with
  | Some rest => lower scheme +:+ "://" +:+
      until (λ c, mem c ["/"%char; "?"%char; "#"%char]) rest
  | None => "://"
  end.

(** [_response_error] *)
Definition response_error (status_code : Z) (body : option json) : exn :=
  let code := "HTTP_" +:+ zstr status_code in
  let code :=
    match body with
    | Some (JObj document) =>
        let candidate :=
          match assoc "code" document with
          | Some JNull | None =>
              match assoc "error" document with
              | Some (JObj error) => assoc "code" error
              | _ => None
              end
          | found => found
          end in
        match candidate with
        | Some (JStr (String c rest)) => String c rest
        | _ => code
        end
    | _ => code
    end in
  dependency code ((status_code =? 429) || (500 <=? status_code)).

Section Documents.
Context `{Platform}.

Definition intent_json (i : ToolIntent) : json := JObj [
  ("schema_version", JStr "1.0");
  ("intent_id", JStr i.(in_intent_id));
  ("tenant_id", JStr i.(in_tenant_id));
  ("change_id", JStr i.(in_change_id));
  ("workflow_execution_id", JStr i.(in_workflow_execution_id));
  ("plan_id", JStr i.(in_plan_id));
  ("plan_hash", JStr i.(in_plan_hash));
  ("step_id", JStr i.(in_step_id));
  ("agent_identity", JStr i.(in_agent_identity));
  ("tool_name", JStr i.(in_tool_name));
  ("action", JStr i.(in_action));
  ("resource", JStr i.(in_resource));
  ("arguments", JObj i.(in_arguments));
  ("reason", JStr i.(in_reason));
  ("evidence_refs", jstrs i.(in_evidence_refs));
  ("idempotency_key", JStr i.(in_idempotency_key));
  ("requested_at", jtime i.(in_requested_at))].

(** [GatewayClient.execute]: the intent of one plan step. *)
Definition step_intent (workflow_execution_id : string) (plan : RemediationPlan)
    (step : RemediationStep) (requested_at : Z) : ToolIntent := {|
  in_intent_id := "intent_" +:+ workflow_execution_id +:+ "_" +:+ step.(st_step_id);
  in_tenant_id := plan.(pl_tenant_id);
  in_change_id := plan.(pl_change_id);
  in_workflow_execution_id := workflow_execution_id;
  in_plan_id := plan.(pl_plan_id);
  in_plan_hash := calculate_plan_hash plan;
  in_step_id := step.(st_step_id);
  in_agent_identity := step.(st_agent_id);
  in_tool_name := step.(st_tool_name);
  in_action := "update";
  in_resource := step.(st_resource);
  in_arguments := step.(st_arguments);
  in_reason := "Execute the exact approved durable workflow step.";
  in_evidence_refs := plan.(pl_evidence_refs);
  in_idempotency_key := step.(st_idempotency_key);
  in_requested_at := requested_at |}.

Context {W : Type}.
Context (http : ClientRequest → W → HttpAnswer * W).
Context (service_auth : string → AuthAnswer).

(** [await client.request(...)] *)
Definition send (request : ClientRequest) : call W HttpAnswer := λ w,
  let '(answer, w) := http request w in (Ok answer, w).

(** [Model.model_validate(response.json())]; a body that is no JSON document, or no
    document of the model, raises. *)
Definition response_json (body : option json) : call W json :=
  match body with Some document => mret document | None => raise (ValueError "JSON") end.
Definition model_validate {A} (model : string) (decode : json → option A) (ok : A → bool)
    (document : json) : result exn A :=
  match decode document with
  | Some x => validated model ok x
  | None => Err (ValidationError model)
  end.

Definition is_validation (e : exn) : bool :=
  match e with ValidationError _ => true | _ => false end.
(** [except (ValueError, ValidationError)] *)
Definition is_value_error (e : exn) : bool :=
  match e with ValidationError _ | ValueError _ => true | _ => false end.

Definition on_error {A} (handled : exn → bool) (e : exn) (m : call W A) : call W A :=
  catch m (λ e', if handled e' then Some (raise e) else None).

(** The two kinds of failure every client distinguishes before it looks at the
    response. *)
Definition authorized_send (audience : string)
    (request : list (string * string) → result exn ClientRequest) (unavailable : exn) : call W (Z * option json) :=
  match service_auth audience with
  | AuthUnavailable => raise unavailable
  | AuthInvalid => raise (ValueError "audience")
  | AuthHeaders platform_headers =>
      request ← of_result (request platform_headers);
      answer ← send request;
      match answer with
      | TransportError => raise unavailable
      | OtherHttpError => raise (RuntimeError "http client")
      | Response status_code body =>
          _ ← raise_if (400 <=? status_code) (response_error status_code body);
          mret (status_code, body)
      end
  end.

(** ** [FleetClient] *)

Definition http_analyze (fleet_url : string) (decode : json → option FleetAnalysisResult)
    (change_id : string) (event : ChangeEvent) (request_id : string)
  : call W FleetAnalysisResult :=
  let base_url := rstrip_slash fleet_url in
  on_error is_value_error (dependency "FLEET_INVALID_RESPONSE" false) (
    answer ← authorized_send base_url (λ platform_headers,
      body ← validated "FleetAnalysisRequest" FleetAnalysisRequest_ok
               (mkFleetAnalysisRequest change_id event);
      Ok (mkClientRequest POST (base_url +:+ "/v1/analyses")
        ([("X-Tenant-ID", event.(ev_tenant_id)); ("X-Request-ID", request_id)] ++ platform_headers)
        (Some (JObj [("change_id", JStr body.(far_change_id));
                     ("event", event_json body.(far_event))]))))
      (dependency "FLEET_UNAVAILABLE" true);
    document ← response_json answer.2;
    of_result (model_validate "FleetAnalysisResult" decode FleetAnalysisResult_ok document)).

(** ** [GatewayClient] *)

(** [_token] issues a ten-minute identity of [tenant_id]. *)
Context (token : string → string → IdentityKind → W → string * W).

Definition http_gateway_request {A} (gateway_url : string) (method : HttpMethod)
    (path bearer request_id : string) (payload : option json) (model : string)
    (decode : json → option A) (ok : A → bool) : call W A :=
  let base_url := rstrip_slash gateway_url in
  on_error is_value_error (dependency "TOOL_GATEWAY_INVALID_RESPONSE" false) (
    answer ← authorized_send base_url (λ platform_headers,
      Ok (mkClientRequest method (base_url +:+ path)
        ([("Authorization", "Bearer " +:+ bearer); ("X-Request-ID", request_id)] ++
         platform_headers) payload))
      (dependency "TOOL_GATEWAY_UNAVAILABLE" true);
    document ← response_json answer.2;
    of_result (model_validate model decode ok document)).

Definition issue (subject tenant_id : string) (kind : IdentityKind) : call W string := λ w,
  let '(t, w) := token subject tenant_id kind w in (Ok t, w).

Definition http_create_approval (gateway_url : string)
    (decode : json → option ApprovalRequestRecord) (approval_id : string)
    (plan : RemediationPlan) (expires_at : Z) (request_id : string)
  : call W ApprovalRequestRecord :=
  let scope := st_step_id <$> plan.(pl_steps) in
  body ← of_result (validated "ApprovalCreateRequest" ApprovalCreateRequest_ok
           (mkApprovalCreateRequest approval_id plan SANDBOX scope expires_at));
  bearer ← issue "workflow-coordinator" plan.(pl_tenant_id) KindService;
  http_gateway_request gateway_url POST "/v1/approvals" bearer request_id
    (Some (JObj [
      ("approval_id", JStr body.(ac_approval_id)); ("plan", plan_json body.(ac_plan));
      ("environment", JStr (ChangeEnvironment_value body.(ac_environment)));
      ("scope", jstrs body.(ac_scope)); ("expires_at", jtime body.(ac_expires_at))]))
    "ApprovalRequestRecord" decode ApprovalRequestRecord_ok.

Definition GatewayExecutionResult_ok (x : GatewayExecutionResult) : bool :=
  nonempty_str x.(gr_execution_id) && PolicyDecision_ok x.(gr_decision) &&
  wf_json (JObj x.(gr_output)) && sha256_str x.(gr_output_hash).

Definition http_gateway_execute (gateway_url : string)
    (decode : json → option GatewayExecutionResult) (workflow_execution_id : string)
    (plan : RemediationPlan) (step : RemediationStep) (approval_id : string) (requested_at : Z)
    (request_id : string) : call W GatewayExecutionResult :=
  intent ← of_result (validated "ToolIntent" ToolIntent_ok
             (step_intent workflow_execution_id plan step requested_at));
  _ ← raise_if (negb (nonempty_str approval_id)) (ValidationError "GatewayExecutionRequest");
  bearer ← issue step.(st_agent_id) plan.(pl_tenant_id) KindAgent;
  http_gateway_request gateway_url POST "/internal/v1/tool-intents/evaluate-and-execute" bearer
    request_id (Some (JObj [("intent", intent_json intent); ("approval_id", JStr approval_id)]))
    "GatewayExecutionResult" decode GatewayExecutionResult_ok.

(** ** [SandboxClient] *)

Definition make_base_urls (base_urls : list (string * string)) : result exn (System → string) :=
  match assoc "crm" base_urls, assoc "analytics" base_urls, assoc "support" base_urls with
  | Some crm, Some analytics, Some support =>
      if subset base_urls.*1 ["crm"; "analytics"; "support"] then
        Ok (λ system, rstrip_slash
              match system with Crm => crm | Analytics => analytics | Support => support end)
      else Err (ValueError "Sandbox client requires exactly CRM, Analytics, and Support URLs.")
  | _, _, _ => Err (ValueError "Sandbox client requires exactly CRM, Analytics, and Support URLs.")
  end.

(** [_VERIFICATION_PATHS] *)
Definition VERIFICATION_PATHS (system : System) : string :=
  match system with
  | Crm => "/v1/verification/synchronization"
  | Analytics => "/v1/verification/data-quality"
  | Support => "/v1/verification/lookup"
  end.

Definition http_sandbox_call (method : HttpMethod) (url tenant_id request_id : string)
    (payload : option json) : call W (Z * option json) :=
  authorized_send (url_origin url) (λ platform_headers,
    Ok (mkClientRequest method url
      ([("X-Tenant-ID", tenant_id); ("X-Request-ID", request_id)] ++ platform_headers) payload))
    (dependency "SANDBOX_UNAVAILABLE" true).

Context (base_urls : System → string).

Definition http_snapshot (decode : json → option SnapshotRecord) (system : System)
    (tenant_id request_id : string) : call W SnapshotRecord :=
  response ← http_sandbox_call POST (base_urls system +:+ "/v1/snapshots") tenant_id request_id
               None;
  on_error is_validation (dependency "SNAPSHOT_INVALID_RESPONSE" false) (
    document ← response_json response.2;
    of_result (model_validate "SnapshotRecord" decode SnapshotRecord_ok document)).

Definition http_restore (decode : json → option RestoreResult) (system : System)
    (tenant_id snapshot_id request_id : string) : call W RestoreResult :=
  response ← http_sandbox_call POST
    (base_urls system +:+ "/v1/snapshots/" +:+ snapshot_id +:+ "/restore") tenant_id request_id
    None;
  result ← on_error is_validation (dependency "RESTORE_INVALID_RESPONSE" false) (
    document ← response_json response.2;
    of_result (model_validate "RestoreResult" decode RestoreResult_ok document));
  _ ← raise_if (negb result.(rs_restored) ||
                negb (bool_decide (result.(rs_snapshot_id) = snapshot_id)))
        (dependency "RESTORE_NOT_CONFIRMED" false);
  mret result.

Definition http_verify (decode : System → json → option VerificationResult) (system : System)
    (tenant_id expected_field request_id : string) : call W VerificationResult :=
  response ← http_sandbox_call POST (base_urls system +:+ VERIFICATION_PATHS system) tenant_id
    request_id (Some (JObj [("expected_field", JStr expected_field)]));
  on_error is_validation (dependency "VERIFICATION_INVALID_RESPONSE" false) (
    document ← response_json response.2;
    of_result (model_validate "VerificationResult" (decode system) VerificationResult_ok document)).

Definition http_configuration_hash (system : System) (tenant_id request_id : string)
  : call W string :=
  response ← http_sandbox_call GET (base_urls system +:+ "/v1/configuration") tenant_id request_id
               None;
  document ← on_error is_value_error (dependency "CONFIGURATION_INVALID_RESPONSE" false)
               (response_json response.2);
  match document with
  | JObj _ => mret (sha256_digest document)
  | _ => raise (dependency "CONFIGURATION_INVALID_RESPONSE" false)
  end.
End Documents.
