(* ===== verification/Engine.v ===== *)
(** The workflow engine, [engine.py] of [services/workflow-coordinator]: its private
    methods, from record updates and audit to snapshots, execution, verification
    and rollback.  [Coordinator] holds the entry points.

    An [async] method is a coroutine over the engine's state: the workflow
    repository, the change repository and the outside world.  Every call of a
    repository, a client or the clock is one atomic step, so that other
    coroutines may run between any two of them; a call of the state
    transition service is one step as well. *)

From Stdlib Require Import QArith.
From S2P Require Import Prelude Json Contracts Errors Persistence StateMachine Governance Coroutine Workflow Clients.
Open Scope Z_scope.

Record EngineState (V R W : Type) := mkEngineState {
  es_workflows : V; es_changes : R; es_world : W }.
Arguments mkEngineState {V R W} _ _ _.
Arguments es_workflows {V R W} _.
Arguments es_changes {V R W} _.
Arguments es_world {V R W} _.

(** * Updates of a record

    The keyword arguments of [_update_record]. *)

Inductive field_update :=
| SetStatus (status : WorkflowRuntimeStatus)
| SetDeliveryAttempts (n : Z)
| SetPlan (plan : RemediationPlan)
| SetPlanHash (plan_hash : string)
| SetTasks (tasks : list WorkflowTaskRecord)
| SetApprovalId (approval_id : string)
| SetApprovalExpiresAt (expires_at : Z)
| SetLastErrorCode (code : option string)
| SetCompletedAt (completed_at : Z).

Definition set_field (r : WorkflowExecutionRecord) (u : field_update) : WorkflowExecutionRecord := {|
  we_workflow_execution_id := r.(we_workflow_execution_id);
  we_tenant_id := r.(we_tenant_id);
  we_change_id := r.(we_change_id);
  we_event_id := r.(we_event_id);
  we_trace_id := r.(we_trace_id);
  we_event := r.(we_event);
  we_status := match u with SetStatus x => x | _ => r.(we_status) end;
  we_delivery_attempts := match u with SetDeliveryAttempts x => x | _ => r.(we_delivery_attempts) end;
  we_plan := match u with SetPlan x => Some x | _ => r.(we_plan) end;
  we_plan_hash := match u with SetPlanHash x => Some x | _ => r.(we_plan_hash) end;
  we_approval_id := match u with SetApprovalId x => Some x | _ => r.(we_approval_id) end;
  we_approval_expires_at :=
    match u with SetApprovalExpiresAt x => Some x | _ => r.(we_approval_expires_at) end;
  we_tasks := match u with SetTasks x => x | _ => r.(we_tasks) end;
  we_last_error_code := match u with SetLastErrorCode x => x | _ => r.(we_last_error_code) end;
  we_started_at := r.(we_started_at);
  we_updated_at := r.(we_updated_at);
  we_completed_at := match u with SetCompletedAt x => Some x | _ => r.(we_completed_at) end;
  we_version := r.(we_version) |}.

(** [{**record.model_dump(), **updates, "updated_at": now, "version": version + 1}] *)
Definition updated_record (r : WorkflowExecutionRecord) (updates : list field_update) (now : Z)
  : WorkflowExecutionRecord :=
  let r' := foldl set_field r updates in {|
  we_workflow_execution_id := r'.(we_workflow_execution_id);
  we_tenant_id := r'.(we_tenant_id);
  we_change_id := r'.(we_change_id);
  we_event_id := r'.(we_event_id);
  we_trace_id := r'.(we_trace_id);
  we_event := r'.(we_event);
  we_status := r'.(we_status);
  we_delivery_attempts := r'.(we_delivery_attempts);
  we_plan := r'.(we_plan);
  we_plan_hash := r'.(we_plan_hash);
  we_approval_id := r'.(we_approval_id);
  we_approval_expires_at := r'.(we_approval_expires_at);
  we_tasks := r'.(we_tasks);
  we_last_error_code := r'.(we_last_error_code);
  we_started_at := r'.(we_started_at);
  we_updated_at := now;
  we_completed_at := r'.(we_completed_at);
  we_version := r.(we_version) + 1 |}.

(** [{**task.model_dump(), "snapshot_id": ..., "snapshot_hash": ..., "updated_at": now}] *)
Definition with_snapshot (t : WorkflowTaskRecord) (snapshot_id snapshot_hash : string) (now : Z)
  : WorkflowTaskRecord := {|
  wt_step_id := t.(wt_step_id);
  wt_system_id := t.(wt_system_id);
  wt_status := t.(wt_status);
  wt_attempt_count := t.(wt_attempt_count);
  wt_snapshot_id := Some snapshot_id;
  wt_snapshot_hash := Some snapshot_hash;
  wt_execution_id := t.(wt_execution_id);
  wt_output_hash := t.(wt_output_hash);
  wt_error_code := t.(wt_error_code);
  wt_updated_at := now |}.

Definition task_succeeded (t : WorkflowTaskRecord) (attempt : Z) (execution_id output_hash : string)
    (now : Z) : WorkflowTaskRecord := {|
  wt_step_id := t.(wt_step_id);
  wt_system_id := t.(wt_system_id);
  wt_status := TaskSucceeded;
  wt_attempt_count := attempt;
  wt_snapshot_id := t.(wt_snapshot_id);
  wt_snapshot_hash := t.(wt_snapshot_hash);
  wt_execution_id := Some execution_id;
  wt_output_hash := Some output_hash;
  wt_error_code := None;
  wt_updated_at := now |}.

(** A failed attempt, or an outcome of the rollback: status, attempts and error. *)
Definition task_outcome (t : WorkflowTaskRecord) (status : WorkflowTaskStatus) (attempt : Z)
    (error_code : option string) (now : Z) : WorkflowTaskRecord := {|
  wt_step_id := t.(wt_step_id);
  wt_system_id := t.(wt_system_id);
  wt_status := status;
  wt_attempt_count := attempt;
  wt_snapshot_id := t.(wt_snapshot_id);
  wt_snapshot_hash := t.(wt_snapshot_hash);
  wt_execution_id := t.(wt_execution_id);
  wt_output_hash := t.(wt_output_hash);
  wt_error_code := error_code;
  wt_updated_at := now |}.

(** * Dictionaries keyed by step

    Insertion order is kept; assigning to a key replaces its value in place. *)

Fixpoint set_task (t : WorkflowTaskRecord) (d : list WorkflowTaskRecord) : list WorkflowTaskRecord :=
  match d with
  | [] => [t]
  | t' :: d =>
      if bool_decide (t'.(wt_step_id) = t.(wt_step_id)) then t :: d else t' :: set_task t d
  end.
Definition tasks_by_step (tasks : list WorkflowTaskRecord) : list WorkflowTaskRecord :=
  foldl (λ d t, set_task t d) [] tasks.
Fixpoint find_task (step_id : string) (d : list WorkflowTaskRecord) : option WorkflowTaskRecord :=
  match d with
  | [] => None
  | t :: d => if bool_decide (t.(wt_step_id) = step_id) then Some t else find_task step_id d
  end.
Definition has_status (status : WorkflowTaskStatus) (t : WorkflowTaskRecord) : bool :=
  bool_decide (t.(wt_status) = status).

Definition verification_json {W} `{Environment W} (v : VerificationResult) : json :=
  JObj ([("system_id", JStr v.(vr_system_id)); ("passed", JBool v.(vr_passed));
         ("checks", JArr ((λ c, JObj [("name", JStr c.(vc_name)); ("passed", JBool c.(vc_passed));
            ("detail", JStr c.(vc_detail))]) <$> v.(vr_checks)))] ++
        match v.(vr_measures) with
        | Some m => [("baseline_row_count", JInt m.(am_baseline_row_count));
                     ("observed_row_count", JInt m.(am_observed_row_count));
                     ("null_rate", float_json (W:=W) m.(am_null_rate))]
        | None => []
        end).

Definition permanent (code : string) : exn := EWorkflow (WorkflowPermanentError code).
Definition transient_failure (code : string) : exn := EWorkflow (WorkflowTransientError code).

Section Engine.
Context `{Platform} {V R W : Type} `{WorkflowRepository V} `{ChangeStateRepository R}
  `{Environment W} `{FleetClient W} `{GatewayClient W} `{SandboxClient W}.
Context (retry : RetryPolicy).
Abbreviation engine A := (co (EngineState V R W) exn A).

(** * Awaited calls *)

Definition workflows {A} (m : call V A) : engine A :=
  perform (zoom es_workflows (λ v s, mkEngineState v s.(es_changes) s.(es_world)) m).
Definition changes {A} (m : call R A) : engine A :=
  perform (zoom es_changes (λ r s, mkEngineState s.(es_workflows) r s.(es_world)) m).
Definition world {A} (m : call W A) : engine A :=
  perform (zoom es_world (λ w s, mkEngineState s.(es_workflows) s.(es_changes) w) m).
Definition reading {A} (f : W → A * W) : engine A :=
  world (λ w, let '(a, w) := f w in (Ok a, w)).
Definition clock : engine Z := reading read_clock.
Definition uuid4 : engine string := reading new_uuid.
Definition request_id : engine string := u ← uuid4; mret ("req_" +:+ u).
Definition turn : M (EngineState V R W) exn bool := λ s,
  let '(b, w) := choose_turn s.(es_world) in
  (Ok b, mkEngineState s.(es_workflows) s.(es_changes) w).

(** The code and transience of a [DependencyCallError]. *)
Definition as_dependency (e : exn) : option (string * bool) :=
  match e with
  | EWorkflow (DependencyCallError code transient) => Some (code, transient)
  | _ => None
  end.
(** [try c except DependencyCallError]: the value, or the error. *)
Definition try_call {A} (c : engine A) : engine (A + string * bool) :=
  r ← settle c;
  match r with
  | Ok a => mret (inl a)
  | Err e => match as_dependency e with Some error => mret (inr error) | None => throw e end
  end.

Definition get_change (record : WorkflowExecutionRecord) : engine ChangeRecord :=
  changes (repo_get record.(we_tenant_id) record.(we_change_id)).

(** * Private methods *)

Definition _update_record (record : WorkflowExecutionRecord) (updates : list field_update)
  : engine WorkflowExecutionRecord :=
  now ← clock;
  updated ← from_result (validated "WorkflowExecutionRecord" WorkflowExecutionRecord_ok
              (updated_record record updates now));
  workflows (wf_update updated record.(we_version)).

Definition _set_runtime_status (record : WorkflowExecutionRecord) (status : WorkflowRuntimeStatus)
    (last_error_code : option string) : engine WorkflowExecutionRecord :=
  if bool_decide (record.(we_status) = status) &&
     bool_decide (record.(we_last_error_code) = last_error_code)
  then mret record
  else _update_record record [SetStatus status; SetLastErrorCode last_error_code].

Definition _terminal (record : WorkflowExecutionRecord) (status : WorkflowRuntimeStatus)
    (error_code : option string) : engine WorkflowExecutionRecord :=
  if bool_decide (record.(we_status) = status) && negb (is_none record.(we_completed_at))
  then mret record
  else
    completed_at ← clock;
    _update_record record
      [SetStatus status; SetLastErrorCode error_code; SetCompletedAt completed_at].

Definition _dead_letter (record : WorkflowExecutionRecord) (error_code : string)
  : engine WorkflowExecutionRecord :=
  terminal ← _terminal record RunDeadLettered (Some error_code);
  created_at ← clock;
  dead_letter ← from_result (validated "DeadLetterRecord" DeadLetterRecord_ok {|
    dl_dead_letter_id := "dlq_" +:+ record.(we_workflow_execution_id);
    dl_tenant_id := record.(we_tenant_id);
    dl_event_id := record.(we_event_id);
    dl_workflow_execution_id := record.(we_workflow_execution_id);
    dl_error_code := error_code;
    dl_input_hash := sha256_digest (event_json record.(we_event));
    dl_created_at := created_at |});
  _ ← workflows (wf_record_dead_letter dead_letter);
  mret terminal.

Definition _transition (record : WorkflowExecutionRecord) (target : WorkflowState)
    (updates : RecordUpdates) : engine ChangeRecord :=
  current ← get_change record;
  transitioned_at ← clock;
  audit_uuid ← uuid4;
  changes (transition transitioned_at ("audit_" +:+ audit_uuid) record.(we_tenant_id)
    record.(we_change_id) target current.(cr_version) record.(we_trace_id) ActorService
    "workflow-coordinator" updates).

Definition _require_plan (record : WorkflowExecutionRecord) : engine RemediationPlan :=
  match record.(we_plan) with
  | Some plan => mret plan
  | None => throw (permanent "PLAN_MISSING")
  end.

Definition _audit (record : WorkflowExecutionRecord) (event_type action : string)
    (input_document output_document : json) (status : AuditStatus) (summary : string)
  : engine AuditEvent :=
  audit_uuid ← uuid4;
  created_at ← clock;
  from_result (validated "AuditEvent" AuditEvent_ok {|
    au_audit_event_id := "audit_" +:+ audit_uuid;
    au_tenant_id := record.(we_tenant_id);
    au_change_id := record.(we_change_id);
    au_trace_id := record.(we_trace_id);
    au_event_type := event_type;
    au_actor_type := ActorService;
    au_actor_id := "workflow-coordinator";
    au_resource := "workflows/" +:+ record.(we_workflow_execution_id);
    au_action := action;
    au_decision_id := None;
    au_input_hash := sha256_digest input_document;
    au_output_hash := sha256_digest output_document;
    au_status := status;
    au_redacted_summary := summary;
    au_created_at := created_at |}).

Definition _record_audit (record : WorkflowExecutionRecord) (event_type action : string)
    (input_document output_document : json) (status : AuditStatus) (summary : string)
  : engine unit :=
  audit ← _audit record event_type action input_document output_document status summary;
  changes (repo_record_audit audit).

(** The record of a change seen for the first time. *)
Definition received_change (record : WorkflowExecutionRecord) (timestamp : Z) : ChangeRecord :=
  let event := record.(we_event) in {|
  cr_change_id := record.(we_change_id);
  cr_tenant_id := record.(we_tenant_id);
  cr_event_id := record.(we_event_id);
  cr_change_type := event.(ev_event_type);
  cr_title := event.(ev_change).(det_summary);
  cr_description := event.(ev_change).(det_summary);
  cr_source := event.(ev_source);
  cr_environment := SANDBOX;
  cr_status := RECEIVED;
  cr_risk_level := UNKNOWN;
  cr_current_phase := RECEIVED;
  cr_workflow_execution_id := None;
  cr_plan_version := 0;
  cr_plan_hash := None;
  cr_created_at := timestamp;
  cr_updated_at := timestamp;
  cr_created_by := "event-gateway";
  cr_version := 1 |}.

(** Only [ChangeNotFoundError] is handled; a [TenantScopeViolationError]
    propagates. *)
Definition _ensure_change (record : WorkflowExecutionRecord) : engine ChangeRecord :=
  co_catch (get_change record) (λ e,
    match e with
    | EPersistence (ChangeNotFoundError _ _) => Some (
        timestamp ← clock;
        change ← from_result (validated "ChangeRecord" ChangeRecord_ok
                   (received_change record timestamp));
        audit ← _audit record "CHANGE_RECEIVED" "create_change"
                  (JObj [("event_id", JStr record.(we_event).(ev_event_id))]) (change_json change)
                  AuditSuccess "Authenticated change event accepted for durable processing.";
        co_catch (_ ← changes (repo_add_with_audit change audit); mret change) (λ e,
          match e with
          | EPersistence (ChangeAlreadyExistsError _ _) => Some (
              existing ← get_change record;
              _ ← throw_if (negb (bool_decide (existing.(cr_event_id) = record.(we_event_id))))
                    (permanent "CHANGE_ID_COLLISION");
              mret existing)
          | _ => None
          end))
    | _ => None
    end).

(** ** Snapshots *)

(** The loop over the answers, in the order of the tasks. *)
Fixpoint store_snapshots (record : WorkflowExecutionRecord)
    (answers : list (WorkflowTaskRecord * result exn SnapshotRecord))
    (by_step : list WorkflowTaskRecord) : engine (list WorkflowTaskRecord) :=
  match answers with
  | [] => mret by_step
  | (task, answer) :: answers =>
      match answer with
      | Err e =>
          match as_dependency e with
          | Some (code, true) => throw (transient_failure code)
          | _ => throw (permanent "SNAPSHOT_CAPTURE_FAILED")
          end
      | Ok snapshot =>
          now ← clock;
          task' ← from_result (validated "WorkflowTaskRecord" WorkflowTaskRecord_ok
            (with_snapshot task snapshot.(sn_snapshot_id) snapshot.(sn_configuration_hash) now));
          _ ← _record_audit record "WORKFLOW_SNAPSHOT_CAPTURED" "capture_snapshot"
                (JObj [("step_id", JStr task.(wt_step_id));
                       ("system_id", JStr (System_value task.(wt_system_id)))])
                (JObj [("snapshot_id", JStr snapshot.(sn_snapshot_id));
                       ("snapshot_hash", JStr snapshot.(sn_configuration_hash))])
                AuditSuccess
                ("Pre-write " +:+ System_value task.(wt_system_id) +:+
                 " snapshot captured and hashed.");
          store_snapshots record answers (set_task task' by_step)
      end
  end.

(** [tuple(by_step[task.step_id] for task in record.tasks)] *)
Definition collect (tasks by_step : list WorkflowTaskRecord) : result exn (list WorkflowTaskRecord) :=
  mapM (λ t, match find_task t.(wt_step_id) by_step with
             | Some t' => Ok t' | None => Err KeyError end) tasks.

Definition _capture_snapshots (record : WorkflowExecutionRecord) : engine WorkflowExecutionRecord :=
  let missing := filter (λ t, is_none t.(wt_snapshot_id) = true) record.(we_tasks) in
  if bool_decide (missing = []) then mret record
  else
    requests ← mapM (λ _, request_id) missing;
    snapshots ← gather_settled turn ((λ '(task, request),
      world (sandbox_snapshot task.(wt_system_id) record.(we_tenant_id) request)) <$>
      zip missing requests);
    by_step ← store_snapshots record (zip missing snapshots) (tasks_by_step record.(we_tasks));
    tasks ← from_result (collect record.(we_tasks) by_step);
    _update_record record [SetTasks tasks].

(** ** Execution *)

(** The body of the [try] in the retry loop: one call of the gateway. *)
Definition execute_once (record : WorkflowExecutionRecord) (plan : RemediationPlan)
    (approval_id : string) (task : WorkflowTaskRecord) (step : RemediationStep) (attempt : Z)
  : engine WorkflowTaskRecord :=
  requested_at ← clock;
  request ← request_id;
  result ← world (gateway_execute record.(we_workflow_execution_id) plan step approval_id
             requested_at request);
  _ ← _record_audit record "WORKFLOW_STEP_SUCCEEDED" "execute_plan_step"
        (JObj [("attempt", JInt attempt); ("step_id", JStr step.(st_step_id))])
        (JObj [("execution_id", JStr result.(gr_execution_id));
               ("output_hash", JStr result.(gr_output_hash));
               ("replayed", JBool result.(gr_replayed))])
        AuditSuccess
        ("Approved " +:+ System_value task.(wt_system_id) +:+ " workflow step completed.");
  now ← clock;
  from_result (validated "WorkflowTaskRecord" WorkflowTaskRecord_ok
    (task_succeeded task attempt result.(gr_execution_id) result.(gr_output_hash) now)).

(** The pause before the next attempt. *)
Definition back_off (attempt : Z) : engine unit :=
  jitter ← reading read_jitter;
  seconds ← from_result (delay retry jitter attempt);
  reading (λ w, (tt, sleep seconds w)).

(** The retry loop of [_execute_task].  [fuel] bounds the number of further
    attempts; [maximum_attempts - attempt_count] is enough. *)
Fixpoint execute_attempts (record : WorkflowExecutionRecord) (plan : RemediationPlan)
    (approval_id : string) (task : WorkflowTaskRecord) (step : RemediationStep) (fuel : nat)
    (previous : Z) : engine WorkflowTaskRecord :=
  let attempt := previous + 1 in
  answer ← try_call (execute_once record plan approval_id task step attempt);
  match answer with
  | inl done_task => mret done_task
  | inr (code, transient) =>
      if should_retry retry transient attempt then
        _ ← _record_audit record "WORKFLOW_STEP_RETRY_SCHEDULED" "retry_plan_step"
              (JObj [("attempt", JInt attempt); ("error_code", JStr code);
                     ("step_id", JStr step.(st_step_id))])
              (JObj [("next_attempt", JInt (attempt + 1))]) AuditFailure
              ("Transient " +:+ System_value task.(wt_system_id) +:+
               " failure scheduled for bounded retry.");
        _ ← back_off attempt;
        match fuel with
        | O => throw OutOfFuel
        | S fuel => execute_attempts record plan approval_id task step fuel attempt
        end
      else
        _ ← _record_audit record "WORKFLOW_STEP_FAILED" "execute_plan_step"
              (JObj [("attempt", JInt attempt); ("step_id", JStr step.(st_step_id))])
              (JObj [("error_code", JStr code)]) AuditFailure
              (System_value task.(wt_system_id) +:+
               " workflow step exhausted its allowed attempts.");
        now ← clock;
        from_result (validated "WorkflowTaskRecord" WorkflowTaskRecord_ok
          (task_outcome task TaskFailed attempt (Some code) now))
  end.

Definition _execute_task (record : WorkflowExecutionRecord) (task : WorkflowTaskRecord)
    (step : RemediationStep) : engine WorkflowTaskRecord :=
  plan ← _require_plan record;
  match record.(we_approval_id) with
  | None => throw (permanent "APPROVAL_ID_MISSING")
  | Some approval_id =>
      execute_attempts record plan approval_id task step
        (Z.to_nat (retry.(maximum_attempts) - task.(wt_attempt_count))) task.(wt_attempt_count)
  end.

(** The pending tasks whose dependencies have succeeded; a task without a step
    raises. *)
Definition ready_tasks (steps : gmap string RemediationStep) (by_step : list WorkflowTaskRecord)
  : result exn (list (WorkflowTaskRecord * RemediationStep)) :=
  let pending := filter (λ t, has_status TaskPending t = true) by_step in
  let succeeded := wt_step_id <$> filter (λ t, has_status TaskSucceeded t = true) by_step in
  with_steps ← mapM (λ t, match steps !! t.(wt_step_id) with
                          | Some step => Ok (t, step) | None => Err KeyError end) pending;
  Ok (filter (λ ts, subset ts.2.(st_depends_on) succeeded = true) with_steps).

Definition failed_code (results : list WorkflowTaskRecord) : option string :=
  match filter (λ t, has_status TaskFailed t = true) results with
  | t :: _ => t.(wt_error_code)
  | [] => None
  end.

(** One round: the ready tasks run concurrently, their results are stored. *)
Definition execute_round (steps : gmap string RemediationStep) (record : WorkflowExecutionRecord)
    (by_step : list WorkflowTaskRecord)
  : engine (list WorkflowTaskRecord * list WorkflowTaskRecord * WorkflowExecutionRecord) :=
  ready ← from_result (ready_tasks steps by_step);
  _ ← throw_if (bool_decide (ready = [])) (permanent "DAG_PROGRESS_BLOCKED");
  results ← gather turn ((λ '(task, step), _execute_task record task step) <$> ready);
  let by_step := foldl (λ d t, set_task t d) by_step results in
  tasks ← from_result (collect record.(we_tasks) by_step);
  record ← _update_record record [SetTasks tasks; SetLastErrorCode (failed_code results)];
  mret (results, by_step, record).

(** The rounds of [_execute_dag].  Every round takes a task out of the pending
    ones, so as many rounds as tasks are enough. *)
Fixpoint execute_rounds (steps : gmap string RemediationStep) (fuel : nat)
    (record : WorkflowExecutionRecord) (by_step : list WorkflowTaskRecord)
  : engine WorkflowExecutionRecord :=
  if negb (existsb (has_status TaskPending) by_step) then mret record
  else
    round ← execute_round steps record by_step;
    let '(results, by_step, record) := round in
    if existsb (has_status TaskFailed) results then mret record
    else match fuel with
    | O => throw OutOfFuel
    | S fuel => execute_rounds steps fuel record by_step
    end.

Definition _execute_dag (record : WorkflowExecutionRecord) : engine WorkflowExecutionRecord :=
  plan ← _require_plan record;
  execute_rounds (steps_by_id plan.(pl_steps)) (length record.(we_tasks)) record
    (tasks_by_step record.(we_tasks)).

(** ** Verification *)

(** The body of the [try] in the loop of [_verify_task]. *)
Definition verify_once (record : WorkflowExecutionRecord) (task : WorkflowTaskRecord)
    (expected : string) : engine bool :=
  let system := System_value task.(wt_system_id) in
  request ← request_id;
  result ← world (sandbox_verify task.(wt_system_id) record.(we_tenant_id) expected request);
  let passed := result.(vr_passed) in
  _ ← _record_audit record
        (if passed then "WORKFLOW_VERIFICATION_SUCCEEDED" else "WORKFLOW_VERIFICATION_FAILED")
        "verify_system"
        (JObj [("expected_field", JStr expected); ("system_id", JStr system)])
        (verification_json (W:=W) result) (if passed then AuditSuccess else AuditFailure)
        ("Independent " +:+ system +:+ " verification completed.");
  mret passed.

Fixpoint verify_attempts (record : WorkflowExecutionRecord) (task : WorkflowTaskRecord)
    (expected : string) (fuel : nat) (previous : Z) : engine bool :=
  let attempt := previous + 1 in
  answer ← try_call (verify_once record task expected);
  match answer with
  | inl passed => mret passed
  | inr (code, transient) =>
      if should_retry retry transient attempt then
        _ ← back_off attempt;
        match fuel with
        | O => throw OutOfFuel
        | S fuel => verify_attempts record task expected fuel attempt
        end
      else throw (dependency code transient)
  end.

Definition _verify_task (record : WorkflowExecutionRecord) (task : WorkflowTaskRecord)
    (step : RemediationStep) : engine bool :=
  match assoc "new_field" step.(st_arguments) with
  | Some (JStr expected) =>
      verify_attempts record task expected (Z.to_nat retry.(maximum_attempts)) 0
  | _ => throw (dependency "VERIFICATION_ARGUMENT_MISSING" false)
  end.

Fixpoint first_failure (results : list (WorkflowTaskRecord * result exn bool)) : option string :=
  match results with
  | [] => None
  | (task, Err e) :: _ =>
      Some match as_dependency e with Some (code, _) => code | None => "VERIFY_FAILED" end
  | (task, Ok false) :: _ => Some (System_upper task.(wt_system_id) +:+ "_VERIFICATION_FAILED")
  | (_, Ok true) :: results => first_failure results
  end.

Definition _verify (record : WorkflowExecutionRecord) : engine (option string) :=
  plan ← _require_plan record;
  let step_by_id := steps_by_id plan.(pl_steps) in
  calls ← from_result (mapM (λ t, match step_by_id !! t.(wt_step_id) with
            | Some step => Ok (_verify_task record t step) | None => Err KeyError end)
            record.(we_tasks));
  results ← gather_settled turn calls;
  mret (first_failure (zip record.(we_tasks) results)).

(** ** Rollback *)

Definition order_desc (x y : WorkflowTaskRecord * Z) : Prop := y.2 <= x.2.
#[export] Instance order_desc_dec : RelDecision order_desc.
Proof. intros x y. unfold order_desc. apply _. Defined.

(** [sorted(record.tasks, key=lambda item: order[item.step_id], reverse=True)] *)
Definition rollback_order (plan : RemediationPlan) (tasks : list WorkflowTaskRecord)
  : result exn (list WorkflowTaskRecord) :=
  keyed ← mapM (λ t, match steps_by_id plan.(pl_steps) !! t.(wt_step_id) with
                     | Some step => Ok (t, step.(st_order)) | None => Err KeyError end) tasks;
  Ok ((merge_sort order_desc keyed).*1).

(** One task of the rollback loop: its new record and whether it failed. *)
Definition rollback_task (record : WorkflowExecutionRecord) (task : WorkflowTaskRecord)
  : engine (WorkflowTaskRecord * bool) :=
  let system := System_value task.(wt_system_id) in
  let finish status error_code :=
    now ← clock;
    from_result (validated "WorkflowTaskRecord" WorkflowTaskRecord_ok
      (task_outcome task status task.(wt_attempt_count) error_code now)) in
  match task.(wt_snapshot_id), task.(wt_snapshot_hash) with
  | Some snapshot_id, Some snapshot_hash =>
      answer ← try_call (
        request ← request_id;
        _ ← world (sandbox_restore task.(wt_system_id) record.(we_tenant_id) snapshot_id request);
        request ← request_id;
        restored_hash ← world (sandbox_configuration_hash task.(wt_system_id)
                                 record.(we_tenant_id) request);
        _ ← throw_if (negb (bool_decide (restored_hash = snapshot_hash)))
              (dependency "RESTORE_HASH_MISMATCH" false);
        task' ← finish TaskRolledBack None;
        _ ← _record_audit record "WORKFLOW_ROLLBACK_SUCCEEDED" "restore_snapshot"
              (JObj [("snapshot_id", JStr snapshot_id); ("system_id", JStr system)])
              (JObj [("configuration_hash", JStr restored_hash)]) AuditSuccess
              (system +:+ " snapshot restored and hash verified.");
        mret task');
      match answer with
      | inl task' => mret (task', false)
      | inr (code, _) =>
          task' ← finish TaskRollbackFailed (Some code);
          _ ← _record_audit record "WORKFLOW_ROLLBACK_FAILED" "restore_snapshot"
                (JObj [("system_id", JStr system)]) (JObj [("error_code", JStr code)])
                AuditFailure (system +:+ " rollback requires operator attention.");
          mret (task', true)
      end
  | _, _ =>
      task' ← finish TaskRollbackFailed (Some "SNAPSHOT_MISSING");
      mret (task', true)
  end.

Fixpoint rollback_tasks (record : WorkflowExecutionRecord) (tasks by_step : list WorkflowTaskRecord)
    (rollback_failed : bool) : engine (list WorkflowTaskRecord * bool) :=
  match tasks with
  | [] => mret (by_step, rollback_failed)
  | task :: tasks =>
      outcome ← rollback_task record task;
      rollback_tasks record tasks (set_task outcome.1 by_step) (rollback_failed || outcome.2)
  end.

Definition _rollback (record : WorkflowExecutionRecord) (original_error : string)
  : engine WorkflowExecutionRecord :=
  change ← get_change record;
  _ ← (if mem change.(cr_status) [EXECUTING; VERIFYING]
       then _ ← _transition record ROLLING_BACK no_updates; mret tt else mret tt);
  record ← _set_runtime_status record RunRollingBack (Some original_error);
  plan ← _require_plan record;
  tasks ← from_result (rollback_order plan record.(we_tasks));
  outcome ← rollback_tasks record tasks (tasks_by_step record.(we_tasks)) false;
  let rollback_failed := outcome.2 in
  tasks ← from_result (collect record.(we_tasks) outcome.1);
  record ← _update_record record [SetTasks tasks];
  _ ← _transition record (if rollback_failed : bool then NEEDS_ATTENTION else FAILED) no_updates;
  _terminal record (if rollback_failed : bool then RunNeedsAttention else RunFailed)
    (Some original_error).
End Engine.
