(* ===== verification/Coordinator.v ===== *)
(** The entry points of the workflow coordinator: [process_event] and
    [resume_approval] of [engine.py], the Pub/Sub message handler of
    [subscriber.py] and the HTTP handlers of [app.py]. *)

From S2P Require Import Prelude Json Contracts Errors Persistence StateMachine Governance Coroutine Workflow Clients Engine.

Section Coordinator.
Context `{Platform} {V R W : Type} `{WorkflowRepository V} `{ChangeStateRepository R}
  `{Environment W} `{FleetClient W} `{GatewayClient W} `{SandboxClient W}.
Context (retry : RetryPolicy).
Abbreviation engine A := (co (EngineState V R W) exn A).

(** * [process_event] *)

Definition new_record (event : ChangeEvent) (timestamp : Z) : WorkflowExecutionRecord := {|
  we_workflow_execution_id := derive_workflow_id event;
  we_tenant_id := event.(ev_tenant_id);
  we_change_id := derive_change_id event;
  we_event_id := event.(ev_event_id);
  we_trace_id := event.(ev_trace_id);
  we_event := event;
  we_status := RunReceived;
  we_delivery_attempts := 1;
  we_plan := None;
  we_plan_hash := None;
  we_approval_id := None;
  we_approval_expires_at := None;
  we_tasks := [];
  we_last_error_code := None;
  we_started_at := timestamp;
  we_updated_at := timestamp;
  we_completed_at := None;
  we_version := 1 |}.

(** The statuses a redelivered event leaves alone. *)
Definition settled_delivery (s : WorkflowRuntimeStatus) : bool :=
  mem s [RunWaitingApproval; RunExecuting; RunVerifying; RunRollingBack; RunCompleted; RunFailed;
         RunNeedsAttention; RunDeadLettered].

(** Load or create the workflow: [inl] is the record to return at once, [inr] the
    record to go on with. *)
Definition open_workflow (event : ChangeEvent)
  : engine (WorkflowExecutionRecord + WorkflowExecutionRecord) :=
  timestamp ← clock;
  co_catch (
    record ← workflows (wf_get event.(ev_tenant_id) (derive_change_id event)
               (derive_workflow_id event));
    if settled_delivery record.(we_status) then mret (inl record)
    else
      record ← _update_record record [SetDeliveryAttempts (record.(we_delivery_attempts) + 1)];
      mret (inr record))
    (λ e, match e with
      | EWorkflow WorkflowNotFoundError => Some (
          record ← from_result (validated "WorkflowExecutionRecord" WorkflowExecutionRecord_ok
                     (new_record event timestamp));
          record ← workflows (wf_create_or_get record);
          mret (inr record))
      | _ => None
      end).

(** The first delivery of a change enters screening. *)
Definition start_screening (record : WorkflowExecutionRecord) : engine unit :=
  change ← get_change record;
  if bool_decide (change.(cr_status) = RECEIVED)
  then _ ← _transition record SCREENING
             (mkRecordUpdates (Some record.(we_workflow_execution_id)) None None None []);
       mret tt
  else mret tt.

(** One pending task per plan step. *)
Definition initial_tasks (plan : RemediationPlan) (timestamp : Z)
  : result exn (list WorkflowTaskRecord) :=
  mapM (λ step,
    system ← system_for_step step;
    validated "WorkflowTaskRecord" WorkflowTaskRecord_ok {|
      wt_step_id := step.(st_step_id);
      wt_system_id := system;
      wt_status := TaskPending;
      wt_attempt_count := 0;
      wt_snapshot_id := None;
      wt_snapshot_hash := None;
      wt_execution_id := None;
      wt_output_hash := None;
      wt_error_code := None;
      wt_updated_at := timestamp |}) plan.(pl_steps).

(** The analysis failed: security block, retry of the delivery, or dead letter. *)
Definition analysis_failed (record : WorkflowExecutionRecord) (code : string) (transient : bool)
  : engine WorkflowExecutionRecord :=
  if bool_decide (code = "PROMPT_INJECTION_BLOCKED") then
    _ ← _record_audit record "SECURITY_PROMPT_INJECTION_BLOCKED" "screen_change_content"
          (JObj [("event_hash", JStr (sha256_digest (event_json record.(we_event))))])
          (JObj [("decision", JStr "blocked"); ("code", JStr code)]) AuditRejected
          ("Security screening blocked untrusted change content before " +:+
           "agent or tool execution.");
    _ ← _transition record BLOCKED no_updates;
    _terminal record RunFailed (Some code)
  else if transient then throw (transient_failure code)
  else _dead_letter record code.

(** The branch taken while the record has no plan. *)
Definition analyze_event (record : WorkflowExecutionRecord) (event : ChangeEvent)
  : engine (WorkflowExecutionRecord + WorkflowExecutionRecord) :=
  answer ← try_call (
    request ← request_id;
    world (fleet_analyze record.(we_change_id) event request));
  match answer with
  | inr (code, transient) => r ← analysis_failed record code transient; mret (inl r)
  | inl analysis =>
      change ← get_change record;
      _ ← (if bool_decide (change.(cr_status) = SCREENING)
           then _ ← _transition record ANALYZING no_updates; mret tt else mret tt);
      let plan := analysis.(fl_draft_plan) in
      if negb (bool_decide (plan.(pl_tenant_id) = record.(we_tenant_id))) ||
         negb (bool_decide (plan.(pl_change_id) = record.(we_change_id))) ||
         negb (bool_decide (analysis.(fl_draft_plan_hash) = calculate_plan_hash plan))
      then r ← _dead_letter record "INVALID_FLEET_PLAN"; mret (inl r)
      else
        task_timestamp ← clock;
        tasks ← from_result (initial_tasks plan task_timestamp);
        expires_at ← clock;
        r ← _update_record record [
          SetPlan plan; SetPlanHash (calculate_plan_hash plan); SetTasks tasks;
          SetApprovalId ("approval_" +:+ record.(we_workflow_execution_id));
          SetApprovalExpiresAt (expires_at + minutes 30)];
        mret (inr r)
  end.

(** The change is walked to [AWAITING_APPROVAL]. *)
Definition advance_change (record : WorkflowExecutionRecord) (plan : RemediationPlan)
  : engine ChangeRecord :=
  change ← get_change record;
  change ← (if bool_decide (change.(cr_status) = SCREENING)
            then _transition record ANALYZING no_updates else mret change);
  change ← (if bool_decide (change.(cr_status) = ANALYZING)
            then _transition record PLAN_READY
                   (mkRecordUpdates None (Some plan.(pl_version)) (Some (calculate_plan_hash plan))
                      (Some plan.(pl_risk_level)) [])
            else mret change);
  change ← (if bool_decide (change.(cr_status) = PLAN_READY)
            then _transition record AWAITING_APPROVAL no_updates else mret change);
  _ ← throw_if (negb (bool_decide (change.(cr_status) = AWAITING_APPROVAL)))
        (permanent "CHANGE_NOT_AWAITING_APPROVAL");
  mret change.

(** The plan is submitted for approval. *)
Definition request_approval (record : WorkflowExecutionRecord) : engine WorkflowExecutionRecord :=
  plan ← _require_plan record;
  _ ← advance_change record plan;
  match record.(we_approval_id), record.(we_approval_expires_at) with
  | Some approval_id, Some expires_at =>
      answer ← try_call (
        request ← request_id;
        world (gateway_create_approval approval_id plan expires_at request));
      match answer with
      | inr (code, true) => throw (transient_failure code)
      | inr (code, false) => _dead_letter record code
      | inl _ => _set_runtime_status record RunWaitingApproval None
      end
  | _, _ => throw (permanent "APPROVAL_METADATA_MISSING")
  end.

Definition process_event (event : ChangeEvent) : engine WorkflowExecutionRecord :=
  opened ← open_workflow event;
  match opened with
  | inl record => mret record
  | inr record =>
      if negb (bool_decide (event.(ev_event_type) = "api.contract.changed"))
      then _dead_letter record "UNSUPPORTED_EVENT_TYPE"
      else
        _ ← _ensure_change record;
        record ← _set_runtime_status record RunAnalyzing None;
        _ ← start_screening record;
        analyzed ← (match record.(we_plan) with
                    | None => analyze_event record event
                    | Some _ => mret (inr record) end);
        match analyzed with
        | inl record => mret record
        | inr record => request_approval record
        end
  end.

(** * [resume_approval] *)

(** Execute, verify and complete, or roll back. *)
Definition execute_approved (record : WorkflowExecutionRecord) : engine WorkflowExecutionRecord :=
  record ← _set_runtime_status record RunExecuting None;
  record ← _capture_snapshots record;
  record ← _execute_dag retry record;
  if existsb (has_status TaskFailed) record.(we_tasks) then
    _rollback record
      match record.(we_last_error_code) with
      | Some (String c rest) => String c rest | _ => "TOOL_EXECUTION_FAILED" end
  else
    _ ← _transition record VERIFYING no_updates;
    record ← _set_runtime_status record RunVerifying None;
    verification_error ← _verify retry record;
    match verification_error with
    | Some code => _rollback record code
    | None =>
        _ ← _transition record COMPLETED no_updates;
        _terminal record RunCompleted None
    end.

Definition rejected (record : WorkflowExecutionRecord) (change : ChangeRecord)
  : engine WorkflowExecutionRecord :=
  _ ← (if bool_decide (change.(cr_status) = AWAITING_APPROVAL)
       then _ ← _transition record REJECTED no_updates; mret tt else mret tt);
  _terminal record RunFailed (Some "APPROVAL_REJECTED").

Definition changes_requested (record : WorkflowExecutionRecord) (change : ChangeRecord)
  : engine WorkflowExecutionRecord :=
  change ← (if bool_decide (change.(cr_status) = AWAITING_APPROVAL)
            then _transition record REJECTED no_updates else mret change);
  _ ← (if bool_decide (change.(cr_status) = REJECTED)
       then _ ← _transition record ANALYZING no_updates; mret tt else mret tt);
  _set_runtime_status record RunAnalyzing (Some "APPROVAL_CHANGES_REQUESTED").

Definition approved (record : WorkflowExecutionRecord) (change : ChangeRecord)
  : engine WorkflowExecutionRecord :=
  change ← (if bool_decide (change.(cr_status) = AWAITING_APPROVAL)
            then _transition record APPROVED no_updates else mret change);
  change ← (if bool_decide (change.(cr_status) = APPROVED)
            then _transition record EXECUTING no_updates else mret change);
  _ ← throw_if (negb (bool_decide (change.(cr_status) = EXECUTING)))
        (permanent "CHANGE_NOT_EXECUTABLE");
  execute_approved record.

Definition resume_approval (callback : ApprovalCallbackRequest) : engine WorkflowExecutionRecord :=
  change ← changes (repo_get callback.(cb_tenant_id) callback.(cb_change_id));
  match change.(cr_workflow_execution_id) with
  | None => throw (permanent "WORKFLOW_ID_MISSING")
  | Some workflow_execution_id =>
      record ← workflows (wf_get callback.(cb_tenant_id) callback.(cb_change_id)
                 workflow_execution_id);
      if mem record.(we_status) [RunCompleted; RunFailed; RunNeedsAttention] then mret record
      else
        plan ← _require_plan record;
        _ ← throw_if (negb (bool_decide (record.(we_approval_id) = Some callback.(cb_approval_id))) ||
                      negb (bool_decide (record.(we_plan_hash) = Some callback.(cb_plan_hash))) ||
                      negb (plan.(pl_version) =? callback.(cb_plan_version)))
              (permanent "APPROVAL_CALLBACK_SCOPE_MISMATCH");
        match callback.(cb_status) with
        | RequestRejected => rejected record change
        | RequestChangesRequested => changes_requested record change
        | _ => approved record change
        end
  end.

(** * The subscriber: [_handle_message]

    [ack], [nack] and the messages published to the dead-letter topic are the
    handler's effects on the broker. *)

Inductive Settlement := Ack | Nack.
#[export] Instance Settlement_eq_dec : EqDecision Settlement.
Proof. solve_decision. Defined.

(** The message's settlement and the error code of the dead letter published for
    it, if any. *)
Definition message_outcome (outcome : result exn WorkflowExecutionRecord)
  : option string * Settlement :=
  match outcome with
  | Err (EWorkflow (WorkflowTransientError _)) => (None, Nack)
  | Err (EWorkflow (WorkflowPermanentError code)) => (Some code, Ack)
  | Err _ => (None, Nack)
  | Ok record =>
      if bool_decide (record.(we_status) = RunDeadLettered)
      then (Some match record.(we_last_error_code) with
                 | Some (String c rest) => String c rest | _ => "WORKFLOW_FAILED" end, Ack)
      else (None, Ack)
  end.

(** [decoded] is [ChangeEvent.model_validate_json(message.data)]; [running] tells
    whether the event loop is set.  Publishing a dead letter may fail. *)
Definition _handle_message (decoded : option ChangeEvent) (running : bool)
    (publish : string → call W unit) : engine Settlement :=
  let settle_with outcome :=
    match outcome with
    | (Some code, settlement) => _ ← world (publish code); mret settlement
    | (None, settlement) => mret settlement
    end in
  match decoded with
  | None => settle_with (Some "INVALID_EVENT_SCHEMA", Ack)
  | Some event =>
      if negb running then mret Nack
      else
        outcome ← settle (process_event event);
        settle_with (message_outcome outcome)
  end.

(** * The HTTP handlers: [app.py] *)

(** [POST /internal/v1/approval-callbacks] *)
Definition approval_callback (secret : string) (callback_secret : option string)
    (body : ApprovalCallbackRequest) : engine WorkflowExecutionRecord :=
  _ ← throw_if (negb (ApprovalCallbackRequest_ok body)) (ValidationError "RequestValidation");
  _ ← match callback_secret with
      | None => throw (EWorkflow CallbackAuthenticationError)
      | Some given =>
          same ← from_result (compare_digest given secret);
          throw_if (negb same) (EWorkflow CallbackAuthenticationError)
      end;
  resume_approval body.

(** [GET /v1/workflows/{workflow_execution_id}] *)
Definition get_workflow (tenant_id change_id workflow_execution_id : string)
  : engine WorkflowExecutionRecord :=
  _ ← throw_if (negb (nonempty_str change_id && (1 <=? slen tenant_id) && (slen tenant_id <=? 128)))
        (ValidationError "RequestValidation");
  workflows (wf_get tenant_id change_id workflow_execution_id).

(** [GET /v1/dead-letters] *)
Definition dead_letters (tenant_id : string) (limit : Z) : engine (list DeadLetterRecord) :=
  _ ← throw_if (negb ((1 <=? slen tenant_id) && (slen tenant_id <=? 128) && (1 <=? limit) &&
                      (limit <=? 100))) (ValidationError "RequestValidation");
  workflows (wf_list_dead_letters tenant_id limit).
End Coordinator.
