(* ===== verification/WorkflowSamples.v ===== *)
(** Concrete inputs for the workflow coordinator: an outside world with a clock,
    scripted services and faults, and a workflow taken to its approval.  The
    witnesses of the coordinator's theorems run on it. *)

From Stdlib Require Import QArith.
From S2P Require Import Prelude Json Contracts Errors Persistence Samples StateMachine Governance Coroutine Workflow Clients Engine Coordinator.
Open Scope Z_scope.

(** * A world

    [dw_faults] gateway calls still fail transiently; [dw_healthy] tells whether
    the systems pass their verification. *)

Record DemoWorld := mkDemoWorld {
  dw_now : Z; dw_serial : Z; dw_faults : Z; dw_healthy : bool }.

Definition tick (w : DemoWorld) : DemoWorld :=
  mkDemoWorld (w.(dw_now) + 1) (w.(dw_serial) + 1) w.(dw_faults) w.(dw_healthy).
Definition recovered (w : DemoWorld) : DemoWorld :=
  mkDemoWorld w.(dw_now) w.(dw_serial) (w.(dw_faults) - 1) w.(dw_healthy).

#[export] Instance demo_environment : Environment DemoWorld := {
  read_clock w := (w.(dw_now), tick w);
  new_uuid w := (zstr w.(dw_serial), tick w);
  read_jitter w := ((1 # 2)%Q, w);
  sleep _ w := tick w;
  choose_turn w := (Z.even w.(dw_serial), tick w);
  float_json _ := JInt 0;
}.

(** The event's change and workflow. *)
Definition demo_change_id : string := Eval vm_compute in derive_change_id demo_event.
Definition demo_workflow_id : string := Eval vm_compute in derive_workflow_id demo_event.

(** The demonstration plan, for the event's change. *)
Definition fleet_plan : RemediationPlan := {|
  pl_plan_id := pl_plan_id demo_plan; pl_tenant_id := pl_tenant_id demo_plan;
  pl_change_id := demo_change_id; pl_version := pl_version demo_plan;
  pl_risk_level := pl_risk_level demo_plan; pl_summary := pl_summary demo_plan;
  pl_preconditions := pl_preconditions demo_plan; pl_steps := pl_steps demo_plan;
  pl_verification_steps := pl_verification_steps demo_plan;
  pl_rollback_steps := pl_rollback_steps demo_plan;
  pl_evidence_refs := pl_evidence_refs demo_plan; pl_created_at := pl_created_at demo_plan |}.
Definition fleet_plan_hash : string := Eval vm_compute in calculate_plan_hash fleet_plan.

Definition demo_analysis : FleetAnalysisResult := {|
  fl_analysis_id := "analysis-1"; fl_tenant_id := "acme"; fl_change_id := demo_change_id;
  fl_trace_id := "trace-1"; fl_model_mode := ModeFake;
  fl_orchestration := mkOrchestrationDirective "acme" demo_change_id "Migrate the identifier"
    ["crm"; "analytics"; "support"; "impact"; "compliance"; "verification"] ["ev-1"] (1 # 1) [];
  fl_impact := mkImpactAnalysis "acme" demo_change_id ["crm"] [] HIGH (1 # 1) ["ev-1"] [] [];
  fl_compliance := mkComplianceAnalysis "acme" demo_change_id [] [] [] [] [] [] ["ev-1"] (1 # 1);
  fl_remediation_proposals := [];
  fl_verification := mkVerificationProposal "acme" demo_change_id ["counts"] "stop" "restore"
    ["ev-1"] (1 # 1);
  fl_draft_plan := fleet_plan; fl_draft_plan_hash := fleet_plan_hash;
  fl_evidence := []; fl_invocations := []; fl_max_parallel_agents := 3;
  fl_started_at := 6000; fl_completed_at := 7000 |}.

#[export] Instance demo_fleet : FleetClient DemoWorld := {
  fleet_analyze _ _ _ w := (Ok demo_analysis, tick w);
}.

Definition demo_decision : PolicyDecision := {|
  pd_decision_id := "d1"; pd_tenant_id := "acme"; pd_intent_id := "i1"; pd_effect := ALLOW;
  pd_computed_risk := HIGH; pd_approval_required := true; pd_approval_valid := true;
  pd_matched_policy_ids := ["p1"]; pd_reasons := ["r1"]; pd_evaluated_at := 8000 |}.

Definition pending_request (approval_id : string) (plan : RemediationPlan) (at_ expires_at : Z)
  : ApprovalRequestRecord := {|
  ar_approval_id := approval_id; ar_tenant_id := plan.(pl_tenant_id);
  ar_change_id := plan.(pl_change_id); ar_plan_id := plan.(pl_plan_id);
  ar_plan_hash := calculate_plan_hash plan; ar_plan_version := plan.(pl_version);
  ar_environment := SANDBOX; ar_scope := st_step_id <$> plan.(pl_steps);
  ar_status := RequestPending; ar_requested_by := "workflow-coordinator"; ar_requested_at := at_;
  ar_expires_at := expires_at; ar_decided_by := None; ar_decided_by_roles := [];
  ar_decided_at := None; ar_comment := None; ar_version := 1 |}.

#[export] Instance demo_gateway_client : GatewayClient DemoWorld := {
  gateway_create_approval a plan expires _ w :=
    (Ok (pending_request a plan w.(dw_now) expires), tick w);
  gateway_execute _ _ step _ _ _ w :=
    if 0 <? w.(dw_faults)
    then (Err (dependency "TOOL_GATEWAY_UNAVAILABLE" true), recovered (tick w))
    else (Ok (mkGatewayExecutionResult ("exe_" +:+ step.(st_step_id)) demo_decision []
                (sha256_digest (JStr step.(st_step_id))) false), tick w);
}.

Definition system_hash (system : System) : string := sha256_digest (JStr (System_value system)).

#[export] Instance demo_sandboxes : SandboxClient DemoWorld := {
  sandbox_snapshot system t _ w :=
    (Ok (mkSnapshotRecord ("snap_" +:+ System_value system) t (System_value system) []
           (system_hash system) w.(dw_now)), tick w);
  sandbox_restore system _ snapshot _ w :=
    (Ok (mkRestoreResult (System_value system) snapshot (system_hash system) true), tick w);
  sandbox_verify system _ _ _ w :=
    (Ok (mkVerificationResult (System_value system) w.(dw_healthy) [] None), tick w);
  sandbox_configuration_hash system _ _ w := (Ok (system_hash system), tick w);
}.

(** * A workflow and its approval *)

Definition demo_retry : RetryPolicy := mkRetryPolicy 3 (1 # 2) (10 # 1).

Abbreviation demo_engine :=
  (EngineState InMemoryWorkflowRepository InMemoryChangeStateRepository DemoWorld).

Definition fresh (faults : Z) (healthy : bool) : demo_engine :=
  mkEngineState Wf.empty Memory.empty (mkDemoWorld 10000 1 faults healthy).

Definition demo_callback (decision : ApprovalRequestStatus) : ApprovalCallbackRequest := {|
  cb_tenant_id := "acme"; cb_change_id := demo_change_id;
  cb_approval_id := "approval_" +:+ demo_workflow_id; cb_plan_hash := fleet_plan_hash;
  cb_plan_version := 1; cb_status := decision; cb_decided_at := 20000 |}.

(** After the delivery of the event the workflow waits for its approval. *)
Definition waiting (faults : Z) (healthy : bool) : demo_engine :=
  (run (process_event demo_event) (fresh faults healthy)).2.

Abbreviation decided decision s := (run (resume_approval demo_retry (demo_callback decision)) s).

Definition status_of {S} (x : result exn WorkflowExecutionRecord * S) : option WorkflowRuntimeStatus :=
  match x.1 with Ok r => Some r.(we_status) | Err _ => None end.
Definition tasks_of {S} (x : result exn WorkflowExecutionRecord * S)
  : list (WorkflowTaskStatus * Z) :=
  match x.1 with
  | Ok r => (λ t, (t.(wt_status), t.(wt_attempt_count))) <$> r.(we_tasks) | Err _ => [] end.
