(* ===== verification/EngineFacts.v ===== *)
(** The guarantee of the workflow engine: what one step of any of its coroutines
    may do to the stored workflows and changes, and the specifications of the
    engine's private methods under every interleaving. *)

From S2P Require Import Prelude Json Contracts Errors Persistence StateMachine Governance Coroutine Workflow Clients Engine.

(** * The guarantee *)

Definition final (r : WorkflowExecutionRecord) : bool :=
  mem r.(we_status) [RunCompleted; RunFailed; RunNeedsAttention].

(** Deliveries of one event agree on its type: a workflow has the event type of its
    key. *)
Class EventTypes := event_type_of : wf_key → string.

Definition supported `{EventTypes} (k : wf_key) : Prop := event_type_of k = "api.contract.changed".

(** What every stored record satisfies: the model's validator accepts it, it has one
    task per step, it is filed under its event's type, and only workflows of the
    supported type get a plan or a final status. *)
Definition valid_record `{Platform} `{EventTypes} (r : WorkflowExecutionRecord) : Prop :=
  WorkflowExecutionRecord_ok r = true ∧ NoDup (wt_step_id <$> r.(we_tasks)) ∧
  r.(we_event).(ev_event_type) = event_type_of (key_of r) ∧
  (is_Some r.(we_plan) ∨ final r = true → supported (key_of r)).

(** A stored record moves on: a higher version of the same workflow, never from a
    final status; its plan and its approval stay what they are once they are there,
    and so does the fact that it has completed. *)
Record advanced (r r' : WorkflowExecutionRecord) : Prop := {
  adv_version : r.(we_version) < r'.(we_version);
  adv_open : final r = false;
  adv_key : key_of r' = key_of r;
  adv_event : r'.(we_event) = r.(we_event);
  adv_started : r'.(we_started_at) = r.(we_started_at);
  adv_plan p : r.(we_plan) = Some p → r'.(we_plan) = Some p ∧
    r'.(we_plan_hash) = r.(we_plan_hash) ∧ r'.(we_approval_id) = r.(we_approval_id);
  adv_done : is_Some r.(we_completed_at) → is_Some r'.(we_completed_at) }.

Definition wf_le (r r' : WorkflowExecutionRecord) : Prop := r' = r ∨ advanced r r'.

#[export] Instance wf_le_preorder : PreOrder wf_le.
Proof.
  split; [by left|]. intros x y z [->|A] [->|B]; [by left|by right|by right|right].
  destruct A as [A1 A2 A3 A4 A5 A6 A7], B as [B1 B2 B3 B4 B5 B6 B7].
  constructor; [lia|done|congruence|congruence|congruence| |auto].
  intros p Hp. destruct (A6 p Hp) as (Hy & ? & ?), (B6 p Hy) as (? & ? & ?).
  split_and!; congruence.
Qed.

(** Equal versions of a workflow are equal records. *)
Lemma wf_le_version r r' : wf_le r r' → r'.(we_version) = r.(we_version) → r' = r.
Proof. intros [->|[A _]]; [done|lia]. Qed.

(** A change moves along the transition graph and keeps its identity. *)
Definition change_le (c c' : ChangeRecord) : Prop :=
  c' = c ∨ (c.(cr_version) < c'.(cr_version) ∧ same_identity c c' ∧
            rtc edge c.(cr_status) c'.(cr_status)).

#[export] Instance change_le_preorder : PreOrder change_le.
Proof.
  split; [by left|]. intros x y z [->|(A1 & A2 & A3)] [->|(B1 & B2 & B3)]; [by left|by right..|right].
  split_and!; [lia|by etrans|by etrans].
Qed.

Lemma wf_le_refl r : wf_le r r.
Proof. reflexivity. Qed.
Lemma change_le_refl c : change_le c c.
Proof. reflexivity. Qed.
#[export] Hint Resolve wf_le_refl change_le_refl : core.

Section Guarantee.
Context `{Platform} `{EventTypes} {V R W : Type} `{WorkflowLaws V} `{RepositoryLaws R}.
Abbreviation state := (EngineState V R W).

Definition sound (s : state) : Prop :=
  wf_inv s.(es_workflows) ∧ repo_inv s.(es_changes) ∧
  ∀ k r, wf_view s.(es_workflows) k = Some r → valid_record r.

Record evolves (s s' : state) : Prop := {
  ev_workflow k r : wf_view s.(es_workflows) k = Some r →
    ∃ r', wf_view s'.(es_workflows) k = Some r' ∧ wf_le r r';
  ev_dead_letter t i d : dl_view s.(es_workflows) t i = Some d →
    dl_view s'.(es_workflows) t i = Some d;
  ev_change t c r : view_change s.(es_changes) t c = Some r →
    ∃ r', view_change s'.(es_changes) t c = Some r' ∧ change_le r r';
  ev_audit t i a : view_audit s.(es_changes) t i = Some a →
    view_audit s'.(es_changes) t i = Some a }.

Definition G (s s' : state) : Prop := sound s → sound s' ∧ evolves s s'.

#[export] Instance evolves_preorder : PreOrder evolves.
Proof.
  split.
  - intros s. constructor; eauto.
  - intros x y z [A1 A2 A3 A4] [B1 B2 B3 B4]. constructor; [|eauto| |eauto].
    + intros k r (r1 & V1 & L1)%A1. apply B1 in V1 as (r2 & V2 & L2). exists r2. split; [done|by etrans].
    + intros t c r (r1 & V1 & L1)%A3. apply B3 in V1 as (r2 & V2 & L2). exists r2. split; [done|by etrans].
Qed.

#[export] Instance G_preorder : PreOrder G.
Proof.
  split.
  - intros s Hs. by split.
  - intros x y z A B Hx. destruct (A Hx) as [Hy Exy], (B Hy) as [Hz Eyz]. split; [done|by etrans].
Qed.

Lemma G_sound s s' : G s s' → sound s → sound s'.
Proof. intros HG Hs. by apply HG. Qed.

(** ** A record the engine holds

    [seen r s]: [r] is valid and was the stored record at some point; what is stored
    now is [r] or has moved on from it. *)
Definition seen (r : WorkflowExecutionRecord) (s : state) : Prop :=
  valid_record r ∧
  ∃ cur, wf_view s.(es_workflows) (key_of r) = Some cur ∧ wf_le r cur.

Lemma seen_later r s s' : sound s → G s s' → seen r s → seen r s'.
Proof.
  intros Hs HG (Hok & cur & Hcur & Hle). split; [done|].
  destruct (HG Hs) as [_ E]. destruct (ev_workflow _ _ E _ _ Hcur) as (r' & ? & ?).
  exists r'. split; [done|by etrans].
Qed.

(** [seen_change c s]: likewise for a change. *)
Definition seen_change (c : ChangeRecord) (s : state) : Prop :=
  ∃ cur, view_change s.(es_changes) c.(cr_tenant_id) c.(cr_change_id) = Some cur ∧ change_le c cur.

Lemma seen_change_later c s s' : sound s → G s s' → seen_change c s → seen_change c s'.
Proof.
  intros Hs HG (cur & Hcur & Hle). destruct (HG Hs) as [_ E].
  destruct (ev_change _ _ E _ _ _ Hcur) as (c' & ? & ?). exists c'. split; [done|by etrans].
Qed.

(** ** The steps *)

Lemma G_world s w : G s (mkEngineState s.(es_workflows) s.(es_changes) w).
Proof. intros Hs. split; [exact Hs|]. constructor; eauto. Qed.

Lemma G_workflows s v :
  (sound s → wf_inv v ∧
    (∀ k r, wf_view v k = Some r → valid_record r) ∧
    (∀ k r, wf_view s.(es_workflows) k = Some r → ∃ r', wf_view v k = Some r' ∧ wf_le r r') ∧
    (∀ t i d, dl_view s.(es_workflows) t i = Some d → dl_view v t i = Some d)) →
  G s (mkEngineState v s.(es_changes) s.(es_world)).
Proof.
  intros Hv Hs. destruct (Hv Hs) as (Hi & Hok & Hle & Hdl). destruct Hs as (_ & Hr & _).
  split; [by split_and!|]. constructor; simpl; [done..|eauto|done].
Qed.

Lemma G_changes s r :
  (sound s → repo_inv r ∧
    (∀ t c x, view_change s.(es_changes) t c = Some x →
       ∃ x', view_change r t c = Some x' ∧ change_le x x') ∧
    (∀ t i a, view_audit s.(es_changes) t i = Some a → view_audit r t i = Some a)) →
  G s (mkEngineState s.(es_workflows) r s.(es_world)).
Proof.
  intros Hr Hs. destruct (Hr Hs) as (Hi & Hle & Hau). destruct Hs as (Hw & _ & Hok).
  split; [by split_and!|]. constructor; simpl; [eauto|done..].
Qed.

(** Storing the successor of the current record. *)
Lemma G_wf_update s r' v :
  valid_record r' →
  (∀ cur, sound s → wf_view s.(es_workflows) (key_of r') = Some cur →
     cur.(we_version) = v → r'.(we_version) = v + 1 → advanced cur r') →
  G s (mkEngineState (wf_update r' v s.(es_workflows)).2 s.(es_changes) s.(es_world)).
Proof.
  intros Hok Hadv. apply G_workflows. intros Hs. pose proof Hs as (Hi & _ & Hall).
  pose proof (wf_update_law s.(es_workflows) r' v Hi) as Hlaw. cbn zeta in Hlaw.
  destruct (wf_view s.(es_workflows) (key_of r')) as [cur|] eqn:Hcur; last first.
  { destruct Hlaw as [-> _]. split_and!; eauto. }
  destruct (negb _ || negb _) eqn:Hver.
  { destruct Hlaw as [-> _]. split_and!; eauto. }
  apply orb_false_iff in Hver as [V1%negb_false_iff%Z.eqb_eq V2%negb_false_iff%Z.eqb_eq].
  destruct Hlaw as (_ & Hi' & Hv & Hd). split_and!; [done| | |].
  - intros k r. rewrite Hv. case_bool_decide; [naive_solver|eauto].
  - intros k r Hr. rewrite Hv. case_bool_decide as Hk; [|eauto]. subst k.
    exists r'. split; [done|]. right. assert (r = cur) as -> by congruence. by apply Hadv.
  - intros t i d Hdl. by rewrite Hd.
Qed.

Lemma G_wf_create s r :
  valid_record r →
  G s (mkEngineState (wf_create_or_get r s.(es_workflows)).2 s.(es_changes) s.(es_world)).
Proof.
  intros Hok. apply G_workflows. intros Hs. pose proof Hs as (Hi & _ & Hall).
  pose proof (wf_create_law s.(es_workflows) r Hi) as Hlaw. cbn zeta in Hlaw.
  destruct (wf_view s.(es_workflows) (key_of r)) as [cur|] eqn:Hcur.
  { destruct Hlaw as [-> _]. split_and!; eauto. }
  destruct Hlaw as (_ & Hi' & Hv & Hd). split_and!; [done| | |].
  - intros k r'. rewrite Hv. case_bool_decide; [naive_solver|eauto].
  - intros k r' Hr. rewrite Hv. case_bool_decide as Hk; [|eauto]. subst k. congruence.
  - intros t i d Hdl. by rewrite Hd.
Qed.

Lemma G_dead_letter s d :
  G s (mkEngineState (wf_record_dead_letter d s.(es_workflows)).2 s.(es_changes) s.(es_world)).
Proof.
  apply G_workflows. intros Hs. pose proof Hs as (Hi & _ & Hall).
  pose proof (wf_dead_letter_law s.(es_workflows) d Hi) as Hlaw. cbn zeta in Hlaw.
  destruct (dl_view _ _ _) as [cur|] eqn:Hcur.
  { destruct Hlaw as [-> _]. split_and!; eauto. }
  destruct Hlaw as (_ & Hi' & Hv & Hd). split_and!; [done| | |].
  - intros k r'. rewrite Hv. eauto.
  - intros k r' Hr. rewrite Hv. eauto.
  - intros t i d' Hdl. rewrite Hd. case_bool_decide as Hk; [|done]. destruct Hk; congruence.
Qed.

Lemma G_wf_get s t c w :
  G s (mkEngineState (wf_get t c w s.(es_workflows)).2 s.(es_changes) s.(es_world)).
Proof.
  apply G_workflows. intros (Hi & _ & Hall).
  rewrite (wf_get_law s.(es_workflows) t c w Hi). simpl. split_and!; eauto.
Qed.

Lemma G_repo_get s t c :
  G s (mkEngineState s.(es_workflows) (repo_get t c s.(es_changes)).2 s.(es_world)).
Proof.
  apply G_changes. intros (_ & Hi & _). pose proof (get_law s.(es_changes) t c Hi) as Hlaw.
  destruct (view_change _ t c); [rewrite Hlaw|destruct Hlaw as (e & -> & _)]; simpl; eauto.
Qed.

Lemma G_record_audit s a :
  G s (mkEngineState s.(es_workflows) (repo_record_audit a s.(es_changes)).2 s.(es_world)).
Proof.
  apply G_changes. intros (_ & Hi & _).
  destruct (record_audit_keeps_changes s.(es_changes) a Hi) as [Hi' Hch]. split_and!; [done| |].
  - intros t c x Hx. rewrite Hch. eauto.
  - intros t i a' Ha'. by apply (record_audit_holds_audit t i a' a).
Qed.

Lemma G_add_with_audit s r a : scoped r a →
  G s (mkEngineState s.(es_workflows) (repo_add_with_audit r a s.(es_changes)).2 s.(es_world)).
Proof.
  intros Hsc. apply G_changes. intros (_ & Hi & _).
  pose proof (add_law s.(es_changes) r a Hi Hsc) as Hlaw. cbn zeta in Hlaw.
  destruct (view_change s.(es_changes) _ _) eqn:Hnew; [destruct Hlaw as [-> _]; eauto|].
  destruct (view_audit s.(es_changes) _ _) eqn:Hfresh; [destruct Hlaw as [-> _]; eauto|].
  destruct Hlaw as (_ & Hi' & Hch & Hau). split_and!; [done| |].
  - intros t c x Hx. rewrite Hch. case_bool_decide as Hk; [|eauto]. destruct Hk; congruence.
  - intros t i a' Ha'. rewrite Hau. case_bool_decide as Hk; [|done]. destruct Hk; congruence.
Qed.

Lemma G_transition s at_ i t c target v tr ty ac u :
  G s (mkEngineState s.(es_workflows)
         (transition at_ i t c target v tr ty ac u s.(es_changes)).2 s.(es_world)).
Proof.
  apply G_changes. intros (_ & Hi & _).
  set (q := mkRequest at_ i t c target v tr ty ac u).
  split; [apply (transition_outcome s.(es_changes) at_ i t c target v tr ty ac u Hi)|]. split.
  - intros t' c' x Hx. destruct (serve_step q s.(es_changes) t' c' x Hi Hx) as [_ (x' & Hx' & Hst)].
    exists x'. split; [exact Hx'|]. destruct (_ && _) in Hst; [right|by left].
    destruct Hst as (He & Hid & _ & _ & Hver). split_and!; [lia|done|by apply rtc_once].
  - intros t' i' a Ha. by apply (transition_holds_audit t' i' a at_ i t c target v tr ty ac u).
Qed.
End Guarantee.

(** * Updates *)

(** The updates never unset a completion, and never touch what identifies a
    workflow. *)
Lemma set_fields_keep us r :
  key_of (foldl set_field r us) = key_of r ∧
  (foldl set_field r us).(we_event) = r.(we_event) ∧
  (foldl set_field r us).(we_started_at) = r.(we_started_at) ∧
  (is_Some r.(we_completed_at) → is_Some (foldl set_field r us).(we_completed_at)).
Proof.
  revert r. induction us as [|u us IH]; intros r; simpl; [done|].
  destruct (IH (set_field r u)) as (K & E & T & D). rewrite K, E, T. split_and!; try done.
  intros Hd. apply D. by destruct u.
Qed.

(** [us] leaves an attached plan and its approval alone. *)
Definition keeps_plan (r : WorkflowExecutionRecord) (us : list field_update) : Prop :=
  is_Some r.(we_plan) →
  (foldl set_field r us).(we_plan) = r.(we_plan) ∧
  (foldl set_field r us).(we_plan_hash) = r.(we_plan_hash) ∧
  (foldl set_field r us).(we_approval_id) = r.(we_approval_id).

(** What an update that the validator accepts has to respect. *)
Definition admissible_update `{Platform} `{EventTypes} (r : WorkflowExecutionRecord)
    (us : list field_update) : Prop :=
  ∀ now, let r' := updated_record r us now in WorkflowExecutionRecord_ok r' = true →
    final r = false ∧ keeps_plan r us ∧ NoDup (wt_step_id <$> r'.(we_tasks)) ∧
    (is_Some r'.(we_plan) ∨ final r' = true → supported (key_of r)).

Lemma updated_advanced r us now :
  final r = false → keeps_plan r us → advanced r (updated_record r us now).
Proof.
  intros Hf Hp. destruct (set_fields_keep us r) as (K & E & T & D).
  constructor; simpl; [lia|done..| |done].
  intros p Hr. destruct (Hp ltac:(eauto)) as (P1 & P2 & P3). split_and!; congruence.
Qed.

Lemma updated_valid `{Platform} `{EventTypes} r us now :
  valid_record r → admissible_update r us → WorkflowExecutionRecord_ok (updated_record r us now) = true →
  valid_record (updated_record r us now).
Proof.
  intros (_ & _ & Hty & _) Hadm Hok. destruct (Hadm now Hok) as (_ & _ & Hnd & Hsup).
  destruct (set_fields_keep us r) as (K & E & _).
  assert (key_of (updated_record r us now) = key_of r) as Hk by exact K.
  split; [done|]. split; [done|]. rewrite Hk. split; [|done]. simpl. by rewrite E.
Qed.

Lemma updated_key r us now : key_of (updated_record r us now) = key_of r.
Proof. apply (set_fields_keep us r). Qed.

(** * Rules for the awaited calls *)

Section Rules.
Context `{Platform} `{EventTypes} {V R W : Type} `{WorkflowLaws V} `{RepositoryLaws R}
  `{Environment W} `{FleetClient W} `{GatewayClient W} `{SandboxClient W}.
Abbreviation state := (EngineState V R W).
Abbreviation engine A := (co state exn A).
Abbreviation okG := (okspec G).

Lemma G_turn (s : state) : G s (turn s).2.
Proof. unfold turn. destruct (choose_turn _). apply G_world. Qed.

Lemma ok_world {A} (m : call W A) (s : state) (P : A → state → Prop) :
  sound s → (∀ a s', sound s' → G s s' → P a s') → okG (world m) s P.
Proof.
  intros Hs HP. apply (ok_perform G). intros s1 HG1. unfold zoom.
  destruct (m (es_world s1)) as [r w]. simpl. split; [apply G_world|].
  intros a _ s2 HG2. assert (G s s2) as HG.
  { etrans; [exact HG1|]. etrans; [apply G_world|exact HG2]. }
  apply HP; [by eapply G_sound|done].
Qed.

Lemma ok_reading {A} (f : W → A * W) (s : state) (P : A → state → Prop) :
  sound s → (∀ a s', sound s' → G s s' → P a s') → okG (reading f) s P.
Proof. apply ok_world. Qed.

Lemma ok_request_id (s : state) (P : string → state → Prop) :
  sound s → (∀ a s', sound s' → G s s' → P a s') → okG request_id s P.
Proof.
  intros Hs HP. apply (ok_bind G), ok_reading; [done|]. intros u s1 Hs1 HG1. apply (ok_ret G).
  intros s2 HG2. apply HP; [by eapply G_sound|by etrans].
Qed.

Lemma ok_wf_get t c w (s : state) (P : WorkflowExecutionRecord → state → Prop) :
  sound s →
  (∀ r s', sound s' → G s s' → seen r s' → key_of r = (t, c, w) → P r s') →
  okG (workflows (wf_get t c w)) s P.
Proof.
  intros Hs HP. apply (ok_perform G). intros s1 HG1. unfold zoom.
  pose proof (G_wf_get s1 t c w) as Hg. pose proof (G_sound _ _ HG1 Hs) as Hs1.
  pose proof Hs1 as (Hi & _ & Hall). pose proof (wf_get_law (es_workflows s1) t c w Hi) as Hlaw.
  destruct (wf_get t c w _) as [r v]. simpl in *. split; [done|]. intros a -> s2 HG2.
  destruct (wf_view _ (t, c, w)) as [cur|] eqn:Hcur; simplify_eq/=.
  assert (key_of cur = (t, c, w)) as Hk by by eapply wf_view_key.
  assert (G s1 s2) as HG12 by by etrans. apply HP; [by eapply G_sound|by etrans| |done].
  apply (seen_later _ s1); [done..|]. split; [eauto|]. exists cur. rewrite Hk. eauto.
Qed.

Lemma ok_repo_get t c (s : state) (P : ChangeRecord → state → Prop) :
  sound s →
  (∀ r s', sound s' → G s s' → seen_change r s' → r.(cr_tenant_id) = t → r.(cr_change_id) = c →
     P r s') →
  okG (changes (repo_get t c)) s P.
Proof.
  intros Hs HP. apply (ok_perform G). intros s1 HG1. unfold zoom.
  pose proof (G_repo_get s1 t c) as Hg. pose proof (G_sound _ _ HG1 Hs) as Hs1.
  pose proof Hs1 as (_ & Hi & _). pose proof (get_law (es_changes s1) t c Hi) as Hlaw.
  destruct (view_change _ t c) as [cur|] eqn:Hcur; last first.
  { destruct Hlaw as (e & He & _). rewrite He in Hg |- *. by split. }
  rewrite Hlaw in Hg |- *. simpl. split; [done|]. intros a [= <-] s2 HG2.
  destruct (view_change_key (es_changes s1) t c cur Hi Hcur) as [Ht Hc].
  assert (G s1 s2) as HG12 by by etrans. apply HP; [by eapply G_sound|by etrans| |done..].
  apply (seen_change_later _ s1); [done..|]. exists cur. by rewrite Ht, Hc.
Qed.

(** ** Updates *)

Lemma ok_update_record r us (s : state) (P : WorkflowExecutionRecord → state → Prop) :
  sound s → seen r s → admissible_update r us →
  (∀ now s', sound s' → G s s' → let r' := updated_record r us now in
     seen r' s' → P r' s') →
  okG (_update_record r us) s P.
Proof.
  intros Hs Hr Hadm HP. apply (ok_bind G), ok_reading; [done|]. intros now s1 Hs1 HG1.
  apply (ok_bind G), ok_from_result. intros r' [Hok ->]%validated_ok s2 HG2.
  destruct (Hadm now Hok) as (Hf & Hp & _).
  pose proof (updated_valid r us now (proj1 Hr) Hadm Hok) as Hvalid.
  pose proof (G_sound _ _ HG2 Hs1) as Hs2. assert (G s s2) as HG by by etrans.
  apply (seen_later _ s s2) in Hr; [|done..]. set (r' := updated_record r us now) in *.
  assert (∀ s3 : state, seen r s3 → ∀ cur, wf_view (es_workflows s3) (key_of r') = Some cur →
    we_version cur = we_version r → cur = r) as Hcur.
  { intros s3 (_ & cur & Hv & Hle) cur'. unfold r'. rewrite updated_key, Hv.
    intros [= <-]. by apply wf_le_version. }
  apply (ok_perform G). intros s3 HG3. unfold zoom. pose proof (G_sound _ _ HG3 Hs2) as Hs3.
  apply (seen_later _ s2 s3) in Hr; [|done..].
  assert (G s3 (mkEngineState (wf_update r' (we_version r) (es_workflows s3)).2 (es_changes s3)
    (es_world s3))) as Hg.
  { apply G_wf_update; [done|]. intros cur _ Hv Hver _. rewrite (Hcur s3 Hr cur Hv Hver).
    by apply updated_advanced. }
  pose proof (wf_update_law (es_workflows s3) r' (we_version r) (proj1 Hs3)) as Hlaw.
  cbn zeta in Hlaw. destruct (wf_update r' _ _) as [out v]. simpl in *. split; [done|].
  intros a -> s4 HG4. pose proof (G_sound _ _ HG4 (G_sound _ _ Hg Hs3)) as Hs4.
  destruct (wf_view (es_workflows s3) (key_of r')) as [cur|]; [|by destruct Hlaw].
  destruct (negb _ || negb _); [by destruct Hlaw|]. destruct Hlaw as ([= ->] & _ & Hv & _).
  apply HP; [done|by repeat (etrans; [eassumption|])|].
  apply (seen_later _ (mkEngineState v (es_changes s3) (es_world s3)) s4); [by eapply G_sound|done|].
  split; [done|]. exists r'. split; [|done]. simpl. rewrite Hv. by case_bool_decide.
Qed.

Lemma ok_try_call {A} (c : engine A) (s : state) (P : A → state → Prop) :
  okG c s P → okG (try_call c) s (λ x s', match x with inl a => P a s' | inr _ => True end).
Proof.
  intros Hc. apply (ok_bind G).
  eapply (ok_mono G); [apply (ok_settle G), (ok_stable G), Hc|].
  intros [a|e] s' _ HP; [by apply (ok_ret G)|].
  by destruct (as_dependency e) as [[code tr]|]; [apply (ok_ret G)|].
Qed.

(** What a change of status keeps. *)
Definition same_work (r r' : WorkflowExecutionRecord) : Prop :=
  key_of r' = key_of r ∧ r'.(we_event) = r.(we_event) ∧ r'.(we_plan) = r.(we_plan) ∧
  r'.(we_plan_hash) = r.(we_plan_hash) ∧ r'.(we_approval_id) = r.(we_approval_id) ∧
  r'.(we_tasks) = r.(we_tasks).

(** A valid record with a final status has completed. *)
Lemma valid_completed r :
  WorkflowExecutionRecord_ok r = true →
  terminal_runtime r.(we_status) = negb (is_none r.(we_completed_at)).
Proof.
  unfold WorkflowExecutionRecord_ok. rewrite !andb_true_iff. intros [_ Hv].
  destruct (WorkflowExecutionRecord_validate r) as [[]|] eqn:E; [|done].
  unfold WorkflowExecutionRecord_validate in E.
  apply result_bind_ok in E as ([] & _ & E). apply result_bind_ok in E as ([] & _ & E).
  apply result_bind_ok in E as ([] & _ & E). apply result_bind_ok in E as ([] & _ & E).
  by apply unless_ok, bool_decide_eq_true in E.
Qed.

(** A valid record has exactly one task per step of its plan. *)
Lemma valid_tasks r :
  WorkflowExecutionRecord_ok r = true → NoDup (wt_step_id <$> r.(we_tasks)) →
  match r.(we_plan) with
  | Some plan => RemediationPlan_ok plan = true ∧
      wt_step_id <$> r.(we_tasks) ≡ₚ st_step_id <$> plan.(pl_steps)
  | None => r.(we_tasks) = []
  end.
Proof.
  unfold WorkflowExecutionRecord_ok. rewrite !andb_true_iff. intros Hok Hnd.
  destruct Hok as (((((((_ & Hplan) & _) & _) & _) & _) & _) & Hv).
  destruct (WorkflowExecutionRecord_validate r) as [[]|] eqn:E; [|done].
  unfold WorkflowExecutionRecord_validate in E.
  apply result_bind_ok in E as ([] & _ & E). apply result_bind_ok in E as ([] & _ & E).
  apply result_bind_ok in E as ([] & _ & E). apply result_bind_ok in E as ([] & E & _).
  destruct (we_plan r) as [plan|]; [|by apply unless_ok, bool_decide_eq_true in E].
  split; [done|]. apply result_bind_ok in E as ([] & _ & E).
  apply unless_ok, andb_true_iff in E as [Hsub Hsup]. apply NoDup_Permutation; [done| |].
  - by apply plan_ok_graph in Hplan as (? & _).
  - intros i. split; [by apply subset_true|by apply subset_true].
Qed.

Lemma final_terminal r : final r = true → terminal_runtime r.(we_status) = true.
Proof. unfold final. by destruct (we_status r). Qed.

(** The validator refuses to take a completed record back to work. *)
Lemma status_admissible r st err :
  valid_record r → terminal_runtime st = false →
  admissible_update r [SetStatus st; SetLastErrorCode err].
Proof.
  intros (Hok & Hnd & _ & Hsup) Hst now r' Hok'. split; [|split; [done|split; [done|]]].
  - destruct (final r) eqn:Hf; [|done]. apply final_terminal in Hf.
    pose proof (valid_completed _ Hok) as V1. pose proof (valid_completed _ Hok') as V2.
    simpl in V2. congruence.
  - intros [Hp|Hf]; [apply Hsup; by left|]. apply final_terminal in Hf. simpl in Hf. congruence.
Qed.

Lemma ok_set_runtime_status r st err (s : state) (P : WorkflowExecutionRecord → state → Prop) :
  sound s → seen r s → terminal_runtime st = false →
  (∀ r' s', sound s' → G s s' → seen r' s' → same_work r r' → r'.(we_status) = st →
     r'.(we_last_error_code) = err → P r' s') →
  okG (_set_runtime_status r st err) s P.
Proof.
  intros Hs Hr Hf HP. unfold _set_runtime_status.
  destruct (bool_decide (we_status r = st) && bool_decide (we_last_error_code r = err)) eqn:Hc.
  - apply andb_true_iff in Hc as [V1%bool_decide_eq_true V2%bool_decide_eq_true].
    apply (ok_ret G). intros s' HG. apply HP; try done; [by eapply G_sound|].
    by eapply (seen_later _ s).
  - apply ok_update_record; [done..|by apply status_admissible; [apply Hr|]|].
    intros now s' Hs' HG r' Hr'. by apply HP.
Qed.

Lemma ok_terminal r st err (s : state) (P : WorkflowExecutionRecord → state → Prop) :
  sound s → seen r s → final r = false → (st = RunDeadLettered ∨ supported (key_of r)) →
  (∀ r' s', sound s' → G s s' → seen r' s' → same_work r r' → r'.(we_status) = st → P r' s') →
  okG (_terminal r st err) s P.
Proof.
  intros Hs Hr Hf Hsup HP. unfold _terminal.
  destruct (bool_decide (we_status r = st) && negb (is_none (we_completed_at r))) eqn:Hc.
  - apply andb_true_iff in Hc as [V1%bool_decide_eq_true _].
    apply (ok_ret G). intros s' HG. apply HP; try done; [by eapply G_sound|].
    by eapply (seen_later _ s).
  - apply (ok_bind G), ok_reading; [done|]. intros now s1 Hs1 HG1.
    apply ok_update_record; [done|by eapply (seen_later _ s)| |].
    { intros now' r' _. destruct Hr as [(_ & Hnd & _ & Hplan) _].
      split; [done|split; [done|split; [done|]]].
      destruct Hsup as [->|?]; [|done]. intros [Hp|Hf']; [apply Hplan; by left|done]. }
    intros now' s' Hs' HG r' Hr'. apply HP; try done. by etrans.
Qed.

(** ** Audit events *)

Definition audit_recorded (r : WorkflowExecutionRecord) (event_type : string)
    (input output : json) (status : AuditStatus) (s : state) : Prop :=
  ∃ a, view_audit s.(es_changes) r.(we_tenant_id) a.(au_audit_event_id) = Some a ∧
    a.(au_tenant_id) = r.(we_tenant_id) ∧ a.(au_change_id) = r.(we_change_id) ∧
    a.(au_event_type) = event_type ∧ a.(au_input_hash) = sha256_digest input ∧
    a.(au_output_hash) = sha256_digest output ∧ a.(au_status) = status.

Lemma audit_recorded_later r ty i o st (s s' : state) :
  sound s → G s s' → audit_recorded r ty i o st s → audit_recorded r ty i o st s'.
Proof.
  intros Hs HG (a & Ha & ?). exists a. split; [|done].
  destruct (HG Hs) as [_ E]. by apply (ev_audit _ _ E).
Qed.

Lemma audit_recorded_same_work r r' ty i o st (s : state) :
  same_work r r' → audit_recorded r ty i o st s → audit_recorded r' ty i o st s.
Proof.
  intros (Hk & _) (a & ? & ? & ? & ?). injection Hk as Ht Hc _. exists a.
  by rewrite Ht, Hc.
Qed.

Lemma ok_audit r ty ac i o st sm (s : state) (P : AuditEvent → state → Prop) :
  sound s →
  (∀ a s', sound s' → G s s' → a.(au_tenant_id) = r.(we_tenant_id) →
     a.(au_change_id) = r.(we_change_id) → a.(au_event_type) = ty →
     a.(au_input_hash) = sha256_digest i → a.(au_output_hash) = sha256_digest o →
     a.(au_status) = st → P a s') →
  okG (_audit r ty ac i o st sm) s P.
Proof.
  intros Hs HP. apply (ok_bind G), ok_reading; [done|]. intros u s1 Hs1 HG1.
  apply (ok_bind G), ok_reading; [done|]. intros now s2 Hs2 HG2.
  apply ok_from_result. intros a [_ ->]%validated_ok s3 HG3.
  apply HP; try done; [by eapply G_sound|]. etrans; [exact HG1|]. by etrans.
Qed.

Lemma ok_record_audit r ty ac i o st sm (s : state) (P : unit → state → Prop) :
  sound s →
  (∀ s', sound s' → G s s' → audit_recorded r ty i o st s' → P tt s') →
  okG (_record_audit r ty ac i o st sm) s P.
Proof.
  intros Hs HP. apply (ok_bind G), ok_audit; [done|].
  intros a s1 Hs1 HG1 Ht Hc Hty Hi Ho Hst. apply (ok_perform G). intros s2 HG2. unfold zoom.
  pose proof (G_record_audit s2 a) as Hg. pose proof (G_sound _ _ HG2 Hs1) as Hs2.
  pose proof Hs2 as (_ & Hinv & _).
  pose proof (record_audit_law (es_changes s2) a Hinv) as Hlaw. cbn zeta in Hlaw.
  destruct (repo_record_audit a _) as [out r2]. simpl in *. split; [done|].
  intros [] -> s3 HG3. pose proof (G_sound _ _ HG3 (G_sound _ _ Hg Hs2)) as Hs3.
  apply HP; [done|by repeat (etrans; [eassumption|])|].
  apply (audit_recorded_later _ _ _ _ _ (mkEngineState (es_workflows s2) r2 (es_world s2)));
    [by eapply G_sound|done|].
  exists a. split; [|done]. simpl.
  destruct (view_change _ _ _); [|by destruct Hlaw as (_ & e & ? & _)].
  destruct (view_audit _ _ _); [by destruct Hlaw|]. destruct Hlaw as (_ & _ & _ & Hau).
  rewrite Hau, Ht. by case_bool_decide; [|naive_solver].
Qed.

(** ** Transitions *)

Lemma ok_get_change r (s : state) (P : ChangeRecord → state → Prop) :
  sound s →
  (∀ c s', sound s' → G s s' → seen_change c s' → P c s') →
  okG (get_change r) s P.
Proof. intros Hs HP. apply ok_repo_get; [done|]. intros. by apply HP. Qed.

Lemma ok_transition r target u (s : state) (P : ChangeRecord → state → Prop) :
  sound s →
  (∀ c s', sound s' → G s s' → seen_change c s' → c.(cr_status) = target →
     P c s') →
  okG (_transition r target u) s P.
Proof.
  intros Hs HP. apply (ok_bind G), ok_get_change; [done|]. intros cur s1 Hs1 HG1 _.
  apply (ok_bind G), ok_reading; [done|]. intros at_ s2 Hs2 HG2.
  apply (ok_bind G), ok_reading; [done|]. intros i s3 Hs3 HG3.
  apply (ok_perform G). intros s4 HG4. unfold zoom. pose proof (G_sound _ _ HG4 Hs3) as Hs4.
  pose proof (G_transition s4 at_ ("audit_" +:+ i) (we_tenant_id r) (we_change_id r) target
    (cr_version cur) (we_trace_id r) ActorService "workflow-coordinator" u) as Hg.
  pose proof Hs4 as (_ & Hinv & _).
  pose proof (transition_outcome (es_changes s4) at_ ("audit_" +:+ i) (we_tenant_id r)
    (we_change_id r) target (cr_version cur) (we_trace_id r) ActorService
    "workflow-coordinator" u Hinv) as Hout. cbn zeta in Hout.
  destruct (transition _ _ _ _ _ _ _ _ _ _ _) as [out r5]. simpl in *. split; [done|].
  intros c -> s6 HG6. pose proof (G_sound _ _ HG6 (G_sound _ _ Hg Hs4)) as Hs6.
  destruct Hout as (_ & x & a & Hx & _ & _ & _ & _ & -> & _ & _ & _ & _ & _ & Hch & _).
  destruct (view_change_key (es_changes s4) _ _ x Hinv Hx) as [Ht Hc].
  apply HP; [done|by repeat (etrans; [eassumption|])| |done].
  eapply (seen_change_later _ (mkEngineState (es_workflows s4) r5 (es_world s4)));
    [by eapply G_sound|done|].
  eexists. simpl. rewrite Hch. split; [|done]. by case_bool_decide; [|naive_solver].
Qed.

Lemma ok_dead_letter r code (s : state) (P : WorkflowExecutionRecord → state → Prop) :
  sound s → seen r s → final r = false →
  (∀ r' s', sound s' → G s s' → seen r' s' → same_work r r' → r'.(we_status) = RunDeadLettered →
     is_Some (dl_view s'.(es_workflows) r.(we_tenant_id)
                ("dlq_" +:+ r.(we_workflow_execution_id))) → P r' s') →
  okG (_dead_letter r code) s P.
Proof.
  intros Hs Hr Hf HP. apply (ok_bind G), ok_terminal; [done..|by left|].
  intros r' s1 Hs1 HG1 Hr' Hw Hst. apply (ok_bind G), ok_reading; [done|]. intros now s2 Hs2 HG2.
  apply (ok_bind G), ok_from_result. intros d [_ ->]%validated_ok s3 HG3.
  pose proof (G_sound _ _ HG3 Hs2) as Hs3. apply (ok_bind G), (ok_perform G).
  intros s4 HG4. unfold zoom. pose proof (G_sound _ _ HG4 Hs3) as Hs4.
  match goal with |- context [wf_record_dead_letter ?x _] => set (d := x) end.
  pose proof (G_dead_letter s4 d) as Hg. pose proof Hs4 as (Hinv & _).
  pose proof (wf_dead_letter_law (es_workflows s4) d Hinv) as Hlaw. cbn zeta in Hlaw.
  destruct (wf_record_dead_letter d _) as [out v]. simpl in *. split; [done|].
  intros d' -> s5 HG5. apply (ok_ret G). intros s6 HG6.
  pose proof (G_sound _ _ Hg Hs4) as Hs4'. pose proof (G_sound _ _ HG5 Hs4') as Hs5.
  assert (G s1 s6) as HG16 by (repeat (etrans; [eassumption|]); done).
  apply HP; [by eapply G_sound|by etrans|by eapply (seen_later _ s1)|done..|].
  assert (is_Some (dl_view v (we_tenant_id r) ("dlq_" +:+ we_workflow_execution_id r))) as [x Hx].
  { destruct (dl_view (es_workflows s4) _ _) as [x|] eqn:E.
    - destruct Hlaw as [-> _]. eauto.
    - destruct Hlaw as (_ & _ & _ & Hd). rewrite Hd. case_bool_decide; [eauto|naive_solver]. }
  exists x. destruct (HG5 Hs4') as [_ E5]. destruct (HG6 Hs5) as [_ E6].
  by apply (ev_dead_letter _ _ E6), (ev_dead_letter _ _ E5).
Qed.

Lemma ok_ensure_change r (s : state) (P : ChangeRecord → state → Prop) :
  sound s → (∀ c s', sound s' → G s s' → P c s') → okG (_ensure_change r) s P.
Proof.
  intros Hs HP. apply (ok_catch G).
  { apply ok_get_change; [done|]. eauto. }
  intros e k s1 HG1 He. destruct e as [| | | |[]| | | | | | | | |]; try done. apply (inj Some) in He as <-.
  pose proof (G_sound _ _ HG1 Hs) as Hs1.
  apply (ok_bind G), ok_reading; [done|]. intros now s2 Hs2 HG2.
  apply (ok_bind G), ok_from_result. intros c [_ ->]%validated_ok s3 HG3.
  pose proof (G_sound _ _ HG3 Hs2) as Hs3.
  apply (ok_bind G), ok_audit; [done|]. intros a s4 Hs4 HG4 Ht Hc _ _ _ _.
  assert (G s s4) as HG by (repeat (etrans; [eassumption|]); done).
  apply (ok_catch G).
  - apply (ok_bind G), (ok_perform G). intros s5 HG5. unfold zoom.
    pose proof (G_add_with_audit s5 (received_change r now) a) as Hg.
    destruct (repo_add_with_audit _ _ _) as [out r5]. simpl in *.
    split; [by apply Hg|]. intros [] _ s6 HG6. apply (ok_ret G). intros s7 HG7.
    assert (G s4 s7) as HG47.
    { etrans; [exact HG5|]. etrans; [by apply Hg|]. by etrans. }
    apply HP; [by eapply G_sound|by etrans].
  - intros e k s5 HG5 He. destruct e as [| | | |[]| | | | | | | | |]; try done. apply (inj Some) in He as <-.
    pose proof (G_sound _ _ HG5 Hs4) as Hs5.
    apply (ok_bind G), ok_get_change; [done|]. intros x s6 Hs6 HG6 _.
    apply (ok_bind G), (ok_throw_if G). intros _ s7 HG7. apply (ok_ret G). intros s8 HG8.
    assert (G s4 s8) as HG48 by (repeat (etrans; [eassumption|]); done).
    apply HP; [by eapply G_sound|by etrans].
Qed.
End Rules.
