(* ===== verification/EngineSpecs.v ===== *)
(** Specifications of the phases of an approved execution, under every
    interleaving: snapshots, the rounds of the step graph, verification and
    rollback. *)

From S2P Require Import Prelude Json Contracts Errors Persistence StateMachine Governance Coroutine Workflow Clients Engine EngineFacts.

(** * Dictionaries keyed by step *)

Abbreviation ids := (fmap (M:=list) wt_step_id).

Lemma set_task_ids t d : t.(wt_step_id) ∈ ids d → ids (set_task t d) = ids d.
Proof.
  induction d as [|t' d IH]; cbn [set_task]; [by intros ?%elem_of_nil|]. rewrite fmap_cons.
  case_bool_decide as Hid; rewrite !fmap_cons; [by rewrite Hid|].
  intros [?|Hin]%elem_of_cons; [congruence|]. by rewrite IH.
Qed.

Lemma set_task_elem t d x : NoDup (ids d) → t.(wt_step_id) ∈ ids d →
  x ∈ set_task t d ↔ x = t ∨ (x ∈ d ∧ x.(wt_step_id) ≠ t.(wt_step_id)).
Proof.
  induction d as [|t' d IH]; cbn [set_task]; [by intros _ ?%elem_of_nil|]. rewrite fmap_cons.
  intros [Hnew Hnd]%NoDup_cons. case_bool_decide as Hid; rewrite !elem_of_cons.
  - intros _. split; [|naive_solver]. intros [->|Hx]; [by left|]. right. split; [by right|].
    intros Heq. apply Hnew. rewrite Hid, <-Heq. by apply list_elem_of_fmap_2.
  - intros [?|Hin]; [congruence|]. rewrite (IH Hnd Hin). split; [|naive_solver].
    intros [->|[->|[? ?]]]; [right; split; [by left|done]|by left|right; split; [by right|done]].
Qed.

Lemma set_task_new t d : t.(wt_step_id) ∉ ids d → set_task t d = d ++ [t].
Proof.
  induction d as [|t' d IH]; cbn [set_task]; [done|].
  rewrite fmap_cons, not_elem_of_cons. intros [? ?].
  rewrite bool_decide_eq_false_2 by done. by rewrite IH.
Qed.

Lemma tasks_by_step_id ts : NoDup (ids ts) → tasks_by_step ts = ts.
Proof.
  intros Hnd. unfold tasks_by_step.
  assert (∀ d, NoDup (ids (d ++ ts)) → foldl (λ d t, set_task t d) d ts = d ++ ts) as Hgen.
  { clear Hnd. induction ts as [|t ts IH]; intros d Hd; simpl; [by rewrite app_nil_r|].
    rewrite set_task_new, IH; [by rewrite <-app_assoc| |].
    - by rewrite <-app_assoc.
    - rewrite fmap_app, fmap_cons in Hd. apply NoDup_app in Hd as (_ & Hd & _).
      intros Hin. by apply (Hd _ Hin); left. }
  by apply (Hgen []).
Qed.

Lemma find_task_elem d t : NoDup (ids d) → t ∈ d → find_task t.(wt_step_id) d = Some t.
Proof.
  induction d as [|t' d IH]; cbn [find_task]; [by intros _ ?%elem_of_nil|]. rewrite fmap_cons.
  intros [Hnew Hnd]%NoDup_cons [->|Hin]%elem_of_cons; [by rewrite bool_decide_eq_true_2|].
  rewrite bool_decide_eq_false_2; [by apply IH|]. intros Heq. apply Hnew. rewrite Heq.
  by apply list_elem_of_fmap_2.
Qed.

(** A dictionary with the keys of the record's tasks is collected as it is. *)
Lemma collect_same ts d : NoDup (ids d) → ids ts = ids d → collect ts d = Ok d.
Proof.
  intros Hnd Hids. apply mapM_result, Forall2_same_length_lookup_2.
  - apply (f_equal length) in Hids. by rewrite !length_fmap in Hids.
  - intros n t t' Ht Ht'. assert (wt_step_id t = wt_step_id t') as ->.
    { apply (f_equal (.!! n)) in Hids. rewrite !list_lookup_fmap, Ht, Ht' in Hids. by injection Hids. }
    rewrite find_task_elem; [done..|]. by eapply list_elem_of_lookup_2.
Qed.

(** The statuses a record has before any rollback. *)
Definition executable (t : WorkflowTaskRecord) : Prop :=
  t.(wt_status) = TaskPending ∨ t.(wt_status) = TaskSucceeded ∨ t.(wt_status) = TaskFailed.

Lemma has_status_true st t : has_status st t = true ↔ t.(wt_status) = st.
Proof. apply bool_decide_eq_true. Qed.

(** What the snapshot phase keeps of a task. *)
Definition shape (t : WorkflowTaskRecord) : string * System * WorkflowTaskStatus :=
  (t.(wt_step_id), t.(wt_system_id), t.(wt_status)).
Abbreviation shapes := (fmap (M:=list) shape).

Lemma shapes_ids d d' : shapes d = shapes d' → ids d = ids d'.
Proof.
  intros Hs. apply (f_equal (fmap (λ x : string * System * WorkflowTaskStatus, x.1.1))) in Hs.
  by rewrite <-!list_fmap_compose in Hs.
Qed.

Lemma set_task_shapes t d : NoDup (ids d) → shape t ∈ shapes d → shapes (set_task t d) = shapes d.
Proof.
  induction d as [|t' d IH]; cbn [set_task]; [by intros _ ?%elem_of_nil|]. rewrite !fmap_cons.
  intros [Hnew Hnd]%NoDup_cons Hin. apply elem_of_cons in Hin.
  case_bool_decide as Hid; rewrite fmap_cons.
  - destruct Hin as [->|Hin]; [done|]. exfalso. apply Hnew. rewrite Hid.
    apply list_elem_of_fmap in Hin as (x & Hx & Hin). injection Hx as -> _ _.
    by apply list_elem_of_fmap_2.
  - destruct Hin as [Heq|Hin]; [injection Heq; congruence|]. by rewrite IH.
Qed.

(** Assigning a list of results, one per key at most. *)
Abbreviation assign := (foldl (λ d t, set_task t d)).

Lemma assign_ids rs d : (∀ x, x ∈ rs → x.(wt_step_id) ∈ ids d) → ids (assign d rs) = ids d.
Proof.
  revert d. induction rs as [|x rs IH]; intros d Hin; [done|]. cbn [foldl].
  assert (ids (set_task x d) = ids d) as Hx by (apply set_task_ids, Hin; by left).
  rewrite IH; [done|]. intros y Hy. rewrite Hx. apply Hin. by right.
Qed.

Lemma assign_elem rs d y :
  NoDup (ids d) → NoDup (ids rs) → (∀ x, x ∈ rs → x.(wt_step_id) ∈ ids d) →
  y ∈ assign d rs ↔ y ∈ rs ∨ (y ∈ d ∧ y.(wt_step_id) ∉ ids rs).
Proof.
  revert d. induction rs as [|x rs IH]; intros d Hnd Hrs Hin; cbn [foldl].
  { rewrite elem_of_nil. set_solver. }
  rewrite fmap_cons in *. apply NoDup_cons in Hrs as [Hx Hrs].
  assert (x.(wt_step_id) ∈ ids d) as Hxd by (apply Hin; by left).
  assert (ids (set_task x d) = ids d) as Hids by by apply set_task_ids.
  rewrite IH; [|by rewrite Hids|done|intros z Hz; rewrite Hids; apply Hin; by right].
  rewrite set_task_elem by done. rewrite not_elem_of_cons, elem_of_cons.
  split; [naive_solver|]. intros [[->|?]|(? & ? & ?)]; [right|by left|right].
  - split; [by left|done].
  - split; [by right|done].
Qed.

(** Tasks of a dictionary with the same key are the same. *)
Lemma task_unique d t t' : NoDup (ids d) → t ∈ d → t' ∈ d → wt_step_id t = wt_step_id t' → t = t'.
Proof.
  intros Hnd Ht Ht' Hid. apply (find_task_elem _ _ Hnd) in Ht, Ht'. rewrite Hid in Ht. congruence.
Qed.

(** * The ready tasks *)

(** The dependencies of a succeeded task have succeeded. *)
Definition closed (steps : gmap string RemediationStep) (ts : list WorkflowTaskRecord) : Prop :=
  ∀ t step d, t ∈ ts → t.(wt_status) = TaskSucceeded → steps !! t.(wt_step_id) = Some step →
    d ∈ step.(st_depends_on) → ∃ t', t' ∈ ts ∧ t'.(wt_step_id) = d ∧ t'.(wt_status) = TaskSucceeded.

Lemma ready_tasks_elem steps d ready t step :
  ready_tasks steps d = Ok ready → (t, step) ∈ ready →
  t ∈ d ∧ t.(wt_status) = TaskPending ∧ steps !! t.(wt_step_id) = Some step ∧
  ∀ i, i ∈ step.(st_depends_on) → ∃ t', t' ∈ d ∧ t'.(wt_step_id) = i ∧ t'.(wt_status) = TaskSucceeded.
Proof.
  unfold ready_tasks. rewrite result_bind_ok. intros (ws & Hws & [= <-]) Hin.
  apply list_elem_of_filter in Hin as [Hsub Hin]. apply mapM_result in Hws.
  apply list_elem_of_lookup in Hin as [n Hn].
  destruct (Forall2_lookup_r _ _ _ _ _ Hws Hn) as (t' & Ht' & Hstep).
  destruct (steps !! wt_step_id t') as [step'|] eqn:Hs; simplify_eq.
  apply list_elem_of_lookup_2, list_elem_of_filter in Ht' as [Hp Ht]. apply has_status_true in Hp.
  split_and!; try done. intros i Hi. simpl in Hsub.
  pose proof (proj1 (subset_true _ _) Hsub i Hi) as Hi'.
  apply list_elem_of_fmap in Hi' as (t2 & -> & [Ht2 ?]%list_elem_of_filter).
  apply has_status_true in Ht2. eauto.
Qed.

Lemma ready_tasks_NoDup steps d ready :
  NoDup (ids d) → ready_tasks steps d = Ok ready → NoDup (ids ready.*1).
Proof.
  intros Hnd. unfold ready_tasks. rewrite result_bind_ok. intros (ws & Hws & [= <-]).
  apply mapM_result in Hws.
  assert (ws.*1 = filter (λ t, has_status TaskPending t = true) d) as Hfst.
  { induction Hws as [|x y l k Hxy _ IH]; [done|]. rewrite fmap_cons, IH. f_equal.
    destruct (steps !! wt_step_id x); by simplify_eq. }
  rewrite <-list_fmap_compose. apply NoDup_fmap_filter. rewrite list_fmap_compose, Hfst.
  by apply NoDup_fmap_filter.
Qed.

Section Specs.
Context `{Platform} `{EventTypes} {V R W : Type} `{WorkflowLaws V} `{RepositoryLaws R}
  `{Environment W} `{FleetClient W} `{GatewayClient W} `{SandboxClient W}.
Context (retry : RetryPolicy).
Abbreviation state := (EngineState V R W).
Abbreviation engine A := (co state exn A).
Abbreviation okG := (okspec G).

(** Rules for composed coroutines in continuation form. *)
Lemma ok_try_bind {A B} (c : engine A) (k : A + string * bool → engine B) (s : state)
    (P : B → state → Prop) :
  sound s → okG c s (λ a s', okG (k (inl a)) s' P) →
  (∀ e s', sound s' → G s s' → okG (k (inr e)) s' P) → okG (x ← try_call c; k x) s P.
Proof.
  intros Hs Hc Hk. apply (ok_bind G).
  eapply (ok_mono G); [exact (ok_try_call _ _ _ (ok_stable G _ _ _ Hc))|].
  intros [a|e] s' HG HP; [by apply HP|]. apply Hk; [by eapply G_sound|done].
Qed.

Lemma ok_pause {A} (f : W → A * W) B (k : A → engine B) (s : state) P :
  sound s → (∀ a s', sound s' → G s s' → okG (k a) s' P) → okG (a ← reading f; k a) s P.
Proof. intros Hs Hk. apply (ok_bind G). by apply ok_reading. Qed.

Lemma valid_ids r : valid_record r → NoDup (ids r.(we_tasks)).
Proof. by intros (_ & ? & _). Qed.

(** New tasks for the same steps are an admissible update of an open record. *)
Lemma tasks_admissible r us :
  valid_record r → final r = false → keeps_plan r us →
  (foldl set_field r us).(we_status) = r.(we_status) →
  (is_Some (foldl set_field r us).(we_plan) → is_Some r.(we_plan)) →
  NoDup (ids (foldl set_field r us).(we_tasks)) → admissible_update r us.
Proof.
  intros (_ & _ & _ & Hsup) Hf Hp Hst Hplan Hnd now r' _. split; [done|]. split; [done|].
  split; [done|]. intros [?|Hf']; [apply Hsup; left; by apply Hplan|].
  unfold final in *. simpl in Hf'. rewrite Hst in Hf'. congruence.
Qed.

(** ** Snapshots *)

Definition same_plan (r r' : WorkflowExecutionRecord) : Prop :=
  key_of r' = key_of r ∧ r'.(we_event) = r.(we_event) ∧ r'.(we_plan) = r.(we_plan) ∧
  r'.(we_plan_hash) = r.(we_plan_hash) ∧ r'.(we_approval_id) = r.(we_approval_id).

Lemma same_work_plan r r' : same_work r r' → same_plan r r'.
Proof. intros (? & ? & ? & ? & ? & _). by split_and!. Qed.

Lemma same_plan_trans x y z : same_plan x y → same_plan y z → same_plan x z.
Proof. intros (? & ? & ? & ? & ?) (? & ? & ? & ? & ?). split_and!; congruence. Qed.

Lemma audit_recorded_same r r' ty i o st (s : state) :
  key_of r' = key_of r → audit_recorded r ty i o st s → audit_recorded r' ty i o st s.
Proof. intros Hk (a & ? & ? & ? & ?). injection Hk as Ht Hc _. exists a. by rewrite Ht, Hc. Qed.

Lemma ok_store_snapshots r answers d (s : state) (P : list WorkflowTaskRecord → state → Prop) :
  sound s → NoDup (ids d) → (∀ t a, (t, a) ∈ answers → shape t ∈ shapes d) →
  (∀ d' s', sound s' → G s s' → shapes d' = shapes d → P d' s') →
  okG (store_snapshots r answers d) s P.
Proof.
  revert d s. induction answers as [|[t a] answers IH]; intros d s Hs Hnd Hin HP;
    cbn [store_snapshots].
  - apply (ok_ret G). intros s' HG. apply HP; [by eapply G_sound|done..].
  - destruct a as [snapshot|e]; [|by destruct (as_dependency e) as [[? []]|]].
    apply ok_pause; [done|]. intros now s1 Hs1 HG1. apply (ok_bind G), ok_from_result.
    intros t' [_ ->]%validated_ok s2 HG2. pose proof (G_sound _ _ HG2 Hs1) as Hs2.
    apply (ok_bind G), ok_record_audit; [done|]. intros s3 Hs3 HG3 _.
    assert (shape t ∈ shapes d) as Ht by (eapply Hin; by left).
    match goal with |- context [set_task ?x _] => set (t' := x) end.
    assert (shapes (set_task t' d) = shapes d) as Hsh by by apply set_task_shapes.
    apply IH; [done| | |].
    + by rewrite (shapes_ids _ _ Hsh).
    + intros t2 a2 Hin2. rewrite Hsh. apply (Hin t2 a2). by right.
    + intros d' s' Hs' HG' Hd'. apply HP; [done| |congruence].
      etrans; [exact HG1|]. etrans; [exact HG2|]. by etrans.
Qed.

Lemma ok_capture_snapshots r (s : state) (P : WorkflowExecutionRecord → state → Prop) :
  sound s → seen r s → final r = false →
  (∀ r' s', sound s' → G s s' → seen r' s' → same_plan r r' → r'.(we_status) = r.(we_status) →
     shapes r'.(we_tasks) = shapes r.(we_tasks) → P r' s') →
  okG (_capture_snapshots r) s P.
Proof.
  intros Hs Hr Hf HP. unfold _capture_snapshots. cbn zeta.
  set (missing := filter _ (we_tasks r)). case_bool_decide.
  { apply (ok_ret G). intros s' HG. apply HP; try done; [by eapply G_sound|by eapply (seen_later _ s)]. }
  apply (ok_bind G).
  assert (∀ (l : list WorkflowTaskRecord) (s : state) (P : list string → state → Prop), sound s →
    (∀ q s', sound s' → G s s' → P q s') → okG (mapM (λ _ : WorkflowTaskRecord, request_id) l) s P)
    as Hrequests.
  { clear. intros l. induction l as [|x l IH]; intros s P Hs HP; cbn [mapM].
    - apply (ok_ret G). intros s' HG. apply HP; [by eapply G_sound|done].
    - apply (ok_bind G), ok_request_id; [done|]. intros q s1 Hs1 HG1.
      apply (ok_bind G), IH; [done|]. intros qs s2 Hs2 HG2. apply (ok_ret G). intros s3 HG3.
      apply HP; [by eapply G_sound|]. etrans; [exact HG1|]. by etrans. }
  apply Hrequests; [done|]. clear Hrequests. intros requests s1 Hs1 HG1.
  apply (ok_bind G). eapply (ok_mono G).
  { apply (ok_gather_settled_map G turn G_turn _ (λ _ _ _, True)). intros [t q] _. by apply ok_world. }
  intros snapshots s2 HG2 _. pose proof (G_sound _ _ HG2 Hs1) as Hs2.
  pose proof (valid_ids _ (proj1 Hr)) as Hnd. rewrite tasks_by_step_id by done.
  apply (ok_bind G), ok_store_snapshots; [done..| |].
  { intros t a [n Hn]%list_elem_of_lookup. apply lookup_zip_Some in Hn as [Hn _].
    apply list_elem_of_lookup_2, list_elem_of_filter in Hn as [_ Hn]. by apply list_elem_of_fmap_2. }
  intros d s3 Hs3 HG3 Hd. pose proof (shapes_ids _ _ Hd) as Hids.
  rewrite collect_same by (by rewrite ?Hids). apply (ok_bind G), ok_from_result.
  intros d' [= <-] s4 HG4. pose proof (G_sound _ _ HG4 Hs3) as Hs4.
  assert (G s s4) as HG by (repeat (etrans; [eassumption|]); done).
  apply (seen_later _ s s4) in Hr; [|done..].
  apply ok_update_record; [done|done|apply tasks_admissible; [apply Hr|done..|]; simpl; by rewrite Hids|].
  intros now s5 Hs5 HG5 r' Hr'. apply HP; try done. by etrans.
Qed.

(** ** One step *)

(** The audit event of a successful step. *)
Definition step_evidence (r : WorkflowExecutionRecord) (t : WorkflowTaskRecord) (s : state) : Prop :=
  ∃ execution_id output_hash replayed,
    t.(wt_execution_id) = Some execution_id ∧ t.(wt_output_hash) = Some output_hash ∧
    audit_recorded r "WORKFLOW_STEP_SUCCEEDED"
      (JObj [("attempt", JInt t.(wt_attempt_count)); ("step_id", JStr t.(wt_step_id))])
      (JObj [("execution_id", JStr execution_id); ("output_hash", JStr output_hash);
             ("replayed", JBool replayed)]) AuditSuccess s.

(** [t'] is [t] after its execution: succeeded, with evidence, or failed. *)
Definition executed (r : WorkflowExecutionRecord) (t t' : WorkflowTaskRecord) (s : state) : Prop :=
  t'.(wt_step_id) = t.(wt_step_id) ∧ t'.(wt_system_id) = t.(wt_system_id) ∧
  t'.(wt_snapshot_id) = t.(wt_snapshot_id) ∧ t'.(wt_snapshot_hash) = t.(wt_snapshot_hash) ∧
  ((t'.(wt_status) = TaskSucceeded ∧ step_evidence r t' s) ∨ t'.(wt_status) = TaskFailed).

Lemma step_evidence_later r r' t (s s' : state) :
  sound s → G s s' → key_of r' = key_of r → step_evidence r t s → step_evidence r' t s'.
Proof.
  intros Hs HG Hk (e & h & b & He & Hh & Ha). exists e, h, b. split_and!; [done..|].
  eapply audit_recorded_same; [exact Hk|]. by eapply (audit_recorded_later _ _ _ _ _ s).
Qed.

Lemma executed_later r r' t t' (s s' : state) :
  sound s → G s s' → key_of r' = key_of r → executed r t t' s → executed r' t t' s'.
Proof.
  intros Hs HG Hk (? & ? & ? & ? & [[? ?]|?]); split_and!; try done; [left|by right].
  split; [done|]. by eapply step_evidence_later.
Qed.

Lemma ok_execute_once r plan aid t step n (s : state) :
  sound s → step.(st_step_id) = t.(wt_step_id) →
  okG (execute_once r plan aid t step n) s (λ t' s', executed r t t' s').
Proof.
  intros Hs Hid. apply ok_pause; [done|]. intros requested s1 Hs1 HG1.
  apply (ok_bind G), ok_request_id; [done|]. intros q s2 Hs2 HG2.
  apply (ok_bind G), ok_world; [done|]. intros result s3 Hs3 HG3.
  apply (ok_bind G), ok_record_audit; [done|]. intros s4 Hs4 HG4 Ha.
  apply ok_pause; [done|]. intros now s5 Hs5 HG5.
  apply ok_from_result. intros t' [_ ->]%validated_ok s6 HG6.
  assert (G s4 s6) as HG46 by by etrans. split_and!; try done. left. split; [done|].
  exists (gr_execution_id result), (gr_output_hash result), (gr_replayed result).
  split_and!; try done. apply (audit_recorded_later _ _ _ _ _ s4); [done..|].
  cbn [task_succeeded wt_attempt_count wt_step_id]. by rewrite <-Hid.
Qed.

Lemma ok_back_off n (s : state) (P : unit → state → Prop) :
  sound s → (∀ s', sound s' → G s s' → P tt s') → okG (back_off retry n) s P.
Proof.
  intros Hs HP. apply ok_pause; [done|]. intros j s1 Hs1 HG1.
  apply (ok_bind G), ok_from_result. intros secs _ s2 HG2.
  apply ok_reading; [by eapply G_sound|]. intros [] s3 Hs3 HG3. apply HP; [done|].
  etrans; [exact HG1|]. by etrans.
Qed.

Lemma ok_execute_attempts r plan aid t step fuel n (s : state) :
  sound s → step.(st_step_id) = t.(wt_step_id) →
  okG (execute_attempts retry r plan aid t step fuel n) s (λ t' s', executed r t t' s').
Proof.
  intros Hs Hid. revert n s Hs. induction fuel as [|fuel IH]; intros n s Hs.
  all: cbn [execute_attempts]; cbn zeta; apply ok_try_bind; [done| |].
  1, 3: eapply (ok_mono G); [by apply (ok_stable G), ok_execute_once|];
    intros t' s' _ Ht'; by apply (ok_ret G).
  all: intros [code tr] s1 Hs1 HG1; destruct (should_retry _ _ _);
    (apply (ok_bind G), ok_record_audit; [done|]; intros s2 Hs2 HG2 _).
  1, 3: apply (ok_bind G), ok_back_off; [done|]; intros s3 Hs3 HG3; first [done|by apply IH].
  all: apply ok_pause; [done|]; intros now s3 Hs3 HG3; apply ok_from_result;
    intros t' [_ ->]%validated_ok s4 HG4; split_and!; try done; by right.
Qed.

Lemma ok_execute_task r t step (s : state) :
  sound s → step.(st_step_id) = t.(wt_step_id) →
  okG (_execute_task retry r t step) s (λ t' s', executed r t t' s').
Proof.
  intros Hs Hid. unfold _execute_task, _require_plan. destruct (we_plan r) as [plan|]; [|done].
  apply (ok_bind G), (ok_ret G). intros s1 HG1. pose proof (G_sound _ _ HG1 Hs) as Hs1.
  destruct (we_approval_id r); [|done]. by apply ok_execute_attempts.
Qed.

(** ** The rounds *)

(** [t'] is [t], or [t] was pending and was executed. *)
Definition task_ran (r : WorkflowExecutionRecord) (s : state) (t t' : WorkflowTaskRecord) : Prop :=
  t' = t ∨ (t.(wt_status) = TaskPending ∧ executed r t t' s).

Lemma task_ran_trans r (s : state) x y z : task_ran r s x y → task_ran r s y z → task_ran r s x z.
Proof.
  intros [->|[Hx Hy]] [->|[Hp Hz]]; [by left|by right|by right|].
  destruct Hy as (_ & _ & _ & _ & [[? _]|?]); congruence.
Qed.

Lemma task_ran_later r r' t t' (s s' : state) :
  sound s → G s s' → key_of r' = key_of r → task_ran r s t t' → task_ran r' s' t t'.
Proof. intros Hs HG Hk [?|[? ?]]; [by left|right]. split; [done|]. by eapply executed_later. Qed.

(** The answers of a round, assigned to the dictionary. *)
Lemma round_ran r steps d ready results (s : state) :
  NoDup (ids d) → ready_tasks steps d = Ok ready →
  Forall2 (λ x t', executed r x.1 t' s) ready results →
  NoDup (ids results) ∧ (∀ t', t' ∈ results → t'.(wt_step_id) ∈ ids d) ∧
  Forall2 (task_ran r s) d (assign d results).
Proof.
  intros Hnd Hready Hex.
  assert (ids results = ids ready.*1) as Hids.
  { clear -Hex. induction Hex as [|x t' l k (Hid & _) _ IH]; [done|]. by rewrite !fmap_cons, IH, Hid. }
  assert (∀ t', t' ∈ results → ∃ t step, (t, step) ∈ ready ∧ executed r t t' s) as Hback.
  { intros t' [n Hn]%list_elem_of_lookup. destruct (Forall2_lookup_r _ _ _ _ _ Hex Hn) as ([t st] & Ht & ?).
    exists t, st. split; [by eapply list_elem_of_lookup_2|done]. }
  assert (∀ t', t' ∈ results → t'.(wt_step_id) ∈ ids d) as Hin.
  { intros t' (t & st & Hr & (-> & _))%Hback.
    apply (ready_tasks_elem _ _ _ _ _ Hready) in Hr as (Ht & _). by apply list_elem_of_fmap_2. }
  pose proof (ready_tasks_NoDup _ _ _ Hnd Hready) as Hndr. rewrite <-Hids in Hndr.
  split_and!; [done..|]. apply Forall2_same_length_lookup_2.
  { rewrite <-(length_fmap wt_step_id d), <-(assign_ids results d Hin). apply length_fmap. }
  intros n t t' Ht Ht'.
  assert (wt_step_id t' = wt_step_id t) as Hid.
  { pose proof (f_equal (.!! n) (assign_ids results d Hin)) as Hn.
    rewrite !list_lookup_fmap, Ht, Ht' in Hn. by injection Hn. }
  apply list_elem_of_lookup_2 in Ht, Ht'. apply assign_elem in Ht' as [Hr|[Hd _]]; [|left|done..].
  - right. apply Hback in Hr as (t0 & st & Hr & Hx). pose proof Hx as (Hid0 & _).
    apply (ready_tasks_elem _ _ _ _ _ Hready) in Hr as (Ht0 & Hp & _).
    assert (t0 = t) as -> by (apply (task_unique d); [done..|congruence]). done.
  - by apply (task_unique d).
Qed.

Lemma round_closed r steps d ready results (s : state) :
  NoDup (ids d) → ready_tasks steps d = Ok ready →
  Forall2 (λ x t', executed r x.1 t' s) ready results →
  closed steps d → closed steps (assign d results).
Proof.
  intros Hnd Hready Hex Hcl.
  destruct (round_ran r steps d ready results s Hnd Hready Hex) as (Hndr & Hin & Hran).
  assert (∀ i, (∃ t', t' ∈ d ∧ wt_step_id t' = i ∧ wt_status t' = TaskSucceeded) →
    ∃ t', t' ∈ assign d results ∧ wt_step_id t' = i ∧ wt_status t' = TaskSucceeded) as Hkeep.
  { intros i (t' & Ht' & Hid & Hst). apply list_elem_of_lookup in Ht' as [n Hn].
    destruct (Forall2_lookup_l _ _ _ _ _ Hran Hn) as (t2 & Hn2 & [->|[Hp _]]); [|congruence].
    exists t'. split; [by eapply list_elem_of_lookup_2|done]. }
  intros t step i Ht Hst Hstep Hi. apply Hkeep.
  apply assign_elem in Ht as [Hr|[Hd _]]; [|by eapply Hcl|done..].
  apply list_elem_of_lookup in Hr as [n Hn].
  destruct (Forall2_lookup_r _ _ _ _ _ Hex Hn) as ([t0 st] & Ht0 & (Hid & _)). simpl in Hid.
  apply list_elem_of_lookup_2, (ready_tasks_elem _ _ _ _ _ Hready) in Ht0 as (_ & _ & Hst0 & Hdeps).
  rewrite Hid, Hst0 in Hstep. injection Hstep as <-. by apply Hdeps.
Qed.

(** What rounds do to a record: tasks run, and what has succeeded stays closed under
    dependencies. *)
Record rounds_ran (steps : gmap string RemediationStep) (r r' : WorkflowExecutionRecord)
    (s' : state) : Prop := {
  rr_plan : same_plan r r';
  rr_status : r'.(we_status) = r.(we_status);
  rr_ran : Forall2 (task_ran r s') r.(we_tasks) r'.(we_tasks);
  rr_closed : closed steps r.(we_tasks) → closed steps r'.(we_tasks) }.

(** No task is pending unless one failed. *)
Definition finished (r : WorkflowExecutionRecord) : Prop :=
  existsb (has_status TaskFailed) r.(we_tasks) = false →
  existsb (has_status TaskPending) r.(we_tasks) = false.

Lemma Forall2_refl_eq {A} (Q : A → A → Prop) l : (∀ x, Q x x) → Forall2 Q l l.
Proof. intros HQ. induction l; by constructor. Qed.

Lemma rounds_ran_refl steps r (s : state) : rounds_ran steps r r s.
Proof. constructor; [done|done| |done]. apply Forall2_refl_eq. by left. Qed.

Lemma rounds_ran_later steps r r' (s s' : state) :
  sound s → G s s' → rounds_ran steps r r' s → rounds_ran steps r r' s'.
Proof.
  intros Hs HG [A1 A2 A3 A4]. constructor; try done. eapply Forall2_impl; [exact A3|].
  intros t t'. by apply task_ran_later.
Qed.

Lemma rounds_ran_trans steps x y z (s : state) :
  sound s → rounds_ran steps x y s → rounds_ran steps y z s → rounds_ran steps x z s.
Proof.
  intros Hs [A1 A2 A3 A4] [B1 B2 B3 B4].
  constructor; [by eapply same_plan_trans|congruence| |auto].
  eapply Forall2_trans; [|exact A3|exact B3].
  intros t t1 t2 Ht1 Ht2. eapply task_ran_trans; [exact Ht1|].
  apply (task_ran_later y x _ _ s s); [done|reflexivity| |done]. symmetry. apply A1.
Qed.

Lemma failed_finished results r :
  existsb (has_status TaskFailed) results = true → (∀ t, t ∈ results → t ∈ r.(we_tasks)) →
  finished r.
Proof.
  rewrite existsb_exists. intros (t & Ht & Hf) Hin Hnone. exfalso.
  apply list_elem_of_In, Hin, list_elem_of_In in Ht.
  assert (existsb (has_status TaskFailed) (we_tasks r) = true); [|congruence].
  apply existsb_exists. eauto.
Qed.

Lemma ok_execute_round steps r (s : state)
    (P : list WorkflowTaskRecord * list WorkflowTaskRecord * WorkflowExecutionRecord →
         state → Prop) :
  sound s → seen r s → final r = false → (∀ i st, steps !! i = Some st → st.(st_step_id) = i) →
  (∀ results r' s', sound s' → G s s' → seen r' s' → rounds_ran steps r r' s' →
     (∀ t, t ∈ results → t ∈ r'.(we_tasks)) → P (results, r'.(we_tasks), r') s') →
  okG (execute_round retry steps r r.(we_tasks)) s P.
Proof.
  intros Hs Hr Hf Hsteps HP. pose proof (valid_ids _ (proj1 Hr)) as Hnd.
  apply (ok_bind G), ok_from_result. intros ready Hready s1 HG1.
  pose proof (G_sound _ _ HG1 Hs) as Hs1.
  apply (ok_bind G), (ok_throw_if G). intros _ s2 HG2. pose proof (G_sound _ _ HG2 Hs1) as Hs2.
  apply (ok_bind G). eapply (ok_mono G).
  { apply (ok_stable G).
    apply (ok_gather_map G turn G_turn _ (λ x t' s', executed r x.1 t' s')). intros [t step] Hin.
    apply ok_execute_task; [done|].
    apply (ready_tasks_elem _ _ _ _ _ Hready) in Hin as (_ & _ & Hst & _). by apply Hsteps. }
  intros results s3 HG3 Hex. pose proof (G_sound _ _ HG3 Hs2) as Hs3. cbn zeta.
  destruct (round_ran r steps _ ready results s3 Hnd Hready (Hex s3 ltac:(reflexivity)))
    as (Hndr & Hin & _).
  pose proof (assign_ids results (we_tasks r) Hin) as Hids.
  rewrite collect_same by (by rewrite ?Hids). apply (ok_bind G), ok_from_result.
  intros d' [= <-] s4 HG4. pose proof (G_sound _ _ HG4 Hs3) as Hs4.
  assert (G s s4) as HG by (repeat (etrans; [eassumption|]); done).
  apply (seen_later _ s s4) in Hr; [|done..]. apply (ok_bind G), ok_update_record; [done|done| |].
  { apply tasks_admissible; [apply Hr|done..|]. simpl. by rewrite Hids. }
  intros now s5 Hs5 HG5 r' Hr'. apply (ok_ret G). intros s6 HG6.
  pose proof (G_sound _ _ HG6 Hs5) as Hs6.
  assert (G s3 s6) as HG36 by (etrans; [exact HG4|]; by etrans).
  specialize (Hex s6 HG36). apply (HP results r' s6); [done| |by eapply (seen_later _ s5)| |].
  - etrans; [exact HG|]. by etrans.
  - constructor; [done|done|by eapply round_ran|].
    exact (round_closed r steps _ ready results s6 Hnd Hready Hex).
  - intros t Ht. apply assign_elem; auto.
Qed.

Lemma ok_execute_rounds steps fuel r (s : state) :
  sound s → seen r s → final r = false → (∀ i st, steps !! i = Some st → st.(st_step_id) = i) →
  okG (execute_rounds retry steps fuel r r.(we_tasks)) s
    (λ r' s', sound s' ∧ seen r' s' ∧ rounds_ran steps r r' s' ∧ finished r').
Proof.
  intros Hs Hr Hf Hsteps. revert r s Hs Hr Hf. induction fuel as [|fuel IH]; intros r s Hs Hr Hf.
  all: cbn [execute_rounds]; destruct (existsb (has_status TaskPending) (we_tasks r)) eqn:Hpend;
    cbn [negb];
    [|apply (ok_ret G); intros s' HG; split_and!;
      [by eapply G_sound|by eapply (seen_later _ s)|apply rounds_ran_refl|by intros _]].
  all: apply (ok_bind G), ok_execute_round; [done..|];
    intros results r' s1 Hs1 HG1 Hr' Hran Hin;
    destruct (existsb (has_status TaskFailed) results) eqn:Hfail;
    [apply (ok_ret G); intros s' HG; split_and!;
      [by eapply G_sound|by eapply (seen_later _ s1)|by eapply (rounds_ran_later _ _ _ s1)
      |by eapply failed_finished]|].
  - done.
  - eapply (ok_mono G).
    { apply IH; [done..|]. unfold final in *. by rewrite (rr_status _ _ _ _ Hran). }
    intros r2 s2 HG2 (Hs2 & Hr2 & Hran2 & Hfin). split; [done|]. split; [done|]. split; [|done].
    eapply rounds_ran_trans; [done|by eapply (rounds_ran_later _ _ _ s1)|done].
Qed.

Lemma ok_require_plan r (s : state) (P : RemediationPlan → state → Prop) :
  sound s → (∀ plan s', r.(we_plan) = Some plan → sound s' → G s s' → P plan s') →
  okG (_require_plan r) s P.
Proof.
  intros Hs HP. unfold _require_plan. destruct (we_plan r) as [plan|]; [|done].
  apply (ok_ret G). intros s' HG. apply HP; [done|by eapply G_sound|done].
Qed.

Definition plan_steps (r : WorkflowExecutionRecord) : gmap string RemediationStep :=
  match r.(we_plan) with Some plan => steps_by_id plan.(pl_steps) | None => ∅ end.

Lemma plan_steps_id r i st : plan_steps r !! i = Some st → st.(st_step_id) = i.
Proof.
  unfold plan_steps. destruct (we_plan r); [|done]. intros Hi.
  by apply steps_by_id_lookup in Hi as [_ ?].
Qed.

Lemma ok_execute_dag r (s : state) (P : WorkflowExecutionRecord → state → Prop) :
  sound s → seen r s → final r = false →
  (∀ r' s', sound s' → G s s' → seen r' s' → rounds_ran (plan_steps r) r r' s' → finished r' →
     P r' s') →
  okG (_execute_dag retry r) s P.
Proof.
  intros Hs Hr Hf HP. apply (ok_bind G), ok_require_plan; [done|]. intros plan s1 Hplan Hs1 HG1.
  rewrite tasks_by_step_id by apply valid_ids, Hr.
  assert (steps_by_id (pl_steps plan) = plan_steps r) as -> by (unfold plan_steps; by rewrite Hplan).
  eapply (ok_mono G).
  - apply ok_execute_rounds; [done|by eapply (seen_later _ s)|done|apply plan_steps_id].
  - intros r' s2 HG2 (Hs2 & Hr2 & Hran & Hfin). apply HP; try done. by etrans.
Qed.

(** ** Verification *)

(** The audit event of a passed verification of a task's system, for the field
    its step introduces. *)
Definition verified (r : WorkflowExecutionRecord) (t : WorkflowTaskRecord) (s : state) : Prop :=
  ∃ step expected output, plan_steps r !! t.(wt_step_id) = Some step ∧
    assoc "new_field" step.(st_arguments) = Some (JStr expected) ∧
    audit_recorded r "WORKFLOW_VERIFICATION_SUCCEEDED"
      (JObj [("expected_field", JStr expected);
             ("system_id", JStr (System_value t.(wt_system_id)))]) output AuditSuccess s.

Lemma verified_later r t (s s' : state) : sound s → G s s' → verified r t s → verified r t s'.
Proof.
  intros Hs HG (st & e & o & ? & ? & ?). exists st, e, o. split_and!; [done..|].
  by eapply (audit_recorded_later _ _ _ _ _ s).
Qed.

Lemma ok_verify_attempts r t expected fuel n (s : state) :
  sound s →
  okG (verify_attempts retry r t expected fuel n) s (λ b s', b = true → ∃ output,
    audit_recorded r "WORKFLOW_VERIFICATION_SUCCEEDED"
      (JObj [("expected_field", JStr expected);
             ("system_id", JStr (System_value t.(wt_system_id)))]) output AuditSuccess s').
Proof.
  revert n s. induction fuel as [|fuel IH]; intros n s Hs.
  all: cbn [verify_attempts]; cbn zeta; apply ok_try_bind; [done| |].
  1, 3: apply (ok_bind G), ok_request_id; [done|]; intros q s1 Hs1 HG1;
    apply (ok_bind G), ok_world; [done|]; intros v s2 Hs2 HG2; cbn zeta;
    apply (ok_bind G), ok_record_audit; [done|]; intros s3 Hs3 HG3 Ha;
    apply (ok_ret G); intros s4 HG4; apply (ok_ret G); intros s5 HG5 Hpass;
    rewrite Hpass in Ha; eexists; eapply (audit_recorded_later _ _ _ _ _ s3); [done| |exact Ha];
    by etrans.
  all: intros [code tr] s1 Hs1 HG1; destruct (should_retry _ _ _); [|done];
    apply (ok_bind G), ok_back_off; [done|]; intros s2 Hs2 HG2; first [done|by apply IH].
Qed.

Lemma first_failure_none l :
  first_failure l = None → ∀ t x, (t, x) ∈ l → x = Ok true.
Proof.
  induction l as [|[t [[]|e]] l IH]; simpl; try done; [by intros _ ? ? ?%elem_of_nil|].
  intros Hn t' x [?|?]%elem_of_cons; [by simplify_eq|by eapply IH].
Qed.

Lemma ok_verify r (s : state) (P : option string → state → Prop) :
  sound s →
  (∀ e s', sound s' → G s s' → is_Some r.(we_plan) →
     (e = None → ∀ t, t ∈ r.(we_tasks) → verified r t s') → P e s') →
  okG (_verify retry r) s P.
Proof.
  intros Hs HP. apply (ok_bind G), ok_require_plan; [done|]. intros plan s1 Hplan Hs1 HG1.
  assert (steps_by_id (pl_steps plan) = plan_steps r) as -> by (unfold plan_steps; by rewrite Hplan).
  cbn zeta. apply (ok_bind G), ok_from_result. intros calls Hcalls s2 HG2.
  pose proof (G_sound _ _ HG2 Hs1) as Hs2. apply mapM_result in Hcalls.
  apply (ok_bind G). eapply (ok_mono G).
  { apply (ok_stable G), (ok_gather_settled G turn G_turn
      ((λ t b s', b = true → verified r t s') <$> we_tasks r)).
    clear HP. induction Hcalls as [|t c ts cs Hc _ IH]; [constructor|].
    rewrite fmap_cons. constructor; [|done].
    destruct (plan_steps r !! wt_step_id t) as [step|] eqn:Hst; [|done]. apply ok_inj in Hc as <-.
    unfold _verify_task. destruct (assoc "new_field" _) as [[| | |expected| |]|] eqn:Hf; try done.
    eapply (ok_mono G); [by apply ok_verify_attempts|]. intros b s' _ Hb Hpass.
    destruct (Hb Hpass) as [o Ho]. by exists step, expected, o. }
  intros results s3 HG3 Hres. apply (ok_ret G). intros s4 HG4. specialize (Hres s4 HG4).
  assert (G s s4) as HG by (repeat (etrans; [eassumption|]); done).
  apply HP; [by eapply G_sound|done|eauto|]. intros Hnone t [n Hn]%list_elem_of_lookup.
  rewrite Forall2_fmap_r in Hres. destruct (Forall2_lookup_r _ _ _ _ _ Hres Hn) as (x & Hx & Hok).
  assert (x = Ok true) as ->; [|by apply Hok].
  eapply first_failure_none; [exact Hnone|]. eapply list_elem_of_lookup_2.
  apply lookup_zip_Some. eauto.
Qed.

(** ** Rollback *)

(** The snapshot of a task was restored and the system's configuration hashes to
    what the snapshot recorded. *)
Definition restored (r : WorkflowExecutionRecord) (t : WorkflowTaskRecord) (s : state) : Prop :=
  t.(wt_status) = TaskRolledBack ∧
  ∃ snapshot_id snapshot_hash,
    t.(wt_snapshot_id) = Some snapshot_id ∧ t.(wt_snapshot_hash) = Some snapshot_hash ∧
    audit_recorded r "WORKFLOW_ROLLBACK_SUCCEEDED"
      (JObj [("snapshot_id", JStr snapshot_id);
             ("system_id", JStr (System_value t.(wt_system_id)))])
      (JObj [("configuration_hash", JStr snapshot_hash)]) AuditSuccess s.

Lemma restored_later r r' t (s s' : state) :
  sound s → G s s' → key_of r' = key_of r → restored r t s → restored r' t s'.
Proof.
  intros Hs HG Hk (? & i & h & ? & ? & ?). split; [done|]. exists i, h. split_and!; [done..|].
  eapply audit_recorded_same; [exact Hk|]. by eapply (audit_recorded_later _ _ _ _ _ s).
Qed.

Definition rolled_back (r : WorkflowExecutionRecord) (t t' : WorkflowTaskRecord) (failed : bool)
    (s : state) : Prop :=
  t'.(wt_step_id) = t.(wt_step_id) ∧
  if failed then t'.(wt_status) = TaskRollbackFailed else restored r t' s.

Lemma ok_rollback_task r t (s : state) :
  sound s → okG (rollback_task r t) s (λ x s', rolled_back r t x.1 x.2 s').
Proof.
  intros Hs. unfold rollback_task. cbn zeta.
  destruct (wt_snapshot_id t) as [i|] eqn:Hi, (wt_snapshot_hash t) as [h|] eqn:Hh.
  2-4: apply (ok_bind G), ok_pause; [done|]; intros now s1 Hs1 HG1; apply ok_from_result;
    intros t' [_ ->]%validated_ok s2 HG2; by apply (ok_ret G).
  apply ok_try_bind; [done| |].
  - apply (ok_bind G), ok_request_id; [done|]. intros q s1 Hs1 HG1.
    apply (ok_bind G), ok_world; [done|]. intros _ s2 Hs2 HG2.
    apply (ok_bind G), ok_request_id; [done|]. intros q' s3 Hs3 HG3.
    apply (ok_bind G), ok_world; [done|]. intros h' s4 Hs4 HG4.
    apply (ok_bind G), (ok_throw_if G). intros Hsame%negb_false_iff%bool_decide_eq_true s5 HG5. subst h'.
    pose proof (G_sound _ _ HG5 Hs4) as Hs5.
    apply (ok_bind G), ok_pause; [done|]. intros now s6 Hs6 HG6.
    apply ok_from_result. intros t' [_ ->]%validated_ok s7 HG7.
    apply (ok_bind G), ok_record_audit; [by eapply G_sound|]. intros s8 Hs8 HG8 Ha.
    apply (ok_ret G). intros s9 HG9. apply (ok_ret G). intros s10 HG10.
    split; [done|]. split; [done|]. exists i, h. split_and!; [done..|].
    eapply (audit_recorded_later _ _ _ _ _ s8); [done| |exact Ha]. by etrans.
  - intros [code tr] s1 Hs1 HG1. apply (ok_bind G), ok_pause; [done|]. intros now s2 Hs2 HG2.
    apply ok_from_result. intros t' [_ ->]%validated_ok s3 HG3.
    apply (ok_bind G), ok_record_audit; [by eapply G_sound|]. intros s4 Hs4 HG4 _.
    by apply (ok_ret G).
Qed.

(** The rollback of [ts]: every task of [ts] was rolled back; a failure shows. *)
Record rollback_done (r : WorkflowExecutionRecord) (ts d d' : list WorkflowTaskRecord)
    (before after : bool) (s : state) : Prop := {
  rb_ids : ids d' = ids d;
  rb_others t : t.(wt_step_id) ∉ ids ts → t ∈ d → t ∈ d';
  rb_restored : after = false → before = false ∧
    ∀ t, t ∈ d' → t.(wt_step_id) ∈ ids ts → restored r t s;
  rb_failed : after = true → before = true ∨ ∃ t, t ∈ d' ∧ t.(wt_status) = TaskRollbackFailed }.

Lemma ok_rollback_tasks r ts d b (s : state) :
  sound s → NoDup (ids d) → NoDup (ids ts) → (∀ t, t ∈ ts → t.(wt_step_id) ∈ ids d) →
  okG (rollback_tasks r ts d b) s (λ x s', rollback_done r ts d x.1 b x.2 s').
Proof.
  revert d b s. induction ts as [|t ts IH]; intros d b s Hs Hnd Hndt Hin; cbn [rollback_tasks].
  { apply (ok_ret G). intros s' HG. constructor; cbn [fst snd]; [done|done| |by left].
    intros ->. split; [done|]. by intros t _ ?%elem_of_nil. }
  rewrite fmap_cons in Hndt. apply NoDup_cons in Hndt as [Hnew Hndt].
  apply (ok_bind G). eapply (ok_mono G); [by apply (ok_stable G), ok_rollback_task|].
  intros [t' f] s1 HG1 Ht'. pose proof (G_sound _ _ HG1 Hs) as Hs1. cbn [fst snd] in *.
  pose proof (proj1 (Ht' s1 ltac:(reflexivity))) as Hid.
  assert (t'.(wt_step_id) ∈ ids d) as Hd by (rewrite Hid; apply Hin; by left).
  pose proof (set_task_ids t' d Hd) as Hids.
  eapply (ok_mono G).
  { apply IH; [done|by rewrite Hids|done|]. intros x Hx. rewrite Hids. apply Hin. by right. }
  intros [d' f'] s2 HG2 [R1 R2 R3 R4]. cbn [fst snd] in *. specialize (Ht' s2 HG2).
  rewrite Hids in R1.
  assert (t' ∈ d') as Ht'd.
  { apply R2; [by rewrite Hid|]. apply set_task_elem; [done..|by left]. }
  constructor; [done| | |].
  - rewrite fmap_cons. intros x [? ?]%not_elem_of_cons Hx. apply R2; [done|].
    apply set_task_elem; [done..|]. right. split; [done|congruence].
  - intros ->. destruct (R3 eq_refl) as [Hbf R3'].
    apply orb_false_iff in Hbf as [-> ->]. split; [done|].
    rewrite fmap_cons. intros x Hx [Hxt|Hxts]%elem_of_cons; [|by apply R3'].
    assert (x = t') as ->; [|apply Ht'].
    apply (task_unique d'); [by rewrite R1|done..|congruence].
  - intros ->. destruct (R4 eq_refl) as [Hbf|?]; [|by right].
    apply orb_true_iff in Hbf as [->| ->]; [by left|]. right. exists t'. split; [done|apply Ht'].
Qed.

Lemma rollback_order_perm plan ts ts' : rollback_order plan ts = Ok ts' → ts' ≡ₚ ts.
Proof.
  unfold rollback_order. rewrite result_bind_ok. intros (keyed & Hk & [= <-]).
  apply mapM_result in Hk.
  assert (keyed.*1 = ts) as <-; [|by apply fmap_Permutation, merge_sort_Permutation].
  induction Hk as [|t x l k Hx _ IH]; [done|]. rewrite fmap_cons, IH. f_equal.
  destruct (_ !! wt_step_id t); by simplify_eq.
Qed.

(** How a rollback ends. *)
Definition rollback_outcome (r r' : WorkflowExecutionRecord) (s' : state) : Prop :=
  (r'.(we_status) = RunFailed ∧ ∀ t, t ∈ r'.(we_tasks) → restored r t s') ∨
  (r'.(we_status) = RunNeedsAttention ∧
   ∃ t, t ∈ r'.(we_tasks) ∧ t.(wt_status) = TaskRollbackFailed).

Lemma ok_rollback r code (s : state) (P : WorkflowExecutionRecord → state → Prop) :
  sound s → seen r s → final r = false →
  (∀ r' s', sound s' → G s s' → seen r' s' → same_plan r r' → ids r'.(we_tasks) = ids r.(we_tasks) →
     rollback_outcome r r' s' → P r' s') →
  okG (_rollback r code) s P.
Proof.
  intros Hs Hr Hf HP. apply (ok_bind G), ok_get_change; [done|]. intros c s1 Hs1 HG1 _.
  apply (ok_bind G). eapply (ok_mono G) with (P := λ _ s', sound s').
  { destruct (mem _ _); [|apply (ok_ret G); intros; by eapply G_sound].
    apply (ok_bind G), ok_transition; [done|]. intros c' s2 Hs2 HG2 _ _.
    apply (ok_ret G). intros. by eapply G_sound. }
  intros _ s2 HG2 Hs2. assert (G s s2) as HG by by etrans. clear HG1 HG2 s1 Hs1.
  apply (ok_bind G), ok_set_runtime_status; [done|by eapply (seen_later _ s)|done|].
  intros r1 s3 Hs3 HG3 Hr1 Hw1 Hst1 _. apply (ok_bind G), ok_require_plan; [done|].
  intros plan s4 Hplan Hs4 HG4. apply (ok_bind G), ok_from_result. intros ts Hts s5 HG5.
  pose proof (G_sound _ _ HG5 Hs4) as Hs5. apply rollback_order_perm in Hts.
  pose proof (valid_ids _ (proj1 Hr1)) as Hnd. rewrite tasks_by_step_id by done.
  assert (ids ts ≡ₚ ids (we_tasks r1)) as Hperm by by apply fmap_Permutation.
  apply (ok_bind G). eapply (ok_mono G).
  { apply (ok_stable G), ok_rollback_tasks; [done|done|by rewrite Hperm|].
    intros t Ht. rewrite <-Hperm. by apply list_elem_of_fmap_2. }
  intros [d failed] s6 HG6 Hdone. cbn [fst snd] in *. pose proof (G_sound _ _ HG6 Hs5) as Hs6.
  pose proof (rb_ids _ _ _ _ _ _ _ (Hdone s6 ltac:(reflexivity))) as Hids.
  rewrite collect_same by (by rewrite ?Hids). apply (ok_bind G), ok_from_result.
  intros d' [= <-] s7 HG7. pose proof (G_sound _ _ HG7 Hs6) as Hs7.
  assert (final r1 = false) as Hf1 by (unfold final; by rewrite Hst1).
  assert (G s3 s7) as HG37 by (repeat (etrans; [eassumption|]); done).
  apply (seen_later _ s3 s7) in Hr1; [|done..].
  assert (supported (key_of r1)) as Hsup by (apply (proj1 Hr1); left; by eexists).
  apply (ok_bind G), ok_update_record; [done|done| |].
  { apply tasks_admissible; [apply Hr1|done..|]. simpl. by rewrite Hids. }
  intros now s8 Hs8 HG8 r2 Hr2. apply (ok_bind G), ok_transition; [done|].
  intros c' s9 Hs9 HG9 _ _. apply ok_terminal; [done|by eapply (seen_later _ s8)|done| |].
  { right. unfold r2. by rewrite updated_key. }
  intros r3 s10 Hs10 HG10 Hr3 Hw3 Hst3.
  assert (G s6 s10) as HG610 by (repeat (etrans; [eassumption|]); done).
  assert (same_plan r r3) as Hplan3.
  { eapply same_plan_trans; [apply (same_work_plan _ _ Hw1)|].
    apply (same_plan_trans _ r2); [done|by apply same_work_plan]. }
  assert (we_tasks r3 = d) as Htasks by apply Hw3.
  apply HP; [done| |done|done| |].
  - etrans; [exact HG|]. etrans; [exact HG3|]. etrans; [exact HG37|].
    etrans; [exact HG8|]. by etrans.
  - rewrite Htasks, Hids. f_equal. apply Hw1.
  - destruct (Hdone s10 HG610) as [_ _ R3 R4]. unfold rollback_outcome. rewrite Htasks, Hst3.
    destruct failed.
    + right. split; [done|]. by destruct (R4 eq_refl).
    + left. split; [done|]. destruct (R3 eq_refl) as [_ R3']. intros t Ht.
      apply (restored_later r1 _ _ s10); [done|done|symmetry; apply Hw1|]. apply R3'; [done|].
      rewrite Hperm, <-Hids. by apply list_elem_of_fmap_2.
Qed.
End Specs.
