(* ===== verification/EngineTermination.v ===== *)
(** The loops of the engine end.  Whatever the repositories, the clients and the
    scheduler answer, the fuel the model gives to a loop is enough, retries stay
    within the policy, every round of the step graph takes a task out of the
    pending ones, and the execution of an untouched plan is never blocked. *)

From S2P Require Import Prelude Json Contracts Errors Persistence Samples StateMachine Governance Coroutine Workflow Clients Engine Coordinator WorkflowSamples EngineFacts EngineSpecs.

(** The two outcomes ruled out: fuel that was not enough, and a graph in which no
    task is ready. *)
Class Stuck (e : exn) := stuck_cases : e = OutOfFuel ∨ e = permanent "DAG_PROGRESS_BLOCKED".
#[export] Instance stuck_fuel : Stuck OutOfFuel := or_introl eq_refl.
#[export] Instance stuck_blocked : Stuck (permanent "DAG_PROGRESS_BLOCKED") := or_intror eq_refl.

(** * Pending tasks *)

Abbreviation pending := (filter (λ t, has_status TaskPending t = true)).

Lemma assign_pending d rs :
  NoDup (ids d) → NoDup (ids rs) → (∀ x, x ∈ rs → x.(wt_status) ≠ TaskPending) →
  (∀ x, x ∈ rs → ∃ t, t ∈ pending d ∧ t.(wt_step_id) = x.(wt_step_id)) → rs ≠ [] →
  (length (pending (assign d rs)) < length (pending d))%nat.
Proof.
  intros Hnd Hrs Hst Hback Hne.
  assert (∀ x, x ∈ rs → x.(wt_step_id) ∈ ids d) as Hin.
  { intros x (t & [_ Ht]%list_elem_of_filter & <-)%Hback. by apply list_elem_of_fmap_2. }
  pose proof (assign_ids rs d Hin) as Hids.
  destruct rs as [|x rs]; [done|]. destruct (Hback x ltac:(by left)) as (t & Ht & Htx).
  set (rs' := x :: rs) in *.
  set (open_ids := filter (λ i, i ≠ wt_step_id t) (ids (pending d))).
  assert (ids (pending (assign d rs')) ⊆+ open_ids) as Hsub.
  { apply NoDup_submseteq; [by apply NoDup_fmap_filter; rewrite Hids|].
    intros i (y & -> & [Hy Hyin]%list_elem_of_filter)%list_elem_of_fmap.
    apply has_status_true in Hy. apply assign_elem in Hyin as [Hyr|[Hyd Hnew]]; [|..|done|done|done].
    - by apply Hst in Hyr.
    - apply list_elem_of_filter. split.
      + intros Heq. apply Hnew. rewrite Heq, Htx. by left.
      + apply list_elem_of_fmap_2, list_elem_of_filter. by split; [apply has_status_true|]. }
  apply submseteq_length in Hsub. rewrite length_fmap in Hsub.
  assert (length open_ids < length (ids (pending d)))%nat; [|rewrite length_fmap in *; lia].
  apply (length_filter_lt _ _ (wt_step_id t)); [by apply list_elem_of_fmap_2|]. by intros ?.
Qed.

Lemma existsb_pending d : existsb (has_status TaskPending) d = true ↔ pending d ≠ [].
Proof.
  rewrite existsb_exists. split.
  - intros (t & Ht & Hs) Hnil. apply (filter_nil_not_elem_of _ _ t Hnil); [done|by apply list_elem_of_In].
  - intros Hne. destruct (pending d) as [|t l] eqn:E; [done|]. exists t.
    assert (t ∈ pending d) as [? ?]%list_elem_of_filter by (rewrite E; by left).
    split; [by apply list_elem_of_In|done].
Qed.

(** ** Progress

    The tasks of an execution in which nothing has failed. *)
Record in_progress (plan : list RemediationStep) (d : list WorkflowTaskRecord) : Prop := {
  ip_graph : step_graph plan;
  ip_ids : ids d ≡ₚ st_step_id <$> plan;
  ip_status t : t ∈ d → t.(wt_status) = TaskPending ∨ t.(wt_status) = TaskSucceeded }.

(** While a task is pending, one is ready. *)
Lemma in_progress_ready plan d :
  in_progress plan d → pending d ≠ [] →
  ∃ ready, ready_tasks (steps_by_id plan) d = Ok ready ∧ ready ≠ [].
Proof.
  intros [Hgraph Hids Hst] Hne. pose proof Hgraph as (Hnd & _).
  assert (∀ t, t ∈ d → ∃ step, step ∈ plan ∧ step.(st_step_id) = t.(wt_step_id) ∧
    steps_by_id plan !! t.(wt_step_id) = Some step) as Hstep.
  { intros t Ht. assert (wt_step_id t ∈ st_step_id <$> plan) as Hin
      by (rewrite <-Hids; by apply list_elem_of_fmap_2).
    apply list_elem_of_fmap in Hin as (step & Heq & Hin). exists step. split_and!; [done..|].
    rewrite Heq. by apply steps_by_id_elem. }
  set (done_ids := wt_step_id <$> filter (λ t, has_status TaskSucceeded t = true) d).
  assert (∃ ws, mapM (λ t, match steps_by_id plan !! t.(wt_step_id) with
    | Some step => Ok (t, step) | None => Err KeyError end) (pending d) = Ok ws) as [ws Hws].
  { assert (∀ t, t ∈ pending d → t ∈ d) as Hsub by (by intros t [_ ?]%list_elem_of_filter).
    revert Hsub. generalize (pending d). intros l. induction l as [|t l IH]; intros Hsub; [by eexists|].
    destruct (Hstep t (Hsub t ltac:(by left))) as (step & _ & _ & Hs).
    destruct IH as [ws Hws]; [intros t' Ht'; apply Hsub; by right|].
    exists ((t, step) :: ws). cbn [mapM]. rewrite Hs. cbn. by rewrite Hws. }
  unfold ready_tasks. rewrite Hws. eexists. split; [reflexivity|].
  destruct (pending d) as [|t0 l] eqn:Hp; [done|].
  assert (t0 ∈ pending d) as [Ht0 Hin0]%list_elem_of_filter by (rewrite Hp; by left).
  destruct (Hstep t0 Hin0) as (s0 & Hs0 & Hid0 & _).
  assert (s0.(st_step_id) ∉ done_ids) as Hnew.
  { rewrite Hid0. intros (t' & Heq & [Ht' Hin']%list_elem_of_filter)%list_elem_of_fmap.
    apply has_status_true in Ht0, Ht'. apply (task_unique d) in Heq; [|by rewrite Hids|done..].
    congruence. }
  destruct (step_graph_ready plan done_ids s0 Hgraph Hs0 Hnew) as (s & Hs & Hsnew & Hdeps).
  assert (s.(st_step_id) ∈ ids d) as (t & Ht & Htin)%list_elem_of_fmap
    by (rewrite Hids; by apply list_elem_of_fmap_2).
  assert (t ∈ pending d) as Htp.
  { apply list_elem_of_filter. split; [|done]. apply has_status_true.
    destruct (Hst t Htin) as [?|Hsucc]; [done|]. destruct Hsnew. rewrite Ht.
    apply list_elem_of_fmap_2, list_elem_of_filter. by split; [apply has_status_true|]. }
  apply mapM_result in Hws. rewrite Hp in Htp. apply list_elem_of_lookup in Htp as [n Hn].
  destruct (Forall2_lookup_l _ _ _ _ _ Hws Hn) as (w & Hw & Hok).
  destruct (Hstep t Htin) as (step' & Hin' & _ & Hs'). rewrite Hs' in Hok.
  apply ok_inj in Hok. rewrite <-Ht, steps_by_id_elem in Hs' by done. apply (inj Some) in Hs'.
  subst step'. rewrite <-Hok in Hw.
  intros Hnil. apply (filter_nil_not_elem_of _ _ (t, s) Hnil); [|by eapply list_elem_of_lookup_2].
  apply subset_true. exact Hdeps.
Qed.

(** * The engine's calls *)

(** Closes [e ≠ stuck] for the exceptions of the program. *)
Ltac unstuck :=
  match goal with |- _ ≠ ?e => destruct (stuck_cases (e:=e)) as [->| ->]; discriminate end.

Create HintDb total discriminated.

(** Runs through a coroutine whose calls are in the hint database. *)
Ltac total_step :=
  match goal with
  | |- True => exact I
  | |- total _ (mret _) _ => apply total_ret; exact I
  | |- total _ (throw _) _ => apply total_throw; unstuck
  | |- total _ (throw_if _ _) _ => apply total_throw_if; [unstuck|intros _; exact I]
  | |- total _ _ _ => solve [auto with total nocore]
  | |- total _ (mbind _ _) _ => eapply (total_bind _ _ _ (λ _, True)); [|intros ? _]
  | |- total _ (if ?b then _ else _) _ => destruct b
  | |- total _ (match ?x with _ => _ end) _ => destruct x
  end.
Ltac total_auto := repeat (total_step; cbn zeta).

Section Total.
Context `{Platform} {V R W : Type} `{WorkflowRepository V} `{ChangeStateRepository R}
  `{Environment W} `{FleetClient W} `{GatewayClient W} `{SandboxClient W}.
Context (retry : RetryPolicy) (stuck : exn) `{!Stuck stuck}.
Abbreviation engine A := (co (EngineState V R W) exn A).

Lemma total_workflows {A} (m : call V A) : total stuck (workflows (R:=R) (W:=W) m) (λ _, True).
Proof. apply total_perform. Qed.
Lemma total_changes {A} (m : call R A) : total stuck (changes (V:=V) (W:=W) m) (λ _, True).
Proof. apply total_perform. Qed.
Lemma total_world {A} (m : call W A) : total stuck (world (V:=V) (R:=R) m) (λ _, True).
Proof. apply total_perform. Qed.
Lemma total_reading {A} (f : W → A * W) : total stuck (reading (V:=V) (R:=R) f) (λ _, True).
Proof. apply total_perform. Qed.
Hint Resolve total_workflows total_changes total_world total_reading : total.
Lemma total_clock : total stuck (clock : engine Z) (λ _, True).
Proof. apply total_reading. Qed.
Lemma total_uuid4 : total stuck (uuid4 : engine string) (λ _, True).
Proof. apply total_reading. Qed.
Lemma total_get_change r : total stuck (get_change r : engine ChangeRecord) (λ _, True).
Proof. apply total_changes. Qed.
Hint Resolve total_clock total_uuid4 total_get_change : total.
Lemma total_request_id : total stuck (request_id : engine string) (λ _, True).
Proof. unfold request_id. total_auto. Qed.

Lemma total_validated {A} model (ok : A → bool) (x : A) :
  total stuck (from_result (validated model ok x) : engine A) (λ y, y = x).
Proof. apply total_from_result. unfold validated. destruct (ok x); [done|unstuck]. Qed.
Lemma total_validated_true {A} model (ok : A → bool) (x : A) :
  total stuck (from_result (validated model ok x) : engine A) (λ _, True).
Proof. eapply total_true, total_validated. Qed.
Hint Resolve total_request_id total_validated_true : total.

Lemma total_try_call {A} (c : engine A) (Q : A → Prop) :
  total stuck c Q →
  total stuck (try_call c) (λ x, match x with inl a => Q a | inr _ => True end).
Proof.
  intros Hc. apply returns_bind, returns_settle. eapply returns_mono; [exact Hc|].
  intros [a|e] HQ; [exact HQ|]. by destruct (as_dependency e) as [[? ?]|].
Qed.
Lemma total_try_call_true {A} (c : engine A) :
  total stuck c (λ _, True) → total stuck (try_call c) (λ _, True).
Proof. intros Hc. by eapply total_true, total_try_call. Qed.
Hint Resolve total_try_call_true : total.

Lemma total_update_record r us : total stuck (_update_record r us : engine _) (λ _, True).
Proof. unfold _update_record. total_auto. Qed.
Hint Resolve total_update_record : total.
Lemma total_set_runtime_status r st e : total stuck (_set_runtime_status r st e : engine _) (λ _, True).
Proof. unfold _set_runtime_status. total_auto. Qed.
Lemma total_terminal r st e : total stuck (_terminal r st e : engine _) (λ _, True).
Proof. unfold _terminal. total_auto. Qed.
Hint Resolve total_set_runtime_status total_terminal : total.
Lemma total_dead_letter r code : total stuck (_dead_letter r code : engine _) (λ _, True).
Proof. unfold _dead_letter. total_auto. Qed.
Lemma total_transition r target u : total stuck (_transition r target u : engine _) (λ _, True).
Proof. unfold _transition. total_auto. Qed.
Lemma total_require_plan r : total stuck (_require_plan r : engine _) (λ plan, r.(we_plan) = Some plan).
Proof. unfold _require_plan. destruct (we_plan r); [done|]. apply total_throw. unstuck. Qed.
Lemma total_require_plan_true r : total stuck (_require_plan r : engine _) (λ _, True).
Proof. eapply total_true, total_require_plan. Qed.
Lemma total_audit r ty ac i o st sm : total stuck (_audit r ty ac i o st sm : engine _) (λ _, True).
Proof. unfold _audit. total_auto. Qed.
Hint Resolve total_dead_letter total_transition total_require_plan_true total_audit : total.
Lemma total_record_audit r ty ac i o st sm :
  total stuck (_record_audit r ty ac i o st sm : engine _) (λ _, True).
Proof. unfold _record_audit. total_auto. Qed.
Hint Resolve total_record_audit : total.

Lemma total_ensure_change r : total stuck (_ensure_change r : engine _) (λ _, True).
Proof.
  unfold _ensure_change. apply total_catch; [total_auto|]. intros e h Hh.
  destruct e as [| | | |[]| | | | | | | | |]; try done. apply (inj Some) in Hh as <-. total_auto.
  apply total_catch; [total_auto|]. intros e h Hh.
  destruct e as [| | | |[]| | | | | | | | |]; try done. apply (inj Some) in Hh as <-. total_auto.
Qed.
Hint Resolve total_ensure_change : total.

(** ** Snapshots *)

Lemma total_store_snapshots r answers d :
  total stuck (store_snapshots r answers d : engine _) (λ _, True).
Proof.
  revert d. induction answers as [|[t [snapshot|e]] answers IH]; intros d; cbn [store_snapshots].
  - total_auto.
  - total_auto.
  - destruct (as_dependency e) as [[code []]|]; total_auto.
Qed.

Lemma total_collect ts d : total stuck (from_result (collect ts d) : engine _) (λ _, True).
Proof.
  apply total_from_result. destruct (collect ts d) as [l|e] eqn:E1; [done|].
  apply mapM_result_err in E1 as (t & _ & Ht). destruct (find_task _ _); [done|].
  apply err_inj in Ht as <-. unstuck.
Qed.

Lemma total_mapM {A B} (f : A → engine B) l :
  (∀ x, total stuck (f x) (λ _, True)) → total stuck (mapM f l) (λ _, True).
Proof.
  intros Hf. induction l as [|x l IH]; cbn [mapM]; [done|].
  eapply total_bind; [apply Hf|]. intros y _. eapply total_bind; [exact IH|]. done.
Qed.
Hint Resolve total_store_snapshots total_collect : total.

Lemma total_capture_snapshots r : total stuck (_capture_snapshots r : engine _) (λ _, True).
Proof.
  unfold _capture_snapshots. cbn zeta. case_bool_decide; [done|].
  eapply total_bind; [apply total_mapM; intros; total_auto|]. intros requests _.
  eapply total_bind; [apply total_gather_settled|].
  { apply Forall_fmap, Forall_forall. intros [t q] _. apply total_world. }
  intros snapshots _. total_auto.
Qed.

(** ** Retries *)

Lemma total_back_off n : total stuck (back_off retry n : engine _) (λ _, True).
Proof.
  unfold back_off. eapply total_bind; [apply total_reading|]. intros jitter _.
  eapply (total_bind _ _ _ (λ _, True)); [|intros; apply total_reading]. apply total_from_result.
  unfold delay. destruct (n <? 1); [unstuck|done].
Qed.

(** One try of a step leaves a task of the same step, not pending, with its attempts
    counted. *)
Definition tried (t t' : WorkflowTaskRecord) (least most : Z) : Prop :=
  t'.(wt_step_id) = t.(wt_step_id) ∧ least <= t'.(wt_attempt_count) <= most ∧
  (t'.(wt_status) = TaskSucceeded ∨ t'.(wt_status) = TaskFailed).

Lemma total_execute_once r plan aid t step n :
  total stuck (execute_once r plan aid t step n : engine _) (λ t', tried t t' n n ∧ t'.(wt_status) = TaskSucceeded).
Proof.
  unfold execute_once. do 4 (eapply (total_bind _ _ _ (λ _, True)); [total_auto|intros ? _]).
  eapply total_bind; [total_auto|intros ? _].
  eapply total_mono; [apply total_validated|]. intros t' ->. unfold tried. split_and!; simpl; first [done|lia|by left].
Qed.

Lemma total_execute_attempts r plan aid t step fuel n :
  retry.(maximum_attempts) <= n + 1 + Z.of_nat fuel →
  total stuck (execute_attempts retry r plan aid t step fuel n : engine _)
    (λ t', tried t t' (n + 1) (Z.max (n + 1) retry.(maximum_attempts))).
Proof.
  revert n. induction fuel as [|fuel IH]; intros n Hfuel.
  all: cbn [execute_attempts]; cbn zeta;
    eapply total_bind; [apply total_try_call, total_execute_once|];
    intros [t'|[code tr]]; [intros [(? & ? & ?) _]; apply total_ret; split_and!; [done|lia..|done]|intros _].
  all: destruct (should_retry retry tr (n + 1)) eqn:Hretry;
    (eapply (total_bind _ _ _ (λ _, True)); [total_auto|intros ? _]).
  all: try (eapply (total_bind _ _ _ (λ _, True)); [apply total_back_off|intros ? _]).
  - apply andb_true_iff in Hretry as [_ Hlt%Z.ltb_lt]. lia.
  - eapply (total_bind _ _ _ (λ _, True)); [total_auto|intros ? _].
    eapply total_mono; [apply total_validated|]. intros t' ->. unfold tried. split_and!; simpl; first [done|lia|by right].
  - apply andb_true_iff in Hretry as [_ Hlt%Z.ltb_lt]. eapply total_mono; [apply IH; lia|]. intros t' (? & ? & ?). split_and!; [done|lia..|done].
  - eapply (total_bind _ _ _ (λ _, True)); [total_auto|intros ? _].
    eapply total_mono; [apply total_validated|]. intros t' ->. unfold tried. split_and!; simpl; first [done|lia|by right].
Qed.

Lemma total_execute_task r t step :
  total stuck (_execute_task retry r t step : engine _)
    (λ t', tried t t' (t.(wt_attempt_count) + 1)
             (Z.max (t.(wt_attempt_count) + 1) retry.(maximum_attempts))).
Proof.
  unfold _execute_task. eapply total_bind; [apply total_require_plan|]. intros plan _.
  destruct (we_approval_id r); [|apply total_throw; unstuck].
  apply total_execute_attempts; lia.
Qed.

(** ** Rounds *)

(** Either only the fuel is at stake, or nothing has failed yet. *)
Definition unblocked (steps : gmap string RemediationStep) (d : list WorkflowTaskRecord) : Prop :=
  stuck = OutOfFuel ∨ ∃ plan, steps = steps_by_id plan ∧ in_progress plan d.

Lemma unblocked_ready steps d ready :
  unblocked steps d → pending d ≠ [] → ready_tasks steps d = Ok ready →
  permanent "DAG_PROGRESS_BLOCKED" ≠ stuck ∨ ready ≠ [].
Proof.
  intros [->|(plan & -> & Hd)] Hne Hready; [by left|right].
  destruct (in_progress_ready plan d Hd Hne) as (ready' & Hr & Hn). congruence.
Qed.

(** What a round makes of the dictionary. *)
Record round_done (steps : gmap string RemediationStep) (d results d' : list WorkflowTaskRecord)
    : Prop := {
  rd_ids : NoDup (ids d');
  rd_pending : (length (pending d') < length (pending d))%nat;
  rd_unblocked : existsb (has_status TaskFailed) results = false → unblocked steps d' }.

Lemma tried_round steps d ready results :
  NoDup (ids d) → unblocked steps d → ready_tasks steps d = Ok ready → ready ≠ [] →
  Forall2 (λ x t', ∃ least most, tried x.1 t' least most) ready results →
  round_done steps d results (assign d results).
Proof.
  intros Hnd Hun Hready Hne Htried.
  assert (ids results = ids ready.*1) as Hids.
  { clear -Htried. induction Htried as [|x t' l k (? & ? & Hid & _) _ IH]; [done|].
    by rewrite !fmap_cons, IH, Hid. }
  pose proof (ready_tasks_NoDup _ _ _ Hnd Hready) as Hndr. rewrite <-Hids in Hndr.
  assert (∀ t', t' ∈ results → (∃ t, t ∈ pending d ∧ t.(wt_step_id) = t'.(wt_step_id)) ∧
    (t'.(wt_status) = TaskSucceeded ∨ t'.(wt_status) = TaskFailed)) as Hback.
  { intros t' [n Hn]%list_elem_of_lookup.
    destruct (Forall2_lookup_r _ _ _ _ _ Htried Hn) as ([t st] & Ht & ? & ? & Hid & _ & Hst).
    split; [|done]. exists t. split; [|done].
    apply list_elem_of_lookup_2, (ready_tasks_elem _ _ _ _ _ Hready) in Ht as (Ht & Hp & _).
    apply list_elem_of_filter. by split; [apply has_status_true|]. }
  assert (∀ x, x ∈ results → x.(wt_step_id) ∈ ids d) as Hin.
  { intros x [(t & [_ Ht]%list_elem_of_filter & <-) _]%Hback. by apply list_elem_of_fmap_2. }
  pose proof (assign_ids results d Hin) as Hids'. constructor; [by rewrite Hids'| |].
  - apply assign_pending; [done|done| | |].
    + intros x [_ [Hx|Hx]]%Hback; congruence.
    + intros x Hx. apply (Hback x Hx).
    + intros ->. by apply Forall2_nil_inv_r in Htried.
  - intros Hok. destruct Hun as [?|(plan & -> & [Hg Hi Hst])]; [by left|right].
    exists plan. split; [done|]. constructor; [done|by rewrite Hids'|].
    intros t Ht. apply assign_elem in Ht as [Hr|[Hd _]]; [|by apply Hst|done..].
    destruct (Hback t Hr) as [_ [?|Hf]]; [by right|].
    assert (existsb (has_status TaskFailed) results = true); [|congruence].
    apply existsb_exists. exists t. split; [by apply list_elem_of_In|by apply has_status_true].
Qed.

Lemma total_execute_round steps r d :
  NoDup (ids d) → unblocked steps d → pending d ≠ [] →
  total stuck (execute_round retry steps r d : engine _) (λ x, round_done steps d x.1.1 x.1.2).
Proof.
  intros Hnd Hun Hp. unfold execute_round.
  eapply (total_bind _ _ _ (λ ready, ready_tasks steps d = Ok ready)).
  { apply total_from_result. destruct (ready_tasks steps d) as [ready|e] eqn:E1; [done|].
    unfold ready_tasks in E1. destruct (mapM _ _) as [ws|e'] eqn:E2; [done|].
    apply err_inj in E1 as <-. apply mapM_result_err in E2 as (t & _ & Ht).
    destruct (steps !! _); [done|]. apply err_inj in Ht as <-. unstuck. }
  intros ready Hready. eapply (total_bind _ _ _ (λ _, ready ≠ [])).
  { destruct (unblocked_ready steps d ready Hun Hp Hready) as [He|Hne].
    - apply total_throw_if; [done|]. by intros ?%bool_decide_eq_false.
    - by rewrite bool_decide_eq_false_2. }
  intros _ Hne. eapply total_bind.
  { apply (total_gather_map _ turn _ (λ x t', ∃ least most, tried x.1 t' least most)).
    intros [t st] _. eapply total_mono; [apply total_execute_task|]. intros t' Ht. do 2 eexists. exact Ht. }
  intros results Htried. cbn zeta. eapply total_bind; [apply total_collect|]. intros ts _.
  eapply total_bind; [apply total_update_record|]. intros r' _. apply total_ret. cbn [fst snd].
  by eapply tried_round.
Qed.

Lemma total_execute_rounds steps fuel r d :
  NoDup (ids d) → unblocked steps d → (length (pending d) <= fuel)%nat →
  total stuck (execute_rounds retry steps fuel r d : engine _) (λ _, True).
Proof.
  revert r d. induction fuel as [|fuel IH]; intros r d Hnd Hun Hfuel;
    cbn [execute_rounds]; destruct (existsb (has_status TaskPending) d) eqn:Hp; cbn [negb]; try done;
    apply existsb_pending in Hp.
  - destruct (pending d); [done|simpl in Hfuel; lia].
  - eapply total_bind; [by apply total_execute_round|]. intros [[results d'] r'] [Hids Hless Hun'].
    cbn [fst snd] in *.
    destruct (existsb (has_status TaskFailed) results); [done|]. apply IH; [done|auto|lia].
Qed.

Lemma tasks_by_step_spec ts :
  NoDup (ids (tasks_by_step ts)) ∧ (length (tasks_by_step ts) <= length ts)%nat.
Proof.
  unfold tasks_by_step. change (length ts) with (length (@nil WorkflowTaskRecord) + length ts)%nat.
  assert (∀ d, NoDup (ids d) → NoDup (ids (foldl (λ d t, set_task t d) d ts)) ∧
    (length (foldl (λ d t, set_task t d) d ts) <= length d + length ts)%nat) as Hgen.
  { induction ts as [|t ts IH]; intros d Hd; cbn [foldl length]; [split; [done|lia]|].
    assert (NoDup (ids (set_task t d)) ∧ (length (set_task t d) <= S (length d))%nat) as [Hn Hl].
    { destruct (decide (wt_step_id t ∈ ids d)) as [Hin|Hout].
      - pose proof (set_task_ids t d Hin) as Hids. rewrite Hids. split; [done|].
        apply (f_equal length) in Hids. rewrite !length_fmap in Hids. lia.
      - rewrite set_task_new by done. rewrite fmap_app, length_app. split; [|simpl; lia].
        apply NoDup_app. split_and!; [done| |apply NoDup_singleton].
        intros i Hi ->%list_elem_of_singleton. done. }
    destruct (IH _ Hn). split; [done|lia]. }
  apply Hgen. constructor.
Qed.

Lemma total_execute_dag r :
  (∀ plan, r.(we_plan) = Some plan →
     unblocked (steps_by_id plan.(pl_steps)) (tasks_by_step r.(we_tasks))) →
  total stuck (_execute_dag retry r : engine _) (λ _, True).
Proof.
  intros Hun. unfold _execute_dag. eapply total_bind; [apply total_require_plan|].
  intros plan Hplan. destruct (tasks_by_step_spec (we_tasks r)) as [Hnd Hlen].
  apply total_execute_rounds; [done|by apply Hun|]. etrans; [apply length_filter|done].
Qed.

(** ** Verification and rollback *)

Lemma total_verify_attempts r t expected fuel n :
  retry.(maximum_attempts) <= n + 1 + Z.of_nat fuel →
  total stuck (verify_attempts retry r t expected fuel n : engine _) (λ _, True).
Proof.
  revert n. induction fuel as [|fuel IH]; intros n Hfuel; cbn [verify_attempts]; cbn zeta;
    (eapply total_bind; [apply total_try_call_true; unfold verify_once; total_auto|]);
    intros [passed|[code tr]] _; try apply total_ret, I;
    destruct (should_retry retry tr (n + 1)) eqn:Hretry; try (apply total_throw; unstuck);
    (eapply total_bind; [apply total_back_off|intros ? _]);
    apply andb_true_iff in Hretry as [_ Hlt%Z.ltb_lt].
  - lia.
  - apply IH. lia.
Qed.

Lemma total_verify_task r t step : total stuck (_verify_task retry r t step : engine _) (λ _, True).
Proof.
  unfold _verify_task.
  destruct (assoc "new_field" _) as [[| | |expected| |]|]; try (apply total_throw; unstuck).
  apply total_verify_attempts. lia.
Qed.

Lemma total_verify r : total stuck (_verify retry r : engine _) (λ _, True).
Proof.
  unfold _verify. eapply total_bind; [apply total_require_plan|]. intros plan _. cbn zeta.
  eapply (total_bind _ _ _ (λ calls, Forall (λ c, total stuck c (λ _, True)) calls)).
  - apply total_from_result. destruct (mapM _ _) as [calls|e] eqn:E1.
    + apply mapM_result in E1. clear -E1 Stuck0. induction E1 as [|t c ts cs Hc _ IH]; [constructor|].
      constructor; [|done]. destruct (_ !! wt_step_id t); [|done]. apply ok_inj in Hc as <-.
      apply total_verify_task.
    + apply mapM_result_err in E1 as (t & _ & Ht). destruct (_ !! _); [done|].
      apply err_inj in Ht as <-. unstuck.
  - intros calls Hcalls. eapply total_bind; [by apply total_gather_settled|]. intros results _.
    by apply total_ret.
Qed.

Lemma total_rollback_tasks r ts d b :
  total stuck (rollback_tasks r ts d b : engine _) (λ _, True).
Proof.
  assert (∀ t, total stuck (rollback_task r t : engine _) (λ _, True)) as Htask.
  { intros t. unfold rollback_task. cbn zeta. total_auto. apply total_try_call_true. total_auto. }
  revert d b. induction ts as [|t ts IH]; intros d b; cbn [rollback_tasks]; [done|].
  eapply total_bind; [apply Htask|]. intros [t' f] _. apply IH.
Qed.

Lemma total_rollback r code : total stuck (_rollback r code : engine _) (λ _, True).
Proof.
  assert (∀ plan ts, total stuck (from_result (rollback_order plan ts) : engine _) (λ _, True)) as Horder.
  { intros plan ts. apply total_from_result. unfold rollback_order.
    destruct (mapM _ _) as [keyed|e] eqn:E1; [done|]. simpl.
    apply mapM_result_err in E1 as (t & _ & Ht). destruct (_ !! _); [done|].
    apply err_inj in Ht as <-. unstuck. }
  pose proof total_rollback_tasks. unfold _rollback. total_auto.
Qed.
Hint Resolve total_verify total_rollback total_capture_snapshots : total.

(** ** The entry points *)

Lemma total_initial_tasks plan now :
  total stuck (from_result (initial_tasks plan now) : engine _) (λ _, True).
Proof.
  apply total_from_result. destruct (initial_tasks plan now) as [ts|e] eqn:E1; [done|].
  apply mapM_result_err in E1 as (step & _ & Hs). unfold system_for_step in Hs.
  destruct (assoc _ _) as [system|].
  - cbn in Hs. unfold validated in Hs. destruct (WorkflowTaskRecord_ok _); [done|].
    apply err_inj in Hs as <-. unstuck.
  - apply err_inj in Hs as <-. unstuck.
Qed.
Hint Resolve total_initial_tasks : total.

Lemma total_open_workflow event : total stuck (open_workflow event : engine _) (λ _, True).
Proof.
  unfold open_workflow. total_auto. apply total_catch; [total_auto|]. intros e h Hh.
  destruct e as [| | | | | | | |[]| | | | |]; try done. apply (inj Some) in Hh as <-. total_auto.
Qed.
Lemma total_analysis_failed r code tr : total stuck (analysis_failed r code tr : engine _) (λ _, True).
Proof. unfold analysis_failed. total_auto. Qed.
Hint Resolve total_open_workflow total_analysis_failed : total.
Lemma total_start_screening r : total stuck (start_screening r : engine _) (λ _, True).
Proof. unfold start_screening. total_auto. Qed.
Lemma total_analyze_event r event : total stuck (analyze_event r event : engine _) (λ _, True).
Proof. unfold analyze_event. total_auto. apply total_try_call_true. total_auto. Qed.
Lemma total_advance_change r plan : total stuck (advance_change r plan : engine _) (λ _, True).
Proof. unfold advance_change. total_auto. Qed.
Hint Resolve total_start_screening total_analyze_event total_advance_change : total.
Lemma total_request_approval r : total stuck (request_approval r : engine _) (λ _, True).
Proof. unfold request_approval. total_auto. apply total_try_call_true. total_auto. Qed.
Hint Resolve total_request_approval : total.

Lemma total_process_event event : total stuck (process_event event : engine _) (λ _, True).
Proof. unfold process_event. total_auto. Qed.

Lemma total_resume_approval callback :
  (∀ r, total stuck (_execute_dag retry r : engine _) (λ _, True)) →
  total stuck (resume_approval retry callback : engine _) (λ _, True).
Proof.
  intros Hdag. unfold resume_approval, rejected, changes_requested, approved, execute_approved.
  total_auto.
Qed.
End Total.

(** A record of a stored workflow in which nothing has failed. *)
Lemma record_in_progress `{Platform} r plan :
  WorkflowExecutionRecord_ok r = true → NoDup (ids r.(we_tasks)) → r.(we_plan) = Some plan →
  (∀ t, t ∈ r.(we_tasks) → t.(wt_status) = TaskPending ∨ t.(wt_status) = TaskSucceeded) →
  in_progress plan.(pl_steps) r.(we_tasks).
Proof.
  intros Hok Hnd Hplan Hst. pose proof (valid_tasks r Hok Hnd) as Hv. rewrite Hplan in Hv.
  destruct Hv as [Hp Hids]. by constructor; [apply plan_ok_graph|..].
Qed.

Module EngineProperties.
Section Properties.
Context `{Platform} {V R W : Type} `{WorkflowRepository V} `{ChangeStateRepository R}
  `{Environment W} `{FleetClient W} `{GatewayClient W} `{SandboxClient W}.
Context (retry : RetryPolicy).
Abbreviation engine A := (co (EngineState V R W) exn A).

(** C13. The coordinator's two entry points end: whatever the repositories, the services
    and the scheduler answer to their calls, no retry loop and no execution loop
    uses up the rounds the model allows it. *)
Theorem engine_terminates :
  (∀ event, total OutOfFuel (process_event event : engine WorkflowExecutionRecord) (λ _, True)) ∧
  (∀ callback,
     total OutOfFuel (resume_approval retry callback : engine WorkflowExecutionRecord) (λ _, True)).
Proof.
  split; [intros event; apply total_process_event, _|].
  intros callback. apply total_resume_approval; [apply _|]. intros r.
  apply total_execute_dag; [apply _|]. intros plan _. by left.
Qed.

(** C38. A step that is executed ends succeeded or failed after at least one further
    attempt, and never after more attempts than the policy allows, counting those
    of earlier executions; a task that had used them all gets one more. *)
Theorem attempts_bounded r t step :
  total OutOfFuel (_execute_task retry r t step : engine WorkflowTaskRecord) (λ t',
    t'.(wt_step_id) = t.(wt_step_id) ∧
    (t'.(wt_status) = TaskSucceeded ∨ t'.(wt_status) = TaskFailed) ∧
    t.(wt_attempt_count) < t'.(wt_attempt_count) ∧
    t'.(wt_attempt_count) <= Z.max (t.(wt_attempt_count) + 1) retry.(maximum_attempts)).
Proof.
  eapply total_mono; [apply total_execute_task, _|]. intros t' (? & ? & ?). split_and!; try done; lia.
Qed.

(** C8. Executing a stored workflow in which nothing has failed makes progress: while a
    task is pending one is ready, and whatever the calls answer the execution is
    never stopped as blocked. *)
Theorem dag_progress r plan :
  WorkflowExecutionRecord_ok r = true → NoDup (wt_step_id <$> r.(we_tasks)) →
  r.(we_plan) = Some plan →
  (∀ t, t ∈ r.(we_tasks) → t.(wt_status) = TaskPending ∨ t.(wt_status) = TaskSucceeded) →
  (existsb (has_status TaskPending) r.(we_tasks) = true →
   ∃ ready, ready_tasks (steps_by_id plan.(pl_steps)) r.(we_tasks) = Ok ready ∧ ready ≠ []) ∧
  total (permanent "DAG_PROGRESS_BLOCKED")
    (_execute_dag retry r : engine WorkflowExecutionRecord) (λ _, True).
Proof.
  intros Hok Hnd Hplan Hst. pose proof (record_in_progress r plan Hok Hnd Hplan Hst) as Hip.
  split; [intros Hp%existsb_pending; by apply in_progress_ready|].
  apply total_execute_dag; [apply _|]. intros plan' Hplan'. right. exists (pl_steps plan').
  split; [done|]. rewrite tasks_by_step_id by done. congruence.
Qed.
End Properties.

(** The demonstration workflow when it waits for its approval. *)
Definition planned_record : WorkflowExecutionRecord := Eval vm_compute in
  match (run (process_event demo_event) (fresh 0 true)).1 with
  | Ok r => r | Err _ => new_record demo_event 0 end.

Lemma dag_progress_witness :
  existsb (has_status TaskPending) (we_tasks planned_record) = true ∧
  total (permanent "DAG_PROGRESS_BLOCKED")
    (_execute_dag demo_retry planned_record :
       co demo_engine exn WorkflowExecutionRecord) (λ _, True).
Proof.
  split; [reflexivity|].
  eapply (dag_progress demo_retry planned_record fleet_plan).
  - vm_compute. reflexivity.
  - apply (bool_decide_unpack _). vm_compute. exact I.
  - reflexivity.
  - intros t Ht. left. revert t Ht. apply Forall_forall. by repeat constructor.
Defined.
End EngineProperties.
