(* ===== verification/CoordinatorFacts.v ===== *)
(** Specifications of the coordinator's entry points under every interleaving. *)

From S2P Require Import Prelude Json Contracts Errors Persistence StateMachine Governance Coroutine Workflow Clients Engine Coordinator EngineFacts EngineSpecs.

Section Specs.
Context `{Platform} `{EventTypes} {V R W : Type} `{WorkflowLaws V} `{RepositoryLaws R}
  `{Environment W} `{FleetClient W} `{GatewayClient W} `{SandboxClient W}.
Context (retry : RetryPolicy).
Abbreviation state := (EngineState V R W).
Abbreviation engine A := (co state exn A).
Abbreviation okG := (okspec G).

Lemma final_status r st : r.(we_status) = st → mem st [RunCompleted; RunFailed; RunNeedsAttention] = false →
  final r = false.
Proof. unfold final. by intros ->. Qed.

(** A transition made only in some statuses of the change. *)
Lemma ok_transition_if (b : bool) r target u (s : state) (P : unit → state → Prop) :
  sound s → (∀ s', sound s' → G s s' → P tt s') →
  okG (if b then _ ← _transition r target u; mret tt else mret tt) s P.
Proof.
  intros Hs HP. destruct b.
  - apply (ok_bind G), ok_transition; [done|]. intros c s1 Hs1 HG1 _ _.
    apply (ok_ret G). intros s2 HG2. apply HP; [by eapply G_sound|by etrans].
  - apply (ok_ret G). intros s1 HG1. apply HP; [by eapply G_sound|done].
Qed.

Lemma ok_advance_if (b : bool) r target u c (s : state) (P : ChangeRecord → state → Prop) :
  sound s → (∀ c' s', sound s' → G s s' → P c' s') →
  okG (if b then _transition r target u else mret c) s P.
Proof.
  intros Hs HP. destruct b.
  - apply ok_transition; [done|]. auto.
  - apply (ok_ret G). intros s1 HG1. apply HP; [by eapply G_sound|done].
Qed.

(** ** Opening a workflow *)

Definition event_key (event : ChangeEvent) : wf_key :=
  (event.(ev_tenant_id), derive_change_id event, derive_workflow_id event).

Lemma ok_wf_create r (s : state) (P : WorkflowExecutionRecord → state → Prop) :
  sound s → valid_record r →
  (∀ r' s', sound s' → G s s' → seen r' s' → key_of r' = key_of r →
     r'.(we_event_id) = r.(we_event_id) → P r' s') →
  okG (workflows (wf_create_or_get r)) s P.
Proof.
  intros Hs Hok HP. apply (ok_perform G). intros s1 HG1. unfold zoom.
  pose proof (G_wf_create s1 r Hok) as Hg. pose proof (G_sound _ _ HG1 Hs) as Hs1.
  pose proof Hs1 as (Hi & _ & Hall). pose proof (wf_create_law (es_workflows s1) r Hi) as Hlaw.
  cbn zeta in Hlaw. destruct (wf_create_or_get r _) as [out v]. simpl in *. split; [done|].
  intros a -> s2 HG2. pose proof (G_sound _ _ HG2 (G_sound _ _ Hg Hs1)) as Hs2.
  assert (G s s2) as HG by (repeat (etrans; [eassumption|]); done).
  destruct (wf_view (es_workflows s1) (key_of r)) as [cur|] eqn:Hcur.
  - destruct Hlaw as [-> Hout]. case_bool_decide; simplify_eq.
    assert (key_of cur = key_of r) as Hk by by eapply wf_view_key.
    apply HP; [done..| |done|done]. apply (seen_later _ s1); [done|by etrans|].
    split; [eauto|]. exists cur. rewrite Hk. eauto.
  - destruct Hlaw as ([= ->] & _ & Hv & _). apply HP; [done..| |done|done].
    apply (seen_later _ (mkEngineState v (es_changes s1) (es_world s1))); [by eapply G_sound|done|].
    split; [done|]. exists r. split; [|done]. simpl. rewrite Hv. by case_bool_decide.
Qed.

(** Deliveries under one key have one type. *)
Definition typed (event : ChangeEvent) : Prop :=
  event.(ev_event_type) = event_type_of (event_key event).

(** The record process_event returns at once, or goes on with. *)
Definition opened (event : ChangeEvent) (x : WorkflowExecutionRecord + WorkflowExecutionRecord)
    (s : state) : Prop :=
  match x with
  | inl r => seen r s ∧ key_of r = event_key event ∧ settled_delivery r.(we_status) = true
  | inr r => seen r s ∧ key_of r = event_key event
  end.

Lemma ok_open_workflow event (s : state)
    (P : WorkflowExecutionRecord + WorkflowExecutionRecord → state → Prop) :
  sound s → typed event → (∀ x s', sound s' → G s s' → opened event x s' → P x s') →
  okG (open_workflow event) s P.
Proof.
  intros Hs Hty HP. apply ok_pause; [done|]. intros now s1 Hs1 HG1. apply (ok_catch G).
  - apply (ok_bind G), ok_wf_get; [done|]. intros r s2 Hs2 HG2 Hr Hk.
    destruct (settled_delivery (we_status r)) eqn:Hset.
    + apply (ok_ret G). intros s3 HG3. pose proof (G_sound _ _ HG3 Hs2).
      apply HP; [done|etrans; [exact HG1|]; by etrans|]. split; [by eapply (seen_later _ s2)|done].
    + assert (final r = false) as Hf.
      { unfold settled_delivery, final in *. by destruct (we_status r). }
      apply (ok_bind G), ok_update_record; [done|done| |].
      { apply tasks_admissible; [apply Hr|done..|]. apply (valid_ids r), Hr. }
      intros now' s3 Hs3 HG3 r' Hr'. apply (ok_ret G). intros s4 HG4.
      pose proof (G_sound _ _ HG4 Hs3). assert (G s s4) by (repeat (etrans; [eassumption|]); done).
      apply HP; [done..|]. split; [by eapply (seen_later _ s3)|done].
  - intros e k s2 HG2 He. destruct e as [| | | | | | | |[]| | | | |]; try done.
    apply (inj Some) in He as <-. pose proof (G_sound _ _ HG2 Hs1) as Hs2.
    apply (ok_bind G), ok_from_result. intros r [Hok ->]%validated_ok s3 HG3.
    pose proof (G_sound _ _ HG3 Hs2) as Hs3.
    apply (ok_bind G), ok_wf_create; [done| |].
    { split; [done|]. split; [constructor|]. split; [done|]. by intros [[? ?]|?]. }
    intros r s4 Hs4 HG4 Hr Hk _. apply (ok_ret G). intros s5 HG5. pose proof (G_sound _ _ HG5 Hs4).
    assert (G s s5) by (repeat (etrans; [eassumption|]); done).
    apply HP; [done..|]. split; [by eapply (seen_later _ s4)|done].
Qed.

(** ** [process_event] *)

(** What a delivery returns: a stored record of the event's workflow, in a status
    that later deliveries leave alone. *)
Definition delivered (k : wf_key) (r : WorkflowExecutionRecord) (s : state) : Prop :=
  seen r s ∧ key_of r = k ∧ settled_delivery r.(we_status) = true.

Lemma delivered_later k r (s s' : state) : sound s → G s s' → delivered k r s → delivered k r s'.
Proof. intros Hs HG (? & ? & ?). split; [by eapply (seen_later _ s)|done]. Qed.

Lemma ok_dead_letter_delivered r code (s : state) :
  sound s → seen r s → final r = false →
  okG (_dead_letter r code) s (λ r' s', sound s' ∧ delivered (key_of r) r' s').
Proof.
  intros Hs Hr Hf. apply ok_dead_letter; [done..|]. intros r' s1 Hs1 HG1 Hr' [Hk _] Hst _.
  split; [done|]. split; [done|]. split; [done|]. by rewrite Hst.
Qed.

Lemma ok_analysis_failed r code tr (s : state) :
  sound s → seen r s → final r = false → supported (key_of r) →
  okG (analysis_failed r code tr) s (λ r' s', sound s' ∧ delivered (key_of r) r' s').
Proof.
  intros Hs Hr Hf Hsup. unfold analysis_failed. case_bool_decide.
  - apply (ok_bind G), ok_record_audit; [done|]. intros s1 Hs1 HG1 _.
    apply (ok_bind G), ok_transition; [done|]. intros c s2 Hs2 HG2 _ _.
    apply ok_terminal; [done|eapply (seen_later _ s); [done|by etrans|done]|done|by right|].
    intros r' s3 Hs3 HG3 Hr' [Hk _] Hst. split; [done|]. split; [done|]. split; [done|].
    by rewrite Hst.
  - destruct tr; [done|]. by apply ok_dead_letter_delivered.
Qed.

Definition analyzed (r : WorkflowExecutionRecord)
    (x : WorkflowExecutionRecord + WorkflowExecutionRecord) (s : state) : Prop :=
  match x with
  | inl r' => delivered (key_of r) r' s
  | inr r' => seen r' s ∧ key_of r' = key_of r ∧ final r' = false
  end.

Lemma initial_tasks_ids plan now ts :
  initial_tasks plan now = Ok ts → ids ts = st_step_id <$> plan.(pl_steps).
Proof.
  intros Hts. apply mapM_result in Hts.
  induction Hts as [|step t l k Hst _ IH]; [done|]. rewrite !fmap_cons, IH. f_equal.
  apply result_bind_ok in Hst as (sys & _ & [_ ->]%validated_ok). done.
Qed.

Lemma ok_analyze_event r event (s : state) :
  sound s → seen r s → final r = false → supported (key_of r) → r.(we_plan) = None →
  okG (analyze_event r event) s (λ x s', sound s' ∧ analyzed r x s').
Proof.
  intros Hs Hr Hf Hsup Hnone. apply ok_try_bind; [done| |].
  - apply (ok_bind G), ok_request_id; [done|]. intros q s1 Hs1 HG1.
    apply ok_world; [done|]. intros analysis s2 Hs2 HG2.
    apply (ok_bind G), ok_get_change; [done|]. intros c s3 Hs3 HG3 _.
    apply (ok_bind G), ok_transition_if; [done|]. intros s4 Hs4 HG4. cbn zeta.
    assert (G s s4) as HG by (repeat (etrans; [eassumption|]); done). clear HG1 HG2 HG3 HG4.
    apply (seen_later _ s s4) in Hr; [|done..]. destruct (_ || _ || _) eqn:Hbad.
    + apply (ok_bind G). eapply (ok_mono G); [by apply (ok_stable G), ok_dead_letter_delivered|].
      intros r' s5 HG5 HQ. by apply (ok_ret G).
    + apply ok_pause; [done|]. intros now s5 Hs5 HG5.
      apply (ok_bind G), ok_from_result. intros ts Hts s6 HG6. pose proof (G_sound _ _ HG6 Hs5) as Hs6.
      apply ok_pause; [done|]. intros now' s7 Hs7 HG7.
      assert (G s4 s7) as HG47 by (repeat (etrans; [eassumption|]); done).
      apply (ok_bind G), ok_update_record; [done|by eapply (seen_later _ s4)| |].
      { intros now2 r2 Hok. split; [done|]. split; [intros [p Hp]; congruence|]. split; [|done].
        simpl. rewrite (initial_tasks_ids _ _ _ Hts). assert (RemediationPlan_ok (fl_draft_plan analysis) = true) as Hplan.
        { unfold WorkflowExecutionRecord_ok in Hok. simpl in Hok. rewrite !andb_true_iff in Hok. tauto. }
        by apply plan_ok_graph in Hplan as (? & _). }
      intros now2 s8 Hs8 HG8 r' Hr'. apply (ok_ret G). intros s9 HG9.
      split; [by eapply G_sound|]. split; [by eapply (seen_later _ s8)|]. done.
  - intros [code tr] s1 Hs1 HG1. apply (ok_bind G). eapply (ok_mono G).
    { apply (ok_stable G), ok_analysis_failed; [done|by eapply (seen_later _ s)|done..]. }
    intros r' s2 HG2 HQ. by apply (ok_ret G).
Qed.

Lemma ok_advance_change r plan (s : state) (P : ChangeRecord → state → Prop) :
  sound s → (∀ c s', sound s' → G s s' → P c s') → okG (advance_change r plan) s P.
Proof.
  intros Hs HP. apply (ok_bind G), ok_get_change; [done|]. intros c s1 Hs1 HG1 _.
  apply (ok_bind G), ok_advance_if; [done|]. intros c1 s2 Hs2 HG2.
  apply (ok_bind G), ok_advance_if; [done|]. intros c2 s3 Hs3 HG3.
  apply (ok_bind G), ok_advance_if; [done|]. intros c3 s4 Hs4 HG4.
  apply (ok_bind G), (ok_throw_if G). intros _ s5 HG5. apply (ok_ret G). intros s6 HG6.
  assert (G s4 s6) as HG46 by by etrans. pose proof (G_sound _ _ HG46 Hs4).
  apply HP; [done|]. repeat (etrans; [eassumption|]). done.
Qed.

Lemma ok_request_approval r (s : state) :
  sound s → seen r s → final r = false →
  okG (request_approval r) s (λ r' s', sound s' ∧ delivered (key_of r) r' s').
Proof.
  intros Hs Hr Hf. apply (ok_bind G), ok_require_plan; [done|]. intros plan s1 _ Hs1 HG1.
  apply (ok_bind G), ok_advance_change; [done|]. intros c s2 Hs2 HG2.
  destruct (we_approval_id r) as [aid|], (we_approval_expires_at r) as [at_|]; try done.
  assert (G s s2) as HG by by etrans. apply (seen_later _ s s2) in Hr; [|done..].
  apply ok_try_bind; [done| |].
  - apply (ok_bind G), ok_request_id; [done|]. intros q s3 Hs3 HG3.
    apply ok_world; [done|]. intros _ s4 Hs4 HG4. assert (G s2 s4) by by etrans.
    apply ok_set_runtime_status; [done|by eapply (seen_later _ s2)|done|].
    intros r' s5 Hs5 HG5 Hr' [Hk _] Hst _. split; [done|]. split; [done|]. split; [done|].
    by rewrite Hst.
  - intros [code []] s3 Hs3 HG3; [done|].
    apply ok_dead_letter_delivered; [done|by eapply (seen_later _ s2)|done].
Qed.

Lemma ok_process_event event (s : state) :
  sound s → typed event →
  okG (process_event event) s (λ r s', sound s' ∧ delivered (event_key event) r s').
Proof.
  intros Hs Hty. apply (ok_bind G), ok_open_workflow; [done..|]. intros [r|r] s1 Hs1 HG1 Hopen.
  { apply (ok_ret G). intros s2 HG2. destruct Hopen as (? & ? & ?).
    split; [by eapply G_sound|]. by eapply (delivered_later _ _ s1). }
  destruct Hopen as (Hr & Hk). rewrite <-Hk.
  assert (supported (key_of r) ↔ ev_event_type event = "api.contract.changed") as Hsup
    by (unfold supported; by rewrite Hk, <-Hty).
  destruct (negb _) eqn:Hun.
  { apply negb_true_iff, bool_decide_eq_false in Hun.
    apply ok_dead_letter_delivered; [done..|]. destruct (final r) eqn:Hf; [|done].
    destruct Hun. apply Hsup, (proj1 Hr). by right. }
  apply negb_false_iff, bool_decide_eq_true, Hsup in Hun. clear Hsup.
  apply (ok_bind G), ok_ensure_change; [done|]. intros c s2 Hs2 HG2.
  apply (ok_bind G), ok_set_runtime_status; [done|by eapply (seen_later _ s1)|done|].
  intros r1 s3 Hs3 HG3 Hr1 [Hk1 _] Hst1 _. pose proof (final_status r1 _ Hst1 eq_refl) as Hf1.
  apply (ok_bind G). eapply (ok_mono G) with (P := λ _ s', sound s').
  { apply (ok_bind G), ok_get_change; [done|]. intros c' s4 Hs4 HG4 _.
    by apply ok_transition_if. }
  intros _ s4 HG4 Hs4. apply (seen_later _ s3 s4) in Hr1; [|done..]. rewrite <-Hk1.
  apply (ok_bind G). destruct (we_plan r1) as [plan|] eqn:Hplan.
  - apply (ok_ret G). intros s5 HG5. pose proof (G_sound _ _ HG5 Hs4).
    apply ok_request_approval; [done|by eapply (seen_later _ s4)|done].
  - eapply (ok_mono G); [apply (ok_stable G), ok_analyze_event; [done..|by rewrite Hk1|done]|].
    intros [r2|r2] s5 HG5 HQ.
    + by apply (ok_ret G).
    + destruct (HQ s5 ltac:(reflexivity)) as (Hs5 & Hr2 & <- & Hf2). by apply ok_request_approval.
Qed.

(** ** [resume_approval] *)

(** How an approved execution ends: completed, every task's system verified and
    every task that was not already done executed with evidence; or rolled back. *)
Definition completed_outcome (r r' : WorkflowExecutionRecord) (s' : state) : Prop :=
  r'.(we_status) = RunCompleted ∧
  ∀ t, t ∈ r'.(we_tasks) → verified r' t s' ∧ t.(wt_status) ≠ TaskPending ∧
    t.(wt_status) ≠ TaskFailed ∧
    (shape t ∈ shapes r.(we_tasks) ∨ (t.(wt_status) = TaskSucceeded ∧ step_evidence r' t s')).

Definition approved_outcome (r r' : WorkflowExecutionRecord) (s' : state) : Prop :=
  seen r' s' ∧ same_plan r r' ∧ (completed_outcome r r' s' ∨ rollback_outcome r r' s').

Lemma plan_steps_same r r' : same_plan r r' → plan_steps r' = plan_steps r.
Proof. intros (_ & _ & Hp & _). unfold plan_steps. by rewrite Hp. Qed.

Lemma verified_same r r' t (s : state) : same_plan r r' → verified r t s → verified r' t s.
Proof.
  intros Hp (st & e & o & Hst & He & Ha). exists st, e, o.
  split; [by rewrite (plan_steps_same _ _ Hp)|]. split; [exact He|].
  exact (audit_recorded_same r r' _ _ _ _ s (proj1 Hp) Ha).
Qed.

Lemma rollback_outcome_same r r0 r' (s s' : state) :
  sound s → G s s' → key_of r = key_of r0 → rollback_outcome r r' s → rollback_outcome r0 r' s'.
Proof.
  intros Hs HG Hk [[? Hall]|?]; [left|by right]. split; [done|]. intros t Ht.
  apply (restored_later r _ _ s); [done..|by apply Hall].
Qed.

Lemma existsb_has_status st ts :
  existsb (has_status st) ts = false → ∀ t, t ∈ ts → t.(wt_status) ≠ st.
Proof.
  intros Hno t Ht Hst. assert (existsb (has_status st) ts = true); [|congruence].
  apply existsb_exists. exists t. split; [by apply list_elem_of_In|by apply has_status_true].
Qed.

Lemma ok_execute_approved r (s : state) :
  sound s → seen r s →
  okG (execute_approved retry r) s (λ r' s', sound s' ∧ approved_outcome r r' s').
Proof.
  intros Hs Hr. apply (ok_bind G), ok_set_runtime_status; [done..|].
  intros r1 s1 Hs1 HG1 Hr1 Hw1 Hst1 _. pose proof (final_status r1 _ Hst1 eq_refl) as Hf1.
  apply (ok_bind G), ok_capture_snapshots; [done..|].
  intros r2 s2 Hs2 HG2 Hr2 Hp2 Hst2 Hsh2. rewrite Hst1 in Hst2.
  pose proof (final_status r2 _ Hst2 eq_refl) as Hf2.
  apply (ok_bind G), ok_execute_dag; [done..|]. intros r3 s3 Hs3 HG3 Hr3 Hran Hfin.
  assert (final r3 = false) as Hf3.
  { apply (final_status _ RunExecuting); [|done]. by rewrite (rr_status _ _ _ _ Hran). }
  assert (same_plan r r3) as Hp3.
  { eapply same_plan_trans; [by apply same_work_plan|].
    eapply same_plan_trans; [exact Hp2|]. apply Hran. }
  assert (we_tasks r1 = we_tasks r) as Ht1 by apply Hw1. rewrite Ht1 in Hsh2.
  destruct (existsb (has_status TaskFailed) (we_tasks r3)) eqn:Hfailed.
  - apply ok_rollback; [done..|]. intros r4 s4 Hs4 HG4 Hr4 Hp4 _ Hout.
    split; [done|]. split; [done|]. split; [by eapply same_plan_trans|]. right.
    apply (rollback_outcome_same r3 _ _ s4); [done|reflexivity|apply Hp3|done].
  - apply (ok_bind G), ok_transition; [done|]. intros c s4 Hs4 HG4 _ _.
    apply (ok_bind G), ok_set_runtime_status; [done|by eapply (seen_later _ s3)|done|].
    intros r5 s5 Hs5 HG5 Hr5 Hw5 Hst5 _. pose proof (final_status r5 _ Hst5 eq_refl) as Hf5.
    assert (same_plan r r5) as Hp5 by (eapply same_plan_trans; [exact Hp3|by apply same_work_plan]).
    apply (ok_bind G), ok_verify; [done|]. intros e s6 Hs6 HG6 Hplan Hver.
    apply (seen_later _ s5 s6) in Hr5; [|done..]. destruct e as [code|].
    + apply ok_rollback; [done..|]. intros r7 s7 Hs7 HG7 Hr7 Hp7 _ Hout.
      split; [done|]. split; [done|]. split; [by eapply same_plan_trans|]. right.
      apply (rollback_outcome_same r5 _ _ s7); [done|reflexivity|apply Hp5|done].
    + apply (ok_bind G), ok_transition; [done|]. intros c' s7 Hs7 HG7 _ _.
      apply ok_terminal; [done|by eapply (seen_later _ s6)|done| |].
      { right. apply (proj1 Hr5). by left. }
      intros r8 s8 Hs8 HG8 Hr8 Hw8 Hst8.
      assert (same_plan r r8) as Hp8 by (eapply same_plan_trans; [exact Hp5|by apply same_work_plan]).
      split; [done|]. split; [done|]. split; [done|]. left. split; [done|].
      assert (we_tasks r8 = we_tasks r5) as -> by apply Hw8.
      assert (we_tasks r5 = we_tasks r3) as Ht5 by apply Hw5. intros t Ht. split.
      { apply (verified_same r5); [by apply same_work_plan|].
        apply (verified_later _ _ s6); [done|by etrans|]. by apply Hver. }
      rewrite Ht5 in Ht. specialize (Hfin Hfailed).
      split_and!; [by eapply existsb_has_status|by eapply existsb_has_status|].
      apply list_elem_of_lookup in Ht as Hn. destruct Hn as [n Hn].
      destruct (Forall2_lookup_r _ _ _ _ _ (rr_ran _ _ _ _ Hran) Hn) as (t2 & Ht2 & Htr).
      destruct Htr as [->|[_ (_ & _ & _ & _ & [[Hok Hev]|Hbad])]].
      * left. rewrite <-Hsh2. apply list_elem_of_fmap_2. by eapply list_elem_of_lookup_2.
      * right. split; [done|]. apply (step_evidence_later r2 _ _ s3); [done| | |done].
        { etrans; [exact HG4|]. etrans; [exact HG5|]. etrans; [exact HG6|]. by etrans. }
        pose proof (proj1 (rr_plan _ _ _ _ Hran)) as Hk3.
        destruct Hp8 as [-> _], Hp3 as [<- _]. done.
      * exfalso. by eapply (existsb_has_status _ _ Hfailed t).
Qed.

(** The callback decides the stored plan of [r]. *)
Definition in_scope (callback : ApprovalCallbackRequest) (r : WorkflowExecutionRecord) : Prop :=
  r.(we_approval_id) = Some callback.(cb_approval_id) ∧
  r.(we_plan_hash) = Some callback.(cb_plan_hash) ∧
  ∃ plan, r.(we_plan) = Some plan ∧ plan.(pl_version) = callback.(cb_plan_version).

(** What a decision makes of the workflow [r]. *)
Definition decided_outcome (decision : ApprovalRequestStatus) (r r' : WorkflowExecutionRecord)
    (s' : state) : Prop :=
  match decision with
  | RequestRejected => same_work r r' ∧ r'.(we_status) = RunFailed
  | RequestChangesRequested => same_work r r' ∧ r'.(we_status) = RunAnalyzing
  | _ => approved_outcome r r' s'
  end.

(** What a callback returns: the workflow as it had already ended, or what the
    decision makes of it. *)
Definition resumed (callback : ApprovalCallbackRequest) (r' : WorkflowExecutionRecord) (s' : state)
  : Prop :=
  seen r' s' ∧ ∃ r, seen r s' ∧ r.(we_tenant_id) = callback.(cb_tenant_id) ∧
    r.(we_change_id) = callback.(cb_change_id) ∧
    ((r' = r ∧ final r = true) ∨
     (in_scope callback r ∧ decided_outcome callback.(cb_status) r r' s')).

Lemma ok_rejected r c (s : state) (P : WorkflowExecutionRecord → state → Prop) :
  sound s → seen r s → final r = false → is_Some r.(we_plan) →
  (∀ r' s', sound s' → G s s' → seen r' s' → same_work r r' → r'.(we_status) = RunFailed → P r' s') →
  okG (rejected r c) s P.
Proof.
  intros Hs Hr Hf Hplan HP. apply (ok_bind G), ok_transition_if; [done|]. intros s1 Hs1 HG1.
  apply (seen_later _ s s1) in Hr; [|done..].
  apply ok_terminal; [done..| |]; [right; apply (proj1 Hr); by left|].
  intros r' s2 Hs2 HG2. apply HP; [done|by etrans].
Qed.

Lemma ok_changes_requested r c (s : state) (P : WorkflowExecutionRecord → state → Prop) :
  sound s → seen r s →
  (∀ r' s', sound s' → G s s' → seen r' s' → same_work r r' → r'.(we_status) = RunAnalyzing → P r' s') →
  okG (changes_requested r c) s P.
Proof.
  intros Hs Hr HP. apply (ok_bind G), ok_advance_if; [done|]. intros c1 s1 Hs1 HG1.
  apply (ok_bind G), ok_transition_if; [done|]. intros s2 Hs2 HG2. assert (G s s2) by by etrans.
  apply ok_set_runtime_status; [done|by eapply (seen_later _ s)|done|].
  intros r' s3 Hs3 HG3 Hr' Hw Hst _. apply HP; [done|by etrans|done..].
Qed.

Lemma ok_approved r c (s : state) :
  sound s → seen r s → okG (approved retry r c) s (λ r' s', sound s' ∧ approved_outcome r r' s').
Proof.
  intros Hs Hr. apply (ok_bind G), ok_advance_if; [done|]. intros c1 s1 Hs1 HG1.
  apply (ok_bind G), ok_advance_if; [done|]. intros c2 s2 Hs2 HG2.
  apply (ok_bind G), (ok_throw_if G). intros _ s3 HG3. pose proof (G_sound _ _ HG3 Hs2) as Hs3.
  apply ok_execute_approved; [done|]. apply (seen_later _ s); [done| |done].
  by repeat (etrans; [eassumption|]).
Qed.

Lemma ok_resume_approval callback (s : state) :
  sound s → okG (resume_approval retry callback) s (λ r' s', sound s' ∧ resumed callback r' s').
Proof.
  intros Hs. apply (ok_bind G), ok_repo_get; [done|]. intros c s1 Hs1 HG1 _ _ _.
  destruct (cr_workflow_execution_id c) as [w|]; [|done].
  apply (ok_bind G), ok_wf_get; [done|]. intros r s2 Hs2 HG2 Hr Hk.
  injection Hk as Ht Hc _. destruct (mem (we_status r) _) eqn:Hf.
  { apply (ok_ret G). intros s3 HG3. apply (seen_later _ s2 s3) in Hr; [|done..].
    split; [by eapply G_sound|]. split; [done|]. exists r. split_and!; [done..|by left]. }
  change (final r = false) in Hf.
  apply (ok_bind G), ok_require_plan; [done|]. intros plan s3 Hplan Hs3 HG3.
  apply (ok_bind G), (ok_throw_if G). intros Hscope s4 HG4. pose proof (G_sound _ _ HG4 Hs3) as Hs4.
  assert (G s2 s4) as HG24 by by etrans. apply (seen_later _ s2 s4) in Hr; [|done..].
  assert (in_scope callback r) as Hin.
  { rewrite !orb_false_iff, !negb_false_iff, !bool_decide_eq_true, Z.eqb_eq in Hscope.
    destruct Hscope as [[? ?] ?]. split_and!; [done..|]. by exists plan. }
  assert (∀ r' s', sound s' → G s4 s' → seen r' s' → decided_outcome (cb_status callback) r r' s' →
    sound s' ∧ resumed callback r' s') as Hdone.
  { intros r' s' Hs' HG' Hr' Hout. split; [done|]. split; [done|]. exists r.
    split; [by eapply (seen_later _ s4)|]. split_and!; [done..|by right]. }
  unfold decided_outcome in Hdone. destruct (cb_status callback).
  3: apply ok_rejected; [done..|by eexists|]; intros; by apply Hdone.
  3: apply ok_changes_requested; [done..|]; intros; by apply Hdone.
  all: eapply (ok_mono G); [by apply ok_approved|];
    intros r' s5 HG5 [Hs5 Hout]; apply Hdone; [done..|apply Hout|done].
Qed.
End Specs.
