(* ===== verification/CoordinatorHistory.v ===== *)
(** The workflow coordinator over its lifetime: any messages, callbacks and queries
    arriving at any time, interleaved at every awaited call, cancelled or lost in
    a crash. *)

From S2P Require Import Prelude Json Contracts Errors Persistence Samples StateMachine Governance Coroutine Workflow Clients Engine Coordinator WorkflowSamples EngineFacts EngineSpecs CoordinatorFacts.

Section History.
Context `{Platform} `{EventTypes} {V R W : Type} `{WorkflowLaws V} `{RepositoryLaws R}
  `{Environment W} `{FleetClient W} `{GatewayClient W} `{SandboxClient W}.
Context (retry : RetryPolicy).
Abbreviation state := (EngineState V R W).
Abbreviation engine A := (co state exn A).
Abbreviation okG := (okspec G).

(** * Requests *)

Inductive request :=
| Message (decoded : option ChangeEvent) (running : bool) (publish : string → call W unit)
| Callback (secret : string) (callback_secret : option string) (body : ApprovalCallbackRequest)
| WorkflowQuery (tenant_id change_id workflow_execution_id : string)
| DeadLettersQuery (tenant_id : string) (limit : Z).

Definition ignore {A} (c : engine A) : engine unit := _ ← settle c; mret tt.

Definition serve (q : request) : engine unit :=
  match q with
  | Message decoded running publish => ignore (_handle_message decoded running publish)
  | Callback secret callback_secret body => ignore (approval_callback retry secret callback_secret body)
  | WorkflowQuery t c w => ignore (get_workflow t c w)
  | DeadLettersQuery t n => ignore (dead_letters t n)
  end.

Definition typed_request (q : request) : Prop :=
  match q with Message (Some event) _ _ => typed event | _ => True end.

(** The process serves requests. *)
Definition accepted (c : engine unit) : Prop := ∃ q, typed_request q ∧ c = serve q.
Definition reachable (s0 s : state) : Prop :=
  ∃ pool, rtc (process_step accepted) (s0, []) (s, pool).

Lemma ok_ignore {A} (c : engine A) (s : state) P :
  okG c s P → okG (ignore c) s (λ _ _, True).
Proof.
  intros Hc. apply (ok_bind G). eapply (ok_mono G); [apply (ok_settle G), Hc|].
  intros r s' _ _. by apply (ok_ret G).
Qed.

Lemma ok_handle_message decoded running publish (s : state) :
  sound s → typed_request (Message decoded running publish) →
  okG (_handle_message decoded running publish) s (λ _ s', sound s').
Proof.
  intros Hs Hty. assert (∀ (outcome : option string * Settlement) (s : state), sound s →
    okG (match outcome with
         | (Some code, settlement) => _ ← world (publish code); mret settlement
         | (None, settlement) => mret settlement
         end) s (λ _ s', sound s')) as Hsettle.
  { clear. intros [[code|] settlement] s Hs.
    - apply (ok_bind G), ok_world; [done|]. intros [] s1 Hs1 HG1. apply (ok_ret G).
      intros s2 HG2. by eapply G_sound.
    - apply (ok_ret G). intros s1 HG1. by eapply G_sound. }
  destruct decoded as [event|]; [|exact (Hsettle (Some "INVALID_EVENT_SCHEMA", Ack) s Hs)]. unfold _handle_message.
  destruct (negb running).
  { apply (ok_ret G). intros s1 HG1. by eapply G_sound. }
  apply (ok_bind G). eapply (ok_mono G); [by apply (ok_settle G), ok_process_event|].
  intros r s1 HG1 _. exact (Hsettle (message_outcome r) s1 (G_sound _ _ HG1 Hs)).
Qed.

Lemma ok_dead_letters t n (s : state) :
  sound s → okG (dead_letters t n) s (λ ds s', sound s' ∧
    ∀ d, d ∈ ds → is_Some (dl_view s'.(es_workflows) t d.(dl_dead_letter_id))).
Proof.
  intros Hs. apply (ok_bind G), (ok_throw_if G). intros _ s1 HG1. apply (ok_perform G).
  intros s2 HG2. pose proof (G_sound _ _ HG2 (G_sound _ _ HG1 Hs)) as Hs2. unfold zoom.
  destruct (wf_list_law (es_workflows s2) t n (proj1 Hs2)) as (items & _ & Hitems & ->). simpl.
  split; [by destruct s2|]. intros a Ha%ok_inj s3 HG3. subst a.
  assert (mkEngineState (es_workflows s2) (es_changes s2) (es_world s2) = s2) as Heq by by destruct s2.
  rewrite Heq in HG3. split; [by eapply G_sound|]. intros d Hd%slice_to_subset.
  rewrite sort_by_desc_perm in Hd. apply Hitems in Hd. destruct (HG3 Hs2) as [_ E].
  eexists. by apply (ev_dead_letter _ _ E).
Qed.

Lemma accepted_keeps c (s : state) : accepted c → sound s → spec G c s (λ _ _, True).
Proof.
  intros (q & Hq & ->) Hs. eapply (spec_true G).
  destruct q as [decoded running publish|secret given body|t c w|t n].
  - eapply ok_ignore. by apply ok_handle_message.
  - eapply ok_ignore. apply (ok_bind G), (ok_throw_if G). intros _ s1 HG1.
    apply (ok_bind G). destruct given as [g|]; [|apply (ok_throw G)].
    apply (ok_bind G), (ok_from_result G). intros same _ s2 HG2.
    apply (ok_throw_if G). intros _ s3 HG3. apply ok_resume_approval.
    by do 3 (eapply G_sound; [done|]).
  - eapply ok_ignore. apply (ok_bind G), (ok_throw_if G). intros _ s1 HG1.
    eapply (ok_wf_get t c w _ (λ _ _, True)); [by eapply G_sound|done].
  - eapply ok_ignore. by apply ok_dead_letters.
Qed.

(** Tasks that are all pending respect the dependencies. *)
Lemma closed_pending steps ts :
  forallb (has_status TaskPending) ts = true → closed steps ts.
Proof.
  rewrite forallb_forall. intros Hall t step d Ht Hst. apply list_elem_of_In, Hall in Ht.
  apply has_status_true in Ht. congruence.
Qed.


Lemma reachable_keeps s0 s : sound s0 → reachable s0 s → G s0 s.
Proof.
  intros Hs0 [pool Hsteps]. eapply (process_keeps accepted G sound); [|apply accepted_keeps|done|done].
  intros x y Hx HG. by eapply G_sound.
Qed.

Lemma reachable_serve q s : typed_request q → reachable s (run (serve q) s).2.
Proof. intros Hq. apply process_serves. by exists q. Qed.

Lemma stored_seen k r (s : state) : sound s → wf_view s.(es_workflows) k = Some r → seen r s.
Proof.
  intros (Hi & _ & Hall) Hk. split; [by eapply Hall|]. exists r. split; [|done].
  by rewrite (wf_view_key _ _ _ Hi Hk).
Qed.
End History.

(** * A demonstration history *)

#[export] Instance demo_event_types : EventTypes := λ _, "api.contract.changed".

Lemma fresh_sound faults healthy : sound (fresh faults healthy).
Proof.
  split; [exact filed_empty|]. split; [exact MemoryInv.empty_inv|]. by intros k r.
Qed.

Lemma waiting_sound faults healthy : sound (waiting faults healthy).
Proof.
  pose proof (ok_process_event demo_event (fresh faults healthy) (fresh_sound _ _) eq_refl) as Hok.
  exact (G_sound _ _ (ok_keeps G _ _ _ Hok) (fresh_sound _ _)).
Qed.

(** The demonstration workflow waits for approval; approved, it survives two
    transient faults and completes, or is rolled back when a system fails its
    verification. *)

Example demo_waits :
  status_of (run (process_event demo_event) (fresh 0 true)) = Some RunWaitingApproval.
Proof. vm_compute. reflexivity. Qed.

Example demo_completes :
  status_of (decided RequestApproved (waiting 2 true)) = Some RunCompleted ∧
  tasks_of (decided RequestApproved (waiting 2 true)) =
    [(TaskSucceeded, 3); (TaskSucceeded, 1); (TaskSucceeded, 1)].
Proof. vm_compute. done. Qed.

Example demo_rolls_back :
  status_of (decided RequestApproved (waiting 0 false)) = Some RunFailed ∧
  tasks_of (decided RequestApproved (waiting 0 false)) =
    [(TaskRolledBack, 1); (TaskRolledBack, 1); (TaskRolledBack, 1)].
Proof. vm_compute. done. Qed.

(** Three faults are one more than the policy retries. *)
Example demo_exhausts :
  status_of (decided RequestApproved (waiting 3 true)) = Some RunFailed.
Proof. vm_compute. done. Qed.

Abbreviation demo_key := ("acme", demo_change_id, demo_workflow_id).
Abbreviation demo_record s := (wf_view (es_workflows s) demo_key).
Abbreviation demo_message := (Message (Some demo_event) true (λ _ w, (Ok tt, w))).

Module CoordinatorProperties.
Section Properties.
Context `{Platform} `{EventTypes} {V R W : Type} `{WorkflowLaws V} `{RepositoryLaws R}
  `{Environment W} `{FleetClient W} `{GatewayClient W} `{SandboxClient W}.
Context (retry : RetryPolicy).
Abbreviation state := (EngineState V R W).
Abbreviation okG := (okspec G).

(** C3. In every state the coordinator reaches, whatever messages, callbacks and
    queries arrive and however they interleave, are cancelled or are lost in a
    crash: stored workflows only move on to higher versions, a workflow that has
    completed, failed or needs attention never changes again, an attached plan and
    its approval never change, changes only move along the transition graph and keep
    their identity, and no dead letter or audit event is ever lost. *)
Theorem coordinator_history (s0 s : state) :
  sound s0 → reachable retry s0 s →
  sound s ∧ evolves s0 s ∧
  ∀ k r, wf_view s0.(es_workflows) k = Some r → final r = true →
    wf_view s.(es_workflows) k = Some r.
Proof.
  intros Hs0 Hreach. destruct (reachable_keeps retry s0 s Hs0 Hreach Hs0) as [Hs E].
  split; [done|]. split; [done|]. intros k r Hr Hf.
  destruct (ev_workflow _ _ E _ _ Hr) as (r' & Hr' & [->|Hadv]); [done|].
  by rewrite (adv_open _ _ Hadv) in Hf.
Qed.

(** C35. Every workflow record the coordinator ever stores passes the model's validator,
    is filed under its own key and has exactly one task for each step of its
    plan. *)
Theorem stored_records_valid (s0 s : state) k r :
  sound s0 → reachable retry s0 s → wf_view s.(es_workflows) k = Some r →
  WorkflowExecutionRecord_ok r = true ∧ key_of r = k ∧
  match r.(we_plan) with
  | Some plan => RemediationPlan_ok plan = true ∧
      wt_step_id <$> r.(we_tasks) ≡ₚ st_step_id <$> plan.(pl_steps)
  | None => r.(we_tasks) = []
  end.
Proof.
  intros Hs0 Hreach Hr. destruct (reachable_keeps retry s0 s Hs0 Hreach Hs0) as [(Hi & _ & Hall) _].
  destruct (Hall k r Hr) as (Hok & Hnd & _). split; [done|].
  split; [by eapply wf_view_key|]. apply valid_tasks; done.
Qed.

(** C15. A delivery that returns has stored what it returns, under the event's key, in a
    status that later deliveries leave alone: waiting for approval, executing,
    ended or dead-lettered. *)
Theorem process_event_settles event (s : state) :
  sound s → typed event →
  okG (process_event event) s (λ r s', delivered (event_key event) r s').
Proof.
  intros Hs Hty. eapply (ok_mono G); [by apply ok_process_event|]. by intros r s' _ [_ ?].
Qed.




(** C4. Executing a workflow whose succeeded tasks respect the plan's dependencies
    returns one that does so too: no task succeeds before every step its step
    depends on; only pending tasks run, each with evidence or as a failure; and
    none stays pending unless one failed. *)
Theorem dag_execution r (s : state) :
  sound s → seen r s → final r = false → closed (plan_steps r) r.(we_tasks) →
  okG (_execute_dag retry r) s (λ r' s', seen r' s' ∧ same_plan r r' ∧
    Forall2 (task_ran r s') r.(we_tasks) r'.(we_tasks) ∧
    closed (plan_steps r) r'.(we_tasks) ∧ finished r').
Proof.
  intros Hs Hr Hf Hclosed. apply ok_execute_dag; [done..|].
  intros r' s' _ _ Hr' [? ? ? Hcl] Hfin. split_and!; auto.
Qed.
End Properties.

(** ** Witnesses *)

Abbreviation served := (run (serve demo_retry demo_message) (fresh 0 true)).2.

Lemma coordinator_history_witness :
  is_Some (demo_record served) ∧ sound served ∧ evolves (fresh 0 true) served ∧
  ∀ k r, wf_view (es_workflows (fresh 0 true)) k = Some r → final r = true →
    wf_view (es_workflows served) k = Some r.
Proof.
  split; [vm_compute; eexists; reflexivity|].
  apply (coordinator_history demo_retry); [apply fresh_sound|].
  apply reachable_serve. exact eq_refl.
Defined.

Definition served_record : WorkflowExecutionRecord := Eval vm_compute in
  match demo_record served with Some r => r | None => new_record demo_event 0 end.

Lemma stored_records_valid_witness :
  demo_record served = Some served_record ∧
  WorkflowExecutionRecord_ok served_record = true ∧ key_of served_record = demo_key ∧
  match we_plan served_record with
  | Some plan => RemediationPlan_ok plan = true ∧
      wt_step_id <$> we_tasks served_record ≡ₚ st_step_id <$> pl_steps plan
  | None => we_tasks served_record = []
  end.
Proof.
  assert (demo_record served = Some served_record) as Hr by (vm_compute; reflexivity).
  split; [exact Hr|].
  apply (stored_records_valid demo_retry (fresh 0 true) served); [apply fresh_sound| |exact Hr].
  apply reachable_serve. exact eq_refl.
Defined.

Lemma process_event_settles_witness :
  status_of (run (process_event demo_event) (fresh 0 true)) = Some RunWaitingApproval ∧
  okspec G (process_event demo_event) (fresh 0 true)
    (λ r s', delivered (event_key demo_event) r s').
Proof.
  split; [vm_compute; reflexivity|].
  apply process_event_settles; [apply fresh_sound|exact eq_refl].
Defined.

Definition waiting_record : WorkflowExecutionRecord := Eval vm_compute in
  match demo_record (waiting 0 true) with Some r => r | None => new_record demo_event 0 end.




Lemma dag_execution_witness :
  demo_record (waiting 0 true) = Some waiting_record ∧
  okspec G (_execute_dag demo_retry waiting_record) (waiting 0 true)
    (λ r' s', seen r' s' ∧ same_plan waiting_record r' ∧
      Forall2 (task_ran waiting_record s') (we_tasks waiting_record) (we_tasks r') ∧
      closed (plan_steps waiting_record) (we_tasks r') ∧ finished r').
Proof.
  assert (demo_record (waiting 0 true) = Some waiting_record) as Hr by (vm_compute; reflexivity).
  split; [exact Hr|]. apply dag_execution.
  - apply waiting_sound.
  - exact (stored_seen demo_key waiting_record (waiting 0 true) (waiting_sound 0 true) Hr).
  - vm_compute. reflexivity.
  - apply closed_pending. vm_compute. reflexivity.
Defined.
End CoordinatorProperties.
