(* ===== verification/Sandbox.v ===== *)
(** The enterprise sandbox, [enterprise-sandbox/src/changeops_sandbox]: the tenant
    scoped configuration store of the three systems ([store.py]) with patches,
    snapshots and restore, the API registry, and the handlers of the services
    ([crm_api.py], [analytics_api.py], [support_api.py], [catalog_api.py]).

    The snapshot identifier and the clock reading of a call are arguments.  The
    strings of a request are those the request model holds, stripped.  The documents
    the store validates are dumps of its models, so validation strips strings and
    checks the types, bounds and keys; pydantic's lax conversions do not arise. *)

From Stdlib Require Import QArith.
From S2P Require Import Prelude Json Contracts Errors Clients.
Open Scope Z_scope.

(** * Documents and their fields *)

Abbreviation document := (list (string * json)).

Definition clean (s : string) : bool := nonempty_str s && bool_decide (trim s = s).

(** [document[key] = value] *)
Fixpoint set_item (k : string) (v : json) (d : document) : document :=
  match d with
  | [] => [(k, v)]
  | (k', v') :: d => if bool_decide (k' = k) then (k, v) :: d else (k', v') :: set_item k v d
  end.

Definition as_str (v : json) : option string :=
  match v with
  | JStr s => if nonempty_str (trim s) then Some (trim s) else None
  | _ => None
  end.
Definition str_field (k : string) (d : document) : option string := assoc k d ≫= as_str.
Definition int_field (least : Z) (k : string) (d : document) : option Z :=
  match assoc k d with Some (JInt n) => if least <=? n then Some n else None | _ => None end.
Definition strs_field (k : string) (d : document) : option (list string) :=
  match assoc k d with Some (JArr l) => mapM as_str l | _ => None end.

(** The model, from a document whose keys are the model's. *)
Definition decoded {A} (model : string) (keys : list string) (d : document) (x : option A)
  : result exn A :=
  match subset d.*1 keys, x with
  | true, Some x => Ok x
  | _, _ => Err (ValidationError model)
  end.

(** * Configurations *)

Class SystemConfiguration (C : Type) := {
  cf_system_id : C → string;
  model_dump : C → document;
  model_validate : document → result exn C;
}.

Record CrmConfiguration := mkCrmConfiguration {
  crm_system_id : string; crm_source_field : string; crm_destination_field : string;
  crm_schema_version : Z; crm_status : string }.
#[export] Instance crm_configuration : SystemConfiguration CrmConfiguration := {
  cf_system_id := crm_system_id;
  model_dump c := [("system_id", JStr c.(crm_system_id)); ("source_field", JStr c.(crm_source_field));
    ("destination_field", JStr c.(crm_destination_field));
    ("schema_version", JInt c.(crm_schema_version)); ("status", JStr c.(crm_status))];
  model_validate d := decoded "CrmConfiguration"
    ["system_id"; "source_field"; "destination_field"; "schema_version"; "status"] d (
    i ← str_field "system_id" d; f ← str_field "source_field" d;
    t ← str_field "destination_field" d; v ← int_field 1 "schema_version" d;
    s ← str_field "status" d; Some (mkCrmConfiguration i f t v s));
}.

Record AnalyticsConfiguration := mkAnalyticsConfiguration {
  an_system_id : string; an_source_field : string; an_output_field : string;
  an_dependent_dashboards : list string; an_baseline_row_count : Z; an_status : string }.
#[export] Instance analytics_configuration : SystemConfiguration AnalyticsConfiguration := {
  cf_system_id := an_system_id;
  model_dump c := [("system_id", JStr c.(an_system_id)); ("source_field", JStr c.(an_source_field));
    ("output_field", JStr c.(an_output_field));
    ("dependent_dashboards", JArr (JStr <$> c.(an_dependent_dashboards)));
    ("baseline_row_count", JInt c.(an_baseline_row_count)); ("status", JStr c.(an_status))];
  model_validate d := decoded "AnalyticsConfiguration"
    ["system_id"; "source_field"; "output_field"; "dependent_dashboards"; "baseline_row_count";
     "status"] d (
    i ← str_field "system_id" d; f ← str_field "source_field" d; o ← str_field "output_field" d;
    b ← strs_field "dependent_dashboards" d; n ← int_field 1 "baseline_row_count" d;
    s ← str_field "status" d; Some (mkAnalyticsConfiguration i f o b n s));
}.

Record SupportConfiguration := mkSupportConfiguration {
  su_system_id : string; su_lookup_field : string; su_dependent_forms : list string;
  su_status : string }.
#[export] Instance support_configuration : SystemConfiguration SupportConfiguration := {
  cf_system_id := su_system_id;
  model_dump c := [("system_id", JStr c.(su_system_id)); ("lookup_field", JStr c.(su_lookup_field));
    ("dependent_forms", JArr (JStr <$> c.(su_dependent_forms))); ("status", JStr c.(su_status))];
  model_validate d := decoded "SupportConfiguration"
    ["system_id"; "lookup_field"; "dependent_forms"; "status"] d (
    i ← str_field "system_id" d; f ← str_field "lookup_field" d;
    b ← strs_field "dependent_forms" d; s ← str_field "status" d;
    Some (mkSupportConfiguration i f b s));
}.

(** * Requests and results *)

Record FieldPatchRequest := mkFieldPatchRequest {
  fp_old_field : string; fp_new_field : string; fp_idempotency_key : string;
  fp_change_id : string; fp_plan_hash : string }.
Definition FieldPatchRequest_ok (x : FieldPatchRequest) : bool :=
  clean x.(fp_old_field) && clean x.(fp_new_field) && clean x.(fp_idempotency_key) &&
  clean x.(fp_change_id) && sha256_str x.(fp_plan_hash).

Record PatchPreview := mkPatchPreview {
  pv_system_id : string; pv_field_name : string; pv_before : string; pv_after : string;
  pv_would_change : bool }.

Record PatchResult := mkPatchResult {
  pr_system_id : string; pr_field_name : string; pr_before : string; pr_after : string;
  pr_idempotency_key : string; pr_configuration_hash : string; pr_replayed : bool }.
Definition PatchResult_ok (x : PatchResult) : bool :=
  nonempty_str x.(pr_system_id) && nonempty_str x.(pr_field_name) && nonempty_str x.(pr_before) &&
  nonempty_str x.(pr_after) && nonempty_str x.(pr_idempotency_key) &&
  sha256_str x.(pr_configuration_hash).
Definition replayed_patch (x : PatchResult) : PatchResult := {|
  pr_system_id := x.(pr_system_id); pr_field_name := x.(pr_field_name);
  pr_before := x.(pr_before); pr_after := x.(pr_after);
  pr_idempotency_key := x.(pr_idempotency_key);
  pr_configuration_hash := x.(pr_configuration_hash); pr_replayed := true |}.

(** * The configuration store *)

Record ConfigurationStore (C : Type) := mkConfigurationStore {
  _configurations : gmap string C;
  _snapshots : gmap (string * string) SnapshotRecord;
  _snapshot_tenants : gmap string string;
  _executions : gmap (string * string) PatchResult;
  _transient_failures : gmap string Z;
  _verification_failures : gmap string Z }.
Arguments mkConfigurationStore {C} _ _ _ _ _ _.
Arguments _configurations {C} _.
Arguments _snapshots {C} _.
Arguments _snapshot_tenants {C} _.
Arguments _executions {C} _.
Arguments _transient_failures {C} _.
Arguments _verification_failures {C} _.

Module Config.
Section Store.
Context `{Platform} {C : Type} `{SystemConfiguration C} (seed : C) (field_name : string).
Abbreviation store := (ConfigurationStore C).

Definition empty : store := mkConfigurationStore ∅ ∅ ∅ ∅ ∅ ∅.

Definition set_configuration (tenant_id : string) (c : C) : call store unit := modify_state (λ s,
  mkConfigurationStore (<[tenant_id := c]> s.(_configurations)) s.(_snapshots)
    s.(_snapshot_tenants) s.(_executions) s.(_transient_failures) s.(_verification_failures)).

Definition _copy_seed : result exn C := model_validate (model_dump seed).

Definition _get_unlocked (tenant_id : string) : call store C :=
  s ← get_state;
  match s.(_configurations) !! tenant_id with
  | Some configuration => mret configuration
  | None =>
      configuration ← of_result _copy_seed;
      _ ← set_configuration tenant_id configuration;
      mret configuration
  end.

Definition get (tenant_id : string) : call store C := _get_unlocked tenant_id.

Definition snapshot (snapshot_id : string) (now : Z) (tenant_id : string)
  : call store SnapshotRecord :=
  configuration ← _get_unlocked tenant_id;
  let document := model_dump configuration in
  snapshot ← of_result (validated "SnapshotRecord" SnapshotRecord_ok {|
    sn_snapshot_id := snapshot_id;
    sn_tenant_id := tenant_id;
    sn_system_id := cf_system_id configuration;
    sn_configuration := document;
    sn_configuration_hash := sha256_digest (JObj document);
    sn_created_at := now |});
  _ ← modify_state (λ s, mkConfigurationStore s.(_configurations)
        (<[(tenant_id, snapshot_id) := snapshot]> s.(_snapshots))
        (<[snapshot_id := tenant_id]> s.(_snapshot_tenants))
        s.(_executions) s.(_transient_failures) s.(_verification_failures));
  mret snapshot.

(** [str(getattr(configuration, field_name))] *)
Definition current_field (c : C) : string :=
  match assoc field_name (model_dump c) with Some (JStr s) => s | _ => "" end.

Definition dry_run (tenant_id : string) (request : FieldPatchRequest) : call store PatchPreview :=
  configuration ← _get_unlocked tenant_id;
  let current := current_field configuration in
  _ ← raise_if (negb (bool_decide (current = request.(fp_old_field))))
        (ESandbox (PatchConflictError request.(fp_old_field) current));
  mret {| pv_system_id := cf_system_id configuration; pv_field_name := field_name;
          pv_before := current; pv_after := request.(fp_new_field);
          pv_would_change := negb (bool_decide (current = request.(fp_new_field))) |}.

(** The patched document: the field, and the schema version if there is one. *)
Definition patched (new_field : string) (d : document) : document :=
  let d := set_item field_name (JStr new_field) d in
  match assoc "schema_version" d with
  | Some (JInt n) => set_item "schema_version" (JInt (n + 1)) d
  | _ => d
  end.

Definition apply (tenant_id : string) (request : FieldPatchRequest) : call store PatchResult :=
  let key := (tenant_id, request.(fp_idempotency_key)) in
  s ← get_state;
  match s.(_executions) !! key with
  | Some prior => of_result (validated "PatchResult" PatchResult_ok (replayed_patch prior))
  | None =>
      let remaining_failures := default 0 (s.(_transient_failures) !! tenant_id) in
      if negb (remaining_failures =? 0) then
        _ ← modify_state (λ s, mkConfigurationStore s.(_configurations) s.(_snapshots)
              s.(_snapshot_tenants) s.(_executions)
              (<[tenant_id := remaining_failures - 1]> s.(_transient_failures))
              s.(_verification_failures));
        raise (ESandbox TransientSandboxError)
      else
        configuration ← _get_unlocked tenant_id;
        let current := current_field configuration in
        _ ← raise_if (negb (bool_decide (current = request.(fp_old_field))))
              (ESandbox (PatchConflictError request.(fp_old_field) current));
        updated ← of_result (model_validate (patched request.(fp_new_field)
                                               (model_dump configuration)));
        _ ← set_configuration tenant_id updated;
        result ← of_result (validated "PatchResult" PatchResult_ok {|
          pr_system_id := cf_system_id updated; pr_field_name := field_name; pr_before := current;
          pr_after := request.(fp_new_field); pr_idempotency_key := request.(fp_idempotency_key);
          pr_configuration_hash := sha256_digest (JObj (model_dump updated));
          pr_replayed := false |});
        _ ← modify_state (λ s, mkConfigurationStore s.(_configurations) s.(_snapshots)
              s.(_snapshot_tenants) (<[key := result]> s.(_executions)) s.(_transient_failures)
              s.(_verification_failures));
        mret result
  end.

Definition restore (tenant_id snapshot_id : string) : call store RestoreResult :=
  s ← get_state;
  match s.(_snapshots) !! (tenant_id, snapshot_id) with
  | None =>
      match s.(_snapshot_tenants) !! snapshot_id with
      | Some _ => raise (ESandbox TenantScopeError)
      | None => raise (ESandbox (SnapshotNotFoundError snapshot_id))
      end
  | Some snapshot =>
      restored ← of_result (model_validate snapshot.(sn_configuration));
      _ ← set_configuration tenant_id restored;
      of_result (validated "RestoreResult" RestoreResult_ok {|
        rs_system_id := snapshot.(sn_system_id); rs_snapshot_id := snapshot_id;
        rs_configuration_hash := snapshot.(sn_configuration_hash); rs_restored := true |})
  end.

Definition inject_transient_failures (tenant_id : string) (count : Z) : call store Z :=
  _ ← modify_state (λ s, mkConfigurationStore s.(_configurations) s.(_snapshots)
        s.(_snapshot_tenants) s.(_executions) (<[tenant_id := count]> s.(_transient_failures))
        s.(_verification_failures));
  of_result (validated "TransientFailureState" (Z.leb 0) count).

Definition set_verification_failures (m : gmap string Z) : call store unit := modify_state (λ s,
  mkConfigurationStore s.(_configurations) s.(_snapshots) s.(_snapshot_tenants) s.(_executions)
    s.(_transient_failures) m).

Definition inject_verification_failures (tenant_id : string) (count : Z) : call store Z :=
  s ← get_state;
  _ ← set_verification_failures (<[tenant_id := count]> s.(_verification_failures));
  of_result (validated "VerificationFailureState" (Z.leb 0) count).

Definition consume_verification_failure (tenant_id : string) : call store bool :=
  s ← get_state;
  let remaining := default 0 (s.(_verification_failures) !! tenant_id) in
  if remaining =? 0 then mret false
  else
    _ ← set_verification_failures
          (if remaining =? 1 then delete tenant_id s.(_verification_failures)
           else <[tenant_id := remaining - 1]> s.(_verification_failures));
    mret true.

Definition reset (tenant_id : string) : call store unit :=
  configuration ← of_result _copy_seed;
  modify_state (λ s,
    let own := filter (λ kv, kv.1.1 = tenant_id) s.(_snapshots) in
    mkConfigurationStore (<[tenant_id := configuration]> s.(_configurations))
      (filter (λ kv, kv.1.1 ≠ tenant_id) s.(_snapshots))
      (filter (λ kv, own !! (tenant_id, kv.1) = None) s.(_snapshot_tenants))
      (filter (λ kv, kv.1.1 ≠ tenant_id) s.(_executions))
      (delete tenant_id s.(_transient_failures)) (delete tenant_id s.(_verification_failures))).
End Store.
End Config.

(** * The handlers *)

(** [require_tenant]; the space characters of a header value. *)
Definition require_tenant (x_tenant_id : option string) : result exn string :=
  match x_tenant_id with
  | None => Err (ESandbox SandboxTenantRequiredError)
  | Some x =>
      let tenant_id := trim x in
      if bool_decide (tenant_id = "") || (128 <? slen tenant_id)
      then Err (ESandbox SandboxTenantRequiredError) else Ok tenant_id
  end.

(** The checks are built first, in order, then the result. *)
Definition verification_check (name : string) (passed : bool) (detail : string)
  : result exn VerificationCheck :=
  validated "VerificationCheck" VerificationCheck_ok (mkVerificationCheck name passed detail).
Definition verification_result (system_id : string) (checks : list VerificationCheck)
    (measures : option AnalyticsMeasures) : result exn VerificationResult :=
  validated "VerificationResult" VerificationResult_ok
    (mkVerificationResult system_id (forallb vc_passed checks) checks measures).
Definition is_healthy (status : string) : bool := bool_decide (status = "healthy").

(** [crm_api.verify] *)
Definition crm_verify `{Platform} (seed : CrmConfiguration) (tenant_id expected_field : string)
  : call (ConfigurationStore CrmConfiguration) VerificationResult :=
  current ← Config.get seed tenant_id;
  let field_matches := bool_decide (current.(crm_source_field) = expected_field) in
  source_field ← of_result (verification_check "source_field" field_matches
    ("Configured source field is " +:+ current.(crm_source_field) +:+ "."));
  service_health ← of_result (verification_check "service_health" (is_healthy current.(crm_status))
    ("CRM synchronization status is " +:+ current.(crm_status) +:+ "."));
  of_result (verification_result current.(crm_system_id) [source_field; service_health] None).

Record AnalyticsDataProfile := mkAnalyticsDataProfile {
  dp_system_id : string; dp_observed_row_count : Z; dp_identifier_null_count : Z }.
(** [validate_null_count] and the bounds of the fields. *)
Definition AnalyticsDataProfile_ok (x : AnalyticsDataProfile) : bool :=
  clean x.(dp_system_id) && (1 <=? x.(dp_observed_row_count)) &&
  (0 <=? x.(dp_identifier_null_count)) && (x.(dp_identifier_null_count) <=? x.(dp_observed_row_count)).

(** [analytics_api.verify] *)
Definition analytics_verify `{Platform} (seed : AnalyticsConfiguration)
    (observed_data : AnalyticsDataProfile) (tenant_id expected_field : string)
  : call (ConfigurationStore AnalyticsConfiguration) VerificationResult :=
  current ← Config.get seed tenant_id;
  let rows := observed_data.(dp_observed_row_count) in
  let nulls := observed_data.(dp_identifier_null_count) in
  let null_rate := (inject_Z nulls / inject_Z rows)%Q in
  source_field ← of_result (verification_check "source_field"
    (bool_decide (current.(an_source_field) = expected_field))
    ("Transformation source field is " +:+ current.(an_source_field) +:+ "."));
  dataset_identity ← of_result (verification_check "dataset_identity"
    (bool_decide (observed_data.(dp_system_id) = current.(an_system_id)))
    ("Observed dataset belongs to " +:+ observed_data.(dp_system_id) +:+ "."));
  row_count ← of_result (verification_check "row_count" (rows =? current.(an_baseline_row_count))
    ("Observed " +:+ zstr rows +:+ " rows against the " +:+
     zstr current.(an_baseline_row_count) +:+ "-row baseline."));
  null_check ← of_result (verification_check "null_rate" (Qeq_bool null_rate 0)
    ("Observed " +:+ zstr nulls +:+ " null identifiers across " +:+ zstr rows +:+ " rows."));
  service_health ← of_result (verification_check "service_health" (is_healthy current.(an_status))
    ("Analytics transformation status is " +:+ current.(an_status) +:+ "."));
  of_result (verification_result current.(an_system_id)
    [source_field; dataset_identity; row_count; null_check; service_health]
    (Some (mkAnalyticsMeasures current.(an_baseline_row_count) rows null_rate))).

(** [support_api.verify] *)
Definition support_verify `{Platform} (seed : SupportConfiguration)
    (tenant_id expected_field : string)
  : call (ConfigurationStore SupportConfiguration) VerificationResult :=
  current ← Config.get seed tenant_id;
  injected_failure ← Config.consume_verification_failure tenant_id;
  let field_matches := bool_decide (current.(su_lookup_field) = expected_field) &&
                       negb injected_failure in
  lookup_field ← of_result (verification_check "lookup_field" field_matches
    (if injected_failure : bool then "Injected support lookup verification failure."
     else "Support lookup field is " +:+ current.(su_lookup_field) +:+ "."));
  dependent_forms ← of_result (verification_check "dependent_forms"
    (negb (bool_decide (current.(su_dependent_forms) = [])))
    "Dependent synthetic forms remain registered.");
  service_health ← of_result (verification_check "service_health" (is_healthy current.(su_status))
    ("Support portal status is " +:+ current.(su_status) +:+ "."));
  of_result (verification_result current.(su_system_id)
    [lookup_field; dependent_forms; service_health] None).

(** [field_usage] of the analytics and the support service. *)
Record FieldUsageResult := mkFieldUsageResult {
  fu_field : string; fu_resources : list string }.
Definition FieldUsageResult_ok (x : FieldUsageResult) : bool :=
  clean x.(fu_field) && forallb clean x.(fu_resources).
Definition field_usage (field : string) (resources : list string) : result exn FieldUsageResult :=
  validated "FieldUsageResult" FieldUsageResult_ok
    (mkFieldUsageResult (trim field) (trim <$> resources)).

Definition analytics_field_usage `{Platform} (seed : AnalyticsConfiguration)
    (tenant_id field : string)
  : call (ConfigurationStore AnalyticsConfiguration) FieldUsageResult :=
  current ← Config.get seed tenant_id;
  of_result (field_usage field (
    if bool_decide (field = current.(an_source_field))
    then ("transformation://" +:+ current.(an_system_id)) ::
         ((λ d, "dashboard://" +:+ d) <$> current.(an_dependent_dashboards))
    else [])).
Definition support_field_usage `{Platform} (seed : SupportConfiguration) (tenant_id field : string)
  : call (ConfigurationStore SupportConfiguration) FieldUsageResult :=
  current ← Config.get seed tenant_id;
  of_result (field_usage field (
    if bool_decide (field = current.(su_lookup_field))
    then (λ f, "form://" +:+ f) <$> current.(su_dependent_forms) else [])).

(** * The API registry *)

Record ApiContract := mkApiContract {
  ct_api : string; ct_version : string; ct_identifier_field : string; ct_identifier_type : string;
  ct_compatibility : string; ct_owner : string }.
Definition contract_dump (c : ApiContract) : document :=
  [("api", JStr c.(ct_api)); ("version", JStr c.(ct_version));
   ("identifier_field", JStr c.(ct_identifier_field));
   ("identifier_type", JStr c.(ct_identifier_type));
   ("compatibility", JStr c.(ct_compatibility)); ("owner", JStr c.(ct_owner))].
Definition contract_validate (d : document) : result exn ApiContract :=
  decoded "ApiContract"
    ["api"; "version"; "identifier_field"; "identifier_type"; "compatibility"; "owner"] d (
    a ← str_field "api" d; v ← str_field "version" d; f ← str_field "identifier_field" d;
    t ← str_field "identifier_type" d; c ← str_field "compatibility" d; o ← str_field "owner" d;
    Some (mkApiContract a v f t c o)).

Record DependencyEdge := mkDependencyEdge {
  de_source : string; de_target : string; de_managed : bool }.
Record CatalogSeed := mkCatalogSeed {
  cs_active_version : string; cs_contracts : list ApiContract;
  cs_dependencies : list DependencyEdge; cs_artifact_refs : list string }.
Record CatalogActivationRequest := mkCatalogActivationRequest {
  cq_version : string; cq_idempotency_key : string; cq_change_id : string; cq_plan_hash : string }.
Record CatalogActivationResult := mkCatalogActivationResult {
  cx_active_contract : ApiContract; cx_idempotency_key : string; cx_replayed : bool }.

Record CatalogStore := mkCatalogStore {
  _active_versions : gmap string string;
  _contract_snapshots : gmap (string * string) SnapshotRecord;
  _contract_snapshot_tenants : gmap string string;
  _activations : gmap (string * string) CatalogActivationResult }.

Module Catalog.
Section Catalog.
Context `{Platform} (seed : CatalogSeed).

Definition empty : CatalogStore := mkCatalogStore ∅ ∅ ∅ ∅.

Definition _contract_for_version (version : string) : call CatalogStore ApiContract :=
  match filter (λ c, c.(ct_version) = version) seed.(cs_contracts) with
  | contract :: _ => mret contract
  | [] => raise (ESandbox (ContractVersionNotFoundError version))
  end.

Definition active_contract (tenant_id : string) : call CatalogStore ApiContract :=
  s ← get_state;
  _contract_for_version (default seed.(cs_active_version) (s.(_active_versions) !! tenant_id)).

Definition contract_version (version : string) : call CatalogStore ApiContract :=
  _contract_for_version version.

Definition dependencies (source : option string) : list DependencyEdge :=
  match source with
  | None => seed.(cs_dependencies)
  | Some source => filter (λ e, e.(de_source) = source) seed.(cs_dependencies)
  end.

Definition set_active (tenant_id version : string) : call CatalogStore unit := modify_state (λ s,
  mkCatalogStore (<[tenant_id := version]> s.(_active_versions)) s.(_contract_snapshots)
    s.(_contract_snapshot_tenants) s.(_activations)).

Definition snapshot (snapshot_id : string) (now : Z) (tenant_id : string)
  : call CatalogStore SnapshotRecord :=
  contract ← active_contract tenant_id;
  let document := contract_dump contract in
  snapshot ← of_result (validated "SnapshotRecord" SnapshotRecord_ok {|
    sn_snapshot_id := snapshot_id; sn_tenant_id := tenant_id; sn_system_id := "customer-api";
    sn_configuration := document; sn_configuration_hash := sha256_digest (JObj document);
    sn_created_at := now |});
  _ ← modify_state (λ s, mkCatalogStore s.(_active_versions)
        (<[(tenant_id, snapshot_id) := snapshot]> s.(_contract_snapshots))
        (<[snapshot_id := tenant_id]> s.(_contract_snapshot_tenants)) s.(_activations));
  mret snapshot.

Definition activate (tenant_id : string) (request : CatalogActivationRequest)
  : call CatalogStore CatalogActivationResult :=
  let key := (tenant_id, request.(cq_idempotency_key)) in
  s ← get_state;
  match s.(_activations) !! key with
  | Some prior =>
      mret (mkCatalogActivationResult prior.(cx_active_contract) prior.(cx_idempotency_key) true)
  | None =>
      contract ← _contract_for_version request.(cq_version);
      _ ← set_active tenant_id contract.(ct_version);
      let result := mkCatalogActivationResult contract request.(cq_idempotency_key) false in
      _ ← modify_state (λ s, mkCatalogStore s.(_active_versions) s.(_contract_snapshots)
            s.(_contract_snapshot_tenants) (<[key := result]> s.(_activations)));
      mret result
  end.

Definition restore (tenant_id snapshot_id : string) : call CatalogStore RestoreResult :=
  s ← get_state;
  match s.(_contract_snapshots) !! (tenant_id, snapshot_id) with
  | None =>
      match s.(_contract_snapshot_tenants) !! snapshot_id with
      | Some _ => raise (ESandbox TenantScopeError)
      | None => raise (ESandbox (SnapshotNotFoundError snapshot_id))
      end
  | Some snapshot =>
      contract ← of_result (contract_validate snapshot.(sn_configuration));
      _ ← set_active tenant_id contract.(ct_version);
      of_result (validated "RestoreResult" RestoreResult_ok {|
        rs_system_id := "customer-api"; rs_snapshot_id := snapshot_id;
        rs_configuration_hash := snapshot.(sn_configuration_hash); rs_restored := true |})
  end.

Definition reset (tenant_id : string) : call CatalogStore unit := modify_state (λ s,
  let own := filter (λ kv, kv.1.1 = tenant_id) s.(_contract_snapshots) in
  mkCatalogStore (<[tenant_id := seed.(cs_active_version)]> s.(_active_versions))
    (filter (λ kv, kv.1.1 ≠ tenant_id) s.(_contract_snapshots))
    (filter (λ kv, own !! (tenant_id, kv.1) = None) s.(_contract_snapshot_tenants))
    (filter (λ kv, kv.1.1 ≠ tenant_id) s.(_activations))).
End Catalog.
End Catalog.

(** * The seeds, the documents under [seed/] *)

Definition crm_seed : CrmConfiguration :=
  mkCrmConfiguration "crm-sync" "customer_id" "external_customer_key" 4 "healthy".
Definition analytics_seed : AnalyticsConfiguration :=
  mkAnalyticsConfiguration "customer-daily-etl" "customer_id" "customer_key"
    ["customer-health"; "support-volume"] 1000 "healthy".
Definition analytics_data_profile : AnalyticsDataProfile :=
  mkAnalyticsDataProfile "customer-daily-etl" 1000 0.
Definition support_seed : SupportConfiguration :=
  mkSupportConfiguration "support-portal" "customer_id" ["case-create"; "customer-search"]
    "healthy".
Definition catalog_seed : CatalogSeed := {|
  cs_active_version := "1.4.0";
  cs_contracts := [
    mkApiContract "customer-api" "1.4.0" "customer_id" "string" "current" "team://customer-platform";
    mkApiContract "customer-api" "2.0.0" "customer_uuid" "uuid" "breaking"
      "team://customer-platform"];
  cs_dependencies := [
    mkDependencyEdge "customer-api" "crm-sync" true;
    mkDependencyEdge "customer-api" "order-service" false;
    mkDependencyEdge "customer-api" "customer-daily-etl" true;
    mkDependencyEdge "crm-sync" "support-portal" true;
    mkDependencyEdge "customer-daily-etl" "customer-health-dashboard" true;
    mkDependencyEdge "customer-daily-etl" "support-volume-dashboard" true];
  cs_artifact_refs := ["artifact://contracts/customer-v2-diff.json"] |}.
