(* ===== verification/SandboxFacts.v ===== *)
(** What the sandbox promises its callers: restoring a snapshot brings back exactly
    the configuration it was taken of, whatever was done in between, and a patch
    is applied once. *)

From S2P Require Import Prelude Json Contracts Errors Samples Clients Sandbox.

(** * Configurations *)

(** What a configuration model and its mutable field promise the store. *)
Class ConfigurationLaws (C : Type) `{SystemConfiguration C} (field : string) := {
  cf_ok : C → bool;
  cf_system c : cf_ok c = true → nonempty_str (cf_system_id c) = true;
  dump_wf c : wf_json (JObj (model_dump c)) = true;
  dump_validate c : cf_ok c = true → model_validate (model_dump c) = Ok c;
  validate_ok d c : model_validate d = Ok c → cf_ok c = true;
  (** A patched document is the dump of the patched configuration. *)
  patched_validate c s : cf_ok c = true → clean s = true →
    ∃ c', model_validate (Config.patched field s (model_dump c)) = Ok c' ∧
          model_dump c' = Config.patched field s (model_dump c);
}.

Lemma clean_str s : clean s = true → as_str (JStr s) = Some s.
Proof.
  unfold clean. rewrite andb_true_iff, bool_decide_eq_true. intros [Hn Ht]. simpl.
  by rewrite Ht, Hn.
Qed.

Lemma str_clean v s : as_str v = Some s → clean s = true.
Proof.
  destruct v as [| | |x| |]; simpl; try done. destruct (nonempty_str (trim x)) eqn:Hn; [|done].
  intros [= <-]. unfold clean. by rewrite Hn, trim_idem, bool_decide_eq_true_2.
Qed.

Lemma clean_strs l : forallb clean l = true → mapM as_str (JStr <$> l) = Some l.
Proof.
  intros Hl. apply mapM_Some. rewrite Forall2_fmap_l. apply Forall_Forall2_diag.
  rewrite forallb_forall in Hl. apply Forall_forall. intros s Hs.
  by apply clean_str, Hl, list_elem_of_In.
Qed.

Lemma strs_clean vs l : mapM as_str vs = Some l → forallb clean l = true.
Proof.
  intros Hl. apply mapM_Some in Hl. induction Hl as [|v s vs l Hv _ IH]; [done|].
  simpl. by rewrite (str_clean v s), IH.
Qed.

Lemma str_field_clean k d s : str_field k d = Some s → clean s = true.
Proof. unfold str_field. intros (v & _ & Hv)%bind_Some. by eapply str_clean. Qed.
Lemma int_field_least m k d n : int_field m k d = Some n → (m <=? n) = true.
Proof. unfold int_field. intros Hn. step Hn; congruence. Qed.
Lemma strs_field_clean k d l : strs_field k d = Some l → forallb clean l = true.
Proof. unfold strs_field. intros Hl. step Hl; by eapply strs_clean. Qed.

Lemma decoded_ok {A} model keys d (x : option A) y :
  decoded model keys d x = Ok y ↔ subset d.*1 keys = true ∧ x = Some y.
Proof. unfold decoded. destruct (subset _ _), x; naive_solver. Qed.

Ltac decode_fields H :=
  apply decoded_ok in H as [_ H];
  repeat (let y := fresh "y" in let E := fresh "E" in
          apply bind_Some in H as (y & E & H));
  injection H as <-; cbn;
  repeat match goal with
  | E : str_field _ _ = Some _ |- _ => apply str_field_clean in E as ->
  | E : int_field _ _ _ = Some _ |- _ => apply int_field_least in E as ->
  | E : strs_field _ _ = Some _ |- _ => apply strs_field_clean in E as ->
  end; done.

Lemma str_field_is k d s : assoc k d = Some (JStr s) → clean s = true → str_field k d = Some s.
Proof. intros Hk Hs. unfold str_field. rewrite Hk. by apply clean_str. Qed.
Lemma int_field_is m k d n : assoc k d = Some (JInt n) → (m <=? n) = true → int_field m k d = Some n.
Proof. intros Hk Hn. unfold int_field. by rewrite Hk, Hn. Qed.
Lemma strs_field_is k d l :
  assoc k d = Some (JArr (JStr <$> l)) → forallb clean l = true → strs_field k d = Some l.
Proof. intros Hk Hl. unfold strs_field. rewrite Hk. by apply clean_strs. Qed.

(** Decodes the dump of a configuration whose fields are clean. *)
Ltac encode :=
  rewrite ?andb_true_iff in *; destruct_and?;
  apply decoded_ok; split; [reflexivity|];
  repeat first
    [ erewrite str_field_is by (reflexivity || eassumption)
    | erewrite int_field_is by (reflexivity || eassumption)
    | erewrite strs_field_is by (reflexivity || eassumption) ]; cbn.

Lemma patched_dump {C} `{SystemConfiguration C} d (c' : C) :
  model_dump c' = d → model_validate (model_dump c') = Ok c' →
  ∃ c' : C, model_validate d = Ok c' ∧ model_dump c' = d.
Proof. intros <- Hv. by exists c'. Qed.

Definition crm_ok (c : CrmConfiguration) : bool :=
  clean c.(crm_system_id) && clean c.(crm_source_field) && clean c.(crm_destination_field) &&
  (1 <=? c.(crm_schema_version)) && clean c.(crm_status).

Lemma crm_dump_validate c : crm_ok c = true → model_validate (model_dump c) = Ok c.
Proof.
  unfold crm_ok, model_validate, model_dump, crm_configuration. intros. encode. by destruct c.
Qed.

Lemma crm_validate_ok d c : model_validate d = Ok c → crm_ok c = true.
Proof. unfold crm_ok, model_validate, crm_configuration. intros Hd. decode_fields Hd. Qed.

Lemma crm_patched c s : crm_ok c = true → clean s = true →
  ∃ c' : CrmConfiguration,
    model_validate (Config.patched "source_field" s (model_dump c)) = Ok c' ∧
    model_dump c' = Config.patched "source_field" s (model_dump c).
Proof.
  intros Hc Hs.
  apply (patched_dump _ (mkCrmConfiguration c.(crm_system_id) s c.(crm_destination_field)
           (c.(crm_schema_version) + 1) c.(crm_status))); [reflexivity|].
  apply crm_dump_validate. unfold crm_ok in *. cbn.
  rewrite !andb_true_iff in *. destruct_and?. split_and!; try done. lia.
Qed.

#[export] Instance crm_laws : ConfigurationLaws CrmConfiguration "source_field".
Proof.
  refine {| cf_ok := crm_ok |}.
  - unfold crm_ok, clean. intros c. rewrite !andb_true_iff. tauto.
  - intros c. reflexivity.
  - apply crm_dump_validate.
  - apply crm_validate_ok.
  - apply crm_patched.
Defined.

Definition analytics_ok (c : AnalyticsConfiguration) : bool :=
  clean c.(an_system_id) && clean c.(an_source_field) && clean c.(an_output_field) &&
  forallb clean c.(an_dependent_dashboards) && (1 <=? c.(an_baseline_row_count)) &&
  clean c.(an_status).

Lemma analytics_dump_validate c : analytics_ok c = true → model_validate (model_dump c) = Ok c.
Proof.
  unfold analytics_ok, model_validate, model_dump, analytics_configuration. intros. encode.
  by destruct c.
Qed.

Lemma strs_wf l : forallb wf_json (JStr <$> l) = true.
Proof. by induction l. Qed.

#[export] Instance analytics_laws : ConfigurationLaws AnalyticsConfiguration "source_field".
Proof.
  refine {| cf_ok := analytics_ok |}.
  - unfold analytics_ok, clean. intros c. rewrite !andb_true_iff. tauto.
  - intros c. cbn. by rewrite strs_wf.
  - apply analytics_dump_validate.
  - unfold analytics_ok, model_validate, analytics_configuration. intros d c Hd. decode_fields Hd.
  - intros c s Hc Hs.
    apply (patched_dump _ (mkAnalyticsConfiguration c.(an_system_id) s c.(an_output_field)
             c.(an_dependent_dashboards) c.(an_baseline_row_count) c.(an_status))); [reflexivity|].
    apply analytics_dump_validate. unfold analytics_ok in *. cbn.
    rewrite !andb_true_iff in *. tauto.
Defined.

Definition support_ok (c : SupportConfiguration) : bool :=
  clean c.(su_system_id) && clean c.(su_lookup_field) && forallb clean c.(su_dependent_forms) &&
  clean c.(su_status).

Lemma support_dump_validate c : support_ok c = true → model_validate (model_dump c) = Ok c.
Proof.
  unfold support_ok, model_validate, model_dump, support_configuration. intros. encode.
  by destruct c.
Qed.

#[export] Instance support_laws : ConfigurationLaws SupportConfiguration "lookup_field".
Proof.
  refine {| cf_ok := support_ok |}.
  - unfold support_ok, clean. intros c. rewrite !andb_true_iff. tauto.
  - intros c. cbn. by rewrite strs_wf.
  - apply support_dump_validate.
  - unfold support_ok, model_validate, support_configuration. intros d c Hd. decode_fields Hd.
  - intros c s Hc Hs.
    apply (patched_dump _ (mkSupportConfiguration c.(su_system_id) s c.(su_dependent_forms)
             c.(su_status))); [reflexivity|].
    apply support_dump_validate. unfold support_ok in *. cbn.
    rewrite !andb_true_iff in *. tauto.
Defined.

(** * Calls of the store *)

Lemma preserves_modify {S E} (I : S → Prop) (f : S → S) :
  (∀ s, I s → I (f s)) → preserves (E:=E) I (modify_state f).
Proof. done. Qed.

Inductive config_call :=
| CallGet (tenant_id : string)
| CallSnapshot (snapshot_id : string) (now : Z) (tenant_id : string)
| CallDryRun (tenant_id : string) (request : FieldPatchRequest)
| CallApply (tenant_id : string) (request : FieldPatchRequest)
| CallRestore (tenant_id snapshot_id : string)
| CallInjectTransient (tenant_id : string) (count : Z)
| CallInjectVerification (tenant_id : string) (count : Z)
| CallConsumeVerification (tenant_id : string)
| CallReset (tenant_id : string).

Section Store.
Context `{Platform} {C : Type} `{SystemConfiguration C} (seed : C) (field : string)
  `{!ConfigurationLaws C field}.
Abbreviation store := (ConfigurationStore C).

(** The store after a call, whether it returned or raised. *)
Definition perform_call (c : config_call) (s : store) : store :=
  match c with
  | CallGet t => (Config.get seed t s).2
  | CallSnapshot i now t => (Config.snapshot seed i now t s).2
  | CallDryRun t r => (Config.dry_run seed field t r s).2
  | CallApply t r => (Config.apply seed field t r s).2
  | CallRestore t i => (Config.restore t i s).2
  | CallInjectTransient t n => (Config.inject_transient_failures t n s).2
  | CallInjectVerification t n => (Config.inject_verification_failures t n s).2
  | CallConsumeVerification t => (Config.consume_verification_failure t s).2
  | CallReset t => (Config.reset seed t s).2
  end.
Definition perform_calls (cs : list config_call) (s : store) : store :=
  foldl (λ s c, perform_call c s) s cs.

Definition call_tenant (c : config_call) : string :=
  match c with
  | CallGet t | CallSnapshot _ _ t | CallDryRun t _ | CallApply t _ | CallRestore t _
  | CallInjectTransient t _ | CallInjectVerification t _ | CallConsumeVerification t
  | CallReset t => t
  end.

(** ** Frames

    A property of the store that the elementary updates of permitted calls keep:
    each writes the tenant of the call only. *)

Record frame (I : store → Prop) (permitted : config_call → Prop) (concerns : string → Prop)
  : Prop := {
  frame_configuration s t c : concerns t → cf_ok c = true → I s →
    I (mkConfigurationStore (<[t := c]> s.(_configurations)) s.(_snapshots)
         s.(_snapshot_tenants) s.(_executions) s.(_transient_failures) s.(_verification_failures));
  frame_snapshot s i now t sn : concerns t → permitted (CallSnapshot i now t) → I s →
    I (mkConfigurationStore s.(_configurations) (<[(t, i) := sn]> s.(_snapshots))
         (<[i := t]> s.(_snapshot_tenants)) s.(_executions) s.(_transient_failures)
         s.(_verification_failures));
  frame_execution s t k r : concerns t → s.(_executions) !! (t, k) = None → I s →
    I (mkConfigurationStore s.(_configurations) s.(_snapshots) s.(_snapshot_tenants)
         (<[(t, k) := r]> s.(_executions)) s.(_transient_failures) s.(_verification_failures));
  frame_failures s t m m' : concerns t →
    (∀ t', t' ≠ t → s.(_transient_failures) !! t' = m !! t') →
    (∀ t', t' ≠ t → s.(_verification_failures) !! t' = m' !! t') → I s →
    I (mkConfigurationStore s.(_configurations) s.(_snapshots) s.(_snapshot_tenants)
         s.(_executions) m m');
  frame_reset s t : concerns t → permitted (CallReset t) → I s → I (Config.reset seed t s).2 }.

Section Frame.
Context (I : store → Prop) (permitted : config_call → Prop) (concerns : string → Prop)
  (F : frame I permitted concerns).

Lemma frame_get t : concerns t → preserves I (Config._get_unlocked seed t).
Proof.
  intros Ht s Hs. unfold Config._get_unlocked, get_state, mbind, M_bind.
  destruct (_ !! t) as [c|]; [done|]. unfold of_result.
  destruct (Config._copy_seed seed) as [c|] eqn:Hc; [|done].
  apply (frame_configuration _ _ _ F); [done|by eapply validate_ok|done].
Qed.

Lemma get_executions t (s : store) : (Config._get_unlocked seed t s).2.(_executions) = s.(_executions).
Proof.
  unfold Config._get_unlocked, get_state, mbind, M_bind, of_result. destruct (_ !! t); [done|].
  by destruct (Config._copy_seed seed).
Qed.

Lemma frame_transient t n s : concerns t → I s →
  I (mkConfigurationStore s.(_configurations) s.(_snapshots) s.(_snapshot_tenants)
       s.(_executions) (<[t := n]> s.(_transient_failures)) s.(_verification_failures)).
Proof.
  intros Ht Hs. apply (frame_failures _ _ _ F _ t); [done| |done|done].
  intros t' Hne. by rewrite lookup_insert_ne.
Qed.
Lemma frame_verification t o s : concerns t → I s →
  I (mkConfigurationStore s.(_configurations) s.(_snapshots) s.(_snapshot_tenants)
       s.(_executions) s.(_transient_failures)
       (partial_alter (λ _, o) t s.(_verification_failures))).
Proof.
  intros Ht Hs. apply (frame_failures _ _ _ F _ t); [done|done| |done].
  intros t' Hne. by rewrite lookup_partial_alter_ne.
Qed.

Lemma frame_apply t r : concerns t → preserves I (Config.apply seed field t r).
Proof.
  intros Ht s Hs. unfold Config.apply. cbn zeta.
  destruct (_executions s !! (t, fp_idempotency_key r)) as [prior|] eqn:Hnew;
    unfold mbind, M_bind, get_state, modify_state; rewrite Hnew; [done|].
  destruct (negb _); [by apply frame_transient|].
  pose proof (frame_get t Ht s Hs) as Hget. pose proof (get_executions t s) as Hex.
  destruct (Config._get_unlocked seed t s) as [[c|e] s1]; [|done]. simpl in Hget, Hex.
  unfold raise_if, of_result. destruct (negb _); [done|]. unfold mret, M_ret.
  destruct (model_validate _) as [c'|] eqn:Hc; [|done].
  assert (I (Config.set_configuration t c' s1).2) as Hset
    by (apply (frame_configuration _ _ _ F); [done|by eapply validate_ok|done]).
  unfold Config.set_configuration, modify_state in *.
  destruct (validated _ _ _) as [result|]; [|done].
  apply (frame_execution _ _ _ F _ t (fp_idempotency_key r) result) in Hset; [done|done|].
  simpl. by rewrite Hex.
Qed.

(** A framed property survives every permitted call. *)
Lemma frame_call c s : permitted c → concerns (call_tenant c) → I s → I (perform_call c s).
Proof.
  intros Hc Ht Hs. destruct c as [t|i now t|t r|t r|t i|t n|t n|t|t]; cbn [perform_call] in *;
    simpl in Ht.
  - by apply frame_get.
  - revert s Hs. apply preserves_bind; [by apply frame_get|]. intros c. cbn zeta.
    apply preserves_bind; [apply preserves_of_result|]. intros sn.
    apply preserves_bind; [|intros _; apply preserves_ret].
    apply preserves_modify. intros s Hs. by apply (frame_snapshot _ _ _ F _ _ now).
  - revert s Hs. apply preserves_bind; [by apply frame_get|]. intros c. cbn zeta.
    apply preserves_bind; [apply preserves_raise_if|]. intros _. apply preserves_ret.
  - by apply frame_apply.
  - unfold Config.restore, get_state, mbind, M_bind. destruct (_snapshots s !! _) as [sn|].
    + unfold of_result. destruct (model_validate _) as [c|] eqn:Hc'; [|done].
      apply (frame_configuration _ _ _ F); [done|by eapply validate_ok|done].
    + by destruct (_ !! _).
  - unfold Config.inject_transient_failures, of_result, mbind, M_bind.
    destruct (validated _ _ _); by apply frame_transient.
  - unfold Config.inject_verification_failures, of_result, mbind, M_bind.
    destruct (validated _ _ _); by apply (frame_verification t (Some n)).
  - unfold Config.consume_verification_failure, get_state, mbind, M_bind. destruct (_ =? 0); [done|].
    destruct (_ =? 1); [by apply (frame_verification t None)|].
    by apply (frame_verification t (Some _)).
  - by apply (frame_reset _ _ _ F).
Qed.

Lemma frame_calls cs s :
  Forall permitted cs → Forall (λ c, concerns (call_tenant c)) cs → I s → I (perform_calls cs s).
Proof.
  intros Hcs. revert s. induction Hcs as [|c cs Hc _ IH]; intros s Ht Hs; [done|].
  inversion Ht; subst. apply IH; [done|]. by apply frame_call.
Qed.
End Frame.

(** ** The frames of the store *)

(** Every stored configuration is valid. *)
Definition inv (s : store) : Prop := ∀ t c, s.(_configurations) !! t = Some c → cf_ok c = true.

Lemma inv_frame : frame inv (λ _, True) (λ _, True).
Proof.
  constructor; unfold inv; simpl; try done.
  - intros s t c _ Hc Hs t' c'. rewrite lookup_insert. case_decide; naive_solver.
  - intros s t _ _ Hs. unfold Config.reset, mbind, M_bind, of_result.
    destruct (Config._copy_seed seed) as [c|] eqn:Hc; [|done]. simpl. intros t' c'.
    rewrite lookup_insert. case_decide; [|apply Hs]. intros [= <-]. by eapply validate_ok.
Qed.

(** A snapshot stays until its tenant is reset or its identifier is used again,
    and no other tenant holds it. *)
Definition holds_snapshot (t i : string) (sn : SnapshotRecord) (s : store) : Prop :=
  s.(_snapshots) !! (t, i) = Some sn ∧ s.(_snapshot_tenants) !! i = Some t ∧
  ∀ t', t' ≠ t → s.(_snapshots) !! (t', i) = None.
Definition spares_snapshot (t i : string) (c : config_call) : Prop :=
  match c with
  | CallSnapshot i' _ _ => i' ≠ i
  | CallReset t' => t' ≠ t
  | _ => True
  end.
Lemma snapshot_frame t i sn : frame (holds_snapshot t i sn) (spares_snapshot t i) (λ _, True).
Proof.
  constructor; unfold holds_snapshot; simpl; try done.
  - intros s i' _ t' sn' _ Hne (Hsn & Ht & Ho).
    rewrite !lookup_insert_ne by congruence. split_and!; [done..|]. intros t2 Ht2.
    rewrite lookup_insert_ne by congruence. by apply Ho.
  - intros s t' _ Hne (Hsn & Ht & Ho). unfold Config.reset, mbind, M_bind, of_result.
    destruct (Config._copy_seed seed) as [c|]; [|done]. simpl.
    rewrite !map_lookup_filter_Some. split_and!; [done|simpl; congruence|done| |].
    + simpl. apply map_lookup_filter_None. left. by apply Ho.
    + intros t2 Ht2. apply map_lookup_filter_None. left. by apply Ho.
Qed.


(** ** Tenants

    What one tenant can see of the store. *)

Record same_tenant (t : string) (s s' : store) : Prop := {
  same_configuration : s.(_configurations) !! t = s'.(_configurations) !! t;
  same_snapshots i : s.(_snapshots) !! (t, i) = s'.(_snapshots) !! (t, i);
  same_executions k : s.(_executions) !! (t, k) = s'.(_executions) !! (t, k);
  same_transient : s.(_transient_failures) !! t = s'.(_transient_failures) !! t;
  same_verification : s.(_verification_failures) !! t = s'.(_verification_failures) !! t }.

Lemma same_tenant_refl t s : same_tenant t s s.
Proof. done. Qed.

(** The calls of the other tenants leave it. *)
Lemma others_frame t s0 : frame (same_tenant t s0) (λ _, True) (λ t', t' ≠ t).
Proof.
  constructor.
  - intros s t' c Hne _ [Hc Hs Hx Ht Hv]. constructor; simpl; try done. by rewrite lookup_insert_ne.
  - intros s i _ t' sn Hne _ [Hc Hs Hx Ht Hv]. constructor; simpl; try done. intros i'.
    rewrite lookup_insert_ne by congruence. apply Hs.
  - intros s t' k r Hne _ [Hc Hs Hx Ht Hv]. constructor; simpl; try done. intros k'.
    rewrite lookup_insert_ne by congruence. apply Hx.
  - intros s t' m m' Hne Hm Hm' [Hc Hs Hx Ht Hv]. constructor; simpl; try done.
    + by rewrite Ht, Hm.
    + by rewrite Hv, Hm'.
  - intros s t' Hne _ [Hc Hs Hx Ht Hv]. unfold Config.reset, mbind, M_bind, of_result.
    destruct (Config._copy_seed seed) as [c|]; [|done].
    constructor; simpl; rewrite ?lookup_insert_ne, ?lookup_delete_ne by done; try done.
    + intros i. rewrite Hs, map_lookup_filter. destruct (_snapshots s !! (t, i)); [|done]. simpl.
      by rewrite option_guard_True.
    + intros k. rewrite Hx, map_lookup_filter. destruct (_executions s !! (t, k)); [|done]. simpl.
      by rewrite option_guard_True.
Qed.

(** A call that reads and writes what its tenant sees only. *)
Definition agrees {A} (t : string) (m : call store A) : Prop := ∀ s s',
  same_tenant t s s' → (m s).1 = (m s').1 ∧ same_tenant t (m s).2 (m s').2.

Lemma agrees_ret {A} t (a : A) : agrees t (mret a).
Proof. done. Qed.
Lemma agrees_of_result {A} t (r : result exn A) : agrees t (of_result r).
Proof. unfold of_result. by destruct r. Qed.
Lemma agrees_raise_if t b e : agrees t (raise_if b e).
Proof. by destruct b. Qed.
Lemma agrees_bind {A B} t (m : call store A) (f : A → call store B) :
  agrees t m → (∀ a, agrees t (f a)) → agrees t (mbind f m).
Proof.
  intros Hm Hf s s' Hs. destruct (Hm s s' Hs) as [He Hs']. unfold mbind, M_bind.
  destruct (m s) as [[a|e] s1], (m s') as [[a'|e'] s1']; simplify_eq/=; [|done].
  by apply Hf.
Qed.
(** A read of the store of which only what the tenant sees is used. *)
Lemma agrees_read {A} t (f : store → call store A) :
  (∀ s s', same_tenant t s s' → ∃ m, agrees t m ∧ f s = m ∧ f s' = m) →
  agrees t (s ← get_state; f s).
Proof.
  intros Hf s s' Hs. destruct (Hf s s' Hs) as (m & Hm & Hms & Hms').
  unfold mbind, M_bind, get_state. rewrite Hms, Hms'. by apply Hm.
Qed.
Ltac reads_same :=
  apply agrees_read; intros ? ? [Hc Hs Hx Ht Hv]; eexists;
  split; [clear Hc Hs Hx Ht Hv|split; [reflexivity|rewrite ?Hc, ?Hs, ?Hx, ?Ht, ?Hv; reflexivity]].

Lemma agrees_set t c : agrees t (Config.set_configuration t c).
Proof.
  intros s s' [Hc Hs Hx Ht Hv]. split; [done|]. constructor; simpl; try done.
  by rewrite !lookup_insert_eq.
Qed.

Lemma agrees_transient t o : agrees t (modify_state (λ s : store,
  mkConfigurationStore s.(_configurations) s.(_snapshots) s.(_snapshot_tenants) s.(_executions)
    (partial_alter (λ _, o) t s.(_transient_failures)) s.(_verification_failures))).
Proof.
  intros s s' [Hc Hs Hx Ht Hv]. split; [done|]. constructor; simpl; try done.
  by rewrite !lookup_partial_alter_eq.
Qed.
Lemma agrees_verification t o : agrees t (modify_state (λ s : store,
  mkConfigurationStore s.(_configurations) s.(_snapshots) s.(_snapshot_tenants) s.(_executions)
    s.(_transient_failures) (partial_alter (λ _, o) t s.(_verification_failures)))).
Proof.
  intros s s' [Hc Hs Hx Ht Hv]. split; [done|]. constructor; simpl; try done.
  by rewrite !lookup_partial_alter_eq.
Qed.

Lemma agrees_get t : agrees t (Config._get_unlocked seed t).
Proof.
  reads_same. destruct (_ !! t) as [c|]; [apply agrees_ret|].
  apply agrees_bind; [apply agrees_of_result|]. intros c.
  apply agrees_bind; [apply agrees_set|]. intros _. apply agrees_ret.
Qed.

Lemma agrees_snapshot t i now : agrees t (Config.snapshot seed i now t).
Proof.
  apply agrees_bind; [apply agrees_get|]. intros c. cbn zeta.
  apply agrees_bind; [apply agrees_of_result|]. intros sn.
  apply agrees_bind; [|intros _; apply agrees_ret].
  intros s s' [Hc Hs Hx Ht Hv]. split; [done|]. constructor; simpl; try done.
  intros i'. rewrite !lookup_insert. by destruct (decide _).
Qed.

Lemma agrees_dry_run t r : agrees t (Config.dry_run seed field t r).
Proof.
  apply agrees_bind; [apply agrees_get|]. intros c. cbn zeta.
  apply agrees_bind; [apply agrees_raise_if|]. intros _. apply agrees_ret.
Qed.

Lemma agrees_apply t r : agrees t (Config.apply seed field t r).
Proof.
  unfold Config.apply. cbn zeta. reads_same. destruct (_ !! _); [apply agrees_of_result|].
  destruct (negb _).
  - apply agrees_bind; [apply (agrees_transient t (Some _))|]. by intros _.
  - apply agrees_bind; [apply agrees_get|]. intros c.
    apply agrees_bind; [apply agrees_raise_if|]. intros _.
    apply agrees_bind; [apply agrees_of_result|]. intros c'.
    apply agrees_bind; [apply agrees_set|]. intros _.
    apply agrees_bind; [apply agrees_of_result|]. intros x.
    apply agrees_bind; [|intros _; apply agrees_ret].
    intros s1 s2 [Hc Hs Hx Ht Hv]. split; [done|]. constructor; simpl; try done.
    intros k. rewrite !lookup_insert. by destruct (decide _).
Qed.

Lemma agrees_reset t : agrees t (Config.reset seed t).
Proof.
  apply agrees_bind; [apply agrees_of_result|]. intros c.
  intros s s' [Hc Hs Hx Ht Hv]. split; [done|].
  constructor; simpl; rewrite ?lookup_insert_eq, ?lookup_delete_eq; try done.
  - intros i. rewrite !map_lookup_filter. by rewrite Hs.
  - intros k. rewrite !map_lookup_filter. by rewrite Hx.
Qed.

Lemma agrees_consume t : agrees t (Config.consume_verification_failure t).
Proof.
  unfold Config.consume_verification_failure. cbn zeta.
  intros s s' Hs. unfold get_state, mbind, M_bind.
  rewrite <-(same_verification _ _ _ Hs). destruct (_ =? 0); [done|].
  destruct Hs as [Hc Hs Hx Ht Hv].
  destruct (_ =? 1); (split; [done|constructor; simpl; try done];
    by rewrite ?lookup_delete_eq, ?lookup_insert_eq).
Qed.

Lemma agrees_restore t i s s' :
  is_Some (s.(_snapshots) !! (t, i)) → same_tenant t s s' →
  (Config.restore t i s).1 = (Config.restore t i s').1 ∧
  same_tenant t (Config.restore t i s).2 (Config.restore t i s').2.
Proof.
  intros [sn Hsn] R.
  assert (agrees t (restored ← of_result (model_validate sn.(sn_configuration));
    _ ← Config.set_configuration t restored;
    of_result (validated "RestoreResult" RestoreResult_ok {|
        rs_system_id := sn.(sn_system_id); rs_snapshot_id := i;
        rs_configuration_hash := sn.(sn_configuration_hash); rs_restored := true |}))) as Hm.
  { apply agrees_bind; [apply agrees_of_result|]. intros c.
    apply agrees_bind; [apply agrees_set|]. intros _. apply agrees_of_result. }
  specialize (Hm s s' R). pose proof (same_snapshots _ _ _ R i) as Hsn'. rewrite Hsn in Hsn'.
  unfold Config.restore, get_state, mbind, M_bind in *. by rewrite Hsn, <-Hsn'.
Qed.

(** ** Replies *)

Inductive reply :=
| Configuration (c : C) | Snapshot (sn : SnapshotRecord) | Preview (p : PatchPreview)
| Patched (r : PatchResult) | Restored (r : RestoreResult) | Remaining (n : Z) | Failing (b : bool)
| Done.

(** A call with its reply; [perform_call] is the store it leaves. *)
Definition serve_call (c : config_call) : call store reply :=
  match c with
  | CallGet t => r ← Config.get seed t; mret (Configuration r)
  | CallSnapshot i now t => r ← Config.snapshot seed i now t; mret (Snapshot r)
  | CallDryRun t r => r ← Config.dry_run seed field t r; mret (Preview r)
  | CallApply t r => r ← Config.apply seed field t r; mret (Patched r)
  | CallRestore t i => r ← Config.restore t i; mret (Restored r)
  | CallInjectTransient t n => r ← Config.inject_transient_failures t n; mret (Remaining r)
  | CallInjectVerification t n => r ← Config.inject_verification_failures t n; mret (Remaining r)
  | CallConsumeVerification t => r ← Config.consume_verification_failure t; mret (Failing r)
  | CallReset t => _ ← Config.reset seed t; mret Done
  end.

Lemma replied {A} (m : call store A) (k : A → reply) s : (x ← m; mret (k x)) s =
  (k <$> (m s).1, (m s).2).
Proof. unfold mbind, M_bind. by destruct (m s) as [[a|e] s1]. Qed.

Lemma serve_perform c s : (serve_call c s).2 = perform_call c s.
Proof. destruct c; unfold serve_call; by rewrite replied. Qed.

(** The call reads what the tenant sees; a restore of a snapshot the tenant does not
    hold tells an unknown one from another tenant's. *)
Definition sees (c : config_call) (s : store) : Prop :=
  match c with CallRestore t i => is_Some (s.(_snapshots) !! (t, i)) | _ => True end.

Lemma serve_agrees c s s' : sees c s → same_tenant (call_tenant c) s s' →
  (serve_call c s).1 = (serve_call c s').1 ∧
  same_tenant (call_tenant c) (serve_call c s).2 (serve_call c s').2.
Proof.
  assert (∀ {A} t (m : call store A) (k : A → reply), agrees t m → agrees t (x ← m; mret (k x)))
    as Hk by (intros A t m k Hm; apply agrees_bind; [done|intros x; apply agrees_ret]).
  destruct c as [t|i now t|t r|t r|t i|t n|t n|t|t]; simpl; intros Hsees;
    lazymatch type of Hsees with True => clear Hsees; revert s s'; apply Hk | _ => idtac end.
  - apply agrees_get.
  - apply agrees_snapshot.
  - apply agrees_dry_run.
  - apply agrees_apply.
  - intros R. rewrite !replied. simpl.
    by destruct (agrees_restore t i s s' Hsees R) as [-> ?].
  - apply agrees_bind; [apply (agrees_transient t (Some n))|intros _; apply agrees_of_result].
  - unfold Config.inject_verification_failures. intros s s' R.
    destruct (agrees_verification t (Some n) s s' R) as [_ Hv].
    unfold mbind, M_bind, of_result, get_state, Config.set_verification_failures, modify_state in *.
    by destruct (validated _ _ _).
  - apply agrees_consume.
  - apply agrees_reset.
Qed.

(** ** Calls that succeed *)

Lemma get_stored t c s : s.(_configurations) !! t = Some c → Config.get seed t s = (Ok c, s).
Proof. intros Hc. unfold Config.get, Config._get_unlocked, get_state, mbind, M_bind. by rewrite Hc. Qed.

Lemma get_unlocked_ok t c s s1 : inv s → Config._get_unlocked seed t s = (Ok c, s1) →
  cf_ok c = true ∧ s1.(_configurations) !! t = Some c ∧ s1.(_snapshots) = s.(_snapshots).
Proof.
  intros Hs. unfold Config._get_unlocked, get_state, mbind, M_bind, of_result.
  destruct (_ !! t) as [c0|] eqn:Hc; [intros [= <- <-]; eauto|].
  destruct (Config._copy_seed seed) as [c0|] eqn:Hc0; [|done]. intros [= <- <-]. simpl.
  rewrite lookup_insert_eq. split_and!; [by eapply validate_ok|done..].
Qed.

(** A successful snapshot is filed, and describes the configuration it leaves. *)
Lemma snapshot_ok i now t sn (s s1 : store) :
  inv s → (∀ t', s.(_snapshots) !! (t', i) = None) →
  Config.snapshot seed i now t s = (Ok sn, s1) →
  holds_snapshot t i sn s1 ∧ SnapshotRecord_ok sn = true ∧
  ∃ c, cf_ok c = true ∧ s1.(_configurations) !! t = Some c ∧
       sn.(sn_snapshot_id) = i ∧ sn.(sn_configuration) = model_dump c ∧
       sn.(sn_configuration_hash) = sha256_digest (JObj (model_dump c)).
Proof.
  intros Hs Hnew. unfold Config.snapshot, mbind, M_bind, of_result.
  destruct (Config._get_unlocked seed t s) as [[c|e] s0] eqn:Hget; [|done].
  destruct (get_unlocked_ok t c s s0 Hs Hget) as (Hc & Hc0 & Hsn).
  destruct (validated _ _ _) as [x|] eqn:Hx; [|done]. apply validated_ok in Hx as [Hx ->].
  intros [= <- <-]. split_and!; [|done|exists c; split_and!; done].
  unfold holds_snapshot. simpl. rewrite !lookup_insert_eq, Hsn. split_and!; [done..|].
  intros t' Hne. rewrite lookup_insert_ne by congruence. apply Hnew.
Qed.

Lemma restore_ok t i sn c s :
  holds_snapshot t i sn s → SnapshotRecord_ok sn = true → sn.(sn_snapshot_id) = i →
  cf_ok c = true → sn.(sn_configuration) = model_dump c →
  ∃ r s', Config.restore t i s = (Ok r, s') ∧
    r.(rs_configuration_hash) = sn.(sn_configuration_hash) ∧ s'.(_configurations) !! t = Some c.
Proof.
  intros [Hsn _] Hok <- Hc Hd. unfold Config.restore, get_state, mbind, M_bind. rewrite Hsn, Hd.
  unfold of_result. rewrite dump_validate by done. unfold SnapshotRecord_ok in Hok.
  rewrite !andb_true_iff in Hok. destruct_and?.
  unfold validated. unfold RestoreResult_ok at 1. simpl.
  repeat match goal with E : _ = true |- _ => rewrite E; clear E end. simpl.
  eexists _, _. split_and!; [done|done|]. simpl. by rewrite lookup_insert_eq.
Qed.

Lemma restore_refused t t' i sn s : holds_snapshot t i sn s → t' ≠ t →
  Config.restore t' i s = (Err (ESandbox TenantScopeError), s).
Proof.
  intros (_ & Ht & Ho) Hne. unfold Config.restore, get_state, mbind, M_bind.
  by rewrite (Ho t' Hne), Ht.
Qed.




(** The store after any calls, from its start. *)
Definition served_store (calls : list config_call) : store := perform_calls calls Config.empty.

Lemma served_inv calls : inv (served_store calls).
Proof.
  apply (frame_calls inv (λ _, True) (λ _, True) inv_frame); [by apply Forall_forall..|].
  intros t c Hc. cbn in Hc. by rewrite lookup_empty in Hc.
Qed.
End Store.

(** * Concrete calls *)

Definition demo_patch : FieldPatchRequest := {|
  fp_old_field := "customer_id"; fp_new_field := "customer_uuid"; fp_idempotency_key := "key-1";
  fp_change_id := "chg-1"; fp_plan_hash := toy_hash "plan" |}.
Definition demo_store : ConfigurationStore CrmConfiguration :=
  served_store crm_seed "source_field"
    [CallApply "other" demo_patch; CallSnapshot "snapshot_0" 5 "other"].
Definition demo_snapshot : result exn SnapshotRecord * ConfigurationStore CrmConfiguration :=
  Config.snapshot crm_seed "snapshot_1" 10 "acme" demo_store.
Definition demo_snapshot_record : SnapshotRecord := Eval vm_compute in
  match demo_snapshot.1 with Ok sn => sn | Err _ => mkSnapshotRecord "" "" "" [] "" 0 end.
Definition demo_calls : list config_call :=
  [CallApply "acme" demo_patch; CallInjectTransient "acme" 1; CallReset "other";
   CallDryRun "acme" demo_patch].
Definition demo_applied : result exn PatchResult * ConfigurationStore CrmConfiguration :=
  Config.apply crm_seed "source_field" "acme" demo_patch demo_store.
Definition demo_result : PatchResult := Eval vm_compute in
  match demo_applied.1 with Ok r => r | Err _ => mkPatchResult "" "" "" "" "" "" false end.

Example patch_conflicts :
  (Config.dry_run crm_seed "source_field" "other" demo_patch demo_store).1 =
  Err (ESandbox (PatchConflictError "customer_id" "customer_uuid")).
Proof. vm_compute. reflexivity. Qed.

Example old_field_verified :
  vr_passed <$> (crm_verify crm_seed "acme" "customer_id" demo_store).1 = Ok true.
Proof. vm_compute. reflexivity. Qed.
Example new_field_expected :
  vr_passed <$> (crm_verify crm_seed "acme" "customer_uuid" demo_store).1 = Ok false.
Proof. vm_compute. reflexivity. Qed.

Module SandboxProperties.
Section Properties.
Context `{Platform} {C : Type} `{SystemConfiguration C} (seed : C) (field : string)
  `{!ConfigurationLaws C field}.

(** C10. Compensation is exact: once a tenant took a snapshot under a fresh
    identifier, then whatever calls follow, of any tenant, short of resetting this
    tenant, restoring it succeeds, reports the snapshot's hash, and brings back
    exactly the configuration the tenant had, whose digest is that hash; every
    other tenant that names the snapshot is refused and changes nothing. *)
Theorem restore_returns_to_snapshot before t i now sn s1 calls :
  let s := served_store seed field before in
  (∀ t', s.(_snapshots) !! (t', i) = None) →
  Config.snapshot seed i now t s = (Ok sn, s1) →
  Forall (spares_snapshot t i) calls →
  let s2 := perform_calls seed field calls s1 in
  (∃ r s3 c, Config.restore t i s2 = (Ok r, s3) ∧
    r.(rs_configuration_hash) = sn.(sn_configuration_hash) ∧
    sn.(sn_configuration_hash) = sha256_digest (JObj (model_dump c)) ∧
    Config.get seed t s1 = (Ok c, s1) ∧ Config.get seed t s3 = (Ok c, s3)) ∧
  ∀ t', t' ≠ t → Config.restore t' i s2 = (Err (ESandbox TenantScopeError), s2).
Proof.
  cbn zeta. intros Hnew Hsnap Hcalls.
  destruct (snapshot_ok seed field i now t sn _ s1 (served_inv seed field before) Hnew Hsnap)
    as (Hh & Hok & c & Hc & Hc1 & Hi & Hd & Hhash).
  pose proof (frame_calls seed field _ _ _ (snapshot_frame seed field t i sn) calls s1 Hcalls
    ltac:(by apply Forall_forall) Hh) as Hh2.
  split; [|intros t' Hne; by apply (restore_refused t t' i sn)].
  destruct (restore_ok field t i sn c _ Hh2 Hok Hi Hc Hd) as (r & s3 & Hr & Hrh & Hs3).
  exists r, s3, c. split_and!; [done|done|done|by apply get_stored|by apply get_stored].
Qed.


(** C12. Tenants do not interfere: whatever the other tenants have done, a call of a
    tenant gets the reply, value or error, it would have got had they done nothing,
    and what the tenant can see of the store afterwards is the same; a restore of a
    snapshot the tenant does not hold is the exception, and is refused either way. *)
Theorem tenants_do_not_interfere others c s :
  Forall (λ o, call_tenant o ≠ call_tenant c) others → sees c s →
  let s' := perform_calls seed field others s in
  (serve_call seed field c s').1 = (serve_call seed field c s).1 ∧
  same_tenant (call_tenant c) (serve_call seed field c s).2 (serve_call seed field c s').2.
Proof.
  cbn zeta. intros Ho Hsees.
  assert (same_tenant (call_tenant c) s (perform_calls seed field others s)) as R
    by (apply (frame_calls seed field _ _ _ (others_frame seed field (call_tenant c) s) others s);
        [by apply Forall_forall|done|apply same_tenant_refl]).
  destruct (serve_agrees seed field c s _ Hsees R) as [Hr Hs]. by rewrite Hr.
Qed.
End Properties.

Lemma restore_returns_to_snapshot_witness : ∃ r s3,
  Config.restore "acme" "snapshot_1"
    (perform_calls crm_seed "source_field" demo_calls demo_snapshot.2) = (Ok r, s3).
Proof.
  destruct (restore_returns_to_snapshot crm_seed "source_field"
    [CallApply "other" demo_patch; CallSnapshot "snapshot_0" 5 "other"] "acme" "snapshot_1" 10
    demo_snapshot_record demo_snapshot.2 demo_calls) as [(r & s3 & c & Hr & _) _].
  - intros t'. destruct (_ !! _) as [sn|] eqn:Hsn; [|done].
    assert (map_Forall (λ k _, k.2 ≠ "snapshot_1") demo_store.(_snapshots)) as Hall
      by (apply (bool_decide_unpack _); vm_compute; exact I).
    by destruct (Hall _ _ Hsn).
  - vm_compute. reflexivity.
  - repeat constructor; simpl; intros; congruence.
  - by exists r, s3.
Defined.


Lemma tenants_do_not_interfere_witness :
  (serve_call crm_seed "source_field" (CallApply "acme" demo_patch)
     (perform_calls crm_seed "source_field" [CallInjectTransient "other" 2; CallReset "other"]
        demo_store)).1 =
  Ok (Patched demo_result).
Proof.
  destruct (tenants_do_not_interfere crm_seed "source_field"
    [CallInjectTransient "other" 2; CallReset "other"] (CallApply "acme" demo_patch) demo_store)
    as [-> _]; [repeat constructor; simpl; congruence|exact I|].
  vm_compute. reflexivity.
Defined.
End SandboxProperties.
