(* ===== verification/EventGateway.v ===== *)
(** The event gateway, [services/event-gateway]: webhook authentication ([auth.py]),
    the tenants' rate limit ([rate_limit.py]), the transactional inbox
    ([models.py], [repository.py]) and the ingestion handler of [app.py].

    Every method of the inbox runs under one lock, so a method is one atomic step.
    The handler is a coroutine: reading the clock and the rate limit happen in
    one step of the event loop, every call handed to the thread pool is a step. *)

From S2P Require Import Prelude Json Contracts Errors Coroutine.
Open Scope Z_scope.

(** * Records *)

Inductive InboxStatus :=
| InboxPending | InboxPublishing | InboxPublished | InboxPublishFailed | InboxProcessing
| InboxProcessed | InboxDeadLettered.
#[export] Instance inbox_status_eq : EqDecision InboxStatus.
Proof. solve_decision. Defined.

Record EventInboxRecord := mkEventInboxRecord {
  ib_event_key : NonEmptyStr; ib_tenant_id : NonEmptyStr; ib_event_id : NonEmptyStr;
  ib_source_type : NonEmptyStr; ib_change_id : NonEmptyStr; ib_input_hash : Sha256Digest;
  ib_event : ChangeEvent; ib_status : InboxStatus; ib_publish_attempts : Z;
  ib_processing_attempts : Z; ib_pubsub_message_id : option NonEmptyStr;
  ib_last_error_code : option NonEmptyStr; ib_created_at : AwareDatetime;
  ib_updated_at : AwareDatetime; ib_version : Z }.
Definition EventInboxRecord_ok (x : EventInboxRecord) : bool :=
  nonempty_str x.(ib_event_key) && nonempty_str x.(ib_tenant_id) &&
  nonempty_str x.(ib_event_id) && nonempty_str x.(ib_source_type) &&
  nonempty_str x.(ib_change_id) && sha256_str x.(ib_input_hash) && ChangeEvent_ok x.(ib_event) &&
  (0 <=? x.(ib_publish_attempts)) && (0 <=? x.(ib_processing_attempts)) &&
  opt_ok nonempty_str x.(ib_pubsub_message_id) && opt_ok nonempty_str x.(ib_last_error_code) &&
  (1 <=? x.(ib_version)).

Record InboxAcceptance := mkInboxAcceptance { ia_record : EventInboxRecord; ia_replayed : bool }.

Record EventAcceptedResponse := mkEventAcceptedResponse {
  ea_event_id : NonEmptyStr; ea_change_id : NonEmptyStr; ea_status : InboxStatus;
  ea_status_url : NonEmptyStr; ea_replayed : bool }.
Definition EventAcceptedResponse_ok (x : EventAcceptedResponse) : bool :=
  nonempty_str x.(ea_event_id) && nonempty_str x.(ea_change_id) && nonempty_str x.(ea_status_url).

Definition event_key `{Platform} (event : ChangeEvent) : string :=
  removeprefix "sha256:" (sha256_digest (JObj [
    ("event_id", JStr event.(ev_event_id));
    ("source", JStr event.(ev_source).(src_type));
    ("tenant_id", JStr event.(ev_tenant_id))])).

(** The fields a publication writes. *)
Definition with_publication (r : EventInboxRecord) (status : InboxStatus) (publish_attempts : Z)
    (message_id error_code : option string) (updated_at : Z) : EventInboxRecord := {|
  ib_event_key := r.(ib_event_key); ib_tenant_id := r.(ib_tenant_id);
  ib_event_id := r.(ib_event_id); ib_source_type := r.(ib_source_type);
  ib_change_id := r.(ib_change_id); ib_input_hash := r.(ib_input_hash); ib_event := r.(ib_event);
  ib_status := status; ib_publish_attempts := publish_attempts;
  ib_processing_attempts := r.(ib_processing_attempts);
  ib_pubsub_message_id := trim <$> message_id; ib_last_error_code := trim <$> error_code;
  ib_created_at := r.(ib_created_at); ib_updated_at := updated_at;
  ib_version := r.(ib_version) + 1 |}.

(** The record of a new event. *)
Definition inbox_record `{Platform} (event : ChangeEvent) (change_id : string) (now : Z)
  : EventInboxRecord := {|
  ib_event_key := event_key event; ib_tenant_id := event.(ev_tenant_id);
  ib_event_id := event.(ev_event_id); ib_source_type := event.(ev_source).(src_type);
  ib_change_id := change_id; ib_input_hash := sha256_digest (event_json event);
  ib_event := event; ib_status := InboxPending; ib_publish_attempts := 0;
  ib_processing_attempts := 0; ib_pubsub_message_id := None; ib_last_error_code := None;
  ib_created_at := now; ib_updated_at := now; ib_version := 1 |}.

(** A publication of the record is under way, or done. *)
Definition publication_taken (r : EventInboxRecord) (now : Z) : bool :=
  bool_decide (r.(ib_status) = InboxPublished) ||
  (bool_decide (r.(ib_status) = InboxPublishing) && (now - seconds 30 <? r.(ib_updated_at))).
Definition reserved_record (r : EventInboxRecord) (now : Z) : EventInboxRecord :=
  with_publication r InboxPublishing (r.(ib_publish_attempts) + 1) r.(ib_pubsub_message_id) None now.

(** * The inbox *)

Class EventInboxRepository (I : Type) := {
  inbox_accept : ChangeEvent → string → Z → call I InboxAcceptance;
  (** tenant, key, now *)
  inbox_reserve_publish : string → string → Z → call I (option EventInboxRecord);
  (** tenant, key, expected version, message, now *)
  inbox_mark_published : string → string → Z → string → Z → call I EventInboxRecord;
  inbox_mark_publish_failed : string → string → Z → string → Z → call I EventInboxRecord;
}.

(** ** Its contract *)

Abbreviation inbox_key := (string * string)%type.
Definition storage_key `{Platform} (event : ChangeEvent) : inbox_key :=
  (event.(ev_tenant_id), event_key event).

Section Contract.
Context {I : Type} (inv : I → Prop) (view : I → inbox_key → option EventInboxRecord).

(** A write of one record, if it is valid. *)
Definition writes {A} (i : I) (k : inbox_key) (r : EventInboxRecord) (value : EventInboxRecord → A)
    (answer : result exn A * I) : Prop :=
  if EventInboxRecord_ok r then
    answer.1 = Ok (value r) ∧ inv answer.2 ∧
    ∀ k', view answer.2 k' = if bool_decide (k' = k) then Some r else view i k'
  else answer = (Err (ValidationError "EventInboxRecord"), i).

(** The end of a publication: only the reservation that is current may end it. *)
Definition finishes (i : I) (k : inbox_key) (expected_version : Z) (status : InboxStatus)
    (message_id error_code : option string) (now : Z)
    (answer : result exn EventInboxRecord * I) : Prop :=
  match view i k with
  | None => ∃ e, answer = (Err e, i)
  | Some r =>
      if (r.(ib_version) =? expected_version) && bool_decide (r.(ib_status) = InboxPublishing)
      then writes i k (with_publication r status r.(ib_publish_attempts) message_id error_code now)
             id answer
      else ∃ e, answer = (Err e, i)
  end.
End Contract.

Class InboxLaws (I : Type) `{Platform} `{EventInboxRepository I} := {
  inbox_inv : I → Prop;
  inbox_view : I → inbox_key → option EventInboxRecord;

  (** The first event with a key is kept, and a different one refused. *)
  inbox_accept_law i event change_id now : inbox_inv i →
    match inbox_view i (storage_key event) with
    | Some existing =>
        inbox_accept event change_id now i =
          (if bool_decide (existing.(ib_input_hash) = sha256_digest (event_json event))
           then Ok (mkInboxAcceptance existing true) else Err (EEvent EventConflictError), i)
    | None => writes inbox_inv inbox_view i (storage_key event) (inbox_record event change_id now)
                (λ r, mkInboxAcceptance r false) (inbox_accept event change_id now i)
    end;

  inbox_reserve_law i t k now : inbox_inv i →
    match inbox_view i (t, k) with
    | None => ∃ e, inbox_reserve_publish t k now i = (Err e, i)
    | Some r =>
        if publication_taken r now then inbox_reserve_publish t k now i = (Ok None, i)
        else writes inbox_inv inbox_view i (t, k) (reserved_record r now) Some
               (inbox_reserve_publish t k now i)
    end;

  inbox_published_law i t k v m now : inbox_inv i →
    finishes inbox_inv inbox_view i (t, k) v InboxPublished (Some m) None now
      (inbox_mark_published t k v m now i);
  inbox_failed_law i t k v e now : inbox_inv i →
    finishes inbox_inv inbox_view i (t, k) v InboxPublishFailed None (Some e) now
      (inbox_mark_publish_failed t k v e now i);
}.

(** ** The in-memory adapter *)

Definition InMemoryEventInboxRepository : Type := gmap (string * string) EventInboxRecord.

Module Inbox.
Section Inbox.
Context `{Platform}.
Abbreviation inbox := InMemoryEventInboxRepository.

Definition store (key : string * string) (r : EventInboxRecord) : call inbox unit :=
  modify_state (λ records, <[key := r]> records).
(** [self._records[key]] *)
Definition fetch (key : string * string) : call inbox EventInboxRecord :=
  records ← get_state;
  match (records : inbox) !! key with Some r => mret r | None => raise KeyError end.

Definition accept (event : ChangeEvent) (change_id : string) (now : Z) : call inbox InboxAcceptance :=
  let key := event_key event in
  let input_hash := sha256_digest (event_json event) in
  let storage_key := (event.(ev_tenant_id), key) in
  records ← get_state;
  match (records : inbox) !! storage_key with
  | Some existing =>
      _ ← raise_if (negb (bool_decide (existing.(ib_input_hash) = input_hash)))
            (EEvent EventConflictError);
      mret (mkInboxAcceptance existing true)
  | None =>
      record ← of_result (validated "EventInboxRecord" EventInboxRecord_ok
                 (inbox_record event change_id now));
      _ ← store storage_key record;
      mret (mkInboxAcceptance record false)
  end.

Definition reserve_publish (tenant_id key : string) (now : Z)
  : call inbox (option EventInboxRecord) :=
  current ← fetch (tenant_id, key);
  if publication_taken current now then mret None
  else
    updated ← of_result (validated "EventInboxRecord" EventInboxRecord_ok
                (reserved_record current now));
    _ ← store (tenant_id, key) updated;
    mret (Some updated).

Definition _finish_publish (tenant_id key : string) (expected_version : Z) (status : InboxStatus)
    (message_id error_code : option string) (now : Z) : call inbox EventInboxRecord :=
  current ← fetch (tenant_id, key);
  _ ← raise_if (negb (current.(ib_version) =? expected_version) ||
                negb (bool_decide (current.(ib_status) = InboxPublishing)))
        (RuntimeError "Event publish reservation is stale.");
  updated ← of_result (validated "EventInboxRecord" EventInboxRecord_ok
    (with_publication current status current.(ib_publish_attempts) message_id error_code now));
  _ ← store (tenant_id, key) updated;
  mret updated.

Definition mark_published (tenant_id key : string) (expected_version : Z) (message_id : string)
    (now : Z) : call inbox EventInboxRecord :=
  _finish_publish tenant_id key expected_version InboxPublished (Some message_id) None now.

Definition mark_publish_failed (tenant_id key : string) (expected_version : Z)
    (error_code : string) (now : Z) : call inbox EventInboxRecord :=
  _finish_publish tenant_id key expected_version InboxPublishFailed None (Some error_code) now.

#[export] Instance memory_inbox : EventInboxRepository inbox := {
  inbox_accept := accept;
  inbox_reserve_publish := reserve_publish;
  inbox_mark_published := mark_published;
  inbox_mark_publish_failed := mark_publish_failed;
}.

(** ** The adapter keeps the contract *)

Abbreviation view := (λ (i : inbox) k, i !! k).

Lemma store_writes {A} (value : EventInboxRecord → A) k r (i : inbox) :
  writes (λ _, True) view i k r value
    ((x ← of_result (validated "EventInboxRecord" EventInboxRecord_ok r);
      _ ← store k x; mret (value x)) i).
Proof.
  unfold writes, of_result, mbind, M_bind, validated. destruct (EventInboxRecord_ok r); [|done].
  simpl. split_and!; [done|done|]. intros k'. case_bool_decide as Hk.
  - subst k'. apply (lookup_insert_eq (M:=gmap inbox_key)).
  - apply (lookup_insert_ne (M:=gmap inbox_key)). congruence.
Qed.

Lemma run_get_state {A} (f : inbox → call inbox A) (i : inbox) : (x ← get_state; f x) i = f i i.
Proof. done. Qed.

Lemma run_fetch {A} k (f : EventInboxRecord → call inbox A) (i : inbox) :
  (r ← fetch k; f r) i = match view i k with Some r => f r i | None => (Err KeyError, i) end.
Proof. unfold fetch, mbind, M_bind, get_state. by destruct (_ !! k). Qed.

Lemma finish_finishes t k v status m e now (i : inbox) :
  finishes (λ _, True) view i (t, k) v status m e now (_finish_publish t k v status m e now i).
Proof.
  unfold finishes, _finish_publish. rewrite run_fetch. cbn beta.
  destruct (i !! (t, k)) as [r|]; [|by eexists].
  destruct (_ =? v); simpl; [|by eexists].
  destruct (bool_decide (ib_status r = InboxPublishing)); [|by eexists].
  apply (store_writes id).
Qed.

#[export] Instance memory_inbox_laws : InboxLaws inbox.
Proof.
  refine {| inbox_inv := λ _, True; inbox_view := view |}.
  - intros i event c now _. unfold inbox_accept, memory_inbox, accept. cbn zeta.
    pose proof (store_writes (λ r, mkInboxAcceptance r false) (storage_key event)
      (inbox_record event c now) i) as Hw.
    rewrite run_get_state. unfold storage_key in *. cbn beta.
    destruct (i !! _) as [r|]; [|exact Hw]. by destruct (bool_decide _).
  - intros i t k now _. unfold inbox_reserve_publish, memory_inbox, reserve_publish.
    rewrite run_fetch. cbn beta.
    destruct (i !! (t, k)) as [r|]; [|by eexists].
    destruct (publication_taken r now); [done|]. apply (store_writes Some).
  - intros i t k v m now _. apply finish_finishes.
  - intros i t k v e now _. apply finish_finishes.
Defined.
End Inbox.
End Inbox.
#[export] Existing Instances Inbox.memory_inbox Inbox.memory_inbox_laws.

(** * Guards *)

(** [hmac.new(secret, body, sha256).hexdigest()]; bytes are the characters up to
    U+00FF. *)
Class Hmac := {
  hmac_sha256_hex : string → string → string;
  hmac_sha256_hex_shape secret body : is_hex64 (hmac_sha256_hex secret body) = true;
}.

(** [WebhookSignatureVerifier.verify] *)
Definition verify `{Hmac} (secret body : string) (signature : option string) : result exn unit :=
  match signature ≫= strip_prefix "sha256=" with
  | None => Err (EEvent SignatureError)
  | Some supplied =>
      if negb (slen supplied =? 64) then Err (EEvent SignatureError)
      else
        same ← compare_digest (hmac_sha256_hex secret body) supplied;
        if same : bool then Ok tt else Err (EEvent SignatureError)
  end.

(** [TenantEventRateLimiter]: the times of the events of the last minute. *)
Definition TenantEventRateLimiter : Type := gmap string (list Z).

(** [while events and events[0] <= cutoff: events.popleft()] *)
Fixpoint drop_until (cutoff : Z) (events : list Z) : list Z :=
  match events with
  | [] => []
  | t :: events' => if t <=? cutoff then drop_until cutoff events' else events
  end.

Definition acquire (limit : Z) (tenant_id : string) (now : Z) : call TenantEventRateLimiter unit :=
  let cutoff := now - minutes 1 in
  limiter ← get_state;
  let events := drop_until cutoff (default [] ((limiter : gmap string (list Z)) !! tenant_id)) in
  _ ← modify_state (λ limiter : TenantEventRateLimiter, <[tenant_id := events]> limiter);
  _ ← raise_if (limit <=? Z.of_nat (length events)) (EEvent EventRateLimitedError);
  modify_state (λ limiter : TenantEventRateLimiter, <[tenant_id := events ++ [now]]> limiter).

(** * The application *)

(** The outside world: the clock and the topic. *)
Class IngestWorld (W : Type) := {
  clock_now : W → Z * W;
  publish : ChangeEvent → string → call W string;
}.

Record IngestState (I W : Type) := mkIngestState {
  is_inbox : I; is_limiter : TenantEventRateLimiter; is_world : W }.
Arguments mkIngestState {I W} _ _ _.
Arguments is_inbox {I W} _.
Arguments is_limiter {I W} _.
Arguments is_world {I W} _.

Inductive IngestResponse :=
| RequestTooLarge
| EventAccepted (response : EventAcceptedResponse).

Record IngestSettings := mkIngestSettings {
  event_gateway_webhook_secret : string; event_max_request_bytes : Z;
  event_rate_limit_per_minute : Z; change_status_base_url : string }.

Section App.
Context `{Platform} `{Hmac} {I W : Type} `{EventInboxRepository I} `{IngestWorld W}.
Context (resolved : IngestSettings) (decode : string → option ChangeEvent).
Abbreviation state := (IngestState I W).

Definition on_inbox {A} (m : call I A) : co state exn A := perform
  (zoom is_inbox (λ i s, mkIngestState i s.(is_limiter) s.(is_world)) m).
Definition on_world {A} (m : call W A) : co state exn A := perform
  (zoom is_world (λ w s, mkIngestState s.(is_inbox) s.(is_limiter) w) m).
Definition now : co state exn Z := on_world (λ w, let '(t, w) := clock_now w in (Ok t, w)).

(** [timestamp = now(); limiter.acquire(tenant_id, timestamp)] *)
Definition admitted (tenant_id : string) : call state Z := λ s,
  let '(timestamp, w) := clock_now s.(is_world) in
  let '(r, l) := acquire resolved.(event_rate_limit_per_minute) tenant_id timestamp s.(is_limiter) in
  ((λ _, timestamp) <$> r, mkIngestState s.(is_inbox) l w).

(** [ChangeEvent.model_validate_json(body)] and its error. *)
Definition parse_event (body : string) : result exn ChangeEvent :=
  match decode body with
  | Some event => if ChangeEvent_ok event then Ok event
                  else Err (EEvent (PlainEventGatewayError "VALIDATION"
                                      "Change event schema validation failed." 422))
  | None => Err (EEvent (PlainEventGatewayError "VALIDATION"
                           "Change event schema validation failed." 422))
  end.

Definition accepted_response (event : ChangeEvent) (change_id : string) (status : InboxStatus)
    (replayed : bool) : result exn EventAcceptedResponse :=
  validated "EventAcceptedResponse" EventAcceptedResponse_ok {|
    ea_event_id := event.(ev_event_id); ea_change_id := change_id; ea_status := status;
    ea_status_url := resolved.(change_status_base_url) +:+ "/v1/changes/" +:+ change_id;
    ea_replayed := replayed |}.

(** The body of the outer [try]: the status and the flag of the answer.  The
    answers returned inside it are built inside it. *)
Definition deliver (event : ChangeEvent) (change_id : string) (timestamp : Z)
  : co state exn (EventAcceptedResponse + InboxStatus * bool) :=
  accepted ← on_inbox (inbox_accept event change_id timestamp);
  if bool_decide (accepted.(ia_record).(ib_status) = InboxPublished)
  then
    response ← from_result
      (accepted_response event change_id accepted.(ia_record).(ib_status) true);
    mret (inl response)
  else
    reservation ← on_inbox (inbox_reserve_publish event.(ev_tenant_id)
                     accepted.(ia_record).(ib_event_key) timestamp);
    match reservation with
    | None =>
        response ← from_result (accepted_response event change_id InboxPublishing true);
        mret (inl response)
    | Some reservation =>
        message_id ← co_catch (on_world (publish event change_id)) (λ _, Some (
          t ← now;
          _ ← on_inbox (inbox_mark_publish_failed event.(ev_tenant_id)
                reservation.(ib_event_key) reservation.(ib_version) "PUBSUB_PUBLISH_FAILED" t);
          throw (EEvent (EventDependencyError "PUBSUB_PUBLISH_FAILED"))));
        t ← now;
        published ← on_inbox (inbox_mark_published event.(ev_tenant_id)
          reservation.(ib_event_key) reservation.(ib_version) message_id t);
        mret (inr (published.(ib_status), accepted.(ia_replayed)))
    end.

Definition ingest_change (body : string) (signature : option string) : co state exn IngestResponse :=
  if resolved.(event_max_request_bytes) <? slen body then mret RequestTooLarge
  else
    _ ← from_result (verify resolved.(event_gateway_webhook_secret) body signature);
    event ← from_result (parse_event body);
    timestamp ← perform (admitted event.(ev_tenant_id));
    let change_id := derive_change_id event in
    delivered ← co_catch (deliver event change_id timestamp) (λ e,
      match e with
      | EEvent _ => None
      | _ => Some (throw (EEvent (EventDependencyError "EVENT_DEPENDENCY_UNAVAILABLE")))
      end);
    match delivered with
    | inl response => mret (EventAccepted response)
    | inr (status, replayed) =>
        response ← from_result (accepted_response event change_id status replayed);
        mret (EventAccepted response)
    end.
End App.
