(* ===== verification/EventGatewayFacts.v ===== *)
(** What the event gateway promises under every interleaving of requests: only
    authenticated events are published, each of them is recorded in the inbox, a
    key stands for one content, and a publication that is reported happened. *)

From S2P Require Import Prelude Json Contracts Errors Samples Coroutine EventGateway.

(** * The topic *)

(** [sent w]: the messages the topic has accepted.  A publication that returns was
    accepted; one that raises may have been. *)
Class PublisherLaws (W : Type) `{IngestWorld W} := {
  sent : W → list (ChangeEvent * string);
  clock_sent w : sent (clock_now w).2 = sent w;
  publish_sent event change_id w : let '(r, w') := publish event change_id w in
    sent w' = sent w ++ [(event, change_id)] ∨ (is_ok r = false ∧ sent w' = sent w);
}.

Section Facts.
Context `{Platform} `{Hmac} {I W : Type} `{EventInboxRepository I} `{!InboxLaws I}
  `{IngestWorld W} `{!PublisherLaws W}.
Context (resolved : IngestSettings) (decode : string → option ChangeEvent).
(** The requests that ever reach the gateway. *)
Context (received : string → option string → Prop).
Abbreviation state := (IngestState I W).

Definition stored (s : state) (k : inbox_key) : option EventInboxRecord := inbox_view s.(is_inbox) k.
Definition messages (s : state) : list (ChangeEvent * string) := sent s.(is_world).

(** The event came with a request that carried the shared secret's signature. *)
Definition authentic (event : ChangeEvent) : Prop := ∃ body signature,
  received body (Some signature) ∧ decode body = Some event ∧
  signature = "sha256=" +:+ hmac_sha256_hex resolved.(event_gateway_webhook_secret) body.

(** The record is that of the event. *)
Definition records (r : EventInboxRecord) (event : ChangeEvent) : Prop :=
  r.(ib_tenant_id) = event.(ev_tenant_id) ∧ r.(ib_event_key) = event_key event ∧
  r.(ib_input_hash) = sha256_digest (event_json event) ∧ r.(ib_change_id) = derive_change_id event.

(** A record moves on: a higher version of the same event, never once published. *)
Record inbox_advanced (r r' : EventInboxRecord) : Prop := {
  ia_version : r.(ib_version) < r'.(ib_version);
  ia_open : r.(ib_status) ≠ InboxPublished;
  ia_event : r'.(ib_event) = r.(ib_event);
  ia_tenant : r'.(ib_tenant_id) = r.(ib_tenant_id);
  ia_key : r'.(ib_event_key) = r.(ib_event_key);
  ia_hash : r'.(ib_input_hash) = r.(ib_input_hash);
  ia_change : r'.(ib_change_id) = r.(ib_change_id);
  ia_attempts : r.(ib_publish_attempts) <= r'.(ib_publish_attempts) }.
Definition inbox_le (r r' : EventInboxRecord) : Prop := r' = r ∨ inbox_advanced r r'.

#[export] Instance inbox_le_preorder : PreOrder inbox_le.
Proof.
  split; [by left|]. intros x y z [->|A] [->|B]; [by left|by right|by right|right].
  destruct A, B. constructor; [lia|done|congruence..|lia].
Qed.

Lemma inbox_le_records r r' event : inbox_le r r' → records r event → records r' event.
Proof. intros [->|[]]; [done|]. unfold records. naive_solver congruence. Qed.

Record sound (s : state) : Prop := {
  sound_inbox : inbox_inv s.(is_inbox);
  sound_record k r : stored s k = Some r →
    EventInboxRecord_ok r = true ∧ records r r.(ib_event) ∧ k = storage_key r.(ib_event);
  (** what was sent was recorded before, *)
  sound_sent event c : (event, c) ∈ messages s → ∃ r, stored s (storage_key event) = Some r ∧
    records r event ∧ c = derive_change_id event ∧ 1 <= r.(ib_publish_attempts);
  (** and what is recorded as published was sent *)
  sound_published k r : stored s k = Some r → r.(ib_status) = InboxPublished →
    ∃ event, (event, r.(ib_change_id)) ∈ messages s ∧ records r event }.

Record evolves (s s' : state) : Prop := {
  ev_record k r : stored s k = Some r → ∃ r', stored s' k = Some r' ∧ inbox_le r r';
  ev_sent m : m ∈ messages s → m ∈ messages s';
  ev_new m : m ∈ messages s' → m ∈ messages s ∨ authentic m.1 }.

Definition G (s s' : state) : Prop := sound s → sound s' ∧ evolves s s'.
Abbreviation okG := (okspec G).

#[export] Instance evolves_preorder : PreOrder evolves.
Proof.
  split.
  - intros s. constructor; [|done|by left]. intros k r ?. exists r. split; [done|reflexivity].
  - intros x y z [A1 A2 A3] [B1 B2 B3]. constructor; [|auto|].
    + intros k r (r1 & V1 & L1)%A1. apply B1 in V1 as (r2 & V2 & L2).
      exists r2. split; [done|by etrans].
    + intros m [Hm|Hm]%B3; [by apply A3|by right].
Qed.

#[export] Instance G_preorder : PreOrder G.
Proof.
  split.
  - intros s Hs. by split.
  - intros x y z A B Hx. destruct (A Hx) as [Hy Exy], (B Hy) as [Hz Eyz]. split; [done|by etrans].
Qed.

Lemma inbox_G_sound s s' : G s s' → sound s → sound s'.
Proof. intros HG Hs. by apply HG. Qed.
Lemma inbox_G_evolves s s' : G s s' → sound s → evolves s s'.
Proof. intros HG Hs. by apply HG. Qed.

(** ** Steps *)

(** A step that writes one valid record in place of the stored one. *)
Lemma G_write s k r i :
  inbox_inv i → (∀ k', inbox_view i k' = if bool_decide (k' = k) then Some r else stored s k') →
  EventInboxRecord_ok r = true → records r r.(ib_event) → k = storage_key r.(ib_event) →
  (∀ old, stored s k = Some old → inbox_advanced old r) →
  (r.(ib_status) = InboxPublished →
     ∃ event, (event, r.(ib_change_id)) ∈ messages s ∧ records r event) →
  G s (mkIngestState i s.(is_limiter) s.(is_world)).
Proof.
  intros Hi Hview Hok Hrec Hk Hold Hpub Hs. set (s' := mkIngestState _ _ _).
  assert (stored s' k = Some r) as Hnew by (unfold stored; simpl; rewrite Hview; by rewrite bool_decide_eq_true_2).
  assert (∀ k', k' ≠ k → stored s' k' = stored s k') as Hother
    by (intros k' Hne; unfold stored at 1; simpl; rewrite Hview; by rewrite bool_decide_eq_false_2).
  assert (∀ k' old, stored s k' = Some old → ∃ new, stored s' k' = Some new ∧ inbox_le old new) as Hle.
  { intros k' old Ho. destruct (decide (k' = k)) as [->|Hne].
    - exists r. split; [done|]. right. by apply Hold.
    - exists old. rewrite Hother by done. split; [done|reflexivity]. }
  split; [|constructor; [exact Hle|done|by left]]. constructor.
  - done.
  - intros k' r' Hr'. destruct (decide (k' = k)) as [->|Hne].
    + rewrite Hnew in Hr'. by simplify_eq.
    + rewrite Hother in Hr' by done. by apply (sound_record s Hs).
  - intros event c Hm. destruct (sound_sent s Hs event c Hm) as (old & Ho & Hre & -> & Ha).
    destruct (Hle _ _ Ho) as (new & Hn & L). exists new. split_and!; [done| |done|].
    + by eapply inbox_le_records.
    + destruct L as [->|[]]; lia.
  - intros k' r' Hr' Hst. destruct (decide (k' = k)) as [->|Hne].
    + rewrite Hnew in Hr'. simplify_eq. by apply Hpub.
    + rewrite Hother in Hr' by done. by apply (sound_published s Hs k').
Qed.

Lemma state_eta (s : state) : mkIngestState s.(is_inbox) s.(is_limiter) s.(is_world) = s.
Proof. by destruct s. Qed.

(** A step outside the inbox that sends nothing. *)
Lemma G_outside s l w : sent w = messages s → G s (mkIngestState s.(is_inbox) l w).
Proof.
  intros Hw Hs. assert (∀ m, m ∈ messages s ↔ m ∈ messages (mkIngestState s.(is_inbox) l w)) as Hm
    by (intros m; unfold messages at 2; simpl; by rewrite Hw).
  split; [|constructor; [intros k r ?; exists r; split; [done|reflexivity]|intros m; apply Hm|]].
  - constructor; [apply Hs|apply Hs| |].
    + intros event c ?%Hm. by apply (sound_sent s Hs).
    + intros k r Hr Hst. destruct (sound_published s Hs k r Hr Hst) as (event & ?%Hm & ?). eauto.
  - intros m ?%Hm. by left.
Qed.

(** A record the handler holds: what is stored now is it or has moved on from it. *)
Definition seen (r : EventInboxRecord) (event : ChangeEvent) (s : state) : Prop :=
  records r event ∧ ∃ cur, stored s (storage_key event) = Some cur ∧ inbox_le r cur.

Lemma inbox_seen_later r event s s' : sound s → G s s' → seen r event s → seen r event s'.
Proof.
  intros Hs HG (Hr & cur & Hc & L). split; [done|].
  destruct (ev_record _ _ (inbox_G_evolves _ _ HG Hs) _ _ Hc) as (r' & ? & ?).
  exists r'. split; [done|by etrans].
Qed.

(** A write the inbox answers with is a step, and leaves the record it returns. *)
Lemma writes_step {A} (value : EventInboxRecord → A) s k r answer :
  sound s → writes inbox_inv inbox_view s.(is_inbox) k r value answer →
  records r r.(ib_event) → k = storage_key r.(ib_event) →
  (∀ old, stored s k = Some old → inbox_advanced old r) →
  (r.(ib_status) = InboxPublished →
     ∃ event, (event, r.(ib_change_id)) ∈ messages s ∧ records r event) →
  let s' := mkIngestState answer.2 s.(is_limiter) s.(is_world) in
  G s s' ∧ ∀ a, answer.1 = Ok a → a = value r ∧ stored s' k = Some r.
Proof.
  intros Hs Hw Hrec Hk Hold Hpub. unfold writes in Hw.
  destruct (EventInboxRecord_ok r) eqn:Hok.
  - destruct Hw as (Ha & Hi & Hview). split.
    + by apply (G_write s k r).
    + intros a. rewrite Ha. intros [= <-]. split; [done|]. unfold stored. simpl.
      by rewrite Hview, bool_decide_eq_true_2.
  - subst answer. simpl. rewrite state_eta. by split.
Qed.

(** Writing the publication fields of the stored record. *)
Lemma publication_step {A} (value : EventInboxRecord → A) s event r status n m e t answer :
  sound s → stored s (storage_key event) = Some r → r.(ib_status) ≠ InboxPublished →
  r.(ib_publish_attempts) <= n →
  writes inbox_inv inbox_view s.(is_inbox) (storage_key event) (with_publication r status n m e t)
    value answer →
  (status = InboxPublished → ∃ event, (event, r.(ib_change_id)) ∈ messages s ∧ records r event) →
  let s' := mkIngestState answer.2 s.(is_limiter) s.(is_world) in
  G s s' ∧ ∀ a, answer.1 = Ok a → a = value (with_publication r status n m e t) ∧
    stored s' (storage_key event) = Some (with_publication r status n m e t).
Proof.
  intros Hs Hr Hst Hn Hw Hpub. destruct (sound_record s Hs _ _ Hr) as (_ & Hrec & Hk).
  apply (writes_step value s (storage_key event)); try done.
  intros old Ho. rewrite Hr in Ho. apply (inj Some) in Ho as <-. by constructor; simpl; try lia.
Qed.

Lemma same_key_change e e' : event_key e = event_key e' → derive_change_id e = derive_change_id e'.
Proof.
  intros Hk. assert (∀ e, derive_change_id e = "chg_" +:+ String.substring 0 24 (event_key e))
    as Hd by done. by rewrite !Hd, Hk.
Qed.

Lemma accept_step event t s :
  sound s → ChangeEvent_ok event = true →
  let answer := inbox_accept event (derive_change_id event) t s.(is_inbox) in
  let s' := mkIngestState answer.2 s.(is_limiter) s.(is_world) in
  G s s' ∧ ∀ a, answer.1 = Ok a → seen a.(ia_record) event s' ∧
    stored s' (storage_key event) = Some a.(ia_record).
Proof.
  intros Hs Hok answer.
  pose proof (inbox_accept_law s.(is_inbox) event (derive_change_id event) t (sound_inbox s Hs)) as L.
  fold answer in L. unfold stored.
  destruct (inbox_view s.(is_inbox) (storage_key event)) as [old|] eqn:Ho.
  - rewrite L. simpl. rewrite state_eta. split; [done|].
    destruct (bool_decide_reflect (ib_input_hash old = sha256_digest (event_json event))) as [Hh|]; [|done].
    intros a [= <-]. simpl. destruct (sound_record s Hs _ _ Ho) as (_ & (Ht & Hkey & _ & Hc) & Hk).
    unfold storage_key in Hk. injection Hk as Hk1 Hk2. split; [|done]. split.
    + split_and!; [congruence|congruence|done|]. rewrite Hc. by apply same_key_change.
    + exists old. split; [done|reflexivity].
  - destruct (writes_step (λ r, mkInboxAcceptance r false) s (storage_key event)
      (inbox_record event (derive_change_id event) t) answer Hs L) as [HG Ha].
    + by split_and!.
    + reflexivity.
    + unfold stored. rewrite Ho. discriminate.
    + discriminate.
    + split; [exact HG|]. intros a [-> Hst]%Ha. split; [|exact Hst]. split; [by split_and!|].
      cbn [ia_record] in *. eexists. split; [exact Hst|]. left. reflexivity.
Qed.

Lemma reserve_step event t s :
  sound s → is_Some (stored s (storage_key event)) →
  let answer := inbox_reserve_publish event.(ev_tenant_id) (event_key event) t s.(is_inbox) in
  let s' := mkIngestState answer.2 s.(is_limiter) s.(is_world) in
  G s s' ∧ ∀ r, answer.1 = Ok (Some r) →
    stored s' (storage_key event) = Some r ∧ 1 <= r.(ib_publish_attempts).
Proof.
  intros Hs [old Ho] answer.
  pose proof (inbox_reserve_law s.(is_inbox) event.(ev_tenant_id) (event_key event) t
    (sound_inbox s Hs)) as L. fold answer in L. fold (storage_key event) in L.
  fold (stored s (storage_key event)) in L. rewrite Ho in L.
  destruct (publication_taken old t) eqn:Htaken.
  - rewrite L. simpl. rewrite state_eta. by split.
  - apply orb_false_iff in Htaken as [Hst _]. apply bool_decide_eq_false in Hst.
    destruct (publication_step Some s event old InboxPublishing (old.(ib_publish_attempts) + 1) _ _ _
      answer Hs Ho Hst ltac:(lia) L) as [HG Ha]; [done|].
    split; [exact HG|]. intros r [[= ->] Hr]%Ha. split; [exact Hr|]. simpl.
    destruct (sound_record s Hs _ _ Ho) as (Hok & _). unfold EventInboxRecord_ok in Hok.
    rewrite !andb_true_iff in Hok. lia.
Qed.

Lemma finish_step event v status m e t s answer :
  sound s → finishes inbox_inv inbox_view s.(is_inbox) (storage_key event) v status m e t answer →
  (status = InboxPublished → ∀ r, stored s (storage_key event) = Some r →
     ∃ event, (event, r.(ib_change_id)) ∈ messages s ∧ records r event) →
  let s' := mkIngestState answer.2 s.(is_limiter) s.(is_world) in
  G s s' ∧ ∀ r, answer.1 = Ok r →
    stored s' (storage_key event) = Some r ∧ r.(ib_status) = status.
Proof.
  intros Hs L Hpub. unfold finishes in L. fold (stored s (storage_key event)) in L.
  destruct (stored s (storage_key event)) as [old|] eqn:Ho.
  - destruct (_ && _) eqn:Hcur.
    + apply andb_true_iff in Hcur as [_ Hst%bool_decide_eq_true].
      destruct (publication_step id s event old status old.(ib_publish_attempts) m e t answer Hs
        Ho ltac:(congruence) (Z.le_refl _) L) as [HG Ha]; [intros Heq; by apply (Hpub Heq)|].
      split; [exact HG|]. intros r [-> Hr]%Ha. by split.
    + destruct L as [x ->]. simpl. rewrite state_eta. by split.
  - destruct L as [x ->]. simpl. rewrite state_eta. by split.
Qed.

(** ** Coroutines *)

(** The event is recorded as published. *)
Definition published (event : ChangeEvent) (s : state) : Prop :=
  ∃ r, stored s (storage_key event) = Some r ∧ records r event ∧ r.(ib_status) = InboxPublished.

Lemma published_later event s s' : sound s → G s s' → published event s → published event s'.
Proof.
  intros Hs HG (r & Hr & Hrec & Hst).
  destruct (ev_record _ _ (inbox_G_evolves _ _ HG Hs) _ _ Hr) as (r' & Hr' & [->|[]]); [|done].
  by exists r.
Qed.

Lemma ok_on_inbox {A} (m : call I A) s (P : A → state → Prop) :
  sound s →
  (∀ s1, sound s1 → G s s1 →
     let s2 := mkIngestState (m s1.(is_inbox)).2 s1.(is_limiter) s1.(is_world) in
     G s1 s2 ∧ ∀ a, (m s1.(is_inbox)).1 = Ok a → sound s2 → ∀ s3, G s2 s3 → P a s3) →
  okG (on_inbox m) s P.
Proof.
  intros Hs Hm. apply (ok_perform G). intros s1 HG1. unfold zoom.
  pose proof (inbox_G_sound _ _ HG1 Hs) as Hs1. destruct (Hm s1 Hs1 HG1) as [HG2 HP].
  pose proof (inbox_G_sound _ _ HG2 Hs1) as Hs2. destruct (m (is_inbox s1)) as [r i]. simpl in *.
  split; [done|]. intros a Ha s3 HG3. by apply (HP a).
Qed.

Lemma ok_now s (P : Z → state → Prop) : (∀ t s', G s s' → P t s') → okG now s P.
Proof.
  intros HP. apply (ok_perform G). intros s1 HG1. unfold zoom.
  pose proof (clock_sent s1.(is_world)) as Hc. destruct (clock_now (is_world s1)) as [t w]. simpl in *.
  assert (G s1 (mkIngestState s1.(is_inbox) s1.(is_limiter) w)) as HG2 by by apply G_outside.
  split; [done|]. intros a _ s3 HG3. apply HP. etrans; [exact HG1|]. by etrans.
Qed.

Lemma ok_admitted tenant_id s (P : Z → state → Prop) :
  (∀ t s', G s s' → P t s') → okG (perform (admitted resolved tenant_id)) s P.
Proof.
  intros HP. apply (ok_perform G). intros s1 HG1. unfold admitted.
  pose proof (clock_sent s1.(is_world)) as Hc. destruct (clock_now (is_world s1)) as [t w]. simpl in *.
  destruct (acquire _ _ _ _) as [r l]. simpl.
  assert (G s1 (mkIngestState s1.(is_inbox) l w)) as HG2 by by apply G_outside.
  split; [done|]. intros a _ s3 HG3. apply HP. etrans; [exact HG1|]. by etrans.
Qed.

(** Publishing an authentic event whose publication was reserved. *)
Lemma ok_publish event r s :
  sound s → authentic event → seen r event s → 1 <= r.(ib_publish_attempts) →
  okG (on_world (publish event (derive_change_id event))) s
    (λ _ s', (event, derive_change_id event) ∈ messages s').
Proof.
  intros Hs Hauth Hseen Hat. apply (ok_perform G). intros s1 HG1. unfold zoom.
  pose proof (inbox_G_sound _ _ HG1 Hs) as Hs1. apply (inbox_seen_later _ _ s s1) in Hseen; [|done..].
  pose proof (publish_sent event (derive_change_id event) s1.(is_world)) as Hp.
  destruct (publish _ _ _) as [x w]. simpl in *.
  destruct Hp as [Hp|[Hx Hp]]; [|split; [by apply G_outside|by destruct x]].
  set (s2 := mkIngestState _ _ w).
  assert (∀ m, m ∈ messages s2 ↔ m ∈ messages s1 ∨ m = (event, derive_change_id event)) as Hm
    by (intros m; unfold messages; simpl; rewrite Hp, elem_of_app, list_elem_of_singleton; done).
  assert (G s1 s2) as HG2.
  { intros _. split; [constructor|constructor].
    - apply Hs1.
    - apply Hs1.
    - intros e c [Hin|[= -> ->]]%Hm; [by apply (sound_sent s1 Hs1)|].
      destruct Hseen as (Hrec & cur & Hcur & L). exists cur.
      split_and!; [done|by eapply inbox_le_records|done|]. destruct L as [->|[]]; lia.
    - intros k r' Hr' Hst. destruct (sound_published s1 Hs1 k r' Hr' Hst) as (e & ? & ?).
      exists e. split; [apply Hm; by left|done].
    - intros k r' Hr'. exists r'. split; [done|reflexivity].
    - intros m Hin. apply Hm. by left.
    - intros m [Hin| ->]%Hm; [by left|by right]. }
  split; [done|]. intros a _ s3 HG3.
  apply (ev_sent _ _ (inbox_G_evolves _ _ HG3 (inbox_G_sound _ _ HG2 Hs1))). apply Hm. by right.
Qed.

(** What an answer given inside or after the delivery says. *)
Definition answered (event : ChangeEvent) (r : EventAcceptedResponse) (s : state) : Prop :=
  r.(ea_event_id) = event.(ev_event_id) ∧ r.(ea_change_id) = derive_change_id event ∧
  (r.(ea_status) = InboxPublished ∧ published event s ∨
   r.(ea_status) = InboxPublishing ∧ r.(ea_replayed) = true).

Lemma ok_response event status replayed s (P : EventAcceptedResponse → state → Prop) :
  (∀ r s', G s s' → r.(ea_event_id) = event.(ev_event_id) →
     r.(ea_change_id) = derive_change_id event → r.(ea_status) = status →
     r.(ea_replayed) = replayed → P r s') →
  okG (from_result (accepted_response resolved event (derive_change_id event) status replayed)) s P.
Proof.
  intros HP. apply (ok_from_result G). intros r Hr s' HG.
  apply validated_ok in Hr as [_ ->]. by apply HP.
Qed.

Lemma seen_stored r0 r event s :
  seen r0 event s → stored s (storage_key event) = Some r → seen r event s.
Proof.
  intros (Hr0 & cur & Hcur & L) Hr. rewrite Hr in Hcur. apply (inj Some) in Hcur as <-.
  split; [by eapply inbox_le_records|]. exists r. split; [done|reflexivity].
Qed.

Lemma ok_finish event status v m e (f : Z → call I EventInboxRecord) t s
    (P : EventInboxRecord → state → Prop) :
  sound s →
  (∀ i, inbox_inv i → finishes inbox_inv inbox_view i (storage_key event) v status m e t (f t i)) →
  (status = InboxPublished → (event, derive_change_id event) ∈ messages s) →
  (∀ r s2 s3, r.(ib_status) = status → stored s2 (storage_key event) = Some r → sound s2 →
     G s s2 → G s2 s3 → P r s3) →
  okG (on_inbox (f t)) s P.
Proof.
  intros Hs Hf Hsent HP. apply ok_on_inbox; [done|]. intros s1 Hs1 HG1.
  destruct (finish_step event v status m e t s1 (f t s1.(is_inbox)) Hs1) as [HG2 Ha].
  { by apply Hf, sound_inbox. }
  { intros Hpub r Hr. exists event.
    apply (ev_sent _ _ (inbox_G_evolves _ _ HG1 Hs)) in Hsent as Hin; [|done].
    destruct (sound_sent s1 Hs1 _ _ Hin) as (r' & Hr' & Hrec & _). rewrite Hr in Hr'.
    apply (inj Some) in Hr' as <-. split; [|done].
    by replace r.(ib_change_id) with (derive_change_id event) by by destruct Hrec as (_ & _ & _ & ->). }
  split; [exact HG2|]. intros r Hr Hs2 s3 HG3. destruct (Ha r Hr) as [Hst Hstatus].
  eapply HP; [done|exact Hst|done| |done]. by etrans.
Qed.

(** The end of the delivery, once the publication is reserved. *)
Lemma ok_publication event r replayed s :
  sound s → authentic event → seen r event s → 1 <= r.(ib_publish_attempts) →
  okG ((
    message_id ← co_catch (on_world (publish event (derive_change_id event))) (λ _, Some (
      t ← now;
      _ ← on_inbox (inbox_mark_publish_failed event.(ev_tenant_id)
            r.(ib_event_key) r.(ib_version) "PUBSUB_PUBLISH_FAILED" t);
      throw (EEvent (EventDependencyError "PUBSUB_PUBLISH_FAILED"))));
    t ← now;
    published ← on_inbox (inbox_mark_published event.(ev_tenant_id)
      r.(ib_event_key) r.(ib_version) message_id t);
    mret (inr (published.(ib_status), replayed)))
    : co state exn (EventAcceptedResponse + InboxStatus * bool)) s (λ d s', sound s' ∧
    match d with
    | inl r => answered event r s'
    | inr (status, _) => status = InboxPublished ∧ published event s'
    end).
Proof.
  intros Hs Hauth Hseen Hat. assert (r.(ib_event_key) = event_key event) as Hkey
    by by destruct Hseen as [(_ & ? & _) _].
  apply (ok_bind G). eapply (ok_mono G).
  - apply (ok_catch G); [by eapply ok_publish|]. intros e k s1 HG1 He. apply (inj Some) in He as <-.
    apply (ok_bind G), ok_now. intros t s2 HG2. apply (ok_bind G).
    rewrite Hkey. eapply (ok_finish event InboxPublishFailed _ _ _ (inbox_mark_publish_failed _ _ _ _)).
    + eapply inbox_G_sound; [|exact Hs]. by etrans.
    + intros i Hi. by apply inbox_failed_law.
    + done.
    + intros r' s3 s4 _ _ _ _ _. apply (ok_throw G).
  - intros message_id s1 HG1 Hin. cbn beta in Hin. apply (ok_bind G), ok_now. intros t s2 HG2.
    assert (sound s1) as Hs1 by by eapply inbox_G_sound.
    apply (ok_bind G). rewrite Hkey.
    eapply (ok_finish event InboxPublished _ _ _ (inbox_mark_published _ _ _ _)).
    + by eapply inbox_G_sound.
    + intros i Hi. by apply inbox_published_law.
    + intros _. by apply (ev_sent _ _ (inbox_G_evolves _ _ HG2 Hs1)).
    + intros r' s3 s4 Hst Hr' Hs3 HG3 HG4. apply (ok_ret G). intros s5 HG5.
      assert (G s3 s5) as HG35 by by etrans. split; [by eapply inbox_G_sound|]. split; [done|].
      apply (published_later _ s3); [done..|]. exists r'. split_and!; [done| |done].
      eapply (seen_stored r r'); [|done]. apply (inbox_seen_later _ _ s); [done| |done].
      etrans; [exact HG1|]. by etrans.
Qed.

Lemma ok_deliver event t s :
  sound s → ChangeEvent_ok event = true → authentic event →
  okG (deliver resolved event (derive_change_id event) t) s (λ d s', sound s' ∧
    match d with
    | inl r => answered event r s'
    | inr (status, _) => status = InboxPublished ∧ published event s'
    end).
Proof.
  intros Hs Hok Hauth. unfold deliver. apply (ok_bind G).
  apply ok_on_inbox; [done|]. intros s1 Hs1 _.
  destruct (accept_step event t s1 Hs1 Hok) as [HG2 Hacc]. split; [exact HG2|].
  intros a Ha Hs2 s3 HG3. destruct (Hacc a Ha) as [Hseen Hst]. clear Hacc Ha HG2.
  pose proof (inbox_G_sound _ _ HG3 Hs2) as Hs3. destruct (bool_decide_reflect (ib_status (ia_record a) = InboxPublished)) as [Hp|_].
  - apply (ok_bind G), ok_response. intros r s4 HG4 Hid Hch Hrs _. apply (ok_ret G). intros s5 HG5.
    assert (G s3 s5) as HG35 by by etrans. split; [by eapply inbox_G_sound|].
    split_and!; [done|done|left]. split; [congruence|].
    eapply (published_later event _ s5); [exact Hs2|by etrans|].
    exists a.(ia_record). split_and!; [exact Hst|by destruct Hseen|done].
  - assert (ib_event_key (ia_record a) = event_key event) as Hkey by by destruct Hseen as [(_ & ? & _) _].
    rewrite Hkey. apply (inbox_seen_later _ _ _ s3) in Hseen; [|done..]. clear Hst HG3 Hs2.
    apply (ok_bind G), ok_on_inbox; [done|]. intros s4 Hs4 HG4.
    destruct (reserve_step event t s4 Hs4) as [HG5 Hres].
    { apply (inbox_seen_later _ _ _ s4) in Hseen as (_ & cur & -> & _); [by eexists|done..]. }
    split; [exact HG5|]. intros reservation Hr Hs5 s6 HG6. pose proof (inbox_G_sound _ _ HG6 Hs5) as Hs6.
    assert (seen a.(ia_record) event s6) as Hseen6 by (apply (inbox_seen_later _ _ s3); [done| |done];
      etrans; [exact HG4|]; by etrans).
    assert (seen a.(ia_record) event (mkIngestState
      (inbox_reserve_publish (ev_tenant_id event) (event_key event) t (is_inbox s4)).2
      (is_limiter s4) (is_world s4))) as Hseen5 by (apply (inbox_seen_later _ _ s3); [done| |done]; by etrans).
    destruct reservation as [r|].
    + destruct (Hres r Hr) as [Hst Hat]. apply (seen_stored _ r) in Hseen5; [|done].
      apply (inbox_seen_later _ _ _ s6) in Hseen5; [|done..]. clear Hseen6 Hst Hr Hres.
      by eapply ok_publication.
    + apply (ok_bind G), ok_response. intros r s7 HG7 Hid Hch Hrs Hrep. apply (ok_ret G).
      intros s8 HG8. split; [eapply inbox_G_sound; [|exact Hs6]; by etrans|].
      split_and!; [done|done|by right].
Qed.

Lemma verify_ok body signature x :
  verify resolved.(event_gateway_webhook_secret) body signature = Ok x →
  signature = Some ("sha256=" +:+ hmac_sha256_hex resolved.(event_gateway_webhook_secret) body).
Proof.
  unfold verify. destruct signature as [given|]; [|done]. cbn [mbind option_bind].
  destruct (strip_prefix "sha256=" given) as [supplied|] eqn:Hp; [|done].
  apply strip_prefix_inv in Hp as ->. destruct (negb _); [done|].
  unfold compare_digest. destruct (_ && _); [|done]. cbn [mbind result_bind].
  by destruct (bool_decide_reflect
    (hmac_sha256_hex resolved.(event_gateway_webhook_secret) body = supplied)) as [->|].
Qed.

Lemma parse_ok body event :
  parse_event decode body = Ok event → decode body = Some event ∧ ChangeEvent_ok event = true.
Proof. unfold parse_event. destruct (decode body) as [e|]; [|done]. destruct (ChangeEvent_ok e) eqn:?; naive_solver. Qed.

(** An answer is about the authenticated event of the request. *)
Definition ingested (body : string) (answer : IngestResponse) (s : state) : Prop :=
  match answer with
  | RequestTooLarge => resolved.(event_max_request_bytes) < slen body
  | EventAccepted r => ∃ event, decode body = Some event ∧ authentic event ∧ answered event r s
  end.

Lemma ok_ingest body signature s :
  sound s → received body signature →
  okG (ingest_change resolved decode body signature) s (ingested body).
Proof.
  intros Hs Hrec. unfold ingest_change.
  destruct (Z.ltb_spec (event_max_request_bytes resolved) (slen body)); [by apply (ok_ret G)|].
  apply (ok_bind G), (ok_from_result G). intros x Hsig%verify_ok s1 HG1. subst signature.
  apply (ok_bind G), (ok_from_result G). intros event [Hdec Hok]%parse_ok s2 HG2.
  apply (ok_bind G), ok_admitted. intros t s3 HG3. cbn zeta.
  assert (sound s3) as Hs3 by (eapply inbox_G_sound; [|exact Hs]; etrans; [exact HG1|]; by etrans).
  assert (authentic event) as Hauth by (by eexists body, _).
  apply (ok_bind G). eapply (ok_mono G).
  - apply (ok_catch G); [by apply ok_deliver|]. intros e k s4 HG4 Hk.
    destruct e as [| | | | | | |[]| | | | | |]; try done;
      (apply (inj Some) in Hk as <-; apply (ok_throw G)).
  - intros [r|[status replayed]] s4 HG4 [Hs4 Ha].
    + apply (ok_ret G). intros s5 HG5. exists event. split_and!; [done|done|].
      destruct Ha as (Hid & Hch & [[? ?]|?]); split_and!; [done|done| |done|done|by right].
      left. split; [done|]. by eapply published_later.
    + destruct Ha as [-> Hpub]. apply (ok_bind G), ok_response. intros r s5 HG5 Hid Hch Hst _.
      apply (ok_ret G). intros s6 HG6. exists event. split_and!; [done|done|].
      split_and!; [done|done|left]. split; [done|].
      eapply (published_later event s4); [done| |done]. by etrans.
Qed.

(** ** The gateway over its lifetime *)

Definition serve (body : string) (signature : option string) : co state exn unit :=
  _ ← settle (ingest_change resolved decode body signature); mret tt.
Definition accepted (c : co state exn unit) : Prop := ∃ body signature,
  received body signature ∧ c = serve body signature.
Definition reachable (s0 s : state) : Prop :=
  ∃ pool, rtc (process_step accepted) (s0, []) (s, pool).

Lemma ingest_reachable_keeps s0 s : sound s0 → reachable s0 s → sound s ∧ evolves s0 s.
Proof.
  intros Hs0 [pool Hsteps].
  assert (G s0 s) as HG; [|by apply HG].
  eapply (process_keeps accepted G sound); [| |done|done].
  - intros x y Hx HG. by eapply inbox_G_sound.
  - intros c x (body & signature & Hrec & ->) Hx.
    enough (okG (serve body signature) x (λ _ _, True)) as Hok by by eapply (spec_true G).
    apply (ok_bind G). eapply (ok_mono G); [by apply (ok_settle G), ok_ingest|].
    intros r s' _ _. by apply (ok_ret G).
Qed.

Lemma ingest_reachable_serve body signature s :
  received body signature → reachable s (run (serve body signature) s).2.
Proof. intros Hrec. apply process_serves. by exists body, signature. Qed.
End Facts.

(** * A demonstration *)

#[export] Instance demo_hmac : Hmac := {
  hmac_sha256_hex secret body := toy_hash (secret +:+ body);
  hmac_sha256_hex_shape secret body := toy_hash_shape (secret +:+ body);
}.

(** A topic that fails [tp_failures] more times. *)
Record DemoTopic := mkDemoTopic {
  tp_now : Z; tp_failures : Z; tp_sent : list (ChangeEvent * string) }.
#[export] Instance demo_topic : IngestWorld DemoTopic := {
  clock_now w := (w.(tp_now), mkDemoTopic (w.(tp_now) + 1) w.(tp_failures) w.(tp_sent));
  publish event change_id w :=
    if w.(tp_failures) =? 0
    then (Ok "message", mkDemoTopic w.(tp_now) 0 (w.(tp_sent) ++ [(event, change_id)]))
    else (Err (RuntimeError "topic"), mkDemoTopic w.(tp_now) (w.(tp_failures) - 1) w.(tp_sent));
}.
#[export] Instance demo_topic_laws : PublisherLaws DemoTopic.
Proof.
  refine {| sent := tp_sent |}; [done|]. intros event c w. unfold publish, demo_topic.
  destruct (tp_failures w =? 0); [by left|by right].
Defined.

Definition demo_settings : IngestSettings :=
  mkIngestSettings "a shared secret of thirty-two bytes" 65536 60 "https://control.example".
Definition demo_decode (body : string) : option ChangeEvent :=
  if bool_decide (body = "event") then Some demo_event else None.
Definition demo_signature : string := Eval vm_compute in
  "sha256=" +:+ hmac_sha256_hex (event_gateway_webhook_secret demo_settings) "event".
Definition any_request (body : string) (signature : option string) : Prop := True.
Definition empty_inbox (failures : Z) : IngestState InMemoryEventInboxRepository DemoTopic :=
  mkIngestState ∅ ∅ (mkDemoTopic 100 failures []).
Definition demo_ingest (signature : option string) (s : IngestState InMemoryEventInboxRepository DemoTopic) :=
  run (ingest_change demo_settings demo_decode "event" signature) s.
Definition demo_status (r : result exn IngestResponse) : option (InboxStatus * bool) :=
  match r with
  | Ok (EventAccepted a) => Some (a.(ea_status), a.(ea_replayed)) | _ => None
  end.

Lemma empty_inbox_sound failures : sound (empty_inbox failures).
Proof.
  constructor; [done| | |].
  - done.
  - intros event c Hm. by apply elem_of_nil in Hm.
  - done.
Qed.

Example published_then_replayed :
  let first := demo_ingest (Some demo_signature) (empty_inbox 0) in
  let second := demo_ingest (Some demo_signature) first.2 in
  demo_status first.1 = Some (InboxPublished, false) ∧
  demo_status second.1 = Some (InboxPublished, true) ∧
  length second.2.(is_world).(tp_sent) = 1%nat.
Proof. vm_compute. done. Qed.

Example failed_then_published :
  let first := demo_ingest (Some demo_signature) (empty_inbox 1) in
  let second := demo_ingest (Some demo_signature) first.2 in
  first.1 = Err (EEvent (EventDependencyError "PUBSUB_PUBLISH_FAILED")) ∧
  demo_status second.1 = Some (InboxPublished, true).
Proof. vm_compute. done. Qed.

Example unsigned_refused :
  demo_ingest None (empty_inbox 0) = (Err (EEvent SignatureError), empty_inbox 0).
Proof. vm_compute. reflexivity. Qed.

Definition demo_inbox : IngestState InMemoryEventInboxRepository DemoTopic :=
  (run (serve demo_settings demo_decode "event" (Some demo_signature)) (empty_inbox 1)).2.

Module EventGatewayProperties.
Section Properties.
Context `{Platform} `{Hmac} {I W : Type} `{EventInboxRepository I} `{!InboxLaws I}
  `{IngestWorld W} `{!PublisherLaws W}.
Context (resolved : IngestSettings) (decode : string → option ChangeEvent)
  (received : string → option string → Prop).
Abbreviation state := (IngestState I W).

(** C9. In every state the event gateway reaches, whatever requests it receives and
    however they interleave or are lost: a message was sent before or its event
    came with a request signed with the shared secret; every event sent is
    recorded in the inbox under its key, and messages of one key carry one
    content hash and one change; a record stays that of its event and never
    changes once it is published, which it only is when its event was sent.  A
    request that is answered was signed, and answered as published only when
    its event is recorded so. *)
Theorem ingestion_sound (s0 s : state) :
  sound s0 → reachable resolved decode received s0 s →
  (∀ event c, (event, c) ∈ messages s →
     ((event, c) ∈ messages s0 ∨ authentic resolved decode received event) ∧
     ∃ r, stored s (storage_key event) = Some r ∧ records r event) ∧
  (∀ e e' c c', (e, c) ∈ messages s → (e', c') ∈ messages s → storage_key e = storage_key e' →
     sha256_digest (event_json e) = sha256_digest (event_json e') ∧ c = c') ∧
  (∀ k r, stored s0 k = Some r → ∃ r', stored s k = Some r' ∧ inbox_le r r') ∧
  (∀ k r, stored s k = Some r → r.(ib_status) = InboxPublished →
     ∃ event, (event, r.(ib_change_id)) ∈ messages s ∧ records r event) ∧
  ∀ body signature, received body signature →
    okspec (G resolved decode received) (ingest_change resolved decode body signature) s
      (ingested resolved decode received body).
Proof.
  intros Hs0 Hreach. destruct (ingest_reachable_keeps resolved decode received s0 s Hs0 Hreach) as [Hs Hev].
  split_and!.
  - intros event c Hm. split; [by destruct (ev_new _ _ _ _ _ Hev _ Hm); [left|right]|].
    destruct (sound_sent s Hs event c Hm) as (r & ? & ? & _). eauto.
  - intros e e' c c' Hm Hm' Hk.
    destruct (sound_sent s Hs e c Hm) as (r & Hr & (_ & _ & Hh & _) & -> & _).
    destruct (sound_sent s Hs e' c' Hm') as (r' & Hr' & (_ & _ & Hh' & _) & -> & _).
    rewrite Hk in Hr. simplify_eq. split; [congruence|]. apply same_key_change.
    unfold storage_key in Hk. congruence.
  - apply Hev.
  - apply (sound_published s Hs).
  - intros body signature Hrec. by apply ok_ingest.
Qed.
End Properties.

Lemma ingestion_sound_witness :
  sound (empty_inbox 1) ∧ ∃ r, stored demo_inbox (storage_key demo_event) = Some r ∧
  r.(ib_status) = InboxPublishFailed ∧
  okspec (G demo_settings demo_decode any_request)
    (ingest_change demo_settings demo_decode "event" (Some demo_signature)) demo_inbox
    (ingested demo_settings demo_decode any_request "event").
Proof.
  destruct (ingestion_sound demo_settings demo_decode any_request (empty_inbox 1) demo_inbox
    (empty_inbox_sound 1) (ingest_reachable_serve demo_settings demo_decode any_request "event"
       (Some demo_signature) (empty_inbox 1) I)) as (_ & _ & _ & _ & Hok).
  split; [apply empty_inbox_sound|]. eexists. split; [vm_compute; reflexivity|].
  split; [reflexivity|]. by apply Hok.
Defined.
End EventGatewayProperties.
